(* ===== verification/_CoqProject ===== *)
-Q . S2P
Prelude.v
Prog.v
Sys.v
OsTime.v
OsCal.v
OsStr.v
OsTrace.v
OsPriv.v
Bytes.v
ByteOrder.v
Preproc.v
Headers.v
Build.v
WpaBuf.v
WpaDebug.v
CtrlRequest.v
CtrlOpen.v
CtrlAndroid.v
CtrlSend.v
CtrlReply.v
Owned.v
CtrlUdp.v
Events.v
CtrlCleanup.v
CtrlPipe.v
OsFile.v
Framing.v
Elixir.v
ExEncode.v
ExDecode.v
ExServer.v
ExClient.v
WpaEx.v
Relay.v
PortRelay.v
PortLoop.v
PortMain.v
ExSystem.v
PortAnswer.v
ExAnswer.v
PortTotal.v
SimOs.v
SimFile.v
SimAnswer.v
Witnesses.v
OsWitnesses.v
SimPriv.v
ExWitnesses.v
