(* ===== verification/Prelude.v ===== *)
(** * wpa_supplicant.ex: the port program and the control interface library

    The program under src/src is a port of the Erlang virtual machine: it
    relays between Erlang, on standard input and output in frames of a two-byte
    length and a message, and the control interface of wpa_supplicant, a socket
    that takes one command or delivers one reply or event per datagram.
    wpa_ex.c is the program; wpa_ctrl/wpa_ctrl.c is the library that speaks to
    the supplicant, and wpa_ctrl/os_unix.c with the headers os.h, common.h and
    wpabuf.h are the helpers it comes with.  The library under src/lib is the
    Elixir side: a server process that owns the port, the encoding of commands and
    the decoding of what comes back.

    ** How C is modelled

    - Memory objects are lists of bytes, and an access outside an object is
      undefined behaviour.  A string argument is the object it points to.  The
      machine integers are [Z] with their widths written out where a value can
      leave them.
    - Prog: an effectful function is a [prog], a state transformer over the
      static storage whose calls of the operating system are the events of an
      interaction tree.  It ends with a value, with an exit of the process
      ([Exit]) or with undefined behaviour ([Ub]).  The operating system is a
      [Kernel], an arbitrary function from its state and a call to an answer;
      [exec] relates a program to the trace of its calls and answers.  [wp
      Partly] and [wp Totally] are the weakest preconditions for partial and for
      total correctness, with a rule per construct ([wp_steps]) and the rules of
      loops.  [run] computes an execution.
    - Sys: the calls ([sysE]) of POSIX and the C library and what is assumed of
      the answers ([PosixKernel]): bounds that their documentation states,
      nothing about when or whether a call succeeds, except that the real-time
      clock can be read.  Descriptors are not bounded: [FD_SET] is undefined for
      one that has no place in an [fd_set] ([in_fd_set], in CtrlRequest).  [sent], [received], [input] and [output] are what a
      trace sends to and receives from the supplicant and reads from and writes
      to Erlang, and [actions] all of these in the order in which they happen.
    - Functions without effects are plain functions into [option], where
      [None] is an access outside an object.  The allocator of the [WPA_TRACE]
      build, which is about memory itself, has a state monad of its own.

    ** The components

    - WpaEx is wpa_ex.c: the static variables are the record [port]; [send_to_erl],
      [do_wpa_request], [try_dispatch], [process_erl] and [process_wpa] are the
      functions of that name, [dispatch_pass] and [wpa_pass] one pass of their
      loops, [main_start] is [main] up to its loop and [main_turn] one turn of
      it.  Framing is the specification of the framing, [frame] and [unframe],
      and Relay the abstract machine that the program implements: [relay_next]
      is one action of it and [relay_run] a run.  PortRelay proves the
      operations, PortLoop the turns, PortMain the program, PortTotal that turns
      finish, and PortAnswer that every command is answered.
    - CtrlRequest is the part of wpa_ctrl.c that works on an open connection:
      [wpa_ctrl_request] with its two loops [send_cmd] and [recv_reply], attach,
      detach, recv, pending and get_fd.  CtrlSend proves the first loop, and
      CtrlReply the second and the operations.  The callback of a request is an
      interface ([MsgCallback]); [send_to_erl] is one of its instances.
    - CtrlOpen, CtrlUdp and CtrlPipe are the three builds of opening and closing:
      UNIX-domain sockets, which is the one that the Makefile selects, UDP, and
      Windows named pipes, which have events of their own ([winE]).  [open_with]
      in CtrlOpen is [wpa_ctrl_open] up to the bound socket; what follows it
      differs between the common build ([connect_file]) and the Android build
      ([android_connect] in CtrlAndroid).  CtrlCleanup
      is [wpa_ctrl_cleanup].  What a trace holds of memory, descriptors and
      socket files is [held] in CtrlOpen, and a balance ([owned]) in Owned.
    - OsTime are the times of os.h and the clocks of os_unix.c, OsCal its calendar
      functions over the [zone] that the C library works in, OsStr [os_strlcpy],
      OsFile paths, files ([FileKernel] is what the C library promises of a stream),
      daemons and arrays, OsTrace the allocator of the [WPA_TRACE] build, in which
      freed memory cannot be read, and OsPriv the environment
      variables ([EnvironKernel]) and the privileges that the Android build of
      [os_program_init] drops ([CredKernel]).
    - Bytes and ByteOrder are the byte order, unaligned access and address texts
      of common.h, WpaBuf the buffers of wpabuf.h over the interface of
      [wpabuf_put] ([WpabufPut]), WpaDebug the inline functions of wpa_debug.h,
      and Events the message names and masks of wpa_ctrl.h.
    - Preproc is a model of the C preprocessor: a file is a [text] of conditions,
      macros and declarations, and [prep] yields the macros after it and the
      declarations that are left.  Headers has the headers with build_config.h and
      includes.h, and Build the source files; the system headers are a parameter.
    - Elixir are the terms, exceptions and string functions that the library under
      src/lib uses; what depends on the version of the runtime is the interface
      [Runtime].  ExEncode is encode.ex and ExDecode decode.ex.  ExServer are the
      callbacks of the server in wpa_supplicant.ex ([handle]): a step from a
      message and a state to the messages sent and the next state, with the queue
      of requests in the state; ExClient are the functions that clients call, as
      programs over calls of the server.  ExSystem interleaves the server, the port
      program and the supplicant ([system_step]); the port program is there an
      interface ([PortProgram]) that the traces of [main] satisfy.  ExAnswer are the
      sessions in which clients make given requests ([session_step]).
    - SimOs is a simulated operating system with which runs are computed, SimFile
      the same with a file to read, SimAnswer one with a supplicant that answers, and
      SimPriv one with credentials; Witnesses, OsWitnesses and ExWitnesses apply the theorems to concrete runs and values.

    ** What is shown

    - The relay: in every reachable state the commands sent are ATTACH and the
      complete messages of the input, whatever the sizes of the reads, and every
      datagram since the attachment has been forwarded as one frame, in order
      ([main_relays], [main_framed_input]); at every moment of a run what has been
      written parses as such frames, all but the last complete
      ([main_framed_output]); the order of
      all its actions is that of the abstract relay ([main_refines]); when the
      supplicant answers, the program reaches the end of its input with every
      command answered ([main_answers]); the program exits successfully only at the
      end of its input, and its only undefined behaviour is [FD_SET] with a
      descriptor that is too large ([main_ends]); a message that does not fit is refused
      ([try_dispatch_undispatched]); turns and the start finish
      ([main_turn_total], [main_start_total]).
    - The library: requests, attaching and receiving ([wpa_ctrl_request_spec],
      [wpa_ctrl_attach_spec], [wpa_ctrl_recv_pending]); the send loop gives up
      ([send_cmd_total]); opening, closing and their resources for each build
      ([wpa_ctrl_open_spec] and the theorems after it, [android_open_spec],
      [udp_open_spec], [pipe_open_spec]), with the cases in which they go wrong; names
      of client sockets are unique ([client_path_inj]); what the clean-up removes
      ([wpa_ctrl_cleanup_spec]).
    - The whole system: every client gets the reply to its own command
      ([system_replies]), by the order of the queue of the server ([server_fifo]),
      the refinement of the relay, and an invariant about what is on its way; and when
      the supplicant answers, a session comes to an end, in any order of the actions,
      with every request answered ([session_answered]): a measure goes down with every
      step, and a state that is not complete has a step.
    - The builds: which choices of macros give a library ([library_builds]) and the
      program of the Makefile ([make_links]); what implements each function of os.h, a
      body or the function of the C library that its macro leads to ([os_implemented]);
      that each debug function is provided once ([debug_provided]); the integer
      types ([integer_types_ok]) and the byte order ([byte_order_selected]) of each
      platform.  What is observed of a text depends only on the macros that its
      conditions test, so that these are statements about all environments that are
      checked on finitely many, and on a [slice] of the text.
    - The Elixir library: commands can be read back from their text, the answers to
      interactive requests are joined by dashes ([encode_tokens]); reports, texts and
      notifications are decoded to what they stand for ([report_roundtrip],
      [text_roundtrip], [notif_roundtrip]); a report raises the error of its first
      malformed line ([report_malformed]) and when the server stops
      ([server_stops]); what [set_network] and [scan] ask for and answer
      ([set_network_spec], [scan_spec], [scan_ends]).
    - The helpers: clocks, time arithmetic and the calendar, with its round trip, in
      the zones with one standard offset ([FixedOffset]) and a zone where it goes wrong
      ([moscow]); string copy; the allocator as a refinement of an abstract memory, with
      the blocks that it refuses to release ([trace_free_spec]) and the report of leaks;
      byte order, as
      equivalences with the mathematical value; data buffers as sequences, under
      any number of operations ([wpabuf_build]); paths, the reading of a file
      ([os_readfile_spec]) and array sizes;
      the privileges of a process ([program_init_privileges]); and that event
      names tell messages apart ([event_names]).

    ** Bounds

    A loop of the program is the iteration of the monad, without fuel, so that a
    theorem of partial correctness is about every run that ends and one of
    total correctness also says that the run ends.  The send loop is bounded by
    its clock: at most seven attempts of at least a second.  The receive loop and
    the loop of events end when the supplicant has no more to say; PortTotal
    assumes a kernel with finitely many datagrams and interrupted writes to come
    ([FiniteKernel]), and PortAnswer one in which each command brings finitely
    many messages and a reply, and which bounds the signals and the spontaneous
    messages ([AnsweringKernel]).  The fuel of [run] only serves computed examples: a run
    that it finds is an [exec].  The string functions of Elixir recur with the
    length of the string as fuel, and each step takes a byte off it; the reader of
    commands, [tokens], needs two steps per argument ([encode_tokens]).  A scan ends
    when the events and the access points are finitely many ([FiniteScan]).  The
    preprocessor follows a chain of names to a number for at most 16 steps, and the call
    of a macro to a function for at most four; the headers need two ([byte_order_selected],
    [os_implemented]).

    ** What is not modelled

    The types of declarations and the bodies of macros beyond what conditions and calls
    need, in the model of the preprocessor; the macros of system headers, beyond the byte
    order that some of them are documented to define.  The start and the stop of the
    server, which only call GenServer and GenEvent; the timeouts of calls, beyond that a call may get no answer; debug output of
    the program, which is compiled out; and the text of diagnostics beyond their
    first words.  The seconds of times are unbounded integers, whose difference C leaves
    undefined where it does not fit a [long].  The conversion of a path to wide
    characters, for the [UNICODE] names of pipes, depends on the locale and is a
    parameter.  The functions that the
    headers declare and the repository does not define, such as those of
    wpabuf.c, of the printing functions of wpa_debug.h, of the trace library and
    of the Android system library, are interfaces, parameters or recorded
    calls. *)

From Stdlib Require Export ZArith Lia List.
From Stdlib Require Import Strings.String Strings.Byte.
From stdpp Require Export base list.
From coqutil Require Export Byte.
Export String.StringSyntax.

(** Equality of results, component by component. *)
Ltac tuple_eq :=
  repeat first [apply (f_equal Some) | apply (f_equal2 pair)]; first [done | lia | idtac].

(** ** Bytes and C strings *)

Abbreviation byte := Corelib.Init.Byte.byte.
Abbreviation bytes := (list Corelib.Init.Byte.byte).

#[export] Instance byte_eq_dec : EqDecision byte := Byte.byte_eq_dec.

(** The bytes of a string literal. *)
Definition bs (s : string) : bytes := list_byte_of_string s.
Arguments bs s%_string.

Abbreviation nul := Corelib.Init.Byte.x00.
Abbreviation newline := Corelib.Init.Byte.x0a.
Abbreviation space := Corelib.Init.Byte.x20.
Abbreviation dash := Corelib.Init.Byte.x2d.
Abbreviation langle := Corelib.Init.Byte.x3c.

(** A buffer of [n] zero bytes ([memset(p, 0, n)]). *)
Definition zeros (n : nat) : bytes := replicate n nul.

(** The C string that starts a buffer: everything before the first NUL. *)
Fixpoint cstr (b : bytes) : bytes :=
  match b with
  | [] => []
  | c :: b => if decide (c = nul) then [] else c :: cstr b
  end.

(** Text that can be the contents of a C string. *)
Definition nul_free (s : bytes) : Prop := Forall (fun c => c <> nul) s.

#[export] Instance nul_free_dec s : Decision (nul_free s).
Proof. unfold nul_free. apply _. Defined.

(** [buf] after the first [n] bytes of the C string [s] and a NUL have been
    stored at its start. *)
Definition put_cstr (buf s : bytes) (n : nat) : bytes :=
  take n s ++ nul :: drop (S (length (take n s))) buf.

Create HintDb wpa.
Create Rewrite HintDb wpa.

Lemma cstr_app s b : nul_free s -> cstr (s ++ nul :: b) = s.
Proof.
  induction 1 as [|c s Hc _ IH]; cbn; [done|].
  destruct (decide (c = nul)); [done|]. by rewrite IH.
Qed.

Lemma nul_free_take n s : nul_free s -> nul_free (take n s).
Proof. apply Forall_take. Qed.

Lemma nul_free_app s1 s2 : nul_free s1 -> nul_free s2 -> nul_free (s1 ++ s2).
Proof. apply Forall_app_2. Qed.

Lemma cstr_nul_free b : nul_free (cstr b).
Proof. induction b as [|c b IH]; cbn; [constructor|]. case_decide; by constructor. Qed.

Lemma length_cstr b : (length (cstr b) <= length b)%nat.
Proof. induction b as [|c b IH]; cbn; [lia|]. case_decide; cbn; lia. Qed.

Lemma cstr_put_cstr buf s n : nul_free s -> cstr (put_cstr buf s n) = take n s.
Proof. intros. unfold put_cstr. apply cstr_app. by apply nul_free_take. Qed.

Lemma length_put_cstr buf s n :
  (length (take n s) < length buf)%nat -> length (put_cstr buf s n) = length buf.
Proof. intros. unfold put_cstr. rewrite length_app. cbn. rewrite length_drop. lia. Qed.
#[export] Hint Resolve nul_free_take nul_free_app : wpa.
#[export] Hint Rewrite cstr_put_cstr : wpa.

(** ** Decimal numerals ([%d] of a 32-bit [int]) *)

Definition digit (d : Z) : byte := byte.of_Z (48 + d).

(** The digits of [n] with at most [fuel] of them, in front of [acc]. *)
Fixpoint digits (fuel : nat) (n : Z) (acc : bytes) : bytes :=
  match fuel with
  | O => acc
  | S f =>
      let acc := digit (n mod 10) :: acc in
      if (n <? 10)%Z then acc else digits f (n / 10) acc
  end.

(** Ten digits are enough for a 32-bit [int]. *)
Definition dec_int (z : Z) : bytes :=
  if (z <? 0)%Z then bs "-" ++ digits 10 (- z) [] else digits 10 z [].

Definition int_ok (z : Z) : Prop := (- 2 ^ 31 <= z < 2 ^ 31)%Z.

Local Open Scope Z_scope.

Lemma digit_val d : 0 <= d < 10 -> byte.unsigned (digit d) = 48 + d.
Proof. intros. unfold digit. rewrite byte.unsigned_of_Z. apply Z.mod_small. lia. Qed.

(** Reading a numeral back. *)
Definition undigits (l : bytes) : Z :=
  fold_left (fun n c => n * 10 + (byte.unsigned c - 48)) l 0.
Definition is_digit (c : byte) : bool := (48 <=? byte.unsigned c) && (byte.unsigned c <? 58).

Lemma digits_spec fuel n acc :
  0 <= n < 10 ^ Z.of_nat fuel -> (0 < fuel)%nat ->
  exists ds, digits fuel n acc = ds ++ acc /\ undigits ds = n /\ Forall is_digit ds /\
    (1 <= length ds <= fuel)%nat.
Proof.
  revert n acc. induction fuel as [|f IH]; intros n acc Hn Hf; [lia|].
  cbn [digits]. assert (0 <= n mod 10 < 10) by (apply Z.mod_pos_bound; lia).
  assert (is_digit (digit (n mod 10))) as Hd
    by (unfold is_digit; rewrite digit_val by done; unfold Is_true; destruct (_ && _) eqn:?; [done|lia]).
  destruct (Z.ltb_spec n 10).
  - exists [digit (n mod 10)]. split_and!; [done| |by constructor|cbn;lia|cbn;lia].
    unfold undigits; cbn -[digit]. rewrite digit_val by lia. rewrite Z.mod_small by lia. lia.
  - destruct f as [|f']; [cbn in Hn; lia|].
    destruct (IH (n / 10) (digit (n mod 10) :: acc)) as (ds & -> & Hu & HF & Hl); [|lia|].
    { rewrite Nat2Z.inj_succ, Z.pow_succ_r in Hn by lia. split; [apply Z.div_pos; lia|].
      apply Z.div_lt_upper_bound; lia. }
    exists (ds ++ [digit (n mod 10)]). rewrite <- app_assoc. split; [done|].
    split; [|split; [by apply Forall_app_2; [|constructor]|rewrite length_app; cbn; lia]].
    unfold undigits in *. rewrite fold_left_app. cbn -[digit]. rewrite Hu, digit_val by lia.
    pose proof (Z.div_mod n 10). lia.
Qed.

Lemma is_digit_nul c : is_digit c -> c <> nul.
Proof. intros H ->. by vm_compute in H. Qed.

Lemma digits_nul_free ds : Forall is_digit ds -> nul_free ds.
Proof. intros. eapply Forall_impl; [done|]. intros c. apply is_digit_nul. Qed.

(** A numeral is a minus sign for a negative number and one to ten digits. *)
Lemma dec_int_spec z :
  int_ok z -> exists ds, dec_int z = (if z <? 0 then bs "-" else []) ++ ds /\
    undigits ds = Z.abs z /\ Forall is_digit ds /\ (1 <= length ds <= 10)%nat.
Proof.
  unfold int_ok, dec_int. intros Hz.
  destruct (Z.ltb_spec z 0).
  - destruct (digits_spec 10 (- z) []) as (ds & -> & Hu & Hd & Hl); [cbn; lia|lia|].
    exists ds. rewrite app_nil_r. split_and!; [done|lia|done|lia|lia].
  - destruct (digits_spec 10 z []) as (ds & -> & Hu & Hd & Hl); [cbn; lia|lia|].
    exists ds. rewrite app_nil_r. split_and!; [done|lia|done|lia|lia].
Qed.

Lemma dec_int_nul_free z : int_ok z -> nul_free (dec_int z).
Proof.
  intros (ds & -> & _ & Hd & _)%dec_int_spec. apply nul_free_app; [|by apply digits_nul_free].
  by destruct (z <? 0); repeat constructor.
Qed.

Lemma length_dec_int z : int_ok z -> (length (dec_int z) <= 11)%nat.
Proof.
  intros (ds & -> & _ & _ & Hl)%dec_int_spec. rewrite length_app.
  destruct (z <? 0); cbn; lia.
Qed.

Lemma is_digit_dash : ~ is_digit dash.
Proof. by vm_compute. Qed.

(** Digits up to a first minus sign are determined by the text. *)
Lemma digits_dash_inj ds1 ds2 r1 r2 :
  Forall is_digit ds1 -> Forall is_digit ds2 ->
  ds1 ++ dash :: r1 = ds2 ++ dash :: r2 -> ds1 = ds2 /\ r1 = r2.
Proof.
  intros H1 H2. revert ds2 H2.
  induction H1 as [|c ds1 Hc _ IH]; intros [|c' ds2] H2 Heq; cbn in Heq.
  - by injection Heq as ->.
  - injection Heq as <- _. apply Forall_cons in H2 as [? _]. by destruct is_digit_dash.
  - injection Heq as -> _. by destruct is_digit_dash.
  - injection Heq as -> Heq. apply Forall_cons in H2 as [_ H2].
    destruct (IH _ H2 Heq) as [-> ->]. done.
Qed.

Lemma dec_int_inj z1 z2 : int_ok z1 -> int_ok z2 -> dec_int z1 = dec_int z2 -> z1 = z2.
Proof.
  intros H1 H2 Heq.
  destruct (dec_int_spec _ H1) as (d1 & E1 & U1 & D1 & L1).
  destruct (dec_int_spec _ H2) as (d2 & E2 & U2 & D2 & L2).
  assert (forall ds r, Forall is_digit ds -> (1 <= length ds)%nat -> ds <> dash :: r) as Hne.
  { intros ds r [|c ds' Hc _]; cbn; [lia|]. intros _ [= -> ->]. by destruct is_digit_dash. }
  rewrite E1, E2 in Heq.
  destruct (Z.ltb_spec z1 0), (Z.ltb_spec z2 0); cbn in Heq.
  - injection Heq as ->. lia.
  - exfalso. eapply (Hne d2); [done|lia|by symmetry].
  - exfalso. eapply (Hne d1); [done|lia|done].
  - subst d2. lia.
Qed.
