(* ===== verification/Prog.v ===== *)
(** * Effectful C code: a program monad over interaction trees

    A C function of the program is a value of [prog A]: it reads and writes
    the process's static storage (a state [S], threaded explicitly) and calls
    the operating system through events [E] of an interaction tree.  It ends
    with an [outcome]: a value, a process exit, or undefined behaviour (an
    access outside a buffer).  The operating system is a [Kernel]: a state [W]
    and an answer to every call, so a theorem that quantifies over the kernel
    holds for every behaviour of the environment.  [exec] is the big-step
    execution with the trace of calls and answers; [wp Partly] and [wp Totally] are its partial
    and total weakest preconditions; [run] computes an execution. *)

From S2P Require Export Prelude.
From ITree Require Export Core.ITreeDefinition.

(** How a C function ends: it returns, the process exits, or the code has
    reached an operation that C leaves undefined. *)
Inductive outcome (A : Type) : Type :=
| Val (a : A)
| Exit (status : Z)
| Ub.
Arguments Val {A} a.
Arguments Exit {A} status.
Arguments Ub {A}.

Definition cast_outcome {A B} (o : outcome A) (f : A -> outcome B) : outcome B :=
  match o with Val a => f a | Exit z => Exit z | Ub => Ub end.

(** One operating-system call with its answer. *)
Inductive event (E : Type -> Type) : Type :=
| Ev {X : Type} (e : E X) (x : X).
Arguments Ev {E X} e x.

Abbreviation trace E := (list (event E)).

(** The environment: an answer to each call in each of its states. *)
Class Kernel (E : Type -> Type) (W : Type) : Type :=
  kstep : forall X, E X -> W -> X * W.
Arguments kstep {E W _ X} e w.

Declare Scope prog_scope.
Delimit Scope prog_scope with prog.

Section Programs.
Context {E : Type -> Type} {S : Type}.

Definition prog (A : Type) : Type := S -> itree E (outcome A * S).

Definition ret {A} (a : A) : prog A := fun s => Ret (Val a, s).
Definition exit_ {A} (status : Z) : prog A := fun s => Ret (Exit status, s).
Definition ub {A} : prog A := fun s => Ret (Ub, s).

Definition bind {A B} (p : prog A) (k : A -> prog B) : prog B := fun s =>
  ITree.bind (p s) (fun '(o, s') =>
    match o with
    | Val a => k a s'
    | Exit z => Ret (Exit z, s')
    | Ub => Ret (Ub, s')
    end).

Definition call {X} (e : E X) : prog X := fun s => Vis e (fun x => Ret (Val x, s)).
Definition gets {A} (f : S -> A) : prog A := fun s => Ret (Val (f s), s).
Definition modify (f : S -> S) : prog unit := fun s => Ret (Val tt, f s).

(** [lift o] turns a checked memory operation into a program: [None] is an
    access outside the object. *)
Definition lift {A} (o : option A) : prog A :=
  match o with Some a => ret a | None => ub end.

Definition next {I R} (o : outcome (I + R)) (s : S) : (I * S) + (outcome R * S) :=
  match o with
  | Val (inl i) => inl (i, s)
  | Val (inr r) => inr (Val r, s)
  | Exit z => inr (Exit z, s)
  | Ub => inr (Ub, s)
  end.

(** A C loop: [body i] either goes round again with [inl i'] or leaves the
    loop with [inr r].  The loop may run forever. *)
Definition loop {I R} (body : I -> prog (I + R)) (i : I) : prog R := fun s =>
  ITree.iter (fun '(i, s) => ITree.bind (body i s) (fun '(o, s') => Ret (next o s')))
    (i, s).
End Programs.
Arguments prog : clear implicits.

Notation "'let*' x ':=' c 'in' k" := (bind c (fun x => k))
  (at level 10, x pattern, c at level 100, k at level 200)
  : prog_scope.
Notation "c ;;; k" := (bind c (fun _ => k))
  (at level 100, right associativity) : prog_scope.

(** ** Execution

    [trun n w t] runs the tree [t] in the environment state [w] for at most [n]
    nodes; [texec] is the execution with enough fuel. *)

Section TreeExecution.
Context {E : Type -> Type} {W : Type} `{!Kernel E W}.

Fixpoint trun {R} (n : nat) (w : W) (t : itree' E R) : option (trace E * R * W) :=
  match n with
  | O => None
  | Datatypes.S n =>
      match t with
      | RetF r => Some ([], r, w)
      | TauF t => trun n w (observe t)
      | VisF e k =>
          let '(x, w1) := kstep e w in
          match trun n w1 (observe (k x)) with
          | Some (tr, r, w2) => Some (Ev e x :: tr, r, w2)
          | None => None
          end
      end
  end.

Definition texec {R} (w : W) (t : itree' E R) (tr : trace E) (r : R) (w' : W) : Prop :=
  exists n, trun n w t = Some (tr, r, w').

Lemma trun_mono {R} n m w (t : itree' E R) x :
  (n <= m)%nat -> trun n w t = Some x -> trun m w t = Some x.
Proof.
  revert m w t x. induction n as [|n IH]; intros m w t x Hle H; [done|].
  destruct m as [|m]; [lia|]. assert (n <= m)%nat by lia.
  destruct t as [r|t|X e k]; cbn in *; eauto.
  destruct (kstep e w) as [a w1].
  destruct (trun n w1 (observe (k a))) as [y|] eqn:Hy; [|done].
  by rewrite (IH m _ _ y).
Qed.

Lemma texec_det {R} w (t : itree' E R) tr1 r1 w1 tr2 r2 w2 :
  texec w t tr1 r1 w1 -> texec w t tr2 r2 w2 -> tr1 = tr2 /\ r1 = r2 /\ w1 = w2.
Proof.
  intros [n H1] [m H2].
  apply (trun_mono n (max n m)) in H1; [|lia].
  apply (trun_mono m (max n m)) in H2; [|lia]. naive_solver.
Qed.

Lemma texec_ret {R} w (r : R) : texec w (RetF r) [] r w.
Proof. by exists 1%nat. Qed.

Lemma texec_tau {R} w (t : itree E R) tr r w' :
  texec w (observe t) tr r w' -> texec w (TauF t) tr r w'.
Proof. intros [n H]. by exists (Datatypes.S n). Qed.

Lemma texec_vis {R X} w (e : E X) (k : X -> itree E R) x w1 tr r w' :
  kstep e w = (x, w1) -> texec w1 (observe (k x)) tr r w' ->
  texec w (VisF e k) (Ev e x :: tr) r w'.
Proof. intros He [n H]. exists (Datatypes.S n). cbn. by rewrite He, H. Qed.

Lemma texec_inv {R} w (t : itree' E R) tr r w' :
  texec w t tr r w' ->
  match t with
  | RetF r0 => tr = [] /\ r = r0 /\ w' = w
  | TauF t => texec w (observe t) tr r w'
  | VisF e k => exists x w1 tr', kstep e w = (x, w1) /\ tr = Ev e x :: tr' /\
      texec w1 (observe (k x)) tr' r w'
  end.
Proof.
  intros [[|n] H]; [done|]. destruct t as [r0|t|X e k]; cbn in H.
  - naive_solver.
  - by exists n.
  - destruct (kstep e w) as [x w1]. exists x, w1.
    destruct (trun n w1 (observe (k x))) as [[[tr' r0] w0]|] eqn:Hr; [|done].
    injection H as <- <- <-. exists tr'. split_and!; [done..|]. by exists n.
Qed.

Lemma observe_bind {A B} (t : itree E A) (k : A -> itree E B) :
  observe (ITree.bind t k) =
  match observe t with
  | RetF r => observe (k r)
  | TauF t => TauF (ITree.bind t k)
  | VisF e h => VisF e (fun x => ITree.bind (h x) k)
  end.
Proof. unfold observe at 1. cbn. unfold observe. by destruct (_observe t). Qed.

Lemma texec_bind {A B} w (t : itree E A) (k : A -> itree E B) tr1 a w1 tr2 b w2 :
  texec w (observe t) tr1 a w1 -> texec w1 (observe (k a)) tr2 b w2 ->
  texec w (observe (ITree.bind t k)) (tr1 ++ tr2) b w2.
Proof.
  intros [n H1] H2. revert w t tr1 H1.
  induction n as [|n IH]; intros w t tr1 H1; [done|].
  rewrite observe_bind. cbn in H1. destruct (observe t) as [r|t0|X e h].
  - by injection H1 as <- -> ->.
  - apply texec_tau. by apply IH.
  - destruct (kstep e w) as [x w0] eqn:He.
    destruct (trun n w0 (observe (h x))) as [[[tr' r0] w']|] eqn:Hr; [|done].
    injection H1 as <- -> ->. by eapply texec_vis; [|apply IH].
Qed.

(** A run of [bind t k] is a run of [t] followed by a run of [k] that needs no
    more fuel. *)
Lemma trun_bind_inv {A B} n w (t : itree E A) (k : A -> itree E B) tr b w2 :
  trun n w (observe (ITree.bind t k)) = Some (tr, b, w2) ->
  exists tr1 a w1 tr2, texec w (observe t) tr1 a w1 /\
    trun n w1 (observe (k a)) = Some (tr2, b, w2) /\ tr = tr1 ++ tr2.
Proof.
  revert w t tr. induction n as [|n IH]; intros w t tr H; [done|].
  rewrite observe_bind in H. destruct (observe t) as [r|t0|X e h] eqn:Ht.
  - exists [], r, w, tr. split; [apply texec_ret|]. done.
  - cbn in H. apply IH in H as (tr1 & a & w1 & tr2 & ? & ? & ->).
    exists tr1, a, w1, tr2. split; [by apply texec_tau|].
    split; [|done]. by apply (trun_mono n); [lia|].
  - cbn in H. destruct (kstep e w) as [x w0] eqn:He.
    destruct (trun n w0 _) as [[[tr' r0] w']|] eqn:Hr; [|done].
    injection H as <- <- <-. apply IH in Hr as (tr1 & a & w1 & tr2 & ? & ? & ->).
    exists (Ev e x :: tr1), a, w1, tr2. split; [by eapply texec_vis|].
    split; [|done]. by apply (trun_mono n); [lia|].
Qed.

Lemma texec_bind_inv {A B} w (t : itree E A) (k : A -> itree E B) tr b w2 :
  texec w (observe (ITree.bind t k)) tr b w2 ->
  exists tr1 a w1 tr2, texec w (observe t) tr1 a w1 /\
    texec w1 (observe (k a)) tr2 b w2 /\ tr = tr1 ++ tr2.
Proof.
  intros [n H]. apply trun_bind_inv in H as (tr1 & a & w1 & tr2 & ? & ? & ->).
  exists tr1, a, w1, tr2. split_and!; [done| |done]. by exists n.
Qed.
End TreeExecution.

(** ** Executions of programs *)

Section ProgramExecution.
Context {E : Type -> Type} {S W : Type} `{!Kernel E W}.
Local Abbreviation prog := (prog E S).
Implicit Types (w : W) (s : S) (tr : trace E).

Definition exec {A} w s (p : prog A) tr (o : outcome A) (s' : S) (w' : W) : Prop :=
  texec w (observe (p s)) tr (o, s') w'.

(** [run n w s p] computes an execution with [n] units of fuel. *)
Definition run {A} (n : nat) w s (p : prog A) : option (trace E * outcome A * S * W) :=
  match trun n w (observe (p s)) with
  | Some (tr, (o, s'), w') => Some (tr, o, s', w')
  | None => None
  end.

Lemma run_exec {A} n w s (p : prog A) tr o s' w' :
  run n w s p = Some (tr, o, s', w') -> exec w s p tr o s' w'.
Proof.
  unfold run. intros H. exists n.
  destruct (trun n w (observe (p s))) as [[[? []] ?]|]; naive_solver.
Qed.

Lemma exec_det {A} w s (p : prog A) tr1 o1 s1 w1 tr2 o2 s2 w2 :
  exec w s p tr1 o1 s1 w1 -> exec w s p tr2 o2 s2 w2 ->
  tr1 = tr2 /\ o1 = o2 /\ s1 = s2 /\ w1 = w2.
Proof. intros H1 H2. pose proof (texec_det _ _ _ _ _ _ _ _ H1 H2). naive_solver. Qed.

(** *** Weakest preconditions

    In the [Totally] mode the program terminates and its only execution meets
    the postcondition; in the [Partly] mode every execution does. *)
Inductive mode := Partly | Totally.

Definition post A := trace E -> outcome A -> S -> W -> Prop.

Definition wp {A} (m : mode) (p : prog A) (Q : post A) w s : Prop :=
  match m with
  | Partly => forall tr o s' w', exec w s p tr o s' w' -> Q tr o s' w'
  | Totally => exists tr o s' w', exec w s p tr o s' w' /\ Q tr o s' w'
  end.

Lemma wp_mono {A} m (p : prog A) (Q Q' : post A) w s :
  wp m p Q w s -> (forall tr o s' w', Q tr o s' w' -> Q' tr o s' w') -> wp m p Q' w s.
Proof. destruct m; cbn; naive_solver. Qed.

Lemma wp_any {A} (p : prog A) (Q : post A) w s :
  (forall tr o s' w', Q tr o s' w') -> wp Partly p Q w s.
Proof. by intros HQ tr o s' w' _. Qed.

Lemma wp_and {A} (p : prog A) (Q Q' : post A) w s :
  wp Partly p Q w s -> wp Partly p Q' w s ->
  wp Partly p (fun tr o s' w' => Q tr o s' w' /\ Q' tr o s' w') w s.
Proof. intros H1 H2 tr o s' w' H. split; [by apply H1|by apply H2]. Qed.

Lemma wp_total_partial {A} (p : prog A) Q w s : wp Totally p Q w s -> wp Partly p Q w s.
Proof.
  intros (tr & o & s' & w' & H & HQ) tr1 o1 s1 w1 H1.
  by destruct (exec_det _ _ _ _ _ _ _ _ _ _ _ H H1) as (<- & <- & <- & <-).
Qed.

(** Every event of an execution is an answer the environment can give. *)
Definition possible (ev : event E) : Prop :=
  let '@Ev _ X e x := ev in exists w w', kstep e w = (x, w').

Lemma trun_possible {R} n w (t : itree' E R) tr r w' :
  trun n w t = Some (tr, r, w') -> Forall possible tr.
Proof.
  revert w t tr. induction n as [|n IH]; intros w t tr H; [done|].
  destruct t as [r0|t|X e k]; cbn in H.
  - by simplify_eq.
  - by eapply IH.
  - destruct (kstep e w) as [x w1] eqn:He.
    destruct (trun n w1 (observe (k x))) as [[[tr' r0] w2]|] eqn:Hr; simplify_eq.
    constructor; [by exists w, w1|]. by eapply IH.
Qed.

Lemma wp_possible {A} m (p : prog A) (Q : post A) w s :
  wp m p (fun tr o s' w' => Forall possible tr -> Q tr o s' w') w s -> wp m p Q w s.
Proof.
  assert (forall tr o s' w', exec w s p tr o s' w' -> Forall possible tr) as Hp.
  { intros tr o s' w' [n H]. by eapply trun_possible. }
  destruct m; cbn; naive_solver.
Qed.

Lemma exec_ret {A} w s (a : A) tr o s' w' :
  exec w s (ret a) tr o s' w' <-> tr = [] /\ o = Val a /\ s' = s /\ w' = w.
Proof.
  split.
  - intros H. apply texec_inv in H. cbn in H. naive_solver.
  - intros (-> & -> & -> & ->). apply texec_ret.
Qed.

Lemma wp_ret {A} m (a : A) (Q : post A) w s : Q [] (Val a) s w -> wp m (ret a) Q w s.
Proof.
  intros HQ. destruct m; cbn.
  - intros tr o s' w' (-> & -> & -> & ->)%exec_ret. done.
  - exists [], (Val a), s, w. split; [by apply exec_ret|done].
Qed.

Lemma wp_exit {A} m z (Q : post A) w s : Q [] (Exit z) s w -> wp m (exit_ z) Q w s.
Proof.
  intros HQ. destruct m; cbn.
  - intros tr o s' w' H. apply texec_inv in H. cbn in H. naive_solver.
  - exists [], (Exit z), s, w. split; [apply texec_ret|done].
Qed.

Lemma wp_ub {A} m (Q : post A) w s : Q [] Ub s w -> wp m ub Q w s.
Proof.
  intros HQ. destruct m; cbn.
  - intros tr o s' w' H. apply texec_inv in H. cbn in H. naive_solver.
  - exists [], Ub, s, w. split; [apply texec_ret|done].
Qed.

Lemma wp_gets {A} m (f : S -> A) (Q : post A) w s :
  Q [] (Val (f s)) s w -> wp m (gets f) Q w s.
Proof.
  intros HQ. destruct m; cbn.
  - intros tr o s' w' H. apply texec_inv in H. cbn in H. naive_solver.
  - eexists [], (Val (f s)), s, w. split; [apply texec_ret|done].
Qed.

Lemma wp_modify m f (Q : post unit) w s : Q [] (Val tt) (f s) w -> wp m (modify f) Q w s.
Proof.
  intros HQ. destruct m; cbn.
  - intros tr o s' w' H. apply texec_inv in H. cbn in H. naive_solver.
  - eexists [], (Val tt), (f s), w. split; [apply texec_ret|done].
Qed.

Lemma wp_call {X} m (e : E X) (Q : post X) w s :
  (forall x w', kstep e w = (x, w') -> Q [Ev e x] (Val x) s w') -> wp m (call e) Q w s.
Proof.
  intros HQ. destruct m; cbn.
  - intros tr o s' w' H. apply texec_inv in H. cbn in H.
    destruct H as (x & w1 & tr' & He & -> & H). apply texec_inv in H. cbn in H.
    naive_solver.
  - destruct (kstep e w) as [x w1] eqn:He.
    exists [Ev e x], (Val x), s, w1. split; [|by apply HQ].
    eapply texec_vis; [done|]. apply texec_ret.
Qed.

(** The postcondition of the rest of a program, with the trace so far in
    front. *)
Definition pre {A} tr1 (Q : post A) : post A := fun tr2 => Q (tr1 ++ tr2).

Definition bind_post {A B} m (k : A -> prog B) (Q : post B) : post A :=
  fun tr1 o1 s1 w1 =>
    match o1 with
    | Val a => wp m (k a) (pre tr1 Q) w1 s1
    | Exit z => Q tr1 (Exit z) s1 w1
    | Ub => Q tr1 Ub s1 w1
    end.

Lemma wp_bind {A B} m (p : prog A) (k : A -> prog B) (Q : post B) w s :
  wp m p (bind_post m k Q) w s -> wp m (bind p k) Q w s.
Proof.
  destruct m; cbn.
  - intros H tr o s' w' (tr1 & [o1 s1] & w1 & tr2 & H1 & H2 & ->)%texec_bind_inv.
    specialize (H _ _ _ _ H1). destruct o1 as [a|z|]; cbn in H.
    + by apply H.
    + apply texec_inv in H2. cbn in H2.
      destruct H2 as (-> & [= -> ->] & ->). by rewrite app_nil_r.
    + apply texec_inv in H2. cbn in H2.
      destruct H2 as (-> & [= -> ->] & ->). by rewrite app_nil_r.
  - intros (tr1 & o1 & s1 & w1 & H1 & H). destruct o1 as [a|z|]; cbn in H.
    + destruct H as (tr2 & o & s' & w' & H2 & HQ).
      exists (tr1 ++ tr2), o, s', w'. split; [|done]. by eapply texec_bind.
    + exists (tr1 ++ []), (Exit z), s1, w1. rewrite app_nil_r at 2. split; [|done].
      eapply texec_bind; [done|]. apply texec_ret.
    + exists (tr1 ++ []), Ub, s1, w1. rewrite app_nil_r at 2. split; [|done].
      eapply texec_bind; [done|]. apply texec_ret.
Qed.

(** *** Loops *)

Section Loops.
Context {I R : Type} (body : I -> prog (I + R)).

Definition loop_post (Inv : trace E -> W -> S -> I -> Prop) (dec : trace E -> W -> S -> I -> Prop)
    (Q : post R) tr : post (I + R) :=
  fun tr2 o s' w' =>
    match o with
    | Val (inl i') => Inv (tr ++ tr2) w' s' i' /\ dec (tr ++ tr2) w' s' i'
    | Val (inr r) => Q (tr ++ tr2) (Val r) s' w'
    | Exit z => Q (tr ++ tr2) (Exit z) s' w'
    | Ub => Q (tr ++ tr2) Ub s' w'
    end.

Local Definition tree_step : I * S -> itree E ((I * S) + (outcome R * S)) :=
  fun '(i, s) => ITree.bind (body i s) (fun '(o, s') => Ret (next o s')).

Local Lemma observe_iter i s :
  observe (loop body i s) =
  observe (ITree.bind (tree_step (i, s)) (fun x =>
    match x with
    | inl l => Tau (ITree.iter tree_step l)
    | inr r => Ret r
    end)).
Proof. reflexivity. Qed.

(** A terminated loop made one iteration, and then, if the iteration asks
    for another one, ran the loop again with less fuel. *)
Local Lemma trun_loop_inv n w i s tr o s' w' :
  trun n w (observe (loop body i s)) = Some (tr, (o, s'), w') ->
  exists tr1 o1 s1 w1, exec w s (body i) tr1 o1 s1 w1 /\
    match next o1 s1 with
    | inl (i', s1) => exists m tr2, (m < n)%nat /\ tr = tr1 ++ tr2 /\
        trun m w1 (observe (loop body i' s1)) = Some (tr2, (o, s'), w')
    | inr (o2, s2) => tr = tr1 /\ o = o2 /\ s' = s2 /\ w' = w1
    end.
Proof.
  rewrite observe_iter. intros H.
  apply trun_bind_inv in H as (tr1 & x & w1 & tr2 & H1 & H2 & ->).
  apply texec_bind_inv in H1 as (tra & [o1 s1] & wa & trb & H1 & H3 & ->).
  apply texec_inv in H3. cbn in H3. destruct H3 as (-> & -> & ->).
  rewrite app_nil_r. exists tra, o1, s1, wa. split; [done|].
  destruct (next o1 s1) as [[i' s2]|[o2 s2]].
  - destruct n as [|n]; [done|]. exists n, tr2. split_and!; [lia|done|done].
  - destruct n as [|n]; [done|]. cbn in H2. injection H2 as <- <- <- <-.
    by rewrite app_nil_r.
Qed.

Local Lemma exec_loop_fold w i s tr1 o1 s1 w1 :
  exec w s (body i) tr1 o1 s1 w1 ->
  match next o1 s1 with
  | inl (i', s1) => forall tr2 o s' w', exec w1 s1 (loop body i') tr2 o s' w' ->
      exec w s (loop body i) (tr1 ++ tr2) o s' w'
  | inr (o2, s2) => exec w s (loop body i) tr1 o2 s2 w1
  end.
Proof.
  intros H1. unfold exec. rewrite observe_iter.
  assert (texec w (observe (tree_step (i, s))) tr1 (next o1 s1) w1) as Hs.
  { rewrite <- (app_nil_r tr1). eapply texec_bind; [done|]. apply texec_ret. }
  destruct (next o1 s1) as [[i' s2]|[o2 s2]].
  - intros tr2 o s' w' H2. eapply texec_bind; [done|]. by apply texec_tau.
  - rewrite <- (app_nil_r tr1). eapply texec_bind; [done|]. apply texec_ret.
Qed.

(** A loop invariant over the trace so far; in the [Totally] mode each
    iteration that goes round again decreases a measure. *)
Lemma wp_loop_partial Inv (Q : post R) :
  (forall tr w s i, Inv tr w s i ->
    wp Partly (body i) (loop_post Inv (fun _ _ _ _ => True) Q tr) w s) ->
  forall tr0 w s i, Inv tr0 w s i ->
    wp Partly (loop body i) (pre tr0 Q) w s.
Proof.
  intros Hbody tr0 w s i Hi tr o s' w' [n Hn].
  revert tr0 w s i Hi tr Hn.
  induction n as [n IH] using lt_wf_ind; intros tr0 w s i Hi tr Hn.
  apply trun_loop_inv in Hn as (tr1 & o1 & s1 & w1 & H1 & H2).
  specialize (Hbody _ _ _ _ Hi _ _ _ _ H1).
  destruct o1 as [[i'|r]|z|]; cbn in *.
  - destruct H2 as (m & tr2 & Hm & -> & H2). unfold pre. rewrite app_assoc.
    destruct Hbody as [Hbody _]. by apply (IH m Hm _ _ _ _ Hbody).
  - by destruct H2 as (-> & -> & -> & ->).
  - by destruct H2 as (-> & -> & -> & ->).
  - by destruct H2 as (-> & -> & -> & ->).
Qed.

Lemma wp_loop_total Inv (mu : trace E -> W -> S -> I -> nat) (Q : post R) :
  (forall tr w s i, Inv tr w s i ->
    wp Totally (body i)
      (loop_post Inv (fun tr' w' s' i' => (mu tr' w' s' i' < mu tr w s i)%nat) Q tr) w s) ->
  forall tr0 w s i, Inv tr0 w s i ->
    wp Totally (loop body i) (pre tr0 Q) w s.
Proof.
  intros Hbody tr0 w s i Hi. remember (mu tr0 w s i) as n eqn:Hn.
  revert tr0 w s i Hi Hn.
  induction n as [n IH] using lt_wf_ind; intros tr0 w s i Hi ->.
  destruct (Hbody _ _ _ _ Hi) as (tr1 & o1 & s1 & w1 & H1 & H2).
  pose proof (exec_loop_fold _ _ _ _ _ _ _ H1) as Hl.
  destruct o1 as [[i'|r]|z|]; cbn in *; [|by eauto 8..].
  destruct H2 as [Hi' Hmu].
  destruct (IH _ Hmu _ _ _ _ Hi' eq_refl) as (tr2 & o & s' & w' & H2 & HQ).
  exists (tr1 ++ tr2), o, s', w'. split; [by apply Hl|].
  unfold pre in *. by rewrite app_assoc.
Qed.

(** One unfolding of a loop. *)
Definition unfold_post m (Q : post R) : post (I + R) :=
  fun tr1 o1 s1 w1 =>
    match o1 with
    | Val (inl i') => wp m (loop body i') (pre tr1 Q) w1 s1
    | Val (inr r) => Q tr1 (Val r) s1 w1
    | Exit z => Q tr1 (Exit z) s1 w1
    | Ub => Q tr1 Ub s1 w1
    end.

Lemma wp_loop_unfold m (Q : post R) w s i :
  wp m (body i) (unfold_post m Q) w s -> wp m (loop body i) Q w s.
Proof.
  unfold unfold_post. destruct m; cbn.
  - intros H tr o s' w' [n Hn].
    apply trun_loop_inv in Hn as (tr1 & o1 & s1 & w1 & H1 & H2).
    specialize (H _ _ _ _ H1). destruct o1 as [[i'|r]|z|]; cbn in *;
      [|by destruct H2 as (-> & -> & -> & ->)..].
    destruct H2 as (k & tr2 & _ & -> & H2). apply H. by exists k.
  - intros (tr1 & o1 & s1 & w1 & H1 & H2).
    pose proof (exec_loop_fold _ _ _ _ _ _ _ H1) as Hl.
    destruct o1 as [[i'|r]|z|]; cbn in *; [|by eauto 8..].
    destruct H2 as (tr2 & o & s' & w' & H2 & HQ). eauto 8.
Qed.
End Loops.

(** A program that terminates with a value and leaves the state alone. *)
Lemma exec_total {A} (p : prog A) (P : trace E -> A -> Prop) w s :
  wp Totally p (fun tr o s' _ => s' = s /\ exists a, o = Val a /\ P tr a) w s ->
  exists tr a w', exec w s p tr (Val a) s w' /\ P tr a.
Proof. intros (tr & o & s' & w' & H & -> & a & -> & HP). eauto. Qed.

(** *** The events that a program may emit *)

Definition emits {A} (P : event E -> Prop) (p : prog A) : Prop := forall w s,
  wp Partly p (fun tr _ _ _ => Forall P tr) w s.

Lemma emits_ret {A} P (a : A) : emits P (ret a).
Proof. intros w s. apply wp_ret. constructor. Qed.

Lemma emits_exit {A} P z : emits P (exit_ z : prog A).
Proof. intros w s. apply wp_exit. constructor. Qed.

Lemma emits_ub {A} P : emits P (ub : prog A).
Proof. intros w s. apply wp_ub. constructor. Qed.

Lemma emits_lift {A} P (o : option A) : emits P (lift o).
Proof. destruct o; [apply emits_ret|apply emits_ub]. Qed.

Lemma emits_gets {A} P (f : S -> A) : emits P (gets f).
Proof. intros w s. apply wp_gets. constructor. Qed.

Lemma emits_modify P f : emits P (modify f).
Proof. intros w s. apply wp_modify. constructor. Qed.

Lemma emits_call {X} (P : event E -> Prop) (e : E X) : (forall x, P (Ev e x)) -> emits P (call e).
Proof. intros HP w s. apply wp_call. intros. by repeat constructor. Qed.

Lemma emits_bind {A B} P (p : prog A) (k : A -> prog B) :
  emits P p -> (forall a, emits P (k a)) -> emits P (bind p k).
Proof.
  intros Hp Hk w s. apply wp_bind. eapply wp_mono; [apply Hp|].
  intros tr [a|z|] s' w' Htr; unfold bind_post; [|done..].
  eapply wp_mono; [apply Hk|]. intros. by apply Forall_app_2.
Qed.

Lemma emits_loop {I R} P (body : I -> prog (I + R)) i :
  (forall i, emits P (body i)) -> emits P (loop body i).
Proof.
  intros Hb w s. apply (wp_loop_partial body (fun tr _ _ _ => Forall P tr)) with (tr0 := []); [|done].
  clear w s i. intros tr w s i Htr. eapply wp_mono; [apply Hb|].
  intros tr2 [[i'|r]|z|] s' w' Htr2; cbn; [split; [|done]|..]; by apply Forall_app_2.
Qed.

Lemma wp_emits {A} P (p : prog A) (Q : post A) w s :
  emits P p -> wp Partly p (fun tr o s' w' => Forall P tr -> Q tr o s' w') w s ->
  wp Partly p Q w s.
Proof. intros Hp Hw tr o s' w' H. apply (Hw _ _ _ _ H). by apply (Hp w s _ _ _ _ H). Qed.
End ProgramExecution.

Arguments wp {E S W _ A} m p Q w s : simpl never.
Arguments bind_post {E S W _ A B} m k Q tr1 o s1 w1 : simpl never.
Arguments unfold_post {E S W _ I R} body m Q tr1 o1 s1 w1 : simpl never.
Arguments loop_post {E S W I R} Inv dec Q tr tr2 o s' w' : simpl never.
Arguments pre {E S W A} tr1 Q tr2 o s w : simpl never.

Create HintDb emits.
#[export] Hint Resolve emits_ret emits_exit emits_ub emits_lift emits_gets emits_modify emits_call : emits.

(** [emits_step] walks through a program, up to its loops. *)
Ltac emits_step :=
  repeat (intros; cbn zeta;
    lazymatch goal with
    | |- emits _ (bind _ _) => apply emits_bind
    | |- emits _ (match ?x with _ => _ end) => destruct x
    | |- emits _ (loop _ _) => first [solve [eauto with emits] | apply emits_loop]
    | |- emits _ _ => solve [eauto with emits]
    end).

(** ** Symbolic execution

    [wp_start] names the postcondition; [wp_step] runs the head of the
    program: it opens a sequence, performs a call (introducing the answer and
    the new environment state), reads or writes the static storage, or
    returns; [wp_done] opens the postcondition at the end. *)
Ltac wp_start :=
  lazymatch goal with
  | |- wp _ _ ?Q _ _ => let q := fresh "Q" in set (q := Q)
  end.

Ltac wp_leaf :=
  match goal with
  | |- bind_post _ _ _ _ _ _ _ => unfold bind_post at 1; cbn beta iota
  | |- unfold_post _ _ _ _ _ _ _ => unfold unfold_post at 1; cbn beta iota
  | |- loop_post _ _ _ _ _ _ _ _ => unfold loop_post at 1; cbn beta iota
  | |- pre _ (bind_post _ _ _) _ _ _ _ => unfold pre at 1
  | |- pre _ (unfold_post _ _ _) _ _ _ _ => unfold pre at 1
  | |- pre _ (loop_post _ _ _ _) _ _ _ _ => unfold pre at 1
  | |- pre _ (pre _ _) _ _ _ _ => unfold pre at 1
  end.

Ltac wp_step :=
  lazymatch goal with
  | |- wp _ (bind _ _) _ _ _ => apply wp_bind
  | |- wp _ (ret _) _ _ _ => apply wp_ret; repeat wp_leaf
  | |- wp _ (exit_ _) _ _ _ => apply wp_exit; repeat wp_leaf
  | |- wp _ ub _ _ _ => apply wp_ub; repeat wp_leaf
  | |- wp _ (gets _) _ _ _ => apply wp_gets; repeat wp_leaf
  | |- wp _ (modify _) _ _ _ => apply wp_modify; repeat wp_leaf
  | |- wp _ (lift (Some _)) _ _ _ => apply wp_ret; repeat wp_leaf
  | |- wp _ (lift None) _ _ _ => apply wp_ub; repeat wp_leaf
  | |- wp _ (call _) _ _ _ =>
      apply wp_call; let x := fresh "x" in let w := fresh "w" in let H := fresh "Hk" in
      intros x w H;
      (let T := type of x in lazymatch T with unit => destruct x | _ => idtac end);
      repeat wp_leaf
  end.
Ltac wp_steps := repeat wp_step.
Ltac wp_trace := unfold pre; cbn [app]; rewrite ?app_nil_r.
Ltac wp_done Q := unfold pre; subst Q; cbn beta iota; cbn [app].

(** [exec_wp H] turns a goal about the execution [H] into a [wp] goal. *)
Ltac exec_wp H :=
  lazymatch type of H with
  | exec ?w ?s ?p ?tr ?o ?s' ?w' =>
      pattern tr, o, s', w';
      lazymatch goal with
      | |- ?P _ _ _ _ => revert tr o s' w' H; change (wp Partly p P w s)
      end
  end.
