(* ===== verification/Sys.v ===== *)
(** * The operating-system interface

    The C library and POSIX calls of the program as an event type [sysE], the
    documented bounds on their answers ([PosixKernel]), C strings, and the
    process's static storage outside wpa_ex.c. *)

From S2P Require Export Prog.
Local Open Scope Z_scope.

(** ** Error numbers and results *)

Inductive errno : Type :=
| EINTR | EAGAIN | EBUSY | EWOULDBLOCK | EADDRINUSE | ERANGE
| EOther (n : Z).

#[export] Instance errno_eq_dec : EqDecision errno.
Proof. solve_decision. Defined.

(** The answer of a call: its result, or -1 with [errno] set. *)
Inductive sres (A : Type) : Type :=
| SOk (a : A)
| SErr (e : errno).
Arguments SOk {A} a.
Arguments SErr {A} e.

(** ** Socket addresses *)

(** [AddrIn] has the four bytes of the address as they are in memory, in network
    order, and the number of the port. *)
Inductive sockaddr : Type :=
| AddrUn (sun_path : bytes)
| AddrIn (s_addr : bytes) (sin_port : Z).

Inductive domain : Type := PF_UNIX | PF_INET.

Inductive clockid : Type := CLOCK_BOOTTIME | CLOCK_MONOTONIC | CLOCK_REALTIME.

#[export] Instance clockid_eq_dec : EqDecision clockid.
Proof. solve_decision. Defined.

(** ** The calls

    An address returned by [malloc] and a file descriptor are integers.
    [Select] waits for one descriptor to become readable; its answer says
    whether the descriptor is in the set that [select] leaves behind.  [Poll]
    waits for [POLLIN] on two descriptors and answers their [revents].
    [Gethostbyname] answers the first address, [h_addr], of the host; [Getcwd]
    the name that [getcwd] puts into its buffer; [Fread] the bytes read;
    [Readdir] the name of the next entry.  [LocalConnect] is
    [socket_local_client_connect] of the Android system library, for datagrams
    and the reserved namespace. *)
Inductive sysE : Type -> Type :=
| Malloc (size : Z) : sysE (option Z)
| Free (p : Z) : sysE unit
| Socket (d : domain) : sysE (sres Z)
| Bind (s : Z) (a : sockaddr) : sysE (sres unit)
| Connect (s : Z) (a : sockaddr) : sysE (sres unit)
| Close (s : Z) : sysE (sres unit)
| Unlink (path : bytes) : sysE (sres unit)
| FcntlGetfl (s : Z) : sysE (sres Z)
| FcntlSetfl (s : Z) (flags : Z) : sysE (sres unit)
| Send (s : Z) (data : bytes) : sysE (sres Z)
| Recv (s : Z) (len : Z) : sysE (sres bytes)
| Select (s : Z) (sec usec : Z) : sysE (sres bool)
| Poll (fd0 fd1 : Z) : sysE (sres (Z * Z))
| Read (fd : Z) (len : Z) : sysE (sres bytes)
| Writev (fd : Z) (iov : list bytes) : sysE (sres Z)
| ClockGettime (id : clockid) : sysE (sres (Z * Z))
| Gettimeofday : sysE (sres (Z * Z))
| Sleep (sec : Z) : sysE unit
| Usleep (usec : Z) : sysE unit
| Getpid : sysE Z
| Gethostbyname (name : bytes) : sysE (option bytes)
| Calloc (nmemb size : Z) : sysE (option Z)
| Realloc (p : option Z) (size : Z) : sysE (option Z)
| Getcwd (size : Z) : sysE (sres bytes)
| Fopen (name mode : bytes) : sysE (option Z)
| FseekEnd (f : Z) : sysE (sres unit)
| FseekSet (f : Z) : sysE (sres unit)
| Ftell (f : Z) : sysE (sres Z)
| Fread (f : Z) (n : Z) : sysE bytes
| Fprintf (f : Z) (text : bytes) : sysE unit
| Fclose (f : Z) : sysE unit
| Daemon : sysE (sres unit)
| Chdir (path : bytes) : sysE (sres unit)
| Open (path : bytes) : sysE (sres Z)
| Dup2 (fd fd2 : Z) : sysE (sres unit)
| Stdout (msg : bytes) : sysE unit
| Opendir (path : bytes) : sysE (option Z)
| Readdir (d : Z) : sysE (option bytes)
| Closedir (d : Z) : sysE unit
| Stderr (msg : bytes) : sysE unit
| Chmod (path : bytes) (mode : Z) : sysE (sres unit)
| Chown (path : bytes) (uid gid : Z) : sysE (sres unit)
| LocalConnect (s : Z) (name : bytes) : sysE (sres unit)
| Setenv (name value : bytes) (overwrite : Z) : sysE (sres unit)
| Unsetenv (name : bytes) : sysE (sres unit)
| Random : sysE Z
| Setgroups (gids : list Z) : sysE (sres unit)
| Prctl (option arg : Z) : sysE (sres unit)
| Setgid (gid : Z) : sysE (sres unit)
| Setuid (uid : Z) : sysE (sres unit)
| Capset (effective permitted inheritable : Z) : sysE (sres unit).

Abbreviation sys_trace := (trace sysE).

(** What POSIX promises of the answers: [recv] and [read] deliver at most the
    number of bytes asked for, a process id is an [int], a descriptor is not
    negative, [gethostbyname] answers IPv4 addresses, [getcwd] a name that fits
    its buffer, [ftell] a position, [readdir] a name, and [CLOCK_REALTIME] can
    always be read. *)
Class PosixKernel (W : Type) `{K : !Kernel sysE W} : Prop := {
  recv_bound : forall w s n d w',
    kstep (Recv s n) w = (SOk d, w') -> 0 <= n -> Z.of_nat (length d) <= n;
  read_bound : forall w fd n d w',
    kstep (Read fd n) w = (SOk d, w') -> 0 <= n -> Z.of_nat (length d) <= n;
  getpid_ok : forall w n w', kstep Getpid w = (n, w') -> int_ok n;
  gethostbyname_ok : forall w n a w',
    kstep (Gethostbyname n) w = (Some a, w') -> length a = 4%nat;
  getcwd_ok : forall w n d w', kstep (Getcwd n) w = (SOk d, w') ->
    nul_free d /\ Z.of_nat (length d) < n;
  fread_bound : forall w f n d w', kstep (Fread f n) w = (d, w') -> 0 <= n -> Z.of_nat (length d) <= n;
  ftell_ok : forall w f n w', kstep (Ftell f) w = (SOk n, w') -> 0 <= n;
  readdir_ok : forall w d n w', kstep (Readdir d) w = (Some n, w') -> nul_free n;
  socket_ok : forall w d n w', kstep (Socket d) w = (SOk n, w') -> 0 <= n;
  realtime_ok : forall w e w',
    kstep (ClockGettime CLOCK_REALTIME) w <> (SErr e, w')
}.

(** ** Observations on a trace *)

(** An observation picks data from each event; it is a homomorphism from
    traces to lists. *)
Definition observe_with {A} (f : event sysE -> list A) (tr : sys_trace) : list A :=
  concat (f <$> tr).

Lemma observe_with_nil {A} (f : event sysE -> list A) : observe_with f [] = [].
Proof. done. Qed.

Lemma observe_with_cons {A} (f : event sysE -> list A) ev tr :
  observe_with f (ev :: tr) = f ev ++ observe_with f tr.
Proof. done. Qed.

Lemma observe_with_app {A} (f : event sysE -> list A) tr1 tr2 :
  observe_with f (tr1 ++ tr2) = observe_with f tr1 ++ observe_with f tr2.
Proof. unfold observe_with. by rewrite fmap_app, concat_app. Qed.
#[export] Hint Rewrite @observe_with_nil @observe_with_cons @observe_with_app : wpa.

(** The answer of a call, when there is one to report. *)
Definition ok_or_nil {A B} (r : sres A) (f : A -> list B) : list B :=
  match r with SOk a => f a | SErr _ => [] end.

(** Datagrams that [send] has accepted. *)
Definition sent_of (ev : event sysE) : list bytes :=
  let '@Ev _ X e x := ev in
  match e in sysE X return X -> list bytes with
  | Send _ d => fun r => ok_or_nil r (fun _ => [d])
  | _ => fun _ => []
  end x.

(** Datagrams that [recv] has delivered. *)
Definition received_of (ev : event sysE) : list bytes :=
  let '@Ev _ X e x := ev in
  match e in sysE X return X -> list bytes with
  | Recv _ _ => fun r => ok_or_nil r (fun d => [d])
  | _ => fun _ => []
  end x.

(** Bytes that [read] has delivered. *)
Definition input_of (ev : event sysE) : list byte :=
  let '@Ev _ X e x := ev in
  match e in sysE X return X -> list byte with
  | Read _ _ => fun r => ok_or_nil r (fun d => d)
  | _ => fun _ => []
  end x.

(** Bytes that [writev] has accepted. *)
Definition output_of (ev : event sysE) : list byte :=
  let '@Ev _ X e x := ev in
  match e in sysE X return X -> list byte with
  | Writev _ iov => fun r => ok_or_nil r (fun n => take (Z.to_nat n) (concat iov))
  | _ => fun _ => []
  end x.

(** One item per [send] call, successful or not. *)
Definition send_of (ev : event sysE) : list unit :=
  let '@Ev _ X e x := ev in
  match e in sysE X return X -> list unit with
  | Send _ _ => fun _ => [tt]
  | _ => fun _ => []
  end x.

Abbreviation sent := (observe_with sent_of).
Abbreviation received := (observe_with received_of).
Abbreviation input := (observe_with input_of).
Abbreviation output := (observe_with output_of).
Abbreviation send_calls := (observe_with send_of).

(** ** The visible actions of a trace, in order *)

(** Bytes read from the input, bytes written to the output one by one, a
    datagram sent and a datagram received. *)
Inductive action : Type :=
| Inp (d : bytes)
| Out (b : byte)
| Cmd (m : bytes)
| Dgram (d : bytes).

(** The addresses that sockets have been asked to connect to. *)
Definition connect_of (ev : event sysE) : list (Z * sockaddr) :=
  let '@Ev _ X e x := ev in match e with Connect s a => [(s, a)] | _ => [] end.

Abbreviation connects := (observe_with connect_of).

Definition action_of (ev : event sysE) : list action :=
  let '@Ev _ X e x := ev in
  match e in sysE X return X -> list action with
  | Send _ d => fun r => ok_or_nil r (fun _ => [Cmd d])
  | Recv _ _ => fun r => ok_or_nil r (fun d => [Dgram d])
  | Read _ _ => fun r => ok_or_nil r (fun d => match d with [] => [] | _ => [Inp d] end)
  | Writev _ iov => fun r => ok_or_nil r (fun n => Out <$> take (Z.to_nat n) (concat iov))
  | _ => fun _ => []
  end x.

Abbreviation actions := (observe_with action_of).

(** A trace that only writes, and one that only sends. *)
Lemma actions_writes tr :
  sent tr = [] -> received tr = [] -> input tr = [] -> actions tr = Out <$> output tr.
Proof.
  induction tr as [|[X e x] tr IH]; [done|]. autorewrite with wpa.
  intros [Hs Hs2]%app_eq_nil [Hr Hr2]%app_eq_nil [Hi Hi2]%app_eq_nil.
  rewrite fmap_app, <- IH by done. f_equal. clear IH.
  destruct e; cbn in *; try done; destruct x as [y|]; cbn in *; try done. by subst y.
Qed.

Lemma actions_sends tr :
  received tr = [] -> input tr = [] -> output tr = [] -> actions tr = Cmd <$> sent tr.
Proof.
  induction tr as [|[X e x] tr IH]; [done|]. autorewrite with wpa.
  intros [Hr Hr2]%app_eq_nil [Hi Hi2]%app_eq_nil [Ho Ho2]%app_eq_nil.
  rewrite fmap_app, <- IH by done. f_equal. clear IH.
  destruct e; cbn in *; try done; destruct x as [y|]; cbn in *; try done.
  - by subst y.
  - by rewrite Ho.
Qed.

(** Calls that move no data. *)
Definition neutral (ev : event sysE) : bool :=
  let '@Ev _ X e _ := ev in
  match e with
  | Send _ _ | Recv _ _ | Read _ _ | Writev _ _ => false
  | _ => true
  end.

Definition silent (tr : sys_trace) : Prop := Forall neutral tr.

Lemma silent_observe tr :
  silent tr -> sent tr = [] /\ received tr = [] /\ input tr = [] /\ output tr = [] /\
    send_calls tr = [].
Proof.
  induction 1 as [|[X e x] tr Hn _ IH]; [done|].
  destruct IH as (? & ? & ? & ? & ?). destruct e; by destruct Hn.
Qed.

(** A trace in which no data has moved. *)
Definition quiet (tr : sys_trace) : Prop :=
  sent tr = [] /\ received tr = [] /\ input tr = [] /\ output tr = [].

Lemma silent_quiet tr : silent tr -> quiet tr.
Proof. intros (? & ? & ? & ? & _)%silent_observe. done. Qed.

Lemma quiet_actions tr : quiet tr -> actions tr = [].
Proof. intros (Hs & Hr & Hi & Ho). by rewrite actions_sends, Hs. Qed.

Lemma quiet_nil : quiet [].
Proof. done. Qed.

Lemma quiet_app tr1 tr2 : quiet tr1 -> quiet tr2 -> quiet (tr1 ++ tr2).
Proof.
  intros (E1 & E2 & E3 & E4) (F1 & F2 & F3 & F4). unfold quiet. autorewrite with wpa.
  by rewrite E1, E2, E3, E4, F1, F2, F3, F4.
Qed.
#[export] Hint Resolve silent_quiet quiet_nil quiet_app : wpa.

(** ** Static storage of the library files

    [counter] is the static variable of [wpa_ctrl_open], [clock_id] that of
    [os_get_reltime]. *)
Record statics : Type := MkStatics { counter : Z; clock_id : clockid }.

(** The contents of the static storage when the process starts. *)
Definition statics0 : statics := MkStatics 0 CLOCK_BOOTTIME.

Definition set_counter (n : Z) (s : statics) : statics := MkStatics n (clock_id s).
Definition set_clock_id (c : clockid) (s : statics) : statics := MkStatics (counter s) c.

Abbreviation sprog := (prog sysE statics).
