(* ===== verification/OsTime.v ===== *)
(** * Time: the helpers of os.h and the clocks of os_unix.c

    [struct os_time] and [struct os_reltime] with their comparison,
    subtraction, age and expiry helpers (os.h), and [os_sleep], [os_get_time]
    and [os_get_reltime] (os_unix.c).  The specification is the number of
    microseconds a time stands for, [usecs]. *)

From S2P Require Export Sys.
Local Open Scope Z_scope.
Local Open Scope prog_scope.

(** ** Data: [struct os_time] and [struct os_reltime]

    A [long] is a [Z]: seconds whose difference does not fit a [long], which C leaves
    undefined, are not told apart from others. *)

Record os_time : Type := MkTime { t_sec : Z; t_usec : Z }.
Record os_reltime : Type := MkReltime { sec : Z; usec : Z }.

(** A [long] of the 64-bit targets. *)
Definition long_ok (z : Z) : Prop := - 2 ^ 63 <= z < 2 ^ 63.

(** ** Helpers for [struct os_time] *)

Definition os_time_before (a b : os_time) : bool :=
  (t_sec a <? t_sec b) || ((t_sec a =? t_sec b) && (t_usec a <? t_usec b)).

Definition os_time_sub (a b : os_time) : os_time :=
  let s := t_sec a - t_sec b in
  let u := t_usec a - t_usec b in
  if u <? 0 then MkTime (s - 1) (u + 1000000) else MkTime s u.

(** ** Helpers for [struct os_reltime] *)

Definition os_reltime_before (a b : os_reltime) : bool :=
  (sec a <? sec b) || ((sec a =? sec b) && (usec a <? usec b)).

Definition os_reltime_sub (a b : os_reltime) : os_reltime :=
  let s := sec a - sec b in
  let u := usec a - usec b in
  if u <? 0 then MkReltime (s - 1) (u + 1000000) else MkReltime s u.

Definition os_reltime_expired (now ts : os_reltime) (timeout_secs : Z) : bool :=
  let age := os_reltime_sub now ts in
  (timeout_secs <? sec age) || ((sec age =? timeout_secs) && (0 <? usec age)).

Definition os_reltime_initialized (t : os_reltime) : bool :=
  negb (sec t =? 0) || negb (usec t =? 0).

(** ** Clocks *)

Definition os_sleep (s u : Z) : sprog unit :=
  (if negb (s =? 0) then call (Sleep s) else ret tt);;;
  (if negb (u =? 0) then call (Usleep u) else ret tt).

(** [gettimeofday] fills the [timeval] that is copied to [t] even when it
    fails; a failed call leaves unspecified values there ([None]). *)
Definition os_get_time : sprog (Z * option os_time) :=
  let* r := call Gettimeofday in
  match r with
  | SOk (s, u) => ret (0, Some (MkTime s u))
  | SErr _ => ret (-1, None)
  end.

(** [*t] keeps its value when no clock answers; an uninitialised [struct
    os_reltime] is [None]. *)
Definition get_reltime_body (t : option os_reltime) (_ : unit)
    : sprog (unit + Z * option os_reltime) :=
  let* id := gets clock_id in
  let* r := call (ClockGettime id) in
  match r with
  | SOk (s, nsec) => ret (inr (0, Some (MkReltime s (Z.quot nsec 1000))))
  | SErr _ =>
      match id with
      | CLOCK_BOOTTIME => modify (set_clock_id CLOCK_MONOTONIC);;; ret (inl tt)
      | CLOCK_MONOTONIC => modify (set_clock_id CLOCK_REALTIME);;; ret (inl tt)
      | CLOCK_REALTIME => ret (inr (-1, t))
      end
  end.

Definition os_get_reltime (t : option os_reltime) : sprog (Z * option os_reltime) :=
  loop (get_reltime_body t) tt.

(** Reading a [struct os_reltime] that was never written. *)
Definition read_reltime (t : option os_reltime) : sprog os_reltime := lift t.

Definition os_reltime_age (start : os_reltime) : sprog os_reltime :=
  let* r := os_get_reltime None in
  let* now := read_reltime (snd r) in
  ret (os_reltime_sub now start).

(** ** Specification: microseconds *)

Definition usecs (t : os_reltime) : Z := sec t * 1000000 + usec t.
Definition normalized (t : os_reltime) : Prop := 0 <= usec t < 1000000.
Definition t_usecs (t : os_time) : Z := t_sec t * 1000000 + t_usec t.
Definition t_normalized (t : os_time) : Prop := 0 <= t_usec t < 1000000.

Create HintDb ostime.
Create Rewrite HintDb ostime.

(** A time is determined by its microseconds. *)
Lemma usecs_inj a b : normalized a -> normalized b -> usecs a = usecs b -> a = b.
Proof. destruct a, b. unfold normalized, usecs; cbn. intros. f_equal; lia. Qed.

Lemma os_reltime_sub_usecs a b : usecs (os_reltime_sub a b) = usecs a - usecs b.
Proof. unfold os_reltime_sub, usecs. destruct (Z.ltb_spec (usec a - usec b) 0); cbn; lia. Qed.

Lemma os_reltime_sub_normalized a b :
  normalized a -> normalized b -> normalized (os_reltime_sub a b).
Proof.
  unfold normalized, os_reltime_sub.
  destruct (Z.ltb_spec (usec a - usec b) 0); cbn; lia.
Qed.
#[export] Hint Rewrite os_reltime_sub_usecs : ostime.
#[export] Hint Resolve os_reltime_sub_normalized : ostime.

Lemma os_reltime_before_spec a b :
  normalized a -> normalized b -> os_reltime_before a b = (usecs a <? usecs b).
Proof. unfold normalized, os_reltime_before, usecs. intros. lia. Qed.

Lemma os_reltime_expired_usecs now ts timeout :
  normalized now -> normalized ts ->
  os_reltime_expired now ts timeout = (timeout * 1000000 <? usecs now - usecs ts).
Proof.
  intros Hn Ht. pose proof (os_reltime_sub_normalized _ _ Hn Ht) as Hs.
  rewrite <- os_reltime_sub_usecs. unfold os_reltime_expired, usecs.
  unfold normalized in Hs. lia.
Qed.

(** The helpers of [struct os_time] are those of [struct os_reltime]. *)
Definition reltime_of (t : os_time) : os_reltime := MkReltime (t_sec t) (t_usec t).

Lemma os_time_before_reltime a b : os_time_before a b = os_reltime_before (reltime_of a) (reltime_of b).
Proof. done. Qed.

Lemma os_time_sub_reltime a b :
  reltime_of (os_time_sub a b) = os_reltime_sub (reltime_of a) (reltime_of b).
Proof. unfold os_time_sub, os_reltime_sub. cbn. by destruct (_ <? 0). Qed.

Lemma os_reltime_sub_bounds a b :
  normalized a -> normalized b -> 0 <= sec a < 2 ^ 63 -> 0 <= sec b < 2 ^ 63 ->
  long_ok (sec (os_reltime_sub a b)) /\ long_ok (usec (os_reltime_sub a b)) /\
  long_ok (sec a - sec b) /\ long_ok (usec a - usec b).
Proof.
  unfold normalized, os_reltime_sub, long_ok. intros.
  destruct (Z.ltb_spec (usec a - usec b) 0); cbn; lia.
Qed.

(** On normalised relative times comparison, subtraction and expiry are those of
    the microseconds they stand for, the difference is normalised, and for times since
    the start of the clock no intermediate value overflows. *)
Theorem reltime_helpers a b timeout :
  normalized a -> normalized b ->
  os_reltime_before a b = (usecs a <? usecs b) /\
  usecs (os_reltime_sub a b) = usecs a - usecs b /\ normalized (os_reltime_sub a b) /\
  os_reltime_expired a b timeout = (timeout * 1000000 <? usecs a - usecs b) /\
  os_reltime_initialized a = negb (usecs a =? 0) /\
  (0 <= sec a < 2 ^ 63 -> 0 <= sec b < 2 ^ 63 ->
     long_ok (sec (os_reltime_sub a b)) /\ long_ok (usec (os_reltime_sub a b)) /\
     long_ok (sec a - sec b) /\ long_ok (usec a - usec b)).
Proof.
  intros Ha Hb. split_and!.
  - by apply os_reltime_before_spec.
  - apply os_reltime_sub_usecs.
  - by apply os_reltime_sub_normalized.
  - by apply os_reltime_expired_usecs.
  - unfold os_reltime_initialized, usecs, normalized in *. lia.
  - intros. by apply os_reltime_sub_bounds.
Qed.

(** On normalised times comparison and subtraction are those of the microseconds
    they stand for. *)
Theorem os_time_helpers a b :
  t_normalized a -> t_normalized b ->
  os_time_before a b = (t_usecs a <? t_usecs b) /\
  t_usecs (os_time_sub a b) = t_usecs a - t_usecs b /\ t_normalized (os_time_sub a b).
Proof.
  intros Ha Hb. split_and!.
  - rewrite os_time_before_reltime. by apply os_reltime_before_spec.
  - change (usecs (reltime_of (os_time_sub a b)) = t_usecs a - t_usecs b).
    rewrite os_time_sub_reltime. apply os_reltime_sub_usecs.
  - change (normalized (reltime_of (os_time_sub a b))). rewrite os_time_sub_reltime.
    by apply os_reltime_sub_normalized.
Qed.

(** ** The clock fallback *)

(** The clocks that [os_get_reltime] still has to try, the current one first. *)
Definition clocks_from (c : clockid) : list clockid :=
  match c with
  | CLOCK_BOOTTIME => [CLOCK_BOOTTIME; CLOCK_MONOTONIC; CLOCK_REALTIME]
  | CLOCK_MONOTONIC => [CLOCK_MONOTONIC; CLOCK_REALTIME]
  | CLOCK_REALTIME => [CLOCK_REALTIME]
  end.

(** What [os_get_reltime] promises of its calls: it asks the clocks of [cs] in
    order, stops at the first one that answers and keeps it as the current
    clock, and gives up, leaving [t] alone, when the last one fails. *)
Inductive clock_search (t : option os_reltime) :
    list clockid -> sys_trace -> Z * option os_reltime -> clockid -> Prop :=
| search_hit c cs s nsec :
    clock_search t (c :: cs) [Ev (ClockGettime c) (SOk (s, nsec))]
      (0, Some (MkReltime s (Z.quot nsec 1000))) c
| search_miss c c' cs e tr r c'' :
    clock_search t (c' :: cs) tr r c'' ->
    clock_search t (c :: c' :: cs) (Ev (ClockGettime c) (SErr e) :: tr) r c''
| search_none c e :
    clock_search t [c] [Ev (ClockGettime c) (SErr e)] (-1, t) c.

Section Clock.
Context {W : Type} `{K : !Kernel sysE W}.

Lemma wp_os_get_reltime m t (Q : post _) w s :
  (forall tr r c w', clock_search t (clocks_from (clock_id s)) tr r c ->
     Q tr (Val r) (set_clock_id c s) w') ->
  wp m (os_get_reltime t) Q w s.
Proof.
  unfold os_get_reltime. remember (length (clocks_from (clock_id s))) as n eqn:Hn.
  revert Q w s Hn. induction n as [n IH] using lt_wf_ind; intros Q w [k c] Hn HQ.
  apply wp_loop_unfold. unfold get_reltime_body at 1. wp_steps. cbn [clock_id] in *.
  destruct x as [[sc ns]|e]; [|destruct c]; wp_steps.
  - change (MkStatics k c) with (set_clock_id c (MkStatics k c)).
    apply HQ. destruct c; constructor.
  - eapply IH; [|done|]; [cbn in *; lia|]. intros tr r c w' Hs.
    apply (HQ _ _ c). by constructor.
  - eapply IH; [|done|]; [cbn in *; lia|]. intros tr r c w' Hs.
    apply (HQ _ _ c). by constructor.
  - apply (HQ _ _ CLOCK_REALTIME). constructor.
Qed.

(** Reading the relative time ends in every environment: it tries the clocks from
    the remembered one on, at most each once, remembers the one that works, and fails
    only if all of them fail. *)
Theorem os_get_reltime_search t w s :
  exists tr r c w', exec w s (os_get_reltime t) tr (Val r) (set_clock_id c s) w' /\
    clock_search t (clocks_from (clock_id s)) tr r c.
Proof.
  assert (wp Totally (os_get_reltime t) (fun tr o s' w' => exists r c, o = Val r /\
    s' = set_clock_id c s /\ clock_search t (clocks_from (clock_id s)) tr r c) w s)
    as (tr & o & s' & w' & H & r & c & -> & -> & Hs).
  { apply wp_os_get_reltime. eauto. }
  eauto 8.
Qed.

Lemma clock_search_silent t cs tr r c : clock_search t cs tr r c -> silent tr.
Proof. induction 1; by repeat constructor. Qed.

(** The real-time clock answers, so [os_get_reltime] does not fail. *)
Lemma wp_os_get_reltime_ok `{!PosixKernel W} m t (Q : post _) w s :
  (forall tr u c w', silent tr -> Q tr (Val (0, Some u)) (set_clock_id c s) w') ->
  wp m (os_get_reltime t) Q w s.
Proof.
  intros HQ. apply wp_possible, wp_os_get_reltime. intros tr r c w' Hs Hp.
  assert (exists u, r = (0, Some u)) as [u ->].
  { assert (last (clocks_from (clock_id s)) = Some CLOCK_REALTIME) as Hl
      by (by destruct (clock_id s)).
    clear HQ. revert Hl Hp. induction Hs; cbn; intros Hl Hp; [by eauto| |].
    - apply IHHs; [done|]. by inversion Hp.
    - injection Hl as ->. apply Forall_cons in Hp as [(w1 & w2 & Hk) _].
      by destruct (realtime_ok _ _ _ Hk). }
  apply HQ. by eapply clock_search_silent.
Qed.

Lemma wp_os_sleep m a b (Q : post unit) w s :
  (forall tr w', silent tr -> Q tr (Val tt) s w') -> wp m (os_sleep a b) Q w s.
Proof.
  intros HQ. unfold os_sleep. destruct (a =? 0), (b =? 0); cbn [negb]; wp_steps;
    apply HQ; by repeat constructor.
Qed.
End Clock.
