(* ===== verification/OsCal.v ===== *)
(** * os_unix.c: calendar time

    [os_mktime] and [os_gmtime].  The C library's [gmtime] is that of POSIX:
    seconds since the Epoch on the Gregorian calendar.  The zone is a parameter:
    the offset of local time at every instant, when daylight saving time is in
    force, and [mktime].  [FixedOffset] are the zones whose standard time has had
    one offset from UTC, which the code relies on; [moscow] is one that has not. *)

From S2P Require Export Prelude.
Local Open Scope Z_scope.

(** ** The C library *)

Record tm : Type := MkTm {
  tm_sec : Z; tm_min : Z; tm_hour : Z;
  tm_mday : Z; tm_mon : Z; tm_year : Z;
  tm_isdst : Z
}.

Definition leap (y : Z) : bool := (y mod 4 =? 0) && (negb (y mod 100 =? 0) || (y mod 400 =? 0)).

(** Days of the year before the month [m], counted from 0. *)
Definition month_days (m : Z) (l : bool) : Z :=
  nth (Z.to_nat m) [0; 31; 59; 90; 120; 151; 181; 212; 243; 273; 304; 334] 365 +
  (if l && (2 <=? m) then 1 else 0).

(** Days from the Epoch to the first of January of the year [y]. *)
Definition year_days (y : Z) : Z :=
  365 * (y - 1970) + (y - 1969) / 4 - (y - 1901) / 100 + (y - 1601) / 400.

Definition date_days (y m d : Z) : Z := year_days y + month_days m (leap y) + (d - 1).

(** POSIX's seconds since the Epoch of a broken-down time. *)
Definition timegm (t : tm) : Z :=
  date_days (tm_year t + 1900) (tm_mon t) (tm_mday t) * 86400 +
  tm_hour t * 3600 + tm_min t * 60 + tm_sec t.

(** The date of a day: year, month (from 0) and day of the month.  Years start
    in March and come in cycles of 400. *)
Definition civil (days : Z) : Z * Z * Z :=
  let z := days + 719468 in
  let era := z / 146097 in
  let doe := z mod 146097 in
  let yoe := (doe - doe / 1460 + doe / 36524 - doe / 146096) / 365 in
  let doy := doe - (365 * yoe + yoe / 4 - yoe / 100) in
  let mp := (5 * doy + 2) / 153 in
  let d := doy - (153 * mp + 2) / 5 + 1 in
  let m := if mp <? 10 then mp + 2 else mp - 10 in
  (yoe + era * 400 + (if m <? 2 then 1 else 0), m, d).

(** The broken-down time of the instant [t] with the flag [isdst]. *)
Definition broken_down (t isdst : Z) : tm :=
  let '(y, m, d) := civil (t / 86400) in
  let s := t mod 86400 in
  MkTm (s mod 60) (s / 60 mod 60) (s / 3600) d m (y - 1900) isdst.

(** The year must fit its field. *)
Definition representable (t : tm) : option tm :=
  if (- 2 ^ 31 <=? tm_year t) && (tm_year t <? 2 ^ 31) then Some t else None.

Definition gmtime (t : Z) : option tm := representable (broken_down t 0).

(** A zone: the seconds by which local time is ahead of UTC at an instant, whether
    daylight saving time is in force then, and the instant that [mktime] gives for
    a broken-down local time. *)
Record zone : Type := MkZone { offset_at : Z -> Z; in_force : Z -> bool; mktime : tm -> Z }.

Section Calendar.
Context (tz : zone).

Definition localtime (t : Z) : option tm :=
  representable (broken_down (t + offset_at tz t) (if in_force tz t then 1 else 0)).

(** ** os_mktime *)

(** [t] is the contents of [*t]; the result is the return value and the new
    contents. *)
Definition os_mktime (year month day hour min sec : Z) (t : Z) : Z * Z :=
  if (year <? 1970) || (month <? 1) || (12 <? month) || (day <? 1) || (31 <? day) ||
     (hour <? 0) || (23 <? hour) || (min <? 0) || (59 <? min) || (sec <? 0) || (60 <? sec)
  then (-1, t)
  else
    let t_local := mktime tz (MkTm sec min hour day (month - 1) (year - 1900) 0) in
    let tz_offset :=
      match localtime t_local with
      | Some tm1 =>
          let t1 := mktime tz tm1 in
          match gmtime t_local with
          | Some tm1 => let t2 := mktime tz tm1 in t2 - t1
          | None => 0
          end
      | None => 0
      end in
    (0, t_local - tz_offset).
End Calendar.

(** ** os_gmtime *)

Record os_tm : Type := MkOsTm {
  o_sec : Z; o_min : Z; o_hour : Z; o_day : Z; o_month : Z; o_year : Z
}.

Definition os_gmtime (t : Z) (tm : os_tm) : Z * os_tm :=
  match gmtime t with
  | None => (-1, tm)
  | Some tm2 =>
      (0, MkOsTm (tm_sec tm2) (tm_min tm2) (tm_hour tm2) (tm_mday tm2) (tm_mon tm2 + 1)
            (tm_year tm2 + 1900))
  end.

(** ** The Gregorian calendar *)

(** Linear arithmetic with quotients and remainders by constants. *)
Ltac div_lia := Z.div_mod_to_equations; lia.

Lemma year_days_succ y : year_days (y + 1) = year_days y + (if leap y then 366 else 365).
Proof.
  unfold year_days, leap.
  destruct (Z.eqb_spec (y mod 4) 0), (Z.eqb_spec (y mod 100) 0), (Z.eqb_spec (y mod 400) 0);
    cbn [andb orb negb]; div_lia.
Qed.

(** The year in whose cycle a day lies. *)
Lemma year_of_era doe :
  0 <= doe < 146097 ->
  let yoe := (doe - doe / 1460 + doe / 36524 - doe / 146096) / 365 in
  0 <= yoe < 400 /\ 0 <= doe - (365 * yoe + yoe / 4 - yoe / 100) <= 365.
Proof. intros H yoe. subst yoe. div_lia. Qed.

(** The last day of a cycle of years is the 29th of February. *)
Lemma last_day_leap doe :
  0 <= doe < 146097 ->
  let yoe := (doe - doe / 1460 + doe / 36524 - doe / 146096) / 365 in
  doe - (365 * yoe + yoe / 4 - yoe / 100) = 365 ->
  (yoe + 1) mod 4 = 0 /\ ((yoe + 1) mod 100 <> 0 \/ yoe + 1 = 400).
Proof. intros H yoe Hd. subst yoe. div_lia. Qed.

(** A year that starts in March, by the year of its cycle. *)
Lemma march_year era yoe :
  0 <= yoe < 400 ->
  year_days (yoe + era * 400 + 1) =
    era * 146097 + (365 * yoe + yoe / 4 - yoe / 100) - 719468 + 306.
Proof. unfold year_days. intros. div_lia. Qed.

Definition month_len (y m : Z) : Z := month_days (m + 1) (leap y) - month_days m (leap y).

Definition valid_date (y m d : Z) : Prop := 0 <= m < 12 /\ 1 <= d <= month_len y m.

(** A claim about the months, checked for each of them. *)
Ltac each_month m :=
  let H := fresh in
  assert (m = 0 \/ m = 1 \/ m = 2 \/ m = 3 \/ m = 4 \/ m = 5 \/ m = 6 \/ m = 7 \/ m = 8 \/
    m = 9 \/ m = 10 \/ m = 11) as H by lia;
  repeat destruct H as [H|H]; subst m.

Ltac eval_months :=
  repeat match goal with
  | H : context [month_days ?m ?l] |- _ =>
      let v := eval vm_compute in (month_days m l) in change (month_days m l) with v in H
  | |- context [month_days ?m ?l] =>
      let v := eval vm_compute in (month_days m l) in change (month_days m l) with v
  end.

(** The months of a year that starts in March. *)
Lemma march_month mp (l : bool) :
  0 <= mp < 10 ->
  month_days (mp + 2) l = 59 + (if l then 1 else 0) + (153 * mp + 2) / 5 /\
  month_days (mp + 3) l = 59 + (if l then 1 else 0) + (153 * (mp + 1) + 2) / 5.
Proof. intros. each_month mp; try lia; by destruct l. Qed.

Lemma first_months (l : bool) :
  month_days 0 l = 0 /\ month_days 1 l = 31 /\ month_days 2 l = 59 + (if l then 1 else 0).
Proof. by destruct l. Qed.

(** The date of the day [doy] of the year [y] that starts in March. *)
Lemma march_date y doy days :
  0 <= doy <= 365 -> (doy = 365 -> leap (y + 1) = true) ->
  days = year_days (y + 1) - 306 + doy ->
  let mp := (5 * doy + 2) / 153 in
  let m := if mp <? 10 then mp + 2 else mp - 10 in
  let d := doy - (153 * mp + 2) / 5 + 1 in
  let y' := y + (if m <? 2 then 1 else 0) in
  date_days y' m d = days /\ valid_date y' m d.
Proof.
  intros Hdoy Hlast -> mp. pose proof (year_days_succ y) as Hsucc.
  assert (0 <= mp < 12 /\ 153 * mp <= 5 * doy + 2 < 153 * mp + 153) as [Hmp Hdiv] by (subst mp; div_lia).
  unfold date_days, valid_date, month_len. destruct (Z.ltb_spec mp 10) as [Hlt|Hge]; cbn zeta.
  - destruct (march_month mp (leap y)) as [E1 E2]; [lia|].
    destruct (Z.ltb_spec (mp + 2) 2); [lia|]. rewrite Z.add_0_r.
    replace (mp + 2 + 1) with (mp + 3) by lia. rewrite E1, E2. destruct (leap y); split_and!; div_lia.
  - destruct (first_months (leap (y + 1))) as (M0 & M1 & M2).
    assert (mp = 10 \/ mp = 11) as [-> | ->] by lia;
      [change (10 - 10) with 0|change (11 - 10) with 1]; cbn [Z.ltb Z.compare Pos.compare Pos.compare_cont];
      [change (0 + 1) with 1|change (1 + 1) with 2]; rewrite ?M0, ?M1, ?M2;
      destruct (leap (y + 1)); split_and!; div_lia.
Qed.

Lemma civil_correct days y m d :
  civil days = (y, m, d) -> date_days y m d = days /\ valid_date y m d.
Proof.
  unfold civil. set (z := days + 719468). set (era := z / 146097). set (doe := z mod 146097).
  set (yoe := _ / 365). set (doy := doe - _). cbn zeta. intros [= <- <- <-].
  assert (0 <= doe < 146097 /\ z = era * 146097 + doe) as [Hdoe Hz] by (subst doe era; div_lia).
  destruct (year_of_era doe Hdoe) as [Hyoe Hdoy]. pose proof (last_day_leap doe Hdoe) as Hlast.
  cbn zeta in *. fold yoe in Hyoe, Hdoy, Hlast. fold doy in Hdoy, Hlast.
  pose proof (march_year era yoe Hyoe) as Hy.
  apply march_date; [lia| |lia]. intros H. destruct (Hlast H) as [H4 H100].
  unfold leap. assert ((yoe + era * 400 + 1) mod 4 = 0) as -> by div_lia.
  destruct (Z.eqb_spec ((yoe + era * 400 + 1) mod 100) 0) as [E|E]; cbn; [|done].
  apply Z.eqb_eq. div_lia.
Qed.

(** ** Dates are ordered as their days *)

Lemma date_in_year y m d :
  valid_date y m d -> year_days y <= date_days y m d < year_days (y + 1).
Proof.
  rewrite year_days_succ. unfold date_days, valid_date, month_len. intros [Hm Hd].
  destruct (leap y); each_month m; eval_months; lia.
Qed.

Lemma year_days_mono y1 y2 : y1 <= y2 -> year_days y1 <= year_days y2.
Proof. unfold year_days. intros. div_lia. Qed.

Lemma date_days_inj y1 m1 d1 y2 m2 d2 :
  valid_date y1 m1 d1 -> valid_date y2 m2 d2 ->
  date_days y1 m1 d1 = date_days y2 m2 d2 -> y1 = y2 /\ m1 = m2 /\ d1 = d2.
Proof.
  intros H1 H2 He. pose proof (date_in_year _ _ _ H1). pose proof (date_in_year _ _ _ H2).
  assert (y1 = y2) as ->.
  { destruct (Z.lt_trichotomy y1 y2) as [?|[?|?]]; [|done|].
    - pose proof (year_days_mono (y1 + 1) y2). lia.
    - pose proof (year_days_mono (y2 + 1) y1). lia. }
  split; [done|]. destruct H1 as [Hm1 Hd1], H2 as [Hm2 Hd2]. unfold date_days, month_len in *.
  assert (month_days m1 (leap y2) + d1 = month_days m2 (leap y2) + d2) as He' by lia. clear He.
  destruct (leap y2); each_month m1; each_month m2; eval_months; lia.
Qed.

(** ** Seconds and broken-down times *)

(** The instant of a date and a time of the day, in UTC. *)
Definition instant (year month day hour min sec : Z) : Z :=
  date_days year (month - 1) day * 86400 + hour * 3600 + min * 60 + sec.

Definition valid_time (hour min sec : Z) : Prop :=
  0 <= hour < 24 /\ 0 <= min < 60 /\ 0 <= sec < 60.

Lemma broken_down_spec t isdst :
  let r := broken_down t isdst in
  timegm r = t /\ tm_isdst r = isdst /\
  valid_date (tm_year r + 1900) (tm_mon r) (tm_mday r) /\ valid_time (tm_hour r) (tm_min r) (tm_sec r).
Proof.
  unfold broken_down. destruct (civil (t / 86400)) as [[y m] d] eqn:Hc.
  apply civil_correct in Hc as [Hd Hv]. unfold timegm, valid_time. cbn.
  rewrite Z.sub_add. rewrite Hd. split_and!; first [done|div_lia].
Qed.

Lemma year_days_lower y : 1970 <= y -> 365 * (y - 1970) <= year_days y.
Proof. unfold year_days. intros. div_lia. Qed.

(** The instants whose year, give or take one, is from 1970 to [n]. *)
Lemma broken_down_representable t isdst n :
  n < 2 ^ 31 -> -3 * 86400 <= t < year_days (n + 2) * 86400 ->
  representable (broken_down t isdst) = Some (broken_down t isdst).
Proof.
  intros Hn Ht. destruct (broken_down_spec t isdst) as (Hg & _ & Hv & Hh). revert Hg Hv Hh.
  generalize (broken_down t isdst). intros r <- Hv (Hh & Hm & Hs). unfold timegm in Ht.
  destruct (date_in_year _ _ _ Hv) as [H1 H2]. unfold representable.
  assert (tm_year r + 1900 < n + 2).
  { apply Z.nle_gt. intros Hle. pose proof (year_days_mono _ _ Hle). lia. }
  assert (1969 <= tm_year r + 1900).
  { apply Z.nlt_ge. intros Hlt. assert (tm_year r + 1900 + 1 <= 1969) as Hle by lia.
    pose proof (year_days_mono _ _ Hle). change (year_days 1969) with (-365) in *. lia. }
  rewrite (proj2 (Z.leb_le _ _)), (proj2 (Z.ltb_lt _ _)) by lia. done.
Qed.

(** A zone whose standard time is [offset] seconds ahead of UTC at all times, less
    than a day, with [shift] more, and as little, while daylight saving time is in
    force.  [mktime] presumes a time to be in daylight saving time when its flag is
    positive, and not when it is zero. *)
Class FixedOffset (tz : zone) (offset shift : Z) : Prop := {
  offset_range : - 86400 < offset < 86400;
  shift_range : - 86400 < shift < 86400;
  offset_fixed : forall t, offset_at tz t = offset + (if in_force tz t then shift else 0);
  mktime_fixed : forall t, mktime tz t = timegm t - offset - (if 0 <? tm_isdst t then shift else 0)
}.

Section Fixed.
Context {tz : zone} {offset shift : Z} `{!FixedOffset tz offset shift}.

Lemma mktime_localtime t n :
  n < 2 ^ 31 -> - 86400 <= t < (year_days (n + 2) - 2) * 86400 ->
  exists r, localtime tz t = Some r /\ mktime tz r = t.
Proof.
  intros Hn Ht. pose proof (offset_range (tz := tz)). pose proof (shift_range (tz := tz)).
  unfold localtime. rewrite offset_fixed.
  set (isdst := if in_force tz t then 1 else 0). set (d := if in_force tz t then shift else 0).
  assert (d = if 0 <? isdst then shift else 0) as Hd by (unfold d, isdst; by destruct (in_force tz t)).
  assert (- 86400 < d < 86400) by (unfold d; destruct (in_force tz t); lia).
  rewrite (broken_down_representable _ isdst n) by lia. eexists. split; [done|].
  destruct (broken_down_spec (t + (offset + d)) isdst) as (E & Hi & _).
  rewrite mktime_fixed, E, Hi, <- Hd. lia.
Qed.

Lemma mktime_gmtime t n :
  n < 2 ^ 31 -> - 86400 <= t < year_days (n + 2) * 86400 ->
  exists r, gmtime t = Some r /\ mktime tz r = t - offset.
Proof.
  intros Hn Ht. unfold gmtime. rewrite (broken_down_representable _ 0 n) by lia.
  eexists. split; [done|]. destruct (broken_down_spec t 0) as (E & Hd & _).
  rewrite mktime_fixed, E, Hd. cbn. lia.
Qed.
End Fixed.

(** The arguments that [os_mktime] accepts: the 31st of every month and a leap
    second included. *)
Definition accepted (year month day hour min sec : Z) : Prop :=
  1970 <= year /\ 1 <= month <= 12 /\ 1 <= day <= 31 /\ 0 <= hour <= 23 /\ 0 <= min <= 59 /\
  0 <= sec <= 60.

Lemma accepted_bounds year month day hour min sec :
  accepted year month day hour min sec ->
  0 <= instant year month day hour min sec <= year_days (year + 1) * 86400.
Proof.
  unfold instant, date_days. intros (Hy & Hm & Hd & Hh & Hmin & Hs).
  pose proof (year_days_succ year). pose proof (year_days_lower year Hy).
  assert (0 <= month - 1 < 12) as Hm' by lia. revert Hm'. generalize (month - 1). intros m Hm'.
  destruct (leap year); each_month m; eval_months; lia.
Qed.

Lemma os_mktime_accepted tz offset shift `{!FixedOffset tz offset shift} year month day hour min sec t :
  year < 2 ^ 31 -> accepted year month day hour min sec ->
  os_mktime tz year month day hour min sec t = (0, instant year month day hour min sec).
Proof.
  intros Hy Ha. pose proof (accepted_bounds _ _ _ _ _ _ Ha) as Hi.
  unfold os_mktime, accepted in *. rewrite !(proj2 (Z.ltb_ge _ _)) by lia. cbn [orb].
  set (i := instant year month day hour min sec) in *.
  assert (mktime tz (MkTm sec min hour day (month - 1) (year - 1900) 0) = i - offset) as ->.
  { rewrite mktime_fixed. unfold timegm. cbn [tm_sec tm_min tm_hour tm_mday tm_mon tm_year tm_isdst].
    rewrite Z.sub_add. change (0 <? 0) with false. unfold i, instant. lia. }
  pose proof (year_days_succ (year + 1)) as Hs. rewrite <- Z.add_assoc in Hs.
  change (1 + 1) with 2 in Hs.
  pose proof (offset_range (tz := tz)).
  assert (- 86400 <= i - offset < (year_days (year + 2) - 2) * 86400) as Hb
    by (destruct (leap (year + 1)); lia).
  destruct (mktime_localtime _ year Hy Hb) as (r1 & -> & ->).
  destruct (mktime_gmtime (i - offset) year Hy ltac:(lia)) as (r2 & -> & ->). f_equal. lia.
Qed.

Lemma os_mktime_rejected tz year month day hour min sec t :
  ~ accepted year month day hour min sec -> os_mktime tz year month day hour min sec t = (-1, t).
Proof.
  intros Ha. unfold os_mktime.
  match goal with |- (if ?b then _ else _) = _ => destruct b eqn:Hb end; [done|].
  destruct Ha. unfold accepted. repeat apply orb_false_iff in Hb as [Hb ?].
  repeat match goal with H : (_ <? _) = false |- _ => apply Z.ltb_ge in H end. lia.
Qed.

Lemma gmtime_instant y m d hour min sec tm :
  valid_date y (m - 1) d -> valid_time hour min sec -> - 2 ^ 31 <= y - 1900 < 2 ^ 31 ->
  os_gmtime (instant y m d hour min sec) tm = (0, MkOsTm sec min hour d m y).
Proof.
  intros Hv (Hh & Hm & Hs) Hy. unfold os_gmtime, gmtime.
  set (t := instant y m d hour min sec). unfold broken_down.
  destruct (civil (t / 86400)) as [[y' m'] d'] eqn:Hc. apply civil_correct in Hc as [Hd Hv'].
  assert (date_days y (m - 1) d = t / 86400) as Hday by (subst t; unfold instant; div_lia).
  assert (t mod 86400 = hour * 3600 + min * 60 + sec) as -> by (subst t; unfold instant; div_lia).
  rewrite <- Hday in Hd. destruct (date_days_inj _ _ _ _ _ _ Hv' Hv Hd) as (-> & -> & ->).
  unfold representable. cbn [tm_year].
  rewrite (proj2 (Z.leb_le _ _)), (proj2 (Z.ltb_lt _ _)) by lia. cbn.
  rewrite !Z.sub_add. do 2 f_equal; div_lia.
Qed.

(** Seconds since the Epoch are split into the date and time of the Gregorian
    calendar that stands for them, with all fields in range. *)
Theorem os_gmtime_spec t tm :
  - 2 ^ 31 * 86400 <= t < 2 ^ 31 * 86400 ->
  exists r, os_gmtime t tm = (0, r) /\
    instant (o_year r) (o_month r) (o_day r) (o_hour r) (o_min r) (o_sec r) = t /\
    valid_date (o_year r) (o_month r - 1) (o_day r) /\ valid_time (o_hour r) (o_min r) (o_sec r).
Proof.
  intros Ht. destruct (broken_down_spec t 0) as (Hg & _ & Hv & Htm). revert Hg Hv Htm.
  generalize (broken_down t 0). intros r Hg Hv Htm.
  assert (instant (tm_year r + 1900) (tm_mon r + 1) (tm_mday r) (tm_hour r) (tm_min r) (tm_sec r) = t)
    as Hi by (unfold instant; by rewrite Z.add_simpl_r).
  pose proof Hv as Hv'. rewrite <- (Z.add_simpl_r (tm_mon r) 1) in Hv'.
  eexists. split; [rewrite <- Hi; apply gmtime_instant; [done|done|]|by cbn].
  destruct (date_in_year _ _ _ Hv) as [H1 H2]. destruct Htm as (? & ? & ?).
  unfold timegm, year_days in *. div_lia.
Qed.

Lemma valid_accepted year month day hour min sec :
  1970 <= year -> valid_date year (month - 1) day -> valid_time hour min sec ->
  accepted year month day hour min sec.
Proof.
  intros Hy [Hm Hd] (? & ? & ?). unfold accepted, month_len in *.
  assert (day <= 31); [|lia]. revert Hm Hd. generalize (month - 1). intros m Hm Hd.
  destruct (leap year); each_month m; eval_months; lia.
Qed.

(** Moscow in the year 2014: four hours ahead of UTC, and from the 25th of October,
    22:00 UTC, on three, without daylight saving time.  [mktime] takes the first of
    two instants with the same local time. *)
Definition moscow_change : Z := instant 2014 10 25 22 0 0.

Definition moscow : zone := MkZone
  (fun t => if t <? moscow_change then 4 * 3600 else 3 * 3600)
  (fun _ => false)
  (fun t => if timegm t - 4 * 3600 <? moscow_change then timegm t - 4 * 3600 else timegm t - 3 * 3600).

(** [mktime] undoes [localtime], but for the hour that comes twice. *)
Lemma moscow_mktime t r :
  localtime moscow t = Some r -> ~ (moscow_change <= t < moscow_change + 3600) -> mktime moscow r = t.
Proof.
  unfold localtime, representable, moscow, moscow_change. set (c := instant 2014 10 25 22 0 0).
  cbn [offset_at in_force mktime]. intros Hr Ht. destruct (_ && _); [|done]. injection Hr as <-.
  rewrite (proj1 (broken_down_spec _ 0)).
  destruct (Z.ltb_spec t c); [rewrite (proj2 (Z.ltb_lt _ _)) by lia|rewrite (proj2 (Z.ltb_ge _ _)) by lia]; lia.
Qed.

(** C28: In a time zone whose standard time has one constant offset from UTC, with or
    without daylight saving time, a date and time within the accepted ranges is
    converted to the seconds since the Epoch in UTC, overflowing days included; anything
    else is refused and the result left alone. Where the standard offset has changed the
    result can be wrong: in Moscow, 03:00 on 26 October 2014 is converted to 04:00. *)
Theorem os_mktime_spec tz offset shift `{!FixedOffset tz offset shift} year month day hour min sec t :
  year < 2 ^ 31 ->
  (accepted year month day hour min sec ->
     os_mktime tz year month day hour min sec t = (0, instant year month day hour min sec)) /\
  (~ accepted year month day hour min sec ->
     os_mktime tz year month day hour min sec t = (-1, t)) /\
  os_mktime moscow 2014 10 26 3 0 0 t = (0, instant 2014 10 26 4 0 0).
Proof.
  intros. split_and!; [intros; by eapply os_mktime_accepted|intros; by apply os_mktime_rejected|].
  unfold os_mktime. cbn [Z.ltb Z.compare orb]. f_equal.
Qed.

(** C29: Converting a valid date and time to seconds, in any time zone whose standard
    time has one constant offset from UTC, and back gives the same date and time. *)
Theorem os_mktime_gmtime tz offset shift `{!FixedOffset tz offset shift} year month day hour min sec t tm :
  1970 <= year < 2 ^ 31 -> valid_date year (month - 1) day -> valid_time hour min sec ->
  exists t', os_mktime tz year month day hour min sec t = (0, t') /\
    os_gmtime t' tm = (0, MkOsTm sec min hour day month year).
Proof.
  intros [Hy1 Hy2] Hv Ht. eexists. split; [eapply os_mktime_accepted; [done|done|by apply valid_accepted]|].
  apply gmtime_instant; [done|done|lia].
Qed.
