(* ===== verification/OsStr.v ===== *)
(** * Strings: os_strlcpy and the C library's snprintf and strncmp

    [os_strlcpy] (os_unix.c) at the level of the two memory objects it walks
    through; [snprintf] and [strncmp] as the C library defines them, for the
    uses the program makes of them.  [None] is an access outside an object. *)

From S2P Require Export Prelude.

(** A store into the memory object [buf]. *)
Definition store (buf : bytes) (i : nat) (c : byte) : option bytes :=
  if decide (i < length buf)%nat then Some (<[i := c]> buf) else None.

(** [memcpy(buf + off, d, len)], and what [recv] does to its buffer. *)
Definition store_bytes (buf : bytes) (off : nat) (d : bytes) : option bytes :=
  if decide (off + length d <= length buf)%nat then
    Some (take off buf ++ d ++ drop (off + length d) buf)
  else None.

(** The loop that copies while [--left] is not zero and stops after a NUL: the source
    pointer is the rest [s] of the source object, [d] is the destination index
    and [n] the number of source bytes read.  The result carries the final
    [left]. *)
Fixpoint strlcpy_copy (lft : nat) (dest : bytes) (d : nat) (s : bytes) (n : nat)
    : option (bytes * nat * bytes * nat * nat) :=
  match lft with
  | O => None
  | S lft =>
      if decide (lft = 0%nat) then Some (dest, d, s, n, 0%nat)
      else
        match s with
        | [] => None
        | c :: s =>
            match store dest d c with
            | None => None
            | Some dest =>
                if decide (c = nul) then Some (dest, S d, s, S n, lft)
                else strlcpy_copy lft dest (S d) s (S n)
            end
        end
  end.

(** The loop that looks for the end of the source string: the number of source
    bytes read in the end. *)
Fixpoint strlcpy_scan (s : bytes) (n : nat) : option nat :=
  match s with
  | [] => None
  | c :: s => if decide (c = nul) then Some (S n) else strlcpy_scan s (S n)
  end.

(** The whole function: the destination object afterwards and the result. *)
Definition os_strlcpy (dest src : bytes) (siz : nat) : option (bytes * nat) :=
  let finish lft dest d s n :=
    if decide (lft = 0%nat) then
      match (if decide (siz <> 0%nat) then store dest d nul else Some dest) with
      | None => None
      | Some dest =>
          match strlcpy_scan s n with
          | None => None
          | Some n => Some (dest, n - 1)%nat
          end
      end
    else Some (dest, n - 1)%nat in
  if decide (siz = 0%nat) then finish 0%nat dest 0%nat src 0%nat
  else
    match strlcpy_copy siz dest 0%nat src 0%nat with
    | None => None
    | Some (dest, d, s, n, lft) => finish lft dest d s n
    end.

(** [snprintf(buf, size, ...)] whose formatted text is [text]: the object
    afterwards and the result. *)
Definition snprintf (buf : bytes) (size : nat) (text : bytes) : option (bytes * Z) :=
  if decide (size <= length buf)%nat then
    Some (if decide (size = 0%nat) then buf else put_cstr buf text (size - 1),
          Z.of_nat (length text))
  else None.

(** [strncmp(s1, s2, n)] on the contents of two C strings. *)
Fixpoint os_strncmp (s1 s2 : bytes) (n : nat) : Z :=
  match n with
  | O => 0
  | S n =>
      let c1 := hd nul s1 in
      let c2 := hd nul s2 in
      if decide (c1 = c2) then
        if decide (c1 = nul) then 0 else os_strncmp (tl s1) (tl s2) n
      else byte.unsigned c1 - byte.unsigned c2
  end.

(** ** Properties *)

Lemma strlcpy_scan_spec str junk n :
  nul_free str -> strlcpy_scan (str ++ nul :: junk) n = Some (n + S (length str))%nat.
Proof.
  intros H. revert n. induction H as [|c str Hc _ IH]; intros n; cbn.
  - f_equal. lia.
  - destruct (decide (c = nul)); [done|]. rewrite IH. f_equal. lia.
Qed.

Lemma store_app done_ x tail c :
  store (done_ ++ x :: tail) (length done_) c = Some (done_ ++ c :: tail).
Proof.
  unfold store. rewrite length_app. cbn. rewrite decide_True by lia.
  rewrite insert_app_r_alt by lia. by rewrite Nat.sub_diag.
Qed.

Lemma store_bytes_0 buf d :
  (length d <= length buf)%nat -> store_bytes buf 0 d = Some (d ++ drop (length d) buf).
Proof. intros. unfold store_bytes. by rewrite decide_True by (cbn; lia). Qed.

Lemma take_store buf n c buf' : store buf n c = Some buf' -> take n buf' = take n buf.
Proof. unfold store. case_decide; [|done]. intros [= <-]. by rewrite take_insert_ge. Qed.

Lemma length_store buf n c buf' : store buf n c = Some buf' -> length buf' = length buf.
Proof. unfold store. case_decide; [|done]. intros [= <-]. apply length_insert. Qed.

Lemma store_in buf n c : (n < length buf)%nat -> store buf n c = Some (<[n := c]> buf).
Proof. intros. unfold store. by rewrite decide_True. Qed.

Lemma strlcpy_copy_S lft dest d c s n :
  strlcpy_copy (S (S lft)) dest d (c :: s) n =
  match store dest d c with
  | None => None
  | Some dest =>
      if decide (c = nul) then Some (dest, S d, s, S n, S lft)
      else strlcpy_copy (S lft) dest (S d) s (S n)
  end.
Proof. reflexivity. Qed.

(** The copy loop has stored the first [left] characters, or the whole string
    with its NUL when that is shorter. *)
Lemma strlcpy_copy_spec lft done_ tail str junk n :
  nul_free str -> (lft <= length tail)%nat ->
  strlcpy_copy (S lft) (done_ ++ tail) (length done_) (str ++ nul :: junk) n =
  if decide (length str < lft)%nat then
    Some (done_ ++ str ++ nul :: drop (S (length str)) tail, length done_ + S (length str),
          junk, n + S (length str), lft - length str)%nat
  else
    Some (done_ ++ take lft str ++ drop lft tail, length done_ + lft,
          drop lft str ++ nul :: junk, n + lft, 0)%nat.
Proof.
  intros Hs. revert lft done_ tail n.
  induction Hs as [|c str Hc Hs IH]; intros [|lft] done_ tail n Hl;
    try (cbn; rewrite ?drop_0, !Nat.add_0_r; done);
    (destruct tail as [|x tail]; [cbn in Hl; lia|]); cbn [app];
    rewrite strlcpy_copy_S, store_app.
  - repeat case_decide; try done; try (cbn in *; lia). cbn [length app drop]. rewrite drop_0. tuple_eq.
  - destruct (decide (c = nul)) as [|_]; [done|].
    rewrite (cons_middle c done_ tail), (app_assoc done_ [c] tail).
    replace (S (length done_)) with (length (done_ ++ [c])) by (rewrite length_app; cbn; lia).
    cbn in Hl. rewrite IH by lia. rewrite length_app. cbn [length take drop].
    destruct (decide (length str < lft)%nat), (decide (S (length str) < S lft)%nat); try lia;
      rewrite <- app_assoc; tuple_eq.
Qed.

(** The destination afterwards, and the length of the source as the result. *)
Lemma os_strlcpy_result dest str junk siz :
  nul_free str -> (siz <= length dest)%nat ->
  os_strlcpy dest (str ++ nul :: junk) siz =
    Some (if decide (siz = 0%nat) then dest else put_cstr dest str (siz - 1), length str).
Proof.
  intros Hs Hl. unfold os_strlcpy. destruct siz as [|lft].
  { rewrite !decide_True by done. rewrite decide_False by auto.
    rewrite strlcpy_scan_spec by done. tuple_eq. }
  rewrite (decide_False (P := S lft = 0%nat)) by done.
  pose proof (strlcpy_copy_spec lft [] dest str junk 0 Hs ltac:(lia)) as Hc.
  cbn [app length Nat.add] in Hc. rewrite Hc.
  rewrite (decide_False (P := S lft = 0%nat)) by done.
  replace (S lft - 1)%nat with lft by lia. unfold put_cstr.
  destruct (decide (length str < lft)%nat).
  - rewrite decide_False by lia. rewrite take_ge by lia. cbn [app]. tuple_eq.
  - rewrite (decide_True (P := 0%nat = 0%nat)) by done.
    rewrite decide_True by done. rewrite length_take, Nat.min_l by lia.
    destruct (drop lft dest) as [|x tail] eqn:Hd.
    { apply (f_equal length) in Hd. rewrite length_drop in Hd. cbn in Hd. lia. }
    assert (length (take lft str) = lft) as Hlen by (rewrite length_take; lia).
    rewrite <- Hlen at 2. rewrite store_app.
    rewrite strlcpy_scan_spec by (by apply Forall_drop). rewrite length_drop.
    replace (drop (S lft) dest) with tail; [tuple_eq|].
    replace (S lft) with (lft + 1)%nat by lia. by rewrite <- drop_drop, Hd.
Qed.

(** C30: os_strlcpy answers the length of the source, writes a NUL-terminated prefix of
    it of at most siz - 1 bytes, changes nothing behind the terminator, and the copy is
    complete exactly when the length is below siz. *)
Theorem os_strlcpy_spec dest str junk siz :
  nul_free str -> (siz <= length dest)%nat ->
  exists dest', os_strlcpy dest (str ++ nul :: junk) siz = Some (dest', length str) /\
    length dest' = length dest /\
    (siz = 0%nat -> dest' = dest) /\
    (siz <> 0%nat -> cstr dest' = take (siz - 1) str /\
       drop (S (length (cstr dest'))) dest' = drop (S (length (cstr dest'))) dest /\
       (cstr dest' = str <-> (length str < siz)%nat)).
Proof.
  intros Hs Hl. rewrite os_strlcpy_result by done. eexists. split; [done|].
  assert (length (take (siz - 1) str) <= siz - 1)%nat as Ht by (rewrite length_take; lia).
  case_decide as H0; [split_and!; [done|done|done]|].
  split; [apply length_put_cstr; lia|]. split; [done|]. intros _. rewrite cstr_put_cstr by done.
  split_and!; [done| |].
  - unfold put_cstr. rewrite (cons_middle nul), app_assoc.
    apply drop_app_length'. rewrite length_app. cbn. lia.
  - split; [intros He; apply (f_equal length) in He; rewrite length_take in He; lia|].
    intros. apply take_ge. lia.
Qed.

(** An object that holds no NUL up to its end is read past its end. *)
Lemma strlcpy_scan_unterminated s n : nul_free s -> strlcpy_scan s n = None.
Proof.
  intros H. revert n. induction H as [|c s Hc _ IH]; intros n; cbn; [done|].
  destruct (decide (c = nul)); [done|]. apply IH.
Qed.

Lemma os_strncmp_prefix p s n :
  nul_free p -> length p = n -> (os_strncmp s p n = 0)%Z <-> exists r, s = p ++ r.
Proof.
  intros Hp. revert s n. induction Hp as [|c p Hc _ IH]; intros s n <-; cbn.
  - split; [by exists s|done].
  - destruct (decide (hd nul s = c)) as [He|He].
    + destruct (decide (hd nul s = nul)); [congruence|].
      rewrite IH by done. destruct s as [|c' s]; cbn in *; [congruence|]. subst c'.
      split; intros [r Hr]; exists r; congruence.
    + split.
      * intros H. destruct He. apply byte.unsigned_inj. lia.
      * intros [r ->]. by destruct He.
Qed.
