(* ===== verification/OsTrace.v ===== *)
(** * os_unix.c: the tracing allocator

    The [WPA_TRACE] build's [os_malloc], [os_realloc], [os_free], [os_zalloc],
    [os_strdup] and [os_program_deinit]: every block has a header with a magic
    number and is on a list, so that leaks and bad releases are reported.

    The list is that of list.h, an interface here ([DlList]); [malloc] is a
    parameter that chooses a block by the state of memory.  Only blocks that are
    allocated can be read or written.  The state is a state monad with failure:
    [abort], and behaviour that C does not define, such as the use of a block
    after its release. *)

From stdpp Require Import gmap.
From S2P Require Export OsStr.
Local Open Scope Z_scope.

Definition ALLOC_MAGIC : Z := 0xa84ef1b2.
Definition FREED_MAGIC : Z := 0x67fd487a.

(** A block, at the address of its header; [body] is what follows the header. *)
Record os_alloc_trace : Type := MkAlloc { magic : Z; len : Z; body : bytes }.

(** Messages and calls of the trace library, in the order of the calls. *)
Inductive trace_call : Type :=
| InvalidMagic (a magic : Z) (already_freed : bool)
| Show (title : bytes)
| Record_ (a : Z)
| CheckRef (ptr : Z)
| LeakInvalid (a magic len : Z)
| Leak (a len : Z)
| Dump (a : Z)
| Total (n : Z).

(** The doubly linked list of list.h. *)
Class DlList (L : Type) : Type := {
  dl_list_init : L;
  dl_list_add : L -> Z -> L;
  dl_list_del : L -> Z -> L;
  dl_list_items : L -> list Z
}.

Class DlListLaws (L : Type) `{!DlList L} : Prop := {
  items_init : dl_list_items dl_list_init = [];
  items_add : forall l a, dl_list_items (dl_list_add l a) = a :: dl_list_items l;
  items_del : forall l a, dl_list_items (dl_list_del l a) = filter (fun x => x <> a) (dl_list_items l)
}.

(** ** The monad *)

Record tstate (L : Type) : Type := MkTstate {
  blocks : gmap Z os_alloc_trace;   (* allocated and not released *)
  alloc_list : L;
  calls : list trace_call
}.
Arguments MkTstate {L} _ _ _.
Arguments blocks {L} _.
Arguments alloc_list {L} _.
Arguments calls {L} _.

Inductive tres (L A : Type) : Type :=
| Ok (a : A) (s : tstate L)
| Aborted (s : tstate L)
| Undefined.
Arguments Ok {L A} _ _.
Arguments Aborted {L A} _.
Arguments Undefined {L A}.

Definition traced (L A : Type) : Type := tstate L -> tres L A.
Definition tret {L A} (a : A) : traced L A := fun s => Ok a s.
Definition tbind {L A B} (m : traced L A) (k : A -> traced L B) : traced L B := fun s =>
  match m s with
  | Ok a s => k a s
  | Aborted s => Aborted s
  | Undefined => Undefined
  end.
Definition tget {L} : traced L (tstate L) := fun s => Ok s s.
Definition tmodify {L} (f : tstate L -> tstate L) : traced L unit := fun s => Ok tt (f s).
Definition tabort {L A} : traced L A := fun s => Aborted s.
Definition tundefined {L A} : traced L A := fun _ => Undefined.

Declare Scope trace_scope.
Delimit Scope trace_scope with trace.
Notation "'let!' x ':=' m 'in' k" := (tbind m (fun x => k))
  (at level 10, x name, m at level 100, k at level 200) : trace_scope.
Notation "m ;! k" := (tbind m (fun _ => k)) (at level 100, right associativity) : trace_scope.
Local Open Scope trace_scope.

Definition with_blocks {L} (b : gmap Z os_alloc_trace) (s : tstate L) : tstate L :=
  MkTstate b (alloc_list s) (calls s).
Definition with_list {L} (l : L) (s : tstate L) : tstate L :=
  MkTstate (blocks s) l (calls s).
Definition tcall {L} (c : trace_call) : traced L unit := tmodify (fun s =>
  MkTstate (blocks s) (alloc_list s) (calls s ++ [c])).

Section Allocator.
Context {L : Type} `{!DlList L}.

(** [sizeof(struct os_alloc_trace)]. *)
Context (hdr : nat).

(** [malloc(n)] chooses an address and finds [n] bytes of whatever there is. *)
Context (malloc : gmap Z os_alloc_trace -> Z -> option (Z * bytes)).

(** A block can be read as long as it is allocated. *)
Definition read_block (a : Z) : traced L os_alloc_trace :=
  let! s := tget in
  match blocks s !! a with Some b => tret b | None => tundefined end.

Definition write_block (a : Z) (b : os_alloc_trace) : traced L unit :=
  let! _ := read_block a in tmodify (fun s => with_blocks (<[a := b]> (blocks s)) s).

(** A pointer is the address after the header, [None] the null pointer. *)
Definition os_malloc (size : Z) : traced L (option Z) :=
  let! s := tget in
  match malloc (blocks s) ((Z.of_nat hdr + size) mod 2 ^ 64) with
  | None => tret None
  | Some (a, mem) =>
      if (length mem <? hdr)%nat then tundefined
      else
        tmodify (fun s => with_blocks (<[a := MkAlloc ALLOC_MAGIC size (drop hdr mem)]> (blocks s)) s) ;!
        tmodify (fun s => with_list (dl_list_add (alloc_list s) a) s) ;!
        tcall (Record_ a) ;!
        tret (Some (a + Z.of_nat hdr))
  end.

(** [what] is the name of the call in the messages. *)
Definition invalid {A} (what : bytes) (a m : Z) : traced L A :=
  tcall (InvalidMagic a m (m =? FREED_MAGIC)) ;!
  tcall (Show (bs "Invalid " ++ what ++ bs "() call")) ;!
  tabort.

Definition os_free (ptr : option Z) : traced L unit :=
  match ptr with
  | None => tret tt
  | Some ptr =>
      let a := ptr - Z.of_nat hdr in
      let! b := read_block a in
      if negb (magic b =? ALLOC_MAGIC) then invalid (bs "os_free") a (magic b)
      else
        tmodify (fun s => with_list (dl_list_del (alloc_list s) a) s) ;!
        write_block a (MkAlloc FREED_MAGIC (len b) (body b)) ;!
        tcall (CheckRef ptr) ;!
        tmodify (fun s => with_blocks (delete a (blocks s)) s)
  end.

(** [memcpy(ptr, d, length d)] into the block of [ptr]. *)
Definition write_body (ptr : Z) (d : bytes) : traced L unit :=
  let! b := read_block (ptr - Z.of_nat hdr) in
  match store_bytes (body b) 0 d with
  | Some body' => write_block (ptr - Z.of_nat hdr) (MkAlloc (magic b) (len b) body')
  | None => tundefined
  end.

Definition os_realloc (ptr : option Z) (size : Z) : traced L (option Z) :=
  match ptr with
  | None => os_malloc size
  | Some ptr =>
      let a := ptr - Z.of_nat hdr in
      let! b := read_block a in
      if negb (magic b =? ALLOC_MAGIC) then invalid (bs "os_realloc") a (magic b)
      else
        let! n := os_malloc size in
        match n with
        | None => tret None
        | Some n =>
            let! b := read_block a in
            let copy_len := if size <? len b then size else len b in
            if (Z.of_nat (length (body b)) <? copy_len) then tundefined
            else
              write_body n (take (Z.to_nat copy_len) (body b)) ;!
              os_free (Some ptr) ;!
              tret (Some n)
        end
  end.

Definition os_zalloc (size : Z) : traced L (option Z) :=
  let! ptr := os_malloc size in
  match ptr with
  | Some ptr => write_body ptr (zeros (Z.to_nat size)) ;! tret (Some ptr)
  | None => tret None
  end.

(** The argument is the contents of the string. *)
Definition os_strdup (s : bytes) : traced L (option Z) :=
  let! d := os_malloc (Z.of_nat (length s) + 1) in
  match d with
  | None => tret None
  | Some d => write_body d (s ++ [nul]) ;! tret (Some d)
  end.

Definition os_program_init : traced L Z :=
  tmodify (fun s => with_list dl_list_init s) ;! tret 0.

(** The loop over the list, with the [total] so far. *)
Fixpoint report (items : list Z) (total : Z) : traced L Z :=
  match items with
  | [] => tret total
  | a :: items =>
      let! b := read_block a in
      let total := (total + len b) mod 2 ^ 64 in
      (if negb (magic b =? ALLOC_MAGIC) then tcall (LeakInvalid a (magic b) (len b))
       else tcall (Leak a (len b)) ;! tcall (Dump a)) ;!
      report items total
  end.

Definition os_program_deinit : traced L unit :=
  let! s := tget in
  let! total := report (dl_list_items (alloc_list s)) 0 in
  if negb (total =? 0) then tcall (Total total) else tret tt.
End Allocator.

(** ** Specification *)

(** The operation ends normally, and so. *)
Definition runs {L A} (m : traced L A) (s : tstate L) (Q : A -> tstate L -> Prop) : Prop :=
  match m s with Ok a s' => Q a s' | Aborted _ | Undefined => False end.

Lemma runs_bind {L A B} (m : traced L A) (k : A -> traced L B) s Q :
  runs m s (fun a s' => runs (k a) s' Q) -> runs (let! x := m in k x) s Q.
Proof. unfold runs, tbind. by destruct (m s). Qed.

Lemma runs_mono {L A} (m : traced L A) s (Q Q' : A -> tstate L -> Prop) :
  runs m s Q -> (forall a s', Q a s' -> Q' a s') -> runs m s Q'.
Proof. unfold runs. destruct (m s); auto. Qed.

Lemma runs_read_block {L} a b (s : tstate L) Q :
  blocks s !! a = Some b -> Q b s -> runs (read_block a) s Q.
Proof. intros Hb HQ. unfold runs, read_block, tbind, tget. by rewrite Hb. Qed.

Section Laws.
Context {L : Type} `{!DlList L} `{!DlListLaws L}.
Context (hdr : nat) (malloc : gmap Z os_alloc_trace -> Z -> option (Z * bytes)).

(** What [malloc] promises: a block of its own, of the size asked for. *)
Class MallocLaws : Prop := {
  malloc_fresh : forall h n a mem, malloc h n = Some (a, mem) -> h !! a = None;
  malloc_size : forall h n a mem, malloc h n = Some (a, mem) -> Z.of_nat (length mem) = n
}.
Context {malloc_laws : MallocLaws}.

(** The list holds the blocks, each once, and their headers are sound. *)
Definition sound (b : os_alloc_trace) : Prop :=
  magic b = ALLOC_MAGIC /\ Z.of_nat (length (body b)) = len b.

Definition wf (s : tstate L) : Prop :=
  NoDup (dl_list_items (alloc_list s)) /\
  (forall a, a ∈ dl_list_items (alloc_list s) <-> is_Some (blocks s !! a)) /\
  map_Forall (fun _ => sound) (blocks s).

(** The abstract view: what the program keeps in its blocks. *)
Definition contents (s : tstate L) : gmap Z bytes := body <$> blocks s.

Definition fits (size : Z) : Prop := 0 <= size /\ Z.of_nat hdr + size < 2 ^ 64.

(** An allocation: nothing, or a new block whose contents are [P]. *)
Definition alloc_post (size : Z) (P : bytes -> Prop) (s : tstate L) (p : option Z) (s' : tstate L)
    : Prop :=
  match p with
  | None => s' = s
  | Some ptr => exists a d, ptr = a + Z.of_nat hdr /\ contents s !! a = None /\
      contents s' = <[a := d]> (contents s) /\ Z.of_nat (length d) = size /\ P d /\
      wf s' /\ calls s' = calls s ++ [Record_ a]
  end.

Lemma lookup_contents s a : contents s !! a = body <$> blocks s !! a.
Proof. apply lookup_fmap. Qed.

(** The header of a new block. *)
Lemma runs_os_malloc size s (Q : option Z -> tstate L -> Prop) :
  wf s -> fits size ->
  Q None s ->
  (forall a d, blocks s !! a = None -> Z.of_nat (length d) = size ->
     let s' := MkTstate (<[a := MkAlloc ALLOC_MAGIC size d]> (blocks s))
       (dl_list_add (alloc_list s) a) (calls s ++ [Record_ a]) in
     wf s' -> Q (Some (a + Z.of_nat hdr)) s') ->
  runs (os_malloc hdr malloc size) s Q.
Proof.
  intros (Hnd & Hin & Hs) [H0 Hlt] HN HQ. unfold os_malloc, runs, tbind, tget.
  rewrite Z.mod_small by lia. destruct (malloc _ _) as [[a mem]|] eqn:Hm; [|done].
  pose proof (malloc_fresh _ _ _ _ Hm) as Hf. pose proof (malloc_size _ _ _ _ Hm) as Hl.
  destruct (Nat.ltb_spec (length mem) hdr); [lia|]. cbn.
  apply HQ; [done|rewrite length_drop; lia|]. unfold wf. cbn. rewrite items_add. split_and!.
  - constructor; [|done]. rewrite Hin, Hf. by intros [? ?].
  - intros x. rewrite elem_of_cons, Hin, lookup_insert_is_Some'. naive_solver.
  - apply map_Forall_insert_2; [|done]. split; [done|]. cbn. rewrite length_drop. lia.
Qed.

Lemma contents_insert s a b l c :
  contents (MkTstate (<[a := b]> (blocks s)) l c) = <[a := body b]> (contents s).
Proof. apply fmap_insert. Qed.

(** Storing into a block. *)
Lemma runs_write_body a d b s (Q : unit -> tstate L -> Prop) :
  wf s -> blocks s !! a = Some b -> (length d <= length (body b))%nat ->
  (let d' := d ++ drop (length d) (body b) in
   let s' := with_blocks (<[a := MkAlloc (magic b) (len b) d']> (blocks s)) s in
   wf s' -> Q tt s') ->
  runs (write_body hdr (a + Z.of_nat hdr) d) s Q.
Proof.
  intros (Hnd & Hin & Hs) Hb Hl HQ. unfold write_body. rewrite Z.add_simpl_r.
  unfold runs, write_block, read_block, tbind, tget, tret. rewrite Hb.
  rewrite store_bytes_0 by done. cbn. rewrite Hb. cbn. apply HQ. split_and!; [done| |]; cbn.
  - intros x. rewrite Hin, lookup_insert_is_Some'. naive_solver.
  - destruct (Hs _ _ Hb) as [Hm Hlen]. apply map_Forall_insert_2; [|done]. split; [done|]. cbn.
    rewrite length_app, length_drop. lia.
Qed.

(** A block that is filled right after its allocation. *)
Lemma alloc_filled size d s (Q : option Z -> tstate L -> Prop) :
  wf s -> fits size -> Z.of_nat (length d) = size ->
  (forall p s', alloc_post size (fun d' => d' = d) s p s' -> Q p s') ->
  runs (let! p := os_malloc hdr malloc size in
        match p with
        | Some ptr => write_body hdr ptr d ;! tret (Some ptr)
        | None => tret None
        end) s Q.
Proof.
  intros Hwf Hf Hd HQ. apply runs_bind, runs_os_malloc; [done|done|by apply HQ|].
  intros a mem Ha Hl s' Hwf'. apply runs_bind.
  eapply (runs_write_body a d); [done|apply lookup_insert_eq|cbn; lia|].
  intros d' s2 Hwf2. apply HQ. exists a, d. subst s2 s' d'.
  split_and!; try done; [by rewrite lookup_contents, Ha|].
  unfold with_blocks. rewrite contents_insert. cbn.
  rewrite drop_ge, app_nil_r by lia. unfold contents at 1. cbn [blocks].
  by rewrite fmap_insert, insert_insert_eq.
Qed.

(** C31: The tracing allocator implements allocation: a new block of the size asked for,
    zeroed for os_zalloc and holding the string for os_strdup, with all other blocks
    unchanged and the list of blocks exact, or the null pointer and no change; provided
    that the size with that of the header is less than 2^64. *)
Theorem trace_alloc_spec size str s :
  wf s ->
  (fits size -> runs (os_malloc hdr malloc size) s (alloc_post size (fun _ => True) s)) /\
  (fits size -> runs (os_zalloc hdr malloc size) s
     (alloc_post size (fun d => d = zeros (Z.to_nat size)) s)) /\
  (fits (Z.of_nat (length str) + 1) -> runs (os_strdup hdr malloc str) s
     (alloc_post (Z.of_nat (length str) + 1) (fun d => d = str ++ [nul]) s)).
Proof.
  intros Hwf. split_and!; intros Hf.
  - apply runs_os_malloc; [done..|]. intros a d Ha Hl s' Hwf'. exists a, d.
    subst s'. rewrite contents_insert, lookup_contents, Ha. done.
  - apply alloc_filled; [done|done| |done]. unfold zeros. rewrite length_replicate.
    destruct Hf. lia.
  - apply alloc_filled; [done|done| |done]. rewrite length_app. cbn. lia.
Qed.

(** The release of a block. *)
Lemma runs_os_free a b s (Q : unit -> tstate L -> Prop) :
  wf s -> blocks s !! a = Some b ->
  (let s' := MkTstate (delete a (blocks s))
     (dl_list_del (alloc_list s) a) (calls s ++ [CheckRef (a + Z.of_nat hdr)]) in
   wf s' -> Q tt s') ->
  runs (os_free hdr (Some (a + Z.of_nat hdr))) s Q.
Proof.
  intros (Hnd & Hin & Hs) Hb HQ. unfold os_free. rewrite Z.add_simpl_r.
  destruct (Hs _ _ Hb) as [Hm Hl].
  unfold runs, write_block, read_block, tbind, tget, tret. rewrite Hb. cbn. rewrite Hm. cbn. rewrite Hb. cbn.
  rewrite delete_insert_eq. apply HQ. unfold wf. cbn. rewrite items_del. split_and!.
  - by apply NoDup_filter.
  - intros x. rewrite list_elem_of_filter, Hin, lookup_delete_is_Some. naive_solver.
  - by apply map_Forall_delete.
Qed.

(** The operation ends the process, with a report of the magic number [m]. *)
Definition stops {A} (op : traced L A) (s : tstate L) (what : bytes) (a m : Z) : Prop :=
  exists s', op s = Aborted s' /\ contents s' = contents s /\
    calls s' = calls s ++ [InvalidMagic a m (m =? FREED_MAGIC); Show (bs "Invalid " ++ what ++ bs "() call")].

Lemma invalid_stops {A} what a m s : stops (invalid (A := A) what a m) s what a m.
Proof. eexists. split; [done|]. split; [done|]. cbn. by rewrite <- app_assoc. Qed.

Lemma read_block_released {A} a (k : os_alloc_trace -> traced L A) s :
  blocks s !! a = None -> tbind (read_block a) k s = Undefined.
Proof. intros Hb. unfold tbind, read_block, tbind, tget. by rewrite Hb. Qed.

Lemma read_block_allocated {A} a b (k : os_alloc_trace -> traced L A) s :
  blocks s !! a = Some b -> tbind (read_block a) k s = k b s.
Proof. intros Hb. unfold tbind, read_block, tbind, tget. by rewrite Hb. Qed.

(** C32: Releasing a block removes it from memory and from the list and leaves the
    others alone, and to release or reallocate it again is undefined, since the magic
    number is read from freed memory; a block whose magic number has been overwritten is
    not released or reallocated: the process stops with a report of that number; the
    null pointer is ignored. *)
Theorem trace_free_spec a b size s :
  blocks s !! a = Some b ->
  os_free hdr None s = Ok tt s /\
  (wf s -> runs (os_free hdr (Some (a + Z.of_nat hdr))) s (fun _ s' =>
    wf s' /\ contents s' = delete a (contents s) /\ contents s !! a = Some (body b) /\
    calls s' = calls s ++ [CheckRef (a + Z.of_nat hdr)] /\
    os_free hdr (Some (a + Z.of_nat hdr)) s' = Undefined /\
    os_realloc hdr malloc (Some (a + Z.of_nat hdr)) size s' = Undefined)) /\
  (magic b <> ALLOC_MAGIC ->
    stops (os_free hdr (Some (a + Z.of_nat hdr))) s (bs "os_free") a (magic b) /\
    stops (os_realloc hdr malloc (Some (a + Z.of_nat hdr)) size) s (bs "os_realloc") a (magic b)).
Proof.
  intros Hb. split; [done|]. split.
  - intros Hwf. apply (runs_os_free a b); [done|done|]. intros s' Hwf'.
    split; [done|]. split; [by apply fmap_delete|]. split; [by rewrite lookup_contents, Hb|].
    split; [done|]. assert (blocks s' !! a = None) as Hd by apply lookup_delete_eq.
    unfold os_free, os_realloc. rewrite Z.add_simpl_r. by rewrite !read_block_released.
  - intros Hm%Z.eqb_neq. unfold stops, os_free, os_realloc. rewrite Z.add_simpl_r.
    rewrite !(read_block_allocated _ b), Hm by done. split; apply invalid_stops.
Qed.

(** C33: Reallocation moves the common prefix of the contents to a new block of the new
    size and releases the old one, or fails and changes nothing; provided that the new
    size with that of the header is less than 2^64. *)
Theorem trace_realloc_spec a b size s :
  wf s -> blocks s !! a = Some b -> fits size ->
  let n := Z.to_nat (Z.min size (len b)) in
  runs (os_realloc hdr malloc (Some (a + Z.of_nat hdr)) size) s (fun p s' =>
    match p with
    | None => s' = s
    | Some ptr => exists a' d, ptr = a' + Z.of_nat hdr /\ contents s !! a' = None /\
        contents s' = <[a' := d]> (delete a (contents s)) /\ Z.of_nat (length d) = size /\
        take n d = take n (body b) /\ wf s'
    end).
Proof.
  intros Hwf Hb Hf n. unfold os_realloc. rewrite Z.add_simpl_r.
  destruct (proj2 (proj2 Hwf) _ _ Hb) as [Hm Hl].
  apply runs_bind, (runs_read_block a b); [done|]. rewrite Hm. change (negb _) with false. cbn iota.
  apply runs_bind, runs_os_malloc; [done|done|done|]. intros a' mem Ha' Hmem s1 Hwf1.
  assert (blocks s1 !! a = Some b) as Hb1 by (cbn; rewrite lookup_insert_ne; naive_solver).
  apply runs_bind, (runs_read_block a b); [done|]. destruct Hf as [H0 _].
  assert ((if size <? len b then size else len b) = Z.min size (len b)) as ->
    by (destruct (Z.ltb_spec size (len b)); lia).
  destruct (Z.ltb_spec (Z.of_nat (length (body b))) (Z.min size (len b))); [lia|].
  fold n. assert (length (take n (body b)) = n) as Hn by (rewrite length_take; lia).
  apply runs_bind. eapply (runs_write_body a'); [done|apply lookup_insert_eq|cbn; lia|].
  intros d s2 Hwf2. apply runs_bind. apply (runs_os_free a b); [done| |].
  { cbn. rewrite lookup_insert_ne by naive_solver. done. }
  intros s3 Hwf3. unfold runs, tret. exists a', d. split; [done|].
  split; [by rewrite lookup_contents, Ha'|]. cbn in d.
  assert (a' <> a) as Hne by naive_solver. split_and!; [| | |done].
  - unfold contents, s3, s2, s1. cbn [blocks with_blocks].
    by rewrite insert_insert_eq, fmap_delete, fmap_insert, delete_insert_ne.
  - subst d. rewrite length_app, length_drop, Hn. lia.
  - subst d. by apply take_app_length'.
Qed.

(** The header and a size that do not fit [size_t] together: the block is smaller
    than the header that is written to it. *)
Lemma os_malloc_wraps size (s : tstate L) a mem :
  Z.of_nat hdr < 2 ^ 64 -> 2 ^ 64 - Z.of_nat hdr <= size < 2 ^ 64 ->
  malloc (blocks s) ((Z.of_nat hdr + size) mod 2 ^ 64) = Some (a, mem) ->
  os_malloc hdr malloc size s = Undefined.
Proof.
  intros Hh Hs Hm. unfold os_malloc, tbind, tget. rewrite Hm.
  pose proof (malloc_size _ _ _ _ Hm) as Hl.
  assert ((Z.of_nat hdr + size) mod 2 ^ 64 = Z.of_nat hdr + size - 2 ^ 64) as Hmod
    by (symmetry; apply (Z.mod_unique_pos _ _ 1); lia).
  destruct (Nat.ltb_spec (length mem) hdr); [done|lia].
Qed.

(** ** Leaks *)

(** What the report says of one block. *)
Definition leak_calls (x : Z * os_alloc_trace) : list trace_call :=
  [Leak (fst x) (len (snd x)); Dump (fst x)].

Definition total_len (l : list (Z * os_alloc_trace)) : Z :=
  foldr Z.add 0 (len ∘ snd <$> l).

Lemma report_spec l total (s : tstate L) :
  Forall (fun x => blocks s !! fst x = Some (snd x) /\ sound (snd x)) l ->
  report l.*1 (total mod 2 ^ 64) s =
    Ok ((total + total_len l) mod 2 ^ 64)
      (MkTstate (blocks s) (alloc_list s) (calls s ++ concat (leak_calls <$> l))).
Proof.
  intros Hl. revert total s Hl. induction l as [|[a b] l IH]; intros total s Hl; cbn.
  - unfold tret. rewrite Z.add_0_r, app_nil_r. by destruct s.
  - apply Forall_cons in Hl as [[Hb [Hm _]] Hl]. cbn in *. unfold tbind, read_block, tbind, tget.
    rewrite Hb. cbn. rewrite Hm. cbn. rewrite Zplus_mod_idemp_l, IH by done. cbn.
    rewrite <- !app_assoc. unfold total_len. cbn. by rewrite Z.add_assoc.
Qed.

(** At the end of the program every block that is still allocated is reported once,
    with its length, and the total is their sum. *)
Theorem trace_leaks_spec (s : tstate L) :
  wf s ->
  exists l s', l ≡ₚ map_to_list (blocks s) /\ os_program_deinit s = Ok tt s' /\
    contents s' = contents s /\
    calls s' = calls s ++ concat (leak_calls <$> l) ++
      (if total_len l mod 2 ^ 64 =? 0 then [] else [Total (total_len l mod 2 ^ 64)]).
Proof.
  intros (Hnd & Hin & Hs).
  assert (exists l : list (Z * os_alloc_trace), l.*1 = dl_list_items (alloc_list s) /\
    Forall (fun x => blocks s !! fst x = Some (snd x) /\ sound (snd x)) l) as (l & Hl & Hall).
  { clear Hnd. assert (forall a, a ∈ dl_list_items (alloc_list s) -> is_Some (blocks s !! a)) as Hitems
      by (intros a; apply Hin). clear Hin. induction (dl_list_items (alloc_list s)) as [|a items IH].
    - by exists [].
    - destruct IH as (l & <- & Hl); [intros; apply Hitems; by constructor|].
      destruct (Hitems a) as [b Hb]; [by constructor|]. exists ((a, b) :: l). split; [done|].
      constructor; [|done]. split; [done|by eapply Hs]. }
  exists l, (MkTstate (blocks s) (alloc_list s) (calls s ++ concat (leak_calls <$> l) ++
    (if total_len l mod 2 ^ 64 =? 0 then [] else [Total (total_len l mod 2 ^ 64)]))).
  split_and!; [| |done|done].
  - apply NoDup_Permutation.
    + apply (NoDup_fmap_1 fst). by rewrite Hl.
    + apply NoDup_map_to_list.
    + intros [a b]. rewrite elem_of_map_to_list. split.
      * intros H. by destruct (proj1 (Forall_forall _ _) Hall _ H).
      * intros Hb. assert (a ∈ l.*1) as Ha by (rewrite Hl, Hin; by eexists).
        apply list_elem_of_fmap in Ha as ([a' b'] & -> & Hx).
        destruct (proj1 (Forall_forall _ _) Hall _ Hx) as [Hb' _]. cbn in *. congruence.
  - unfold os_program_deinit, tbind, tget. rewrite <- Hl. change 0 with (0 mod 2 ^ 64) at 1.
    rewrite (report_spec l 0 s Hall), Z.add_0_l. unfold tcall, tmodify, tret.
    destruct (total_len l mod 2 ^ 64 =? 0); cbn; by rewrite ?app_nil_r, <- ?app_assoc.
Qed.
End Laws.
