(* ===== verification/OsPriv.v ===== *)
(** * os_unix.c: environment, random numbers and privileges

    [os_random], [os_setenv] and [os_unsetenv] in both variants, and the
    ANDROID build of [os_program_init], which drops the privileges of the
    process.  What the calls do is stated by two interfaces: the environment
    as a finite map ([EnvironKernel]) and the credentials of a process
    ([CredKernel]). *)

From S2P Require Export Sys.
From stdpp Require Export gmap.
Local Open Scope Z_scope.
Local Open Scope prog_scope.

Definition os_random : sprog Z := call Random.

Definition os_setenv (name value : bytes) (overwrite : Z) : sprog Z :=
  let* r := call (Setenv name value overwrite) in
  ret (match r with SOk _ => 0 | SErr _ => -1 end).

(** [bsd]: the systems whose [unsetenv] is taken to have no result. *)
Definition os_unsetenv (bsd : bool) (name : bytes) : sprog Z :=
  let* r := call (Unsetenv name) in
  if bsd then ret 0 else ret (match r with SOk _ => 0 | SErr _ => -1 end).

Definition PR_SET_KEEPCAPS : Z := 8.
Definition CAP_SETGID : Z := 6.
Definition CAP_SETUID : Z := 7.
Definition CAP_NET_ADMIN : Z := 12.
Definition CAP_NET_RAW : Z := 13.

(** [os_program_init] of the ANDROID build without the tracing allocator; the
    groups and the user are those of the platform, or [ANDROID_SETGROUPS_OVERRIDE]. *)
Definition android_program_init (groups : list Z) (AID_WIFI : Z) : sprog Z :=
  call (Setgroups groups);;;
  call (Prctl PR_SET_KEEPCAPS 1);;;
  call (Setgid AID_WIFI);;;
  call (Setuid AID_WIFI);;;
  let caps := Z.lor (Z.shiftl 1 CAP_NET_ADMIN) (Z.shiftl 1 CAP_NET_RAW) in
  call (Capset caps caps 0);;;
  ret 0.

(** ** The environment *)

#[export] Instance byte_countable : Countable byte.
Proof. exact (inj_countable Byte.to_N Byte.of_N Byte.of_to_N). Defined.

(** Names that POSIX accepts. *)
Definition valid_name (name : bytes) : bool :=
  bool_decide (name <> []) && forallb (fun c => negb (bool_decide (c = Byte.x3d))) name.

Class EnvironKernel (W : Type) `{K : !Kernel sysE W} (environ : W -> gmap bytes bytes) : Prop := {
  setenv_step : forall w name value overwrite r w',
    kstep (Setenv name value overwrite) w = (r, w') ->
    (exists e, r = SErr e) /\ environ w' = environ w \/
    valid_name name = true /\ r = SOk tt /\
      environ w' = if bool_decide (overwrite = 0) && bool_decide (is_Some (environ w !! name))
                   then environ w else <[name := value]> (environ w);
  unsetenv_step : forall w name r w', kstep (Unsetenv name) w = (r, w') ->
    if valid_name name then r = SOk tt /\ environ w' = delete name (environ w)
    else (exists e, r = SErr e) /\ environ w' = environ w
}.

Section Environment.
Context {W : Type} `{K : !Kernel sysE W} (environ : W -> gmap bytes bytes)
  `{!EnvironKernel W environ}.

(** A variable that has been set is there, with the value unless an older one
    was to be kept; all others are as before. *)
Lemma os_setenv_spec name value overwrite w s tr (r : Z) s' w' :
  exec w s (os_setenv name value overwrite) tr (Val r) s' w' ->
  (r = -1 /\ environ w' = environ w) \/
  (r = 0 /\ (forall n, n <> name -> environ w' !! n = environ w !! n) /\
   environ w' !! name = Some (if bool_decide (overwrite = 0) then default value (environ w !! name)
                              else value)).
Proof.
  intros H. remember (Val r) as o eqn:Ho. revert Ho. exec_wp H. unfold os_setenv.
  wp_steps. destruct (setenv_step (environ := environ) _ _ _ _ _ _ Hk) as [[[e ->] He]|(_ & -> & He)]; intros [= <-];
    [by left|right]. split; [done|]. rewrite He. case_bool_decide; cbn [andb].
  - case_bool_decide as Hs; [destruct Hs as [v Hv]; by rewrite Hv|].
    split; [intros; by rewrite lookup_insert_ne|]. rewrite lookup_insert_eq.
    destruct (environ w !! name) eqn:E; [|done]. by destruct Hs.
  - split; [intros; by rewrite lookup_insert_ne|]. by rewrite lookup_insert_eq.
Qed.

(** On both kinds of systems the variable is gone afterwards if the name is a
    valid one; for other names only the common variant reports the failure. *)
Lemma os_unsetenv_spec bsd name w s tr r s' w' :
  exec w s (os_unsetenv bsd name) tr (Val r) s' w' ->
  environ w' = (if valid_name name then delete name (environ w) else environ w) /\
  (r = 0 <-> bsd = true \/ valid_name name = true).
Proof.
  intros H. remember (Val r) as o eqn:Ho. revert Ho. exec_wp H. unfold os_unsetenv.
  wp_steps. pose proof (unsetenv_step (environ := environ) _ _ _ _ Hk) as Hu.
  destruct bsd, (valid_name name); wp_steps; wp_trace; destruct Hu as [Hu ->];
    (lazymatch type of Hu with x = _ => subst x | _ => destruct Hu as [e ->] end);
    intros [= <-]; (split; [done|]); intuition congruence.
Qed.
End Environment.

(** ** Credentials *)

Record cred : Type := MkCred {
  uid : Z;
  gid : Z;
  groups : list Z;
  keepcaps : bool;
  permitted : Z;
  effective : Z;
  inheritable : Z
}.

(** A set of capabilities is a mask; one is included in another. *)
Definition included (a b : Z) : bool := bool_decide (Z.land a b = a).

(** What the calls do to the credentials, as the Linux manual pages of
    credentials(7) and capabilities(7) describe it: a call changes them in one
    way or fails and changes nothing. *)
Definition attempt (allowed : bool) (c c' : cred) (now : cred) (r : sres unit) : Prop :=
  if allowed then r = SOk tt /\ now = c' else (exists e, r = SErr e) /\ now = c.

Definition with_groups (gs : list Z) (c : cred) : cred :=
  MkCred (uid c) (gid c) gs (keepcaps c) (permitted c) (effective c) (inheritable c).
Definition with_keepcaps (b : bool) (c : cred) : cred :=
  MkCred (uid c) (gid c) (groups c) b (permitted c) (effective c) (inheritable c).
Definition with_gid (g : Z) (c : cred) : cred :=
  MkCred (uid c) g (groups c) (keepcaps c) (permitted c) (effective c) (inheritable c).
Definition with_caps (p e i : Z) (c : cred) : cred :=
  MkCred (uid c) (gid c) (groups c) (keepcaps c) p e i.

(** Leaving the root user clears the effective capabilities, and the permitted
    ones too unless they are kept. *)
Definition with_uid (u : Z) (c : cred) : cred :=
  let leaves := bool_decide (uid c = 0) && negb (bool_decide (u = 0)) in
  MkCred u (gid c) (groups c) (keepcaps c)
    (if leaves && negb (keepcaps c) then 0 else permitted c)
    (if leaves then 0 else effective c) (inheritable c).

Class CredKernel (W : Type) `{K : !Kernel sysE W} (creds : W -> cred) : Prop := {
  setgroups_step : forall w gs r w', kstep (Setgroups gs) w = (r, w') ->
    attempt (Z.testbit (effective (creds w)) CAP_SETGID) (creds w) (with_groups gs (creds w)) (creds w') r;
  keepcaps_step : forall w b r w', kstep (Prctl PR_SET_KEEPCAPS b) w = (r, w') ->
    attempt true (creds w) (with_keepcaps (negb (bool_decide (b = 0))) (creds w)) (creds w') r;
  setgid_step : forall w g r w', kstep (Setgid g) w = (r, w') ->
    attempt (Z.testbit (effective (creds w)) CAP_SETGID || bool_decide (g = gid (creds w)))
      (creds w) (with_gid g (creds w)) (creds w') r;
  setuid_step : forall w u r w', kstep (Setuid u) w = (r, w') ->
    attempt (Z.testbit (effective (creds w)) CAP_SETUID || bool_decide (u = uid (creds w)))
      (creds w) (with_uid u (creds w)) (creds w') r;
  capset_step : forall w e p i r w', kstep (Capset e p i) w = (r, w') ->
    attempt (included p (permitted (creds w)) && included e p && included i (Z.lor (inheritable (creds w)) (permitted (creds w))))
      (creds w) (with_caps p e i (creds w)) (creds w') r
}.

(** The capabilities that the process keeps. *)
Definition net_caps : Z := 2 ^ 12 + 2 ^ 13.

Section Privileges.
Context {W : Type} `{K : !Kernel sysE W} (creds : W -> cred) `{!CredKernel W creds}.

(** The effect of the whole sequence on credentials. *)
Definition attempted (allowed : bool) (f : cred -> cred) (c : cred) : cred := if allowed then f c else c.

Lemma attempt_now allowed c c' now r : attempt allowed c c' now r -> now = if allowed then c' else c.
Proof. by destruct allowed; intros [_ ->]. Qed.

Definition initialised (gs : list Z) (wifi : Z) (c : cred) : cred :=
  let c := attempted (Z.testbit (effective c) CAP_SETGID) (with_groups gs) c in
  let c := with_keepcaps true c in
  let c := attempted (Z.testbit (effective c) CAP_SETGID || bool_decide (wifi = gid c)) (with_gid wifi) c in
  let c := attempted (Z.testbit (effective c) CAP_SETUID || bool_decide (wifi = uid c)) (with_uid wifi) c in
  attempted (included net_caps (permitted c)) (with_caps net_caps net_caps 0) c.

Lemma wp_android_program_init m gs wifi (Q : post Z) w (s : statics) :
  (forall tr w', creds w' = initialised gs wifi (creds w) -> Q tr (Val 0) s w') ->
  wp m (android_program_init gs wifi) Q w s.
Proof.
  intros HQ. unfold android_program_init. wp_steps. wp_trace. apply HQ.
  apply setgroups_step in Hk as Hk%attempt_now. apply keepcaps_step in Hk0 as Hk0%attempt_now.
  apply setgid_step in Hk1 as Hk1%attempt_now. apply setuid_step in Hk2 as Hk2%attempt_now.
  apply capset_step in Hk3 as Hk3%attempt_now. cbn in Hk3.
  assert (forall x, included 0 x = true) as H0 by (intros; apply bool_decide_eq_true, Z.land_0_l).
  change (Z.lor (Z.shiftl 1 CAP_NET_ADMIN) (Z.shiftl 1 CAP_NET_RAW)) with net_caps in *.
  unfold initialised, attempted.
  rewrite Hk3, Hk2, Hk1, Hk0, Hk. rewrite H0, !andb_true_r. done.
Qed.

Lemma included_refl a : included a a = true.
Proof. apply bool_decide_eq_true, Z.land_diag. Qed.

(** A root process gives everything up but the capabilities of the network. *)
Lemma initialised_root gs wifi c :
  wifi <> 0 -> uid c = 0 -> Z.testbit (effective c) CAP_SETGID = true ->
  Z.testbit (effective c) CAP_SETUID = true -> included net_caps (permitted c) = true ->
  initialised gs wifi c = MkCred wifi wifi gs true net_caps net_caps 0.
Proof.
  intros Hw Hu Hg Hs Hn. destruct c as [u g gs0 k p e i]. cbn [uid effective permitted] in *. subst u.
  unfold initialised, attempted.
  repeat (cbn -[Z.testbit included net_caps bool_decide]; rewrite ?Hg, ?Hs; cbn [orb]).
  unfold with_uid. rewrite (bool_decide_eq_true_2 (0 = 0)), (bool_decide_eq_false_2 (wifi = 0)) by done.
  cbn -[Z.testbit included net_caps]. by rewrite Hn.
Qed.

(** No step adds a capability. *)
Lemma initialised_included gs wifi c : included (permitted (initialised gs wifi c)) (permitted c) = true.
Proof.
  unfold initialised, attempted.
  set (c1 := if Z.testbit (effective c) CAP_SETGID then with_groups gs c else c).
  set (c2 := if Z.testbit _ _ || bool_decide (wifi = gid _) then _ else _).
  set (c3 := if Z.testbit _ _ || bool_decide (wifi = uid _) then _ else _).
  assert (permitted c2 = permitted c) as H2 by (unfold c2, c1; by repeat case_match).
  assert (included (permitted c3) (permitted c) = true) as H3.
  { unfold c3. case_match; [|rewrite H2; apply included_refl]. unfold with_uid. cbn [permitted].
    rewrite H2. case_match; [apply bool_decide_eq_true, Z.land_0_l|apply included_refl]. }
  destruct (included net_caps (permitted c3)) eqn:Hn; [|done].
  unfold included in *. rewrite bool_decide_eq_true in *. cbn [with_caps permitted].
  rewrite <- Hn at 1. rewrite <- Z.land_assoc, H3. exact Hn.
Qed.

(** C34: The initialisation on Android never adds a capability, and a root process that
    runs it ends as the user and group of the Wi-Fi service, with the groups given and
    exactly the two network capabilities, permitted and effective. *)
Theorem program_init_privileges gs wifi w s :
  wifi <> 0 ->
  exists tr w', exec w s (android_program_init gs wifi) tr (Val 0) s w' /\
    included (permitted (creds w')) (permitted (creds w)) = true /\
    (uid (creds w) = 0 -> Z.testbit (effective (creds w)) CAP_SETGID = true ->
     Z.testbit (effective (creds w)) CAP_SETUID = true -> included net_caps (permitted (creds w)) = true ->
     creds w' = MkCred wifi wifi gs true net_caps net_caps 0).
Proof.
  intros Hw.
  assert (wp Totally (android_program_init gs wifi) (fun tr o s' w' => o = Val 0 /\ s' = s /\
    creds w' = initialised gs wifi (creds w)) w s) as (tr & o & s' & w' & H & -> & -> & Hc)
    by by apply wp_android_program_init.
  exists tr, w'. split; [done|]. rewrite Hc. split; [apply initialised_included|].
  intros. by apply initialised_root.
Qed.
End Privileges.
