(* ===== verification/Bytes.v ===== *)
(** * common.h: byte order and unaligned memory access

    The byte swaps, the conversions between host, little-endian and big-endian
    integers, [WPA_GET_*] and [WPA_PUT_*], and the tests of an Ethernet address.
    Integers are [Z] with the wrap-around of their C types written out; a
    pointer is the memory object from there on, and an access outside it is
    [None].  The specification is coqutil's [le_combine] and [le_split]. *)

From S2P Require Export OsStr.
From coqutil Require Import Word.LittleEndianList.
Local Open Scope Z_scope.

(** ** C's integer types *)

(** Conversion to an unsigned type of [n] bits. *)
Definition unsigned_bits (n v : Z) : Z := v mod 2 ^ n.
Definition to_u16 : Z -> Z := unsigned_bits 16.
Definition to_u32 : Z -> Z := unsigned_bits 32.
Definition to_u64 : Z -> Z := unsigned_bits 64.

(** The value of an [int] of 32 bits; the compilers in use wrap around where a
    shift leaves the range. *)
Definition to_int (v : Z) : Z := (v + 2 ^ 31) mod 2 ^ 32 - 2 ^ 31.

(** [a[i]], promoted to [int], and the assignment [a[i] = v] to a [u8]. *)
Definition get_u8 (a : bytes) (i : nat) : option Z := byte.unsigned <$> a !! i.
Definition set_u8 (i : nat) (v : Z) (a : bytes) : option bytes := store a i (byte.of_Z v).

(** ** Byte swaps *)

Definition wpa_swap_16 (v : Z) : Z :=
  to_u16 (Z.lor (Z.shiftl (Z.land v 0xff) 8) (Z.shiftr v 8)).

Definition wpa_swap_32 (v : Z) : Z :=
  Z.lor (Z.lor (Z.lor (to_u32 (Z.shiftl (Z.land v 0xff) 24)) (to_u32 (Z.shiftl (Z.land v 0xff00) 8)))
    (Z.shiftr (Z.land v 0xff0000) 8)) (Z.shiftr v 24).

Definition bswap_16 (a : Z) : Z :=
  Z.lor (Z.land (Z.shiftl (to_u16 a) 8) 0xff00) (Z.land (Z.shiftr (to_u16 a) 8) 0xff).

Definition bswap_32 (a : Z) : Z :=
  Z.lor (Z.lor (Z.lor (Z.land (to_u32 (Z.shiftl (to_u32 a) 24)) 0xff000000)
    (Z.land (to_u32 (Z.shiftl (to_u32 a) 8)) 0xff0000))
    (Z.land (Z.shiftr (to_u32 a) 8) 0xff00))
    (Z.land (Z.shiftr (to_u32 a) 24) 0xff).

(** [__BYTE_ORDER]. *)
Inductive byte_order : Type := LITTLE_ENDIAN | BIG_ENDIAN.

Definition le_to_host16 (bo : byte_order) (n : Z) : Z :=
  match bo with LITTLE_ENDIAN => to_u16 n | BIG_ENDIAN => bswap_16 n end.
Definition host_to_le16 (bo : byte_order) (n : Z) : Z :=
  match bo with LITTLE_ENDIAN => to_u16 n | BIG_ENDIAN => bswap_16 n end.
Definition be_to_host16 (bo : byte_order) (n : Z) : Z :=
  match bo with LITTLE_ENDIAN => bswap_16 n | BIG_ENDIAN => n end.
Definition host_to_be16 (bo : byte_order) (n : Z) : Z :=
  match bo with LITTLE_ENDIAN => bswap_16 n | BIG_ENDIAN => n end.
Definition le_to_host32 (bo : byte_order) (n : Z) : Z :=
  match bo with LITTLE_ENDIAN => to_u32 n | BIG_ENDIAN => bswap_32 n end.
Definition host_to_le32 (bo : byte_order) (n : Z) : Z :=
  match bo with LITTLE_ENDIAN => to_u32 n | BIG_ENDIAN => bswap_32 n end.
Definition be_to_host32 (bo : byte_order) (n : Z) : Z :=
  match bo with LITTLE_ENDIAN => bswap_32 n | BIG_ENDIAN => n end.
Definition host_to_be32 (bo : byte_order) (n : Z) : Z :=
  match bo with LITTLE_ENDIAN => bswap_32 n | BIG_ENDIAN => n end.

(** ** Unaligned access *)

Definition WPA_GET_BE16 (a : bytes) : option Z :=
  a0 ← get_u8 a 0; a1 ← get_u8 a 1;
  Some (to_u16 (Z.lor (Z.shiftl a0 8) a1)).

Definition WPA_PUT_BE16 (a : bytes) (val : Z) : option bytes :=
  a ← set_u8 0 (Z.shiftr val 8) a;
  set_u8 1 (Z.land val 0xff) a.

Definition WPA_GET_LE16 (a : bytes) : option Z :=
  a0 ← get_u8 a 0; a1 ← get_u8 a 1;
  Some (to_u16 (Z.lor (Z.shiftl a1 8) a0)).

Definition WPA_PUT_LE16 (a : bytes) (val : Z) : option bytes :=
  a ← set_u8 1 (Z.shiftr val 8) a;
  set_u8 0 (Z.land val 0xff) a.

Definition WPA_GET_BE24 (a : bytes) : option Z :=
  a0 ← get_u8 a 0; a1 ← get_u8 a 1; a2 ← get_u8 a 2;
  Some (to_u32 (Z.lor (Z.lor (Z.shiftl a0 16) (Z.shiftl a1 8)) a2)).

Definition WPA_PUT_BE24 (a : bytes) (val : Z) : option bytes :=
  a ← set_u8 0 (Z.land (Z.shiftr val 16) 0xff) a;
  a ← set_u8 1 (Z.land (Z.shiftr val 8) 0xff) a;
  set_u8 2 (Z.land val 0xff) a.

Definition WPA_GET_BE32 (a : bytes) : option Z :=
  a0 ← get_u8 a 0; a1 ← get_u8 a 1; a2 ← get_u8 a 2; a3 ← get_u8 a 3;
  Some (to_u32 (Z.lor (Z.lor (Z.lor (to_int (Z.shiftl a0 24)) (Z.shiftl a1 16)) (Z.shiftl a2 8)) a3)).

Definition WPA_PUT_BE32 (a : bytes) (val : Z) : option bytes :=
  a ← set_u8 0 (Z.land (Z.shiftr val 24) 0xff) a;
  a ← set_u8 1 (Z.land (Z.shiftr val 16) 0xff) a;
  a ← set_u8 2 (Z.land (Z.shiftr val 8) 0xff) a;
  set_u8 3 (Z.land val 0xff) a.

Definition WPA_GET_LE32 (a : bytes) : option Z :=
  a0 ← get_u8 a 0; a1 ← get_u8 a 1; a2 ← get_u8 a 2; a3 ← get_u8 a 3;
  Some (to_u32 (Z.lor (Z.lor (Z.lor (to_int (Z.shiftl a3 24)) (Z.shiftl a2 16)) (Z.shiftl a1 8)) a0)).

Definition WPA_PUT_LE32 (a : bytes) (val : Z) : option bytes :=
  a ← set_u8 3 (Z.land (Z.shiftr val 24) 0xff) a;
  a ← set_u8 2 (Z.land (Z.shiftr val 16) 0xff) a;
  a ← set_u8 1 (Z.land (Z.shiftr val 8) 0xff) a;
  set_u8 0 (Z.land val 0xff) a.

Definition WPA_GET_BE64 (a : bytes) : option Z :=
  a0 ← get_u8 a 0; a1 ← get_u8 a 1; a2 ← get_u8 a 2; a3 ← get_u8 a 3;
  a4 ← get_u8 a 4; a5 ← get_u8 a 5; a6 ← get_u8 a 6; a7 ← get_u8 a 7;
  Some (Z.lor (Z.lor (Z.lor (Z.lor (Z.lor (Z.lor (Z.lor
    (to_u64 (Z.shiftl a0 56)) (to_u64 (Z.shiftl a1 48)))
    (to_u64 (Z.shiftl a2 40))) (to_u64 (Z.shiftl a3 32)))
    (to_u64 (Z.shiftl a4 24))) (to_u64 (Z.shiftl a5 16)))
    (to_u64 (Z.shiftl a6 8))) a7).

Definition WPA_PUT_BE64 (a : bytes) (val : Z) : option bytes :=
  a ← set_u8 0 (Z.shiftr val 56) a;
  a ← set_u8 1 (Z.shiftr val 48) a;
  a ← set_u8 2 (Z.shiftr val 40) a;
  a ← set_u8 3 (Z.shiftr val 32) a;
  a ← set_u8 4 (Z.shiftr val 24) a;
  a ← set_u8 5 (Z.shiftr val 16) a;
  a ← set_u8 6 (Z.shiftr val 8) a;
  set_u8 7 (Z.land val 0xff) a.

Definition WPA_GET_LE64 (a : bytes) : option Z :=
  a0 ← get_u8 a 0; a1 ← get_u8 a 1; a2 ← get_u8 a 2; a3 ← get_u8 a 3;
  a4 ← get_u8 a 4; a5 ← get_u8 a 5; a6 ← get_u8 a 6; a7 ← get_u8 a 7;
  Some (Z.lor (Z.lor (Z.lor (Z.lor (Z.lor (Z.lor (Z.lor
    (to_u64 (Z.shiftl a7 56)) (to_u64 (Z.shiftl a6 48)))
    (to_u64 (Z.shiftl a5 40))) (to_u64 (Z.shiftl a4 32)))
    (to_u64 (Z.shiftl a3 24))) (to_u64 (Z.shiftl a2 16)))
    (to_u64 (Z.shiftl a1 8))) a0).

Definition WPA_PUT_LE64 (a : bytes) (val : Z) : option bytes :=
  a ← set_u8 7 (Z.shiftr val 56) a;
  a ← set_u8 6 (Z.shiftr val 48) a;
  a ← set_u8 5 (Z.shiftr val 40) a;
  a ← set_u8 4 (Z.shiftr val 32) a;
  a ← set_u8 3 (Z.shiftr val 24) a;
  a ← set_u8 2 (Z.shiftr val 16) a;
  a ← set_u8 1 (Z.shiftr val 8) a;
  set_u8 0 (Z.land val 0xff) a.

(** ** Ethernet addresses and bits *)

Definition is_zero_ether_addr (a : bytes) : option bool :=
  a0 ← get_u8 a 0; a1 ← get_u8 a 1; a2 ← get_u8 a 2;
  a3 ← get_u8 a 3; a4 ← get_u8 a 4; a5 ← get_u8 a 5;
  Some (Z.lor (Z.lor (Z.lor (Z.lor (Z.lor a0 a1) a2) a3) a4) a5 =? 0).

Definition is_broadcast_ether_addr (a : bytes) : option bool :=
  a0 ← get_u8 a 0; a1 ← get_u8 a 1; a2 ← get_u8 a 2;
  a3 ← get_u8 a 3; a4 ← get_u8 a 4; a5 ← get_u8 a 5;
  Some (Z.land (Z.land (Z.land (Z.land (Z.land a0 a1) a2) a3) a4) a5 =? 0xff).

Definition broadcast_ether_addr : bytes := replicate 6 Byte.xff.

(** [1 << x], for a bit of an [int]. *)
Definition BIT (x : Z) : Z := to_int (Z.shiftl 1 x).

(** ** Specification *)

Definition le_bytes (n : nat) (v : Z) : bytes := le_split n v.
Definition be_bytes (n : nat) (v : Z) : bytes := rev (le_split n v).
Definition le_value (b : bytes) : Z := le_combine b.
Definition be_value (b : bytes) : Z := le_combine (rev b).

(** An integer of [n] bytes in the memory of the host. *)
Definition host_bytes (bo : byte_order) (n : nat) (v : Z) : bytes :=
  match bo with LITTLE_ENDIAN => le_bytes n v | BIG_ENDIAN => be_bytes n v end.

(** ** Lemmas *)

(** A disjunction of separate bits is a sum. *)
Lemma lor_add n x y : 0 <= n -> x mod 2 ^ n = 0 -> 0 <= y < 2 ^ n -> Z.lor x y = x + y.
Proof.
  intros Hn Hx Hy. assert (Z.land x y = 0) as Hl.
  { apply Z.bits_inj'. intros i Hi. rewrite Z.land_spec, Z.bits_0.
    destruct (Z.ltb_spec i n).
    - rewrite <- (Z.mod_pow2_bits_low x n i), Hx, Z.bits_0 by lia. done.
    - rewrite <- (Z.mod_small y (2 ^ n)), Z.mod_pow2_bits_high by lia. apply andb_false_r. }
  by rewrite <- Z.lxor_lor, Z.add_nocarry_lxor.
Qed.

Lemma of_Z_land v : byte.of_Z (Z.land v 0xff) = byte.of_Z v.
Proof.
  apply byte.unsigned_inj. rewrite !byte.unsigned_of_Z. unfold byte.wrap.
  change 0xff with (Z.ones 8). rewrite Z.land_ones by lia. by rewrite Z.mod_mod by lia.
Qed.

(** A pointer with [n] bytes to read or write. *)
Lemma length_ge_split (a : bytes) n :
  (n <= length a)%nat -> a = take n a ++ drop n a /\ length (take n a) = n.
Proof. intros. split; [by rewrite take_drop|rewrite length_take; lia]. Qed.

Lemma le_combine_cons c l : le_combine (c :: l) = byte.unsigned c + 256 * le_combine l.
Proof.
  change (le_combine (c :: l)) with (Z.lor (byte.unsigned c) (Z.shiftl (le_combine l) 8)).
  rewrite Z.lor_comm, (lor_add 8), Z.shiftl_mul_pow2; try lia.
  - rewrite Z.shiftl_mul_pow2 by lia. by apply Z_mod_mult.
  - apply byte.unsigned_range.
Qed.

(** Bytes as numbers, with their range. *)
Ltac name_unsigned :=
  repeat match goal with
  | |- context [byte.unsigned ?c] =>
      let v := fresh "v" in
      pose proof (byte.unsigned_range c); set (v := byte.unsigned c) in *; clearbody v
  end.

Ltac mod_lia := Z.div_mod_to_equations; lia.

(** Disjunctions of separate bits as sums, the innermost one first. *)
Ltac lor_sums :=
  repeat match goal with
  | |- context [Z.lor ?x ?y] =>
      lazymatch x with
      | context [Z.lor _ _] => fail
      | _ => first [rewrite (lor_add 8 x y) by mod_lia | rewrite (lor_add 16 x y) by mod_lia
          | rewrite (lor_add 24 x y) by mod_lia | rewrite (lor_add 32 x y) by mod_lia
          | rewrite (lor_add 40 x y) by mod_lia | rewrite (lor_add 48 x y) by mod_lia
          | rewrite (lor_add 56 x y) by mod_lia]
      end
  end.

(** The value that a [WPA_GET] computes is the sum of its bytes. *)
Ltac get_value :=
  cbn [get_u8 lookup list_lookup fmap option_fmap option_map mbind option_bind];
  apply (f_equal Some); unfold be_value, le_value, to_u16, to_u32, to_u64, to_int, unsigned_bits;
  cbn [rev app]; rewrite !le_combine_cons, !le_combine_nil;
  name_unsigned; rewrite !Z.shiftl_mul_pow2 by lia; lor_sums; mod_lia.

(** The bytes that a [WPA_PUT] stores, one after the other. *)
Ltac put_bytes :=
  unfold set_u8;
  repeat (rewrite store_in by (cbn [length insert list_insert]; lia);
    cbn [insert list_insert mbind option_bind]);
  unfold be_bytes, le_bytes; cbn [le_split rev app];
  rewrite ?of_Z_land, ?Z.shiftr_shiftr by lia; reflexivity.

(** Enough bytes, and what follows them. *)
Lemma split_at (n : nat) (a : bytes) :
  (n <= length a)%nat -> exists b r, a = b ++ r /\ length b = n.
Proof. exists (take n a), (drop n a). split; [by rewrite take_drop|rewrite length_take; lia]. Qed.

Ltac name_list b :=
  repeat match goal with
  | H : length b = ?n |- _ =>
      lazymatch n with
      | O => apply nil_length_inv in H; subst b
      | S _ => let c := fresh "c" in destruct b as [|c b]; [discriminate H|]; cbn in H; apply eq_add_S in H
      end
  end.

Ltac get_spec a n :=
  let Hl := fresh in let b := fresh "b" in let r := fresh "r" in let Hb := fresh in
  intros Hl; destruct (split_at n a Hl) as (b & r & -> & Hb);
  rewrite take_app_length' by (symmetry; exact Hb); name_list b; cbn [app];
  get_value.

Ltac put_spec a n :=
  let Hl := fresh in let b := fresh "b" in let r := fresh "r" in let Hb := fresh in
  intros Hl; destruct (split_at n a Hl) as (b & r & -> & Hb);
  rewrite drop_app_length' by (symmetry; exact Hb); name_list b; cbn [app];
  put_bytes.

Lemma WPA_GET_BE16_spec a : (2 <= length a)%nat -> WPA_GET_BE16 a = Some (be_value (take 2 a)).
Proof. unfold WPA_GET_BE16. get_spec a 2%nat. Qed.
Lemma WPA_GET_LE16_spec a : (2 <= length a)%nat -> WPA_GET_LE16 a = Some (le_value (take 2 a)).
Proof. unfold WPA_GET_LE16. get_spec a 2%nat. Qed.
Lemma WPA_GET_BE24_spec a : (3 <= length a)%nat -> WPA_GET_BE24 a = Some (be_value (take 3 a)).
Proof. unfold WPA_GET_BE24. get_spec a 3%nat. Qed.
Lemma WPA_GET_BE32_spec a : (4 <= length a)%nat -> WPA_GET_BE32 a = Some (be_value (take 4 a)).
Proof. unfold WPA_GET_BE32. get_spec a 4%nat. Qed.
Lemma WPA_GET_LE32_spec a : (4 <= length a)%nat -> WPA_GET_LE32 a = Some (le_value (take 4 a)).
Proof. unfold WPA_GET_LE32. get_spec a 4%nat. Qed.
Lemma WPA_GET_BE64_spec a : (8 <= length a)%nat -> WPA_GET_BE64 a = Some (be_value (take 8 a)).
Proof. unfold WPA_GET_BE64. get_spec a 8%nat. Qed.
Lemma WPA_GET_LE64_spec a : (8 <= length a)%nat -> WPA_GET_LE64 a = Some (le_value (take 8 a)).
Proof. unfold WPA_GET_LE64. get_spec a 8%nat. Qed.

Lemma WPA_PUT_BE16_spec a v : (2 <= length a)%nat -> WPA_PUT_BE16 a v = Some (be_bytes 2 v ++ drop 2 a).
Proof. unfold WPA_PUT_BE16. put_spec a 2%nat. Qed.
Lemma WPA_PUT_LE16_spec a v : (2 <= length a)%nat -> WPA_PUT_LE16 a v = Some (le_bytes 2 v ++ drop 2 a).
Proof. unfold WPA_PUT_LE16. put_spec a 2%nat. Qed.
Lemma WPA_PUT_BE24_spec a v : (3 <= length a)%nat -> WPA_PUT_BE24 a v = Some (be_bytes 3 v ++ drop 3 a).
Proof. unfold WPA_PUT_BE24. put_spec a 3%nat. Qed.
Lemma WPA_PUT_BE32_spec a v : (4 <= length a)%nat -> WPA_PUT_BE32 a v = Some (be_bytes 4 v ++ drop 4 a).
Proof. unfold WPA_PUT_BE32. put_spec a 4%nat. Qed.
Lemma WPA_PUT_LE32_spec a v : (4 <= length a)%nat -> WPA_PUT_LE32 a v = Some (le_bytes 4 v ++ drop 4 a).
Proof. unfold WPA_PUT_LE32. put_spec a 4%nat. Qed.
Lemma WPA_PUT_BE64_spec a v : (8 <= length a)%nat -> WPA_PUT_BE64 a v = Some (be_bytes 8 v ++ drop 8 a).
Proof. unfold WPA_PUT_BE64. put_spec a 8%nat. Qed.
Lemma WPA_PUT_LE64_spec a v : (8 <= length a)%nat -> WPA_PUT_LE64 a v = Some (le_bytes 8 v ++ drop 8 a).
Proof. unfold WPA_PUT_LE64. put_spec a 8%nat. Qed.

(** ** Round trips *)

Lemma le_value_bytes n v : 0 <= v < 2 ^ (Z.of_nat n * 8) -> le_value (le_bytes n v) = v.
Proof. intros. unfold le_value, le_bytes. by rewrite le_combine_split, Z.mod_small. Qed.

Lemma be_value_bytes n v : 0 <= v < 2 ^ (Z.of_nat n * 8) -> be_value (be_bytes n v) = v.
Proof. intros. unfold be_value, be_bytes. rewrite rev_involutive. by apply le_value_bytes. Qed.

Lemma length_le_bytes n v : length (le_bytes n v) = n.
Proof. apply length_le_split. Qed.

Lemma length_be_bytes n v : length (be_bytes n v) = n.
Proof. unfold be_bytes. rewrite length_rev. apply length_le_split. Qed.

(** What it is to read and to write an integer of [n] bytes. *)
Definition reads (n : nat) (get : bytes -> option Z) (value : bytes -> Z) : Prop :=
  forall a, get a = if decide (n <= length a)%nat then Some (value (take n a)) else None.

Definition writes (n : nat) (put : bytes -> Z -> option bytes) (bytes_of : nat -> Z -> bytes) : Prop :=
  forall a v, (n <= length a)%nat -> put a v = Some (bytes_of n v ++ drop n a).

Definition roundtrip (n : nat) (put : bytes -> Z -> option bytes) (get : bytes -> option Z) : Prop :=
  forall a v, (n <= length a)%nat -> 0 <= v < 2 ^ (Z.of_nat n * 8) ->
    exists a', put a v = Some a' /\ get a' = Some v /\
      length a' = length a /\ drop n a' = drop n a.

Lemma reads_intro n get value :
  (forall a, (n <= length a)%nat -> get a = Some (value (take n a))) ->
  (forall a, (length a < n)%nat -> get a = None) -> reads n get value.
Proof. intros H1 H2 a. case_decide; [by apply H1|apply H2; lia]. Qed.

Lemma roundtrip_intro n put get value bytes_of :
  reads n get value -> writes n put bytes_of ->
  (forall v, length (bytes_of n v) = n) ->
  (forall v, 0 <= v < 2 ^ (Z.of_nat n * 8) -> value (bytes_of n v) = v) -> roundtrip n put get.
Proof.
  intros Hg Hp Hl Hv a v Ha Hr. exists (bytes_of n v ++ drop n a).
  assert (length (bytes_of n v ++ drop n a) = length a) as Hla
    by (rewrite length_app, Hl, length_drop; lia).
  split_and!; [by apply Hp| |done|by apply drop_app_length'].
  rewrite Hg, decide_True by lia. rewrite take_app_length' by done. by rewrite Hv.
Qed.

(** A read of an object that is too short is outside it. *)
Ltac too_short :=
  intros a Ha;
  repeat (destruct a as [|? a]; [reflexivity|cbn [length] in Ha]); lia.

Create HintDb octets.
#[export] Hint Resolve WPA_GET_BE16_spec WPA_GET_LE16_spec WPA_GET_BE24_spec WPA_GET_BE32_spec
  WPA_GET_LE32_spec WPA_GET_BE64_spec WPA_GET_LE64_spec : octets.
#[export] Hint Resolve WPA_PUT_BE16_spec WPA_PUT_LE16_spec WPA_PUT_BE24_spec WPA_PUT_BE32_spec
  WPA_PUT_LE32_spec WPA_PUT_BE64_spec WPA_PUT_LE64_spec : octets.
#[export] Hint Resolve le_value_bytes be_value_bytes length_le_bytes length_be_bytes : octets.

Lemma get_all :
  reads 2 WPA_GET_BE16 be_value /\ reads 2 WPA_GET_LE16 le_value /\ reads 3 WPA_GET_BE24 be_value /\
  reads 4 WPA_GET_BE32 be_value /\ reads 4 WPA_GET_LE32 le_value /\
  reads 8 WPA_GET_BE64 be_value /\ reads 8 WPA_GET_LE64 le_value.
Proof. split_and!; (apply reads_intro; [auto with octets|too_short]). Qed.

Lemma put_all :
  writes 2 WPA_PUT_BE16 be_bytes /\ writes 2 WPA_PUT_LE16 le_bytes /\ writes 3 WPA_PUT_BE24 be_bytes /\
  writes 4 WPA_PUT_BE32 be_bytes /\ writes 4 WPA_PUT_LE32 le_bytes /\
  writes 8 WPA_PUT_BE64 be_bytes /\ writes 8 WPA_PUT_LE64 le_bytes.
Proof. split_and!; intros a v; auto with octets. Qed.

(** C37: Every WPA_GET reads the number that the bytes stand for in its byte order and
    every WPA_PUT writes the bytes of its argument and nothing behind them; an object
    that is too short is an access out of bounds. *)
Theorem unaligned_access :
  (reads 2 WPA_GET_BE16 be_value /\ reads 2 WPA_GET_LE16 le_value /\ reads 3 WPA_GET_BE24 be_value /\
   reads 4 WPA_GET_BE32 be_value /\ reads 4 WPA_GET_LE32 le_value /\
   reads 8 WPA_GET_BE64 be_value /\ reads 8 WPA_GET_LE64 le_value) /\
  (writes 2 WPA_PUT_BE16 be_bytes /\ writes 2 WPA_PUT_LE16 le_bytes /\
   writes 3 WPA_PUT_BE24 be_bytes /\ writes 4 WPA_PUT_BE32 be_bytes /\
   writes 4 WPA_PUT_LE32 le_bytes /\ writes 8 WPA_PUT_BE64 be_bytes /\
   writes 8 WPA_PUT_LE64 le_bytes).
Proof. split; [apply get_all|apply put_all]. Qed.

(** What a WPA_PUT writes, the WPA_GET of the same order and width reads. *)
Theorem put_get_roundtrip :
  roundtrip 2 WPA_PUT_BE16 WPA_GET_BE16 /\ roundtrip 2 WPA_PUT_LE16 WPA_GET_LE16 /\
  roundtrip 3 WPA_PUT_BE24 WPA_GET_BE24 /\ roundtrip 4 WPA_PUT_BE32 WPA_GET_BE32 /\
  roundtrip 4 WPA_PUT_LE32 WPA_GET_LE32 /\ roundtrip 8 WPA_PUT_BE64 WPA_GET_BE64 /\
  roundtrip 8 WPA_PUT_LE64 WPA_GET_LE64.
Proof.
  destruct get_all as (?&?&?&?&?&?&?), put_all as (?&?&?&?&?&?&?).
  split_and!; (eapply roundtrip_intro; [eassumption|eassumption|auto with octets|auto with octets]).
Qed.

(** ** Byte swaps *)

(** A field of eight bits, in place. *)
Lemma land_field v k : 0 <= k -> Z.land v (Z.shiftl 255 k) = (v / 2 ^ k) mod 256 * 2 ^ k.
Proof.
  intros Hk. rewrite <- Z.shiftl_mul_pow2, <- Z.shiftr_div_pow2 by done.
  change 256 with (2 ^ 8). rewrite <- Z.land_ones by lia. change (Z.ones 8) with 255.
  rewrite Z.shiftl_land. apply Z.bits_inj'. intros i Hi. rewrite !Z.land_spec.
  destruct (Z.ltb_spec i k).
  - by rewrite !Z.shiftl_spec_low, !andb_false_r by done.
  - rewrite !(Z.shiftl_spec _ k), Z.shiftr_spec by lia. do 2 f_equal. lia.
Qed.

Lemma le_split_S n v : le_split (S n) v = byte.of_Z v :: le_split n (Z.shiftr v 8).
Proof. reflexivity. Qed.

Lemma le_split_O v : le_split 0 v = [].
Proof. reflexivity. Qed.

(** The bytes of a swapped integer. *)
Lemma be_value_le_bytes_2 v :
  0 <= v < 2 ^ 16 -> be_value (le_bytes 2 v) = v mod 256 * 256 + v / 256.
Proof.
  intros Hv. unfold be_value, le_bytes. rewrite !le_split_S, le_split_O. cbn [rev app].
  rewrite !le_combine_cons, le_combine_nil, !byte.unsigned_of_Z. unfold byte.wrap.
  rewrite Z.shiftr_div_pow2 by lia. mod_lia.
Qed.

Lemma be_value_le_bytes_4 v :
  0 <= v < 2 ^ 32 -> be_value (le_bytes 4 v) =
    v mod 256 * 2 ^ 24 + v / 2 ^ 8 mod 256 * 2 ^ 16 + v / 2 ^ 16 mod 256 * 2 ^ 8 + v / 2 ^ 24.
Proof.
  intros Hv. unfold be_value, le_bytes. rewrite !le_split_S, le_split_O. cbn [rev app].
  rewrite !le_combine_cons, le_combine_nil, !byte.unsigned_of_Z. unfold byte.wrap.
  rewrite !Z.shiftr_shiftr, !Z.shiftr_div_pow2 by lia.
  change (8 + 8 + 8) with 24. change (8 + 8) with 16.
  rewrite (Z.mod_small (v / 2 ^ 24)) by mod_lia.
  change (2 ^ 8) with 256. lia.
Qed.

Lemma wpa_swap_16_spec v : 0 <= v < 2 ^ 16 -> wpa_swap_16 v = be_value (le_bytes 2 v).
Proof.
  intros Hv. rewrite be_value_le_bytes_2 by done. unfold wpa_swap_16, to_u16, unsigned_bits.
  change 0xff with (Z.ones 8). rewrite Z.land_ones, Z.shiftl_mul_pow2, Z.shiftr_div_pow2 by lia.
  rewrite (lor_add 8) by mod_lia. mod_lia.
Qed.

Lemma bswap_16_spec v : 0 <= v < 2 ^ 16 -> bswap_16 v = be_value (le_bytes 2 v).
Proof.
  intros Hv. rewrite be_value_le_bytes_2 by done. unfold bswap_16, to_u16, unsigned_bits.
  change 0xff00 with (Z.shiftl 255 8). rewrite land_field by lia.
  change 0xff with (Z.ones 8). rewrite Z.land_ones, Z.shiftl_mul_pow2, Z.shiftr_div_pow2 by lia.
  rewrite (Z.mod_small v) by done. rewrite (lor_add 8) by mod_lia. mod_lia.
Qed.

Lemma wpa_swap_32_spec v : 0 <= v < 2 ^ 32 -> wpa_swap_32 v = be_value (le_bytes 4 v).
Proof.
  intros Hv. rewrite be_value_le_bytes_4 by done. unfold wpa_swap_32, to_u32, unsigned_bits.
  change 0xff00 with (Z.shiftl 255 8). change 0xff0000 with (Z.shiftl 255 16).
  rewrite !land_field by lia. change 0xff with (Z.ones 8). rewrite Z.land_ones by lia.
  rewrite !Z.shiftl_mul_pow2, !Z.shiftr_div_pow2 by lia.
  lor_sums. mod_lia.
Qed.

Lemma bswap_32_spec v : 0 <= v < 2 ^ 32 -> bswap_32 v = be_value (le_bytes 4 v).
Proof.
  intros Hv. rewrite be_value_le_bytes_4 by done. unfold bswap_32, to_u32, unsigned_bits.
  change 0xff00 with (Z.shiftl 255 8). change 0xff0000 with (Z.shiftl 255 16).
  change 0xff000000 with (Z.shiftl 255 24). rewrite !land_field by lia.
  change 0xff with (Z.ones 8). rewrite Z.land_ones by lia.
  rewrite !Z.shiftl_mul_pow2, !Z.shiftr_div_pow2, (Z.mod_small v) by lia.
  lor_sums. mod_lia.
Qed.

(** A swap reverses the bytes. *)
Lemma swap_bytes n v : le_bytes n (be_value (le_bytes n v)) = be_bytes n v.
Proof.
  unfold le_bytes, be_value, be_bytes.
  pose proof (split_le_combine (rev (le_split n v))) as H.
  rewrite length_rev, length_le_split in H. exact H.
Qed.

Lemma be_value_bound b : 0 <= be_value b < 2 ^ (Z.of_nat (length b) * 8).
Proof.
  unfold be_value. pose proof (le_combine_bound (rev b)) as H.
  rewrite length_rev in H. by rewrite (Z.mul_comm _ 8).
Qed.

(** What a function that reverses the bytes of an [n]-byte integer does. *)
Lemma swapped n (swap : Z -> Z) v :
  (forall v, 0 <= v < 2 ^ (Z.of_nat n * 8) -> swap v = be_value (le_bytes n v)) ->
  0 <= v < 2 ^ (Z.of_nat n * 8) ->
  le_bytes n (swap v) = be_bytes n v /\ be_bytes n (swap v) = le_bytes n v /\ swap (swap v) = v.
Proof.
  intros Hs Hv. pose proof (be_value_bound (le_bytes n v)) as Hb. rewrite length_le_bytes in Hb.
  rewrite (Hs v Hv). pose proof (swap_bytes n v) as Hle. split_and!; [done| |].
  - unfold be_bytes at 1. fold (le_bytes n (be_value (le_bytes n v))). rewrite Hle.
    apply rev_involutive.
  - rewrite Hs, Hle by done. by apply be_value_bytes.
Qed.

(** On hosts of both byte orders the conversions give the bytes of the named order
    in memory and are inverse to each other, and the portable swaps agree with the
    native ones and are involutions. *)
Theorem byte_order_conversions bo v :
  (0 <= v < 2 ^ 16 ->
     host_bytes bo 2 (host_to_be16 bo v) = be_bytes 2 v /\
     host_bytes bo 2 (host_to_le16 bo v) = le_bytes 2 v /\
     be_to_host16 bo (host_to_be16 bo v) = v /\ le_to_host16 bo (host_to_le16 bo v) = v /\
     wpa_swap_16 v = bswap_16 v /\ wpa_swap_16 (wpa_swap_16 v) = v) /\
  (0 <= v < 2 ^ 32 ->
     host_bytes bo 4 (host_to_be32 bo v) = be_bytes 4 v /\
     host_bytes bo 4 (host_to_le32 bo v) = le_bytes 4 v /\
     be_to_host32 bo (host_to_be32 bo v) = v /\ le_to_host32 bo (host_to_le32 bo v) = v /\
     wpa_swap_32 v = bswap_32 v /\ wpa_swap_32 (wpa_swap_32 v) = v).
Proof.
  split; intros Hv.
  - destruct (swapped 2 bswap_16 v bswap_16_spec Hv) as (H1 & H2 & H3).
    destruct (swapped 2 wpa_swap_16 v wpa_swap_16_spec Hv) as (_ & _ & H4).
    destruct bo; cbn; unfold to_u16, unsigned_bits; rewrite ?(Z.mod_small v) by done;
      split_and!; try done; by rewrite wpa_swap_16_spec, bswap_16_spec.
  - destruct (swapped 4 bswap_32 v bswap_32_spec Hv) as (H1 & H2 & H3).
    destruct (swapped 4 wpa_swap_32 v wpa_swap_32_spec Hv) as (_ & _ & H4).
    destruct bo; cbn; unfold to_u32, unsigned_bits; rewrite ?(Z.mod_small v) by done;
      split_and!; try done; by rewrite wpa_swap_32_spec, bswap_32_spec.
Qed.

(** ** Ethernet addresses *)

Lemma lor_zero x y : Z.lor x y = 0 <-> x = 0 /\ y = 0.
Proof. apply Z.lor_eq_0_iff. Qed.

Lemma unsigned_eq c d : byte.unsigned c = byte.unsigned d <-> c = d.
Proof. split; [apply byte.unsigned_inj|by intros ->]. Qed.

Lemma eqb_decide x y P `{!Decision P} : (x = y <-> P) -> (x =? y) = bool_decide P.
Proof. intros H. case_bool_decide; [apply Z.eqb_eq|apply Z.eqb_neq]; naive_solver. Qed.

(** All the bits of two bytes are set when all the bits of both are. *)
Lemma land_ones_byte x y : 0 <= x < 256 -> 0 <= y < 256 -> Z.land x y = 0xff <-> x = 0xff /\ y = 0xff.
Proof.
  intros Hx Hy. split; [|by intros [-> ->]]. intros H.
  assert (forall z, 0 <= z < 256 -> (forall i, 0 <= i < 8 -> Z.testbit z i = true) -> z = 0xff) as Hall.
  { intros z Hz Hb. change 0xff with (Z.ones 8). apply Z.bits_inj'. intros i Hi.
    destruct (Z.ltb_spec i 8).
    - rewrite Z.ones_spec_low by lia. apply Hb. lia.
    - rewrite Z.ones_spec_high by lia. rewrite <- (Z.mod_small z (2 ^ 8)) by lia.
      apply Z.mod_pow2_bits_high. lia. }
  assert (forall i, 0 <= i < 8 -> Z.testbit x i && Z.testbit y i = true) as Hi.
  { intros i Hi. rewrite <- Z.land_spec, H. change 0xff with (Z.ones 8). apply Z.ones_spec_low. lia. }
  split; apply Hall; try done; intros i Hr; by destruct (andb_prop _ _ (Hi i Hr)).
Qed.

Lemma land_byte_range x y : 0 <= x < 256 -> 0 <= y < 256 -> 0 <= Z.land x y < 256.
Proof.
  intros Hx Hy. rewrite <- (Z.mod_small x (2 ^ 8)), <- Z.land_ones by lia.
  rewrite <- Z.land_assoc, (Z.land_comm (Z.ones 8)), Z.land_assoc, Z.land_ones by lia.
  apply Z.mod_pos_bound. lia.
Qed.

(** The tests for the zero and the broadcast address decide exactly those six
    bytes. *)
Theorem ether_addr_tests a :
  is_zero_ether_addr a =
    (if decide (6 <= length a)%nat then Some (bool_decide (take 6 a = replicate 6 nul)) else None) /\
  is_broadcast_ether_addr a =
    (if decide (6 <= length a)%nat then Some (bool_decide (take 6 a = broadcast_ether_addr)) else None).
Proof.
  case_decide as Ha; cycle 1.
  { unfold is_zero_ether_addr, is_broadcast_ether_addr.
    assert (length a < 6)%nat as Hs by lia. clear Ha. revert a Hs.
    split; revert a Hs; too_short. }
  destruct (split_at 6 a Ha) as (b & r & -> & Hb). rewrite take_app_length' by done. clear Ha.
  name_list b. unfold is_zero_ether_addr, is_broadcast_ether_addr.
  cbn [app get_u8 lookup list_lookup fmap option_fmap option_map mbind option_bind].
  split; apply (f_equal Some), eqb_decide.
  - rewrite !lor_zero. change 0 with (byte.unsigned nul). rewrite !unsigned_eq. cbn. naive_solver.
  - rewrite !land_ones_byte by auto using land_byte_range, byte.unsigned_range.
    change 0xff with (byte.unsigned Byte.xff). rewrite !unsigned_eq. cbn. naive_solver.
Qed.

(** The shift of [WPA_GET_BE32] and [WPA_GET_LE32] leaves the range of [int] for
    a byte above 127: [to_int] is where the result depends on the compiler. *)
Lemma be32_shift_overflows v : 128 <= v < 256 -> ~ int_ok (Z.shiftl v 24).
Proof. rewrite Z.shiftl_mul_pow2 by lia. unfold int_ok. lia. Qed.

Lemma BIT_spec x : 0 <= x < 31 -> BIT x = 2 ^ x.
Proof.
  intros Hx. unfold BIT, to_int. rewrite Z.shiftl_1_l.
  assert (0 < 2 ^ x < 2 ^ 31) as H
    by (split; [apply Z.pow_pos_nonneg; lia|apply Z.pow_lt_mono_r; lia]).
  rewrite Z.mod_small by lia. lia.
Qed.
