(* ===== verification/ByteOrder.v ===== *)
(** * common.h: 64-bit byte order, the swaps of other systems, address texts

    The 64-bit conversions over the [bswap_64] of the C library, the byte swaps
    that the header defines for Apple systems, and the formats [MACSTR] and
    [COMPACT_MACSTR] of a hardware address. *)

From S2P Require Export Bytes.
Local Open Scope Z_scope.

(** ** Byte swaps of Apple systems *)

Definition apple_bswap_16 (v : Z) : Z :=
  to_u16 (Z.lor (Z.shiftl (Z.land v 0xff) 8) (Z.shiftr v 8)).

Definition apple_bswap_32 (v : Z) : Z :=
  Z.lor (Z.lor (Z.lor (to_u32 (Z.shiftl (Z.land v 0xff) 24)) (to_u32 (Z.shiftl (Z.land v 0xff00) 8)))
    (Z.shiftr (Z.land v 0xff0000) 8)) (Z.shiftr v 24).

(** ** 64-bit conversions *)

(** [bswap_64] of the C library reverses the eight bytes. *)
Definition bswap_64 (v : Z) : Z := be_value (le_bytes 8 v).

Definition le_to_host64 (bo : byte_order) (n : Z) : Z :=
  match bo with LITTLE_ENDIAN => to_u64 n | BIG_ENDIAN => bswap_64 n end.
Definition host_to_le64 (bo : byte_order) (n : Z) : Z :=
  match bo with LITTLE_ENDIAN => to_u64 n | BIG_ENDIAN => bswap_64 n end.
Definition be_to_host64 (bo : byte_order) (n : Z) : Z :=
  match bo with LITTLE_ENDIAN => bswap_64 (to_u64 n) | BIG_ENDIAN => n end.
Definition host_to_be64 (bo : byte_order) (n : Z) : Z :=
  match bo with LITTLE_ENDIAN => bswap_64 n | BIG_ENDIAN => n end.

(** The conversions on Windows and Cygwin, which are little-endian: the 16 and
    32-bit ones through the swaps of the header. *)
Definition windows_be_to_host16 (n : Z) : Z := wpa_swap_16 n.
Definition windows_host_to_be16 (n : Z) : Z := wpa_swap_16 n.
Definition windows_be_to_host32 (n : Z) : Z := wpa_swap_32 n.
Definition windows_host_to_be32 (n : Z) : Z := wpa_swap_32 n.

(** ** Texts of hardware addresses *)

Definition hex_digit (n : Z) : byte := byte.of_Z (if n <? 10 then 48 + n else 87 + n).

(** The conversion [%02x] of a byte. *)
Definition hex2 (b : byte) : bytes :=
  [hex_digit (byte.unsigned b / 16); hex_digit (byte.unsigned b mod 16)].

(** [MAC2STR]: the six arguments. *)
Definition MAC2STR (a : bytes) : option (list byte) :=
  if decide (6 <= length a)%nat then Some (take 6 a) else None.

Fixpoint join_hex (sep : bytes) (a : list byte) : bytes :=
  match a with
  | [] => []
  | [b] => hex2 b
  | b :: a => hex2 b ++ sep ++ join_hex sep a
  end.

(** The texts that [MACSTR] and [COMPACT_MACSTR] give with these arguments. *)
Definition MACSTR (a : bytes) : option bytes := join_hex (bs ":") <$> MAC2STR a.
Definition COMPACT_MACSTR (a : bytes) : option bytes := join_hex [] <$> MAC2STR a.

(** ** Properties *)

Lemma bswap_64_swapped v :
  0 <= v < 2 ^ 64 ->
  le_bytes 8 (bswap_64 v) = be_bytes 8 v /\ be_bytes 8 (bswap_64 v) = le_bytes 8 v /\ bswap_64 (bswap_64 v) = v.
Proof. by apply (swapped 8). Qed.

(** The 64-bit conversions give the bytes of the named order in memory and are
    inverse to each other. *)
Theorem byte_order_conversions_64 bo v :
  0 <= v < 2 ^ 64 ->
  host_bytes bo 8 (host_to_be64 bo v) = be_bytes 8 v /\
  host_bytes bo 8 (host_to_le64 bo v) = le_bytes 8 v /\
  be_to_host64 bo (host_to_be64 bo v) = v /\ le_to_host64 bo (host_to_le64 bo v) = v.
Proof.
  intros Hv. destruct (bswap_64_swapped v Hv) as (H1 & H2 & H3).
  pose proof (be_value_bound (le_bytes 8 v)) as Hb. rewrite length_le_bytes in Hb.
  change (2 ^ (Z.of_nat 8 * 8)) with (2 ^ 64) in Hb. fold (bswap_64 v) in Hb.
  destruct bo; unfold host_to_be64, host_to_le64, be_to_host64, le_to_host64, to_u64, unsigned_bits;
    rewrite ?(Z.mod_small v), ?(Z.mod_small (bswap_64 v)) by done; by split_and!.
Qed.

(** The swaps of the systems agree. *)
Lemma apple_bswap_agrees v :
  (0 <= v < 2 ^ 16 -> apple_bswap_16 v = bswap_16 v) /\
  (0 <= v < 2 ^ 32 -> apple_bswap_32 v = bswap_32 v).
Proof.
  split; intros Hv.
  - change (wpa_swap_16 v = bswap_16 v). by rewrite wpa_swap_16_spec, bswap_16_spec.
  - change (wpa_swap_32 v = bswap_32 v). by rewrite wpa_swap_32_spec, bswap_32_spec.
Qed.

Lemma windows_conversions v :
  (0 <= v < 2 ^ 16 -> windows_host_to_be16 v = host_to_be16 LITTLE_ENDIAN v /\
     windows_be_to_host16 (windows_host_to_be16 v) = v) /\
  (0 <= v < 2 ^ 32 -> windows_host_to_be32 v = host_to_be32 LITTLE_ENDIAN v /\
     windows_be_to_host32 (windows_host_to_be32 v) = v).
Proof.
  split; intros Hv; split.
  - cbn. unfold windows_host_to_be16. by rewrite wpa_swap_16_spec, bswap_16_spec.
  - by apply (swapped 2 wpa_swap_16 v wpa_swap_16_spec).
  - cbn. unfold windows_host_to_be32. by rewrite wpa_swap_32_spec, bswap_32_spec.
  - by apply (swapped 4 wpa_swap_32 v wpa_swap_32_spec).
Qed.

(** The byte that a two-digit text stands for, by computation over all bytes. *)
Lemma hex2_inj b c : hex2 b = hex2 c -> b = c.
Proof.
  assert (forallb (fun b => forallb (fun c => implb (bool_decide (hex2 b = hex2 c)) (bool_decide (b = c)))
    (byte.of_Z <$> seqZ 0 256)) (byte.of_Z <$> seqZ 0 256) = true) as H by (vm_compute; reflexivity).
  intros Heq. rewrite forallb_forall in H.
  assert (forall b, List.In b (byte.of_Z <$> seqZ 0 256)) as Hall.
  { intros x. apply list_elem_of_In, list_elem_of_fmap. exists (byte.unsigned x).
    rewrite byte.of_Z_unsigned. split; [done|]. apply elem_of_seqZ.
    pose proof (byte.unsigned_range x). lia. }
  specialize (H b (Hall b)). rewrite forallb_forall in H. specialize (H c (Hall c)).
  rewrite (bool_decide_eq_true_2 (hex2 b = hex2 c)) in H by done. by apply bool_decide_eq_true in H.
Qed.

Lemma join_hex_cons sep b c a :
  join_hex sep (b :: c :: a) = hex2 b ++ sep ++ join_hex sep (c :: a).
Proof. done. Qed.

Lemma length_join_hex sep a :
  length (join_hex sep a) = (2 * length a + length sep * (length a - 1))%nat.
Proof.
  induction a as [|b a IH]; [cbn; lia|]. destruct a as [|c a]; [cbn; lia|].
  rewrite join_hex_cons, !length_app, IH. cbn. lia.
Qed.

Lemma join_hex_inj sep a b : length a = length b -> join_hex sep a = join_hex sep b -> a = b.
Proof.
  revert b. induction a as [|x a IH]; intros [|y b]; [done..|]. intros [= Hl] Heq.
  assert (take 2 (join_hex sep (x :: a)) = hex2 x /\ take 2 (join_hex sep (y :: b)) = hex2 y) as [H1 H2]
    by (split; [by destruct a|by destruct b]).
  assert (x = y) as <- by (apply hex2_inj; congruence). f_equal.
  destruct a as [|x' a], b as [|y' b]; [done..|]. rewrite !join_hex_cons in Heq.
  apply IH; [done|]. by apply app_inv_head, app_inv_head in Heq.
Qed.

(** The texts of two addresses are equal only for equal addresses, in both
    formats; they have 17 and 12 characters. *)
Theorem mac_texts a b :
  (6 <= length a)%nat -> (6 <= length b)%nat ->
  (MACSTR a = MACSTR b <-> take 6 a = take 6 b) /\
  (COMPACT_MACSTR a = COMPACT_MACSTR b <-> take 6 a = take 6 b) /\
  (length <$> MACSTR a) = Some 17%nat /\ (length <$> COMPACT_MACSTR a) = Some 12%nat.
Proof.
  intros Ha Hb. unfold MACSTR, COMPACT_MACSTR, MAC2STR. rewrite !decide_True by done. cbn [fmap option_fmap option_map].
  assert (length (take 6 a) = 6%nat /\ length (take 6 b) = 6%nat) as [La Lb] by (rewrite !length_take; lia).
  rewrite !length_join_hex, La. split_and!; [| |done|done]; (split; [intros [= H]|by intros ->]);
    (eapply join_hex_inj; [congruence|exact H]).
Qed.
