(* ===== verification/Preproc.v ===== *)
(** * The C preprocessor

    What the preprocessor makes of a file: the macros that are defined after it,
    and the declarations that are left ([prep]).  A file is a [text] of
    directives and declarations; the system headers are a parameter.  What is
    observed of a file depends only on which of the macros it tests are defined
    ([prep_flags]), so that a statement about every set of predefined macros is
    checked on the subsets of these. *)

From S2P Require Export Prelude.
From stdpp Require Export strings.
Local Open Scope Z_scope.

(** ** Macros

    What a macro stands for: nothing, a number, another identifier, a call of a
    function ([#define f(x) g((x))]), no statement ([do { } while (0)]), or any
    other text. *)
Inductive macro : Type :=
| Blank
| Num (z : Z)
| Alias (name : string)
| Calls (function : string)
| Nothing
| Body (text : string).

(** The definitions, the latest first. *)
Definition macros : Type := list (string * macro).

Fixpoint meaning (m : string) (D : macros) : option macro :=
  match D with
  | [] => None
  | (m', v) :: D => if String.eqb m m' then Some v else meaning m D
  end.

Definition is_defined (m : string) (D : macros) : bool :=
  match meaning m D with Some _ => true | None => false end.

Fixpoint undefine (m : string) (D : macros) : macros :=
  match D with
  | [] => []
  | (m', v) :: D => if String.eqb m m' then undefine m D else (m', v) :: undefine m D
  end.

(** The value of an identifier in a condition: a macro is not expanded within its own
    expansion, a function-like macro not without its arguments, and what is left of an
    identifier counts as 0; other texts are not modelled as numbers. *)
Fixpoint expand (fuel : nat) (m : string) (D : macros) : option Z :=
  match fuel with
  | O => None
  | S fuel =>
      match meaning m D with
      | None | Some (Calls _) | Some Nothing => Some 0
      | Some (Num z) => Some z
      | Some (Alias m') => expand fuel m' (undefine m D)
      | Some Blank | Some (Body _) => None
      end
  end.

(** Numbers are at most 16 names away; the headers of the library need two. *)
Definition value (m : string) (D : macros) : option Z := expand 16 m D.

(** ** Texts *)

Inductive condition : Type :=
| Defined (m : string)
| Same (m1 m2 : string)
| Below (m : string) (z : Z)
| Not (c : condition)
| Or (c1 c2 : condition)
| And (c1 c2 : condition).

(** A declaration: a function with its body, external or static, a prototype, a
    variable, a type, a member of a structure, or an error message. *)
Inductive item : Type :=
| Function (f : string)
| Static (f : string)
| Declared (f : string)
| Extern (v : string)
| Typedef (t ty : string)
| Member (struct : string) (field : string)
| Error (text : string).

#[export] Instance macro_eq_dec : EqDecision macro.
Proof. solve_decision. Defined.

#[export] Instance item_eq_dec : EqDecision item.
Proof. solve_decision. Defined.

Inductive text : Type :=
| Skip
| Item (i : item)
| Define (m : string) (v : macro)
| Undef (m : string)
| Include (h : string)
| Seq (t1 t2 : text)
| If (c : condition) (t e : text).

Declare Scope text_scope.
Delimit Scope text_scope with text.
Bind Scope text_scope with text.
Notation "t1 ;; t2" := (Seq t1 t2) (at level 100, right associativity) : text_scope.
Notation "'#ifdef' m t '#endif'" := (If (Defined m) t Skip)
  (at level 0, m at level 0, t at level 200) : text_scope.
Notation "'#ifdef' m t '#else' e '#endif'" := (If (Defined m) t e)
  (at level 0, m at level 0, t at level 200, e at level 200) : text_scope.
Notation "'#ifndef' m t '#endif'" := (If (Not (Defined m)) t Skip)
  (at level 0, m at level 0, t at level 200) : text_scope.

(** A list of directives or declarations of one kind. *)
Fixpoint all_of {A} (f : A -> text) (l : list A) : text :=
  match l with
  | [] => Skip
  | a :: l => Seq (f a) (all_of f l)
  end.

Definition functions_ : list string -> text := all_of (fun f => Item (Function f)).
Definition statics_ : list string -> text := all_of (fun f => Item (Static f)).
Definition prototypes : list string -> text := all_of (fun f => Item (Declared f)).
Definition typedefs : list (string * string) -> text := all_of (fun '(t, ty) => Item (Typedef t ty)).
Definition members (struct : string) : list string -> text := all_of (fun f => Item (Member struct f)).
Definition defines : list (string * macro) -> text := all_of (fun '(m, v) => Define m v).
Definition defines_blank : list string -> text := all_of (fun m => Define m Blank).
Definition includes_ : list string -> text := all_of Include.

(** [#ifndef m #define m v #endif]. *)
Definition default_macro (m : string) (v : macro) : text := If (Not (Defined m)) (Define m v) Skip.

(** [#ifndef guard #define guard ... #endif] around a whole header. *)
Definition header (guard : string) (t : text) : text :=
  If (Not (Defined guard)) (Seq (Define guard Blank) t) Skip.

(** ** Preprocessing *)

Fixpoint holds (c : condition) (D : macros) : option bool :=
  match c with
  | Defined m => Some (is_defined m D)
  | Same m1 m2 => v1 ← value m1 D; v2 ← value m2 D; Some (v1 =? v2)
  | Below m z => v ← value m D; Some (v <? z)
  | Not c => negb <$> holds c D
  | Or c1 c2 => b1 ← holds c1 D; b2 ← holds c2 D; Some (b1 || b2)
  | And c1 c2 => b1 ← holds c1 D; b2 ← holds c2 D; Some (b1 && b2)
  end.

Section Prep.
(** What a system header defines. *)
Context (sys : string -> macros -> macros).

Fixpoint prep (t : text) (D : macros) : macros * list item :=
  match t with
  | Skip => (D, [])
  | Item i => (D, [i])
  | Define m v => ((m, v) :: D, [])
  | Undef m => (undefine m D, [])
  | Include h => (sys h D, [])
  | Seq t1 t2 =>
      let '(D1, l1) := prep t1 D in
      let '(D2, l2) := prep t2 D1 in
      (D2, l1 ++ l2)
  | If c t e =>
      match holds c D with
      | Some true => prep t D
      | Some false => prep e D
      | None => (D, [Error "#if"])
      end
  end.

Definition macros_after (t : text) (D : macros) : macros := fst (prep t D).
Definition items (t : text) (D : macros) : list item := snd (prep t D).
End Prep.

(** Nothing comes from the system headers. *)
Definition no_headers (h : string) (D : macros) : macros := D.

(** ** What the result depends on *)

Lemma is_defined_cons m m' v D : is_defined m ((m', v) :: D) = String.eqb m m' || is_defined m D.
Proof. unfold is_defined. cbn. by destruct (String.eqb m m'). Qed.

Lemma is_defined_undefine m m' D : is_defined m (undefine m' D) = negb (String.eqb m m') && is_defined m D.
Proof.
  induction D as [|[m1 v] D IH]; [by destruct (String.eqb m m')|]. cbn.
  destruct (String.eqb_spec m' m1) as [->|Hm1]; rewrite ?is_defined_cons, IH.
  - by destruct (String.eqb m m1).
  - destruct (String.eqb_spec m m'), (String.eqb_spec m m1); subst; try done; by destruct (is_defined m D).
Qed.

Section Depends.
Context {A : Type} (obs : item -> option A) (ms : list string).

(** The macros [ms] are defined in both environments, or in none. *)
Definition agree (D1 D2 : macros) : Prop := forall m, m ∈ ms -> is_defined m D1 = is_defined m D2.

(** System headers leave the macros [ms] alone. *)
Definition keeps (sys : string -> macros -> macros) : Prop := forall h D, agree (sys h D) D.

#[local] Instance agree_equivalence : Equivalence agree.
Proof.
  split.
  - by intros D m.
  - intros D1 D2 H m Hm. by rewrite H.
  - intros D1 D2 D3 H1 H2 m Hm. by rewrite H1, H2.
Qed.

(** A text that neither shows nor changes anything that matters. *)
Fixpoint silent (t : text) : bool :=
  match t with
  | Skip | Include _ => true
  | Item i => match obs i with Some _ => false | None => true end
  | Define m _ | Undef m => negb (existsb (String.eqb m) ms)
  | Seq t e | If _ t e => silent t && silent e
  end.

Fixpoint tests (c : condition) : bool :=
  match c with
  | Defined m => existsb (String.eqb m) ms
  | Same _ _ | Below _ _ => false
  | Not c => tests c
  | Or c1 c2 | And c1 c2 => tests c1 && tests c2
  end.

(** A text whose choices that matter test only whether macros of [ms] are defined. *)
Fixpoint depends (t : text) : bool :=
  match t with
  | Seq t e => depends t && depends e
  | If c t e => silent t && silent e || tests c && depends t && depends e
  | _ => true
  end.

Lemma existsb_elem m : existsb (String.eqb m) ms = true <-> m ∈ ms.
Proof.
  rewrite existsb_exists, list_elem_of_In. split.
  - by intros (m' & Hm & <-%String.eqb_eq).
  - intros Hm. exists m. by rewrite String.eqb_refl.
Qed.

Lemma not_mentioned m m' : negb (existsb (String.eqb m) ms) -> m' ∈ ms -> String.eqb m' m = false.
Proof.
  intros Hn Hm. apply String.eqb_neq. intros ->. apply existsb_elem in Hm. by rewrite Hm in Hn.
Qed.

Context (Herr : forall s, obs (Error s) = None).

Lemma holds_agree c D1 D2 : tests c -> agree D1 D2 -> exists b, holds c D1 = Some b /\ holds c D2 = Some b.
Proof.
  intros Ht Ha. induction c as [m| | |c IH|c1 IH1 c2 IH2|c1 IH1 c2 IH2]; cbn in Ht; try done.
  - apply Is_true_true, existsb_elem, Ha in Ht. cbn. rewrite Ht. by eexists.
  - destruct (IH Ht) as (b & H1 & H2). cbn. rewrite H1, H2. by eexists.
  - apply andb_True in Ht as [Ht1 Ht2]. destruct (IH1 Ht1) as (b1 & H1 & H1'), (IH2 Ht2) as (b2 & H2 & H2').
    cbn. rewrite H1, H1'. cbn. rewrite H2, H2'. by eexists.
  - apply andb_True in Ht as [Ht1 Ht2]. destruct (IH1 Ht1) as (b1 & H1 & H1'), (IH2 Ht2) as (b2 & H2 & H2').
    cbn. rewrite H1, H1'. cbn. rewrite H2, H2'. by eexists.
Qed.

Lemma agree_cons m v D1 D2 : agree D1 D2 -> agree ((m, v) :: D1) ((m, v) :: D2).
Proof. intros Ha m' Hm. by rewrite !is_defined_cons, Ha. Qed.

Lemma agree_undefine m D1 D2 : agree D1 D2 -> agree (undefine m D1) (undefine m D2).
Proof. intros Ha m' Hm. by rewrite !is_defined_undefine, Ha. Qed.

Lemma prep_silent sys t D :
  keeps sys -> silent t -> agree (macros_after sys t D) D /\ omap obs (items sys t D) = [].
Proof.
  intros Hk. unfold macros_after, items. revert D.
  induction t as [|i|m v|m|h|t1 IH1 t2 IH2|c t IHt e IHe]; intros D Hs; cbn in *.
  - by split.
  - by destruct (obs i).
  - split; [|done]. intros m' Hm. by rewrite is_defined_cons, (not_mentioned m).
  - split; [|done]. intros m' Hm. by rewrite is_defined_undefine, (not_mentioned m).
  - by split.
  - apply andb_True in Hs as [Hs1 Hs2]. destruct (IH1 D Hs1) as [Ha1 Ho1].
    destruct (prep sys t1 D) as [D1 l1]. destruct (IH2 D1 Hs2) as [Ha2 Ho2].
    destruct (prep sys t2 D1) as [D2 l2]. cbn in *. rewrite omap_app, Ho1, Ho2. split; [by etrans|done].
  - apply andb_True in Hs as [Hs1 Hs2]. destruct (holds c D) as [[]|]; [by apply IHt|by apply IHe|].
    cbn. rewrite Herr. done.
Qed.

(** The text without its silent parts. *)
Definition seq (t1 t2 : text) : text :=
  match t1, t2 with
  | Skip, t | t, Skip => t
  | _, _ => Seq t1 t2
  end.

Fixpoint slice (t : text) : text :=
  if silent t then Skip else
  match t with
  | Seq t1 t2 => seq (slice t1) (slice t2)
  | If c t e => If c (slice t) (slice e)
  | t => t
  end.

Lemma prep_seq sys t1 t2 D : prep sys (seq t1 t2) D = prep sys (Seq t1 t2) D.
Proof.
  destruct t1, t2; try done; cbn; rewrite ?app_nil_r; try done.
  all: repeat match goal with
    | |- context [prep ?s ?t ?D] => destruct (prep s t D)
    | |- context [holds ?c ?D] => destruct (holds c D) as [[]|]
    end; by rewrite ?app_nil_r.
Qed.

Lemma slice_agree sys t D1 D2 :
  keeps sys -> depends t -> agree D1 D2 ->
  agree (macros_after sys t D1) (macros_after no_headers (slice t) D2) /\
  omap obs (items sys t D1) = omap obs (items no_headers (slice t) D2).
Proof.
  intros Hk. revert D1 D2.
  induction t as [|i|m v|m|h|t1 IH1 t2 IH2|c t IHt e IHe]; intros D1 D2 Hd Ha; cbn [slice];
    match goal with |- context [if ?b then _ else _] => destruct b eqn:Hs end;
    try (destruct (prep_silent sys _ D1 Hk (Is_true_eq_left _ Hs)) as [Ha1 ->]; split; [|done];
      rewrite Ha1; exact Ha).
  - done.
  - done.
  - split; [by apply agree_cons|done].
  - split; [by apply agree_undefine|done].
  - done.
  - apply andb_True in Hd as [Hd1 Hd2]. destruct (IH1 D1 D2 Hd1 Ha) as [Ha1 Ho1]. unfold macros_after, items in *.
    rewrite prep_seq. cbn. destruct (prep sys t1 D1) as [E1 l1], (prep no_headers (slice t1) D2) as [E2 l2].
    cbn in *. destruct (IH2 E1 E2 Hd2 Ha1) as [Ha2 Ho2].
    destruct (prep sys t2 E1), (prep no_headers (slice t2) E2). cbn in *. by rewrite !omap_app, Ho1, Ho2.
  - cbn [depends] in Hd. apply orb_True in Hd as [Hsi|Hd]; [cbn [silent] in Hs; by rewrite Hs in Hsi|].
    apply andb_True in Hd as [[Hc Hdt]%andb_True Hde]. destruct (holds_agree c D1 D2 Hc Ha) as (b & H1 & H2).
    unfold macros_after, items in *. cbn. rewrite H1, H2. destruct b; [by apply IHt|by apply IHe].
Qed.

(** *** What macros stand for

    Among the macros [ms], those of [names] have the same meaning. *)
Section Meanings.
Context (names : list string) (Hnames : forall m, m ∈ names -> m ∈ ms).

Definition same (D1 D2 : macros) : Prop := forall m, m ∈ names -> meaning m D1 = meaning m D2.

(** System headers leave what they stand for alone. *)
Definition leaves (sys : string -> macros -> macros) : Prop := forall h D, same (sys h D) D.

#[local] Instance same_equivalence : Equivalence same.
Proof.
  split.
  - by intros D m.
  - intros D1 D2 H m Hm. by rewrite H.
  - intros D1 D2 D3 H1 H2 m Hm. by rewrite H1, H2.
Qed.

Lemma meaning_undefine m m' D : meaning m (undefine m' D) = if String.eqb m m' then None else meaning m D.
Proof.
  induction D as [|[m1 v] D IH]; [by destruct (String.eqb m m')|]. cbn.
  destruct (String.eqb_spec m' m1); cbn; rewrite IH;
    destruct (String.eqb_spec m m1), (String.eqb_spec m m'); congruence.
Qed.

Lemma same_cons m v D1 D2 : same D1 D2 -> same ((m, v) :: D1) ((m, v) :: D2).
Proof. intros Hs m' Hm. cbn. by rewrite Hs. Qed.

Lemma same_undefine m D1 D2 : same D1 D2 -> same (undefine m D1) (undefine m D2).
Proof. intros H m' Hm. by rewrite !meaning_undefine, H. Qed.

Lemma silent_same sys t D : leaves sys -> silent t -> same (macros_after sys t D) D.
Proof.
  intros Hk. unfold macros_after. revert D.
  induction t as [|i|m v|m|h|t1 IH1 t2 IH2|c t IHt e IHe]; intros D Hs; cbn in *; try done.
  - intros m' Hm. cbn. by rewrite (not_mentioned m) by auto.
  - intros m' Hm. by rewrite meaning_undefine, (not_mentioned m) by auto.
  - apply andb_True in Hs as [Hs1 Hs2]. specialize (IH1 D Hs1).
    destruct (prep sys t1 D) as [D1 l1]. specialize (IH2 D1 Hs2).
    destruct (prep sys t2 D1) as [D2 l2]. cbn in *. by etrans.
  - apply andb_True in Hs as [Hs1 Hs2]. destruct (holds c D) as [[]|]; [by apply IHt|by apply IHe|done].
Qed.

Lemma slice_same sys t D1 D2 :
  keeps sys -> leaves sys -> depends t -> agree D1 D2 -> same D1 D2 ->
  same (macros_after sys t D1) (macros_after no_headers (slice t) D2).
Proof.
  intros Hk Hl. revert D1 D2.
  induction t as [|i|m v|m|h|t1 IH1 t2 IH2|c t IHt e IHe]; intros D1 D2 Hd Ha Hm; cbn [slice];
    match goal with |- context [if ?b then _ else _] => destruct b eqn:Hs end;
    try (rewrite (silent_same sys _ D1 Hl (Is_true_eq_left _ Hs)); exact Hm).
  - done.
  - done.
  - by apply same_cons.
  - by apply same_undefine.
  - done.
  - apply andb_True in Hd as [Hd1 Hd2]. specialize (IH1 D1 D2 Hd1 Ha Hm).
    destruct (slice_agree sys t1 D1 D2 Hk Hd1 Ha) as [Ha1 _]. unfold macros_after, items in *.
    rewrite prep_seq. cbn. destruct (prep sys t1 D1) as [E1 l1], (prep no_headers (slice t1) D2) as [E2 l2].
    specialize (IH2 E1 E2 Hd2 Ha1 IH1). cbn in *.
    by destruct (prep sys t2 E1), (prep no_headers (slice t2) E2).
  - cbn [depends] in Hd. apply orb_True in Hd as [Hsi|Hd]; [cbn [silent] in Hs; by rewrite Hs in Hsi|].
    apply andb_True in Hd as [[Hc Hdt]%andb_True Hde]. destruct (holds_agree c D1 D2 Hc Ha) as (b & H1 & H2).
    unfold macros_after in *. cbn. rewrite H1, H2. destruct b; [by apply IHt|by apply IHe].
Qed.
End Meanings.
End Depends.

(** The macros among [free] that are defined, as an environment of its own. *)
Definition flags (free : list string) (D : macros) : macros :=
  (fun m => (m, Blank)) <$> List.filter (fun m => is_defined m D) free.

Lemma flags_defined free D m : is_defined m (flags free D) = existsb (String.eqb m) free && is_defined m D.
Proof.
  unfold flags. induction free as [|m' free IH]; [done|]. cbn [existsb List.filter].
  destruct (is_defined m' D) eqn:Hd; cbn [fmap list_fmap]; rewrite ?is_defined_cons, IH;
    destruct (String.eqb_spec m m') as [->|]; cbn [orb]; rewrite ?Hd; try done.
  by rewrite andb_false_r.
Qed.

(** What is observed of a text is what is observed of its slice in an environment of the
    macros [free] alone, when the macros [fresh] are not defined. *)
Lemma prep_flags {A} (obs : item -> option A) free fresh sys t D :
  (forall s, obs (Error s) = None) -> depends obs (free ++ fresh) t ->
  keeps (free ++ fresh) sys -> (forall m, m ∈ fresh -> is_defined m D = false) ->
  omap obs (items sys t D) = omap obs (items no_headers (slice obs (free ++ fresh) t) (flags free D)) /\
  agree (free ++ fresh) (macros_after sys t D) (macros_after no_headers (slice obs (free ++ fresh) t) (flags free D)).
Proof.
  intros Herr Hd Hk Hf. apply and_comm. apply slice_agree; [done|done|done|].
  intros m [Hm|Hm]%elem_of_app; rewrite flags_defined.
  - by rewrite (proj2 (existsb_elem free m) Hm).
  - by rewrite Hf, andb_false_r.
Qed.

(** The macros [names] that are not defined before get the meaning that the slice gives them. *)
Lemma prep_flags_same {A} (obs : item -> option A) free fresh names sys t D :
  (forall s, obs (Error s) = None) -> depends obs (free ++ fresh) t ->
  (forall m, m ∈ names -> m ∈ fresh) ->
  keeps (free ++ fresh) sys -> leaves names sys -> (forall m, m ∈ fresh -> is_defined m D = false) ->
  same names (macros_after sys t D) (macros_after no_headers (slice obs (free ++ fresh) t) (flags free D)).
Proof.
  intros Herr Hd Hn Hk Hl Hf.
  assert (Ha : forall m, m ∈ fresh -> is_defined m (flags free D) = false)
    by (intros m Hm; by rewrite flags_defined, Hf, andb_false_r).
  apply slice_same; [done|intros m Hm; apply elem_of_app; auto|done..| |].
  - intros m [Hm|Hm]%elem_of_app; [|by rewrite Hf, Ha].
    by rewrite flags_defined, (proj2 (existsb_elem free m) Hm).
  - intros m Hm%Hn. specialize (Hf m Hm). specialize (Ha m Hm). unfold is_defined in *.
    by destruct (meaning m D), (meaning m (flags free D)).
Qed.

(** ** Values

    Where a condition tests the values of macros, [ms] are all macros that the text
    tests, and [sets] is what the system headers define among them. *)
Section Values.
Context (ms : list string) (sets : string -> macros) (sys : string -> macros -> macros).

Definition headers_set : Prop := forall h D, same ms (sys h D) (sets h ++ D).

(** An alias of another macro of [ms]. *)
Definition tame_macro (v : macro) : bool :=
  match v with Alias m => existsb (String.eqb m) ms | _ => true end.
Definition tame (D : macros) : Prop := Forall (fun d => tame_macro d.2) D.

Fixpoint reads (c : condition) : bool :=
  match c with
  | Defined m | Below m _ => existsb (String.eqb m) ms
  | Same m1 m2 => existsb (String.eqb m1) ms && existsb (String.eqb m2) ms
  | Not c => reads c
  | Or c1 c2 | And c1 c2 => reads c1 && reads c2
  end.

Fixpoint determined (t : text) : bool :=
  match t with
  | Define m v => tame_macro v || negb (existsb (String.eqb m) ms)
  | Seq t1 t2 => determined t1 && determined t2
  | If c t e => reads c && determined t && determined e
  | _ => true
  end.

Definition tame_on (D : macros) : Prop :=
  forall m m', m ∈ ms -> meaning m D = Some (Alias m') -> m' ∈ ms.

Lemma meaning_app m D1 D2 :
  meaning m (D1 ++ D2) = match meaning m D1 with Some v => Some v | None => meaning m D2 end.
Proof. induction D1 as [|[m' v] D1 IH]; [done|]. cbn. by destruct (String.eqb m m'). Qed.

Lemma tame_undefine m D : tame_on D -> tame_on (undefine m D).
Proof. intros H m1 m2 Hm. rewrite meaning_undefine. destruct (String.eqb m1 m); [done|by apply H]. Qed.

Lemma tame_tame_on D : tame D -> tame_on D.
Proof.
  intros HD m m' Hm. induction HD as [|[m1 v] D Hv _ IH]; [done|]. cbn.
  destruct (String.eqb m m1); [|done]. intros [= ->]. by apply existsb_elem, Is_true_true.
Qed.

Lemma expand_same n m D1 D2 : same ms D1 D2 -> tame_on D2 -> m ∈ ms -> expand n m D1 = expand n m D2.
Proof.
  revert m D1 D2. induction n as [|n IH]; intros m D1 D2 Hs Ht Hm; [done|]. cbn. rewrite (Hs m Hm).
  destruct (meaning m D2) as [[| |m'| | |]|] eqn:Hv; try done.
  apply IH; [by apply same_undefine|by apply tame_undefine|by eapply Ht].
Qed.

Lemma holds_same c D1 D2 : same ms D1 D2 -> tame_on D2 -> reads c -> holds c D1 = holds c D2.
Proof.
  intros Hs Ht. induction c as [m|m1 m2|m z|c IH|c1 IH1 c2 IH2|c1 IH1 c2 IH2];
    cbn [holds reads]; intros Hc.
  - unfold is_defined. by rewrite Hs by (by apply existsb_elem, Is_true_true).
  - apply andb_True in Hc as [H1%Is_true_true%existsb_elem H2%Is_true_true%existsb_elem].
    unfold value. by rewrite !(expand_same _ _ D1 D2).
  - unfold value. by rewrite (expand_same _ _ D1 D2) by (done || by apply existsb_elem, Is_true_true).
  - by rewrite IH.
  - apply andb_True in Hc as [H1 H2]. by rewrite IH1, IH2.
  - apply andb_True in Hc as [H1 H2]. by rewrite IH1, IH2.
Qed.

(** The text can be preprocessed with [sets] for the system headers. *)
Lemma prep_same t D1 D2 :
  headers_set -> (forall h, tame (sets h)) -> determined t -> same ms D1 D2 -> tame_on D2 ->
  same ms (macros_after sys t D1) (macros_after (fun h D => sets h ++ D) t D2) /\
  tame_on (macros_after (fun h D => sets h ++ D) t D2) /\
  items sys t D1 = items (fun h D => sets h ++ D) t D2.
Proof.
  intros Hk Hsets. unfold macros_after, items. revert D1 D2.
  induction t as [|i|m v|m|h|t1 IH1 t2 IH2|c t IHt e IHe]; intros D1 D2 Hd Hs Ht; cbn in *.
  - done.
  - done.
  - split_and!; [|intros m1 m2 Hm; cbn|done].
    + intros m' Hm. cbn. by destruct (String.eqb m' m); [|apply Hs].
    + destruct (String.eqb_spec m1 m) as [->|]; [|by apply Ht]. intros [= ->]. cbn in Hd.
      rewrite (proj2 (existsb_elem _ _) Hm), orb_false_r in Hd. by apply existsb_elem, Is_true_true.
  - split_and!; [by apply same_undefine|by apply tame_undefine|done].
  - split_and!; [| |done].
    + intros m Hm. rewrite (Hk h D1 m Hm), !meaning_app. by rewrite (Hs m Hm).
    + intros m m' Hm. rewrite meaning_app. destruct (meaning m (sets h)) as [v|] eqn:Hv; [|by apply Ht].
      intros [= E]. rewrite E in Hv. by apply (tame_tame_on _ (Hsets h) m).
  - apply andb_True in Hd as [Hd1 Hd2]. destruct (IH1 D1 D2 Hd1 Hs Ht) as (Hs1 & Ht1 & Hi1).
    destruct (prep sys t1 D1) as [E1 l1], (prep _ t1 D2) as [E2 l2]. cbn in *. subst l2.
    destruct (IH2 E1 E2 Hd2 Hs1 Ht1) as (Hs2 & Ht2 & Hi2).
    destruct (prep sys t2 E1), (prep _ t2 E2). cbn in *. by subst.
  - apply andb_True in Hd as [[Hc Hdt]%andb_True Hde]. rewrite (holds_same c D1 D2 Hs Ht Hc).
    destruct (holds c D2) as [[]|]; [by apply IHt|by apply IHe|done].
Qed.
End Values.
