(* ===== verification/Headers.v ===== *)
(** * The headers of the library, as the preprocessor sees them

    build_config.h, includes.h, os.h, common.h, wpabuf.h, wpa_debug.h and
    wpa_ctrl.h with their conditions, macros and declarations, in the order of
    the files.  A declaration is its name; Events has the names of messages that
    wpa_ctrl.h defines. *)

From S2P Require Export Preproc.
Local Open Scope Z_scope.
Local Open Scope string_scope.
Local Open Scope text_scope.

(** ** build_config.h *)

Definition build_config_h : text := header "BUILD_CONFIG_H" (
  #ifdef "CONFIG_WIN32_DEFAULTS" (
    defines_blank ["CONFIG_NATIVE_WINDOWS"; "CONFIG_ANSI_C_EXTRA"; "CONFIG_WINPCAP"; "IEEE8021X_EAPOL";
      "PKCS12_FUNCS"; "PCSC_FUNCS"; "CONFIG_CTRL_IFACE"; "CONFIG_CTRL_IFACE_NAMED_PIPE"; "CONFIG_DRIVER_NDIS";
      "CONFIG_NDIS_EVENTS_INTEGRATED"; "CONFIG_DEBUG_FILE"; "EAP_MD5"; "EAP_TLS"; "EAP_MSCHAPv2"; "EAP_PEAP";
      "EAP_TTLS"; "EAP_GTC"; "EAP_OTP"; "EAP_LEAP"; "EAP_TNC"; "_CRT_SECURE_NO_DEPRECATE"];;
    #ifdef "USE_INTERNAL_CRYPTO"
      (defines_blank ["CONFIG_TLS_INTERNAL_CLIENT"; "CONFIG_INTERNAL_LIBTOMMATH"; "CONFIG_CRYPTO_INTERNAL"])
    #endif)
  #endif).

(** ** includes.h *)

Definition includes_h : text := header "INCLUDES_H" (
  build_config_h;;
  includes_ ["stdlib.h"; "stdio.h"; "stdarg.h"; "string.h"];;
  #ifndef "_WIN32_WCE" (
    #ifndef "CONFIG_TI_COMPILER" (includes_ ["signal.h"; "sys/types.h"]) #endif;;
    Include "errno.h")
  #endif;;
  Include "ctype.h";;
  #ifndef "CONFIG_TI_COMPILER" (#ifndef "_MSC_VER" (Include "unistd.h") #endif) #endif;;
  #ifndef "CONFIG_NATIVE_WINDOWS" (
    #ifndef "CONFIG_TI_COMPILER" (
      includes_ ["sys/socket.h"; "netinet/in.h"; "arpa/inet.h"];;
      #ifndef "__vxworks" (includes_ ["sys/uio.h"; "sys/time.h"]) #endif)
    #endif)
  #endif).

(** ** os.h *)

(** The times. *)
Definition os_h_time : text :=
  Item (Typedef "os_time_t" "long");;
  members "os_time" ["sec"; "usec"];;
  members "os_reltime" ["sec"; "usec"];;
  prototypes ["os_sleep"; "os_get_time"; "os_get_reltime"];;
  statics_ ["os_time_before"; "os_time_sub"; "os_reltime_before"; "os_reltime_sub"; "os_reltime_age";
    "os_reltime_expired"; "os_reltime_initialized"].

(** The other functions that are implemented for each operating system. *)
Definition os_h_system : text :=
  members "os_tm" ["sec"; "min"; "hour"; "day"; "month"; "year"];;
  prototypes ["os_mktime"; "os_gmtime"; "os_daemonize"; "os_daemonize_terminate"; "os_get_random";
    "os_random"; "os_rel2abs_path"; "os_program_init"; "os_program_deinit"; "os_setenv"; "os_unsetenv";
    "os_readfile"; "os_zalloc"];;
  Item (Static "os_calloc").

(** The functions of the C library, where the system has to implement them. *)
Definition os_h_memory_prototypes : text := prototypes
  ["os_malloc"; "os_realloc"; "os_free"; "os_memcpy"; "os_memmove"; "os_memset"; "os_memcmp"; "os_strdup"].
Definition os_h_string_prototypes : text := prototypes
  ["os_strlen"; "os_strcasecmp"; "os_strncasecmp"; "os_strchr"; "os_strrchr"; "os_strcmp"; "os_strncmp";
   "os_strstr"; "os_snprintf"].

(** A function that Microsoft's library has under another name. *)
Definition renamed (f library microsoft : string) : text :=
  #ifndef f (#ifdef "_MSC_VER" (Define f (Calls microsoft)) #else (Define f (Calls library)) #endif) #endif.

(** The functions of the C library under their names in this library. *)
Definition os_h_macros : text :=
  #ifdef "WPA_TRACE"
    (prototypes ["os_malloc"; "os_realloc"; "os_free"; "os_strdup"])
  #else (
    default_macro "os_malloc" (Calls "malloc");;
    default_macro "os_realloc" (Calls "realloc");;
    default_macro "os_free" (Calls "free");;
    renamed "os_strdup" "strdup" "_strdup")
  #endif;;
  default_macro "os_memcpy" (Calls "memcpy");;
  default_macro "os_memmove" (Calls "memmove");;
  default_macro "os_memset" (Calls "memset");;
  default_macro "os_memcmp" (Calls "memcmp");;
  default_macro "os_strlen" (Calls "strlen");;
  renamed "os_strcasecmp" "strcasecmp" "_stricmp";;
  renamed "os_strncasecmp" "strncasecmp" "_strnicmp";;
  default_macro "os_strchr" (Calls "strchr");;
  default_macro "os_strcmp" (Calls "strcmp");;
  default_macro "os_strncmp" (Calls "strncmp");;
  default_macro "os_strrchr" (Calls "strrchr");;
  default_macro "os_strstr" (Calls "strstr");;
  #ifndef "os_snprintf" (
    #ifdef "_MSC_VER" (Define "os_snprintf" (Alias "_snprintf"))
    #else (Define "os_snprintf" (Alias "snprintf")) #endif)
  #endif.

(** [#define f OS_DO_NOT_USE_f]. *)
Definition do_not_use (f : string) : text := Define f (Alias ("OS_DO_NOT_USE_" ++ f)).
Definition redefine (f : string) : text := Undef f;; do_not_use f.

Definition os_h_reject : text :=
  #ifdef "OS_REJECT_C_LIB_FUNCTIONS" (
    all_of do_not_use ["malloc"; "realloc"; "free"; "memcpy"; "memmove"; "memset"; "memcmp"];;
    redefine "strdup";;
    all_of do_not_use ["strlen"; "strcasecmp"; "strncasecmp"];;
    all_of redefine ["strchr"; "strcmp"; "strncmp"; "strncpy"];;
    all_of do_not_use ["strrchr"; "strstr"];;
    redefine "snprintf";;
    do_not_use "strcpy")
  #endif.

Definition os_h : text := header "OS_H" (
  os_h_time;;
  os_h_system;;
  #ifdef "OS_NO_C_LIB_DEFINES" (os_h_memory_prototypes;; os_h_string_prototypes) #else os_h_macros #endif;;
  Item (Static "os_realloc_array");;
  Item (Declared "os_strlcpy");;
  os_h_reject).

(** ** wpabuf.h *)

Definition wpabuf_h : text := header "WPABUF_H" (
  Define "WPABUF_FLAG_EXT_DATA" (Body "BIT(0)");;
  members "wpabuf" ["size"; "used"; "buf"; "flags"];;
  prototypes ["wpabuf_resize"; "wpabuf_alloc"; "wpabuf_alloc_ext_data"; "wpabuf_alloc_copy";
    "wpabuf_dup"; "wpabuf_free"; "wpabuf_put"; "wpabuf_concat";
    "wpabuf_zeropad"; "wpabuf_printf"];;
  statics_ ["wpabuf_size"; "wpabuf_len"; "wpabuf_tailroom"; "wpabuf_head"; "wpabuf_head_u8";
    "wpabuf_mhead"; "wpabuf_mhead_u8"; "wpabuf_put_u8"; "wpabuf_put_le16";
    "wpabuf_put_le32"; "wpabuf_put_be16"; "wpabuf_put_be24"; "wpabuf_put_be32";
    "wpabuf_put_data"; "wpabuf_put_buf"; "wpabuf_set"; "wpabuf_put_str"]).

(** ** wpa_debug.h *)

Definition wpa_debug_output : text :=
  #ifdef "CONFIG_NO_STDOUT_DEBUG" (
    all_of (fun m => Define m Nothing) ["wpa_debug_print_timestamp"; "wpa_printf"; "wpa_hexdump";
      "wpa_hexdump_buf"; "wpa_hexdump_key"; "wpa_hexdump_buf_key"; "wpa_hexdump_ascii";
      "wpa_hexdump_ascii_key"; "wpa_debug_open_file"; "wpa_debug_close_file"; "wpa_dbg"];;
    Item (Static "wpa_debug_reopen_file"))
  #else (
    prototypes ["wpa_debug_open_file"; "wpa_debug_reopen_file"; "wpa_debug_close_file";
      "wpa_debug_print_timestamp"; "wpa_printf"; "wpa_hexdump"];;
    Item (Static "wpa_hexdump_buf");;
    Item (Declared "wpa_hexdump_key");;
    Item (Static "wpa_hexdump_buf_key");;
    prototypes ["wpa_hexdump_ascii"; "wpa_hexdump_ascii_key"];;
    Define "wpa_dbg" (Calls "wpa_msg"))
  #endif.

Definition wpa_debug_messages : text :=
  #ifdef "CONFIG_NO_WPA_MSG" (
    all_of (fun m => Define m Nothing) ["wpa_msg"; "wpa_msg_ctrl"; "wpa_msg_global"; "wpa_msg_no_global";
      "wpa_msg_register_cb"; "wpa_msg_register_ifname_cb"])
  #else
    (prototypes ["wpa_msg"; "wpa_msg_ctrl"; "wpa_msg_global"; "wpa_msg_no_global"; "wpa_msg_register_cb";
      "wpa_msg_register_ifname_cb"])
  #endif.

Definition wpa_debug_logger : text :=
  #ifdef "CONFIG_NO_HOSTAPD_LOGGER"
    (Define "hostapd_logger" Nothing;; Define "hostapd_logger_register_cb" Nothing)
  #else (prototypes ["hostapd_logger"; "hostapd_logger_register_cb"]) #endif;;
  defines [("HOSTAPD_MODULE_IEEE80211", Num 1); ("HOSTAPD_MODULE_IEEE8021X", Num 2);
    ("HOSTAPD_MODULE_RADIUS", Num 4); ("HOSTAPD_MODULE_WPA", Num 8); ("HOSTAPD_MODULE_DRIVER", Num 16);
    ("HOSTAPD_MODULE_IAPP", Num 32); ("HOSTAPD_MODULE_MLME", Num 64)].

Definition wpa_debug_sinks : text :=
  #ifdef "CONFIG_DEBUG_SYSLOG" (prototypes ["wpa_debug_open_syslog"; "wpa_debug_close_syslog"])
  #else (statics_ ["wpa_debug_open_syslog"; "wpa_debug_close_syslog"]) #endif;;
  #ifdef "CONFIG_DEBUG_LINUX_TRACING"
    (prototypes ["wpa_debug_open_linux_tracing"; "wpa_debug_close_linux_tracing"])
  #else (statics_ ["wpa_debug_open_linux_tracing"; "wpa_debug_close_linux_tracing"]) #endif;;
  #ifdef "EAPOL_TEST" (Define "WPA_ASSERT" (Body "printf, exit"))
  #else (Define "WPA_ASSERT" Nothing) #endif.

Definition wpa_debug_h : text := header "WPA_DEBUG_H" (
  wpabuf_h;;
  all_of (fun v => Item (Extern v)) ["wpa_debug_level"; "wpa_debug_show_keys"; "wpa_debug_timestamp"];;
  wpa_debug_output;;
  wpa_debug_messages;;
  wpa_debug_logger;;
  wpa_debug_sinks).

(** ** common.h *)

Definition byte_order_headers : text :=
  If (Or (Defined "__linux__") (Defined "__GLIBC__")) (includes_ ["endian.h"; "byteswap.h"]) Skip;;
  If (Or (Defined "__FreeBSD__") (Or (Defined "__NetBSD__") (Or (Defined "__DragonFly__") (Defined "__OpenBSD__"))))
    (includes_ ["sys/types.h"; "sys/endian.h"];;
     defines [("__BYTE_ORDER", Alias "_BYTE_ORDER"); ("__LITTLE_ENDIAN", Alias "_LITTLE_ENDIAN");
       ("__BIG_ENDIAN", Alias "_BIG_ENDIAN")];;
     #ifdef "__OpenBSD__"
       (defines [("bswap_16", Alias "swap16"); ("bswap_32", Alias "swap32"); ("bswap_64", Alias "swap64")])
     #else
       (defines [("bswap_16", Alias "bswap16"); ("bswap_32", Alias "bswap32"); ("bswap_64", Alias "bswap64")])
     #endif) Skip;;
  #ifdef "__APPLE__" (
    includes_ ["sys/types.h"; "machine/endian.h"];;
    defines [("__BYTE_ORDER", Alias "_BYTE_ORDER"); ("__LITTLE_ENDIAN", Alias "_LITTLE_ENDIAN");
       ("__BIG_ENDIAN", Alias "_BIG_ENDIAN")];;
    statics_ ["bswap_16"; "bswap_32"])
  #endif;;
  #ifdef "CONFIG_TI_COMPILER" (
    Define "__BIG_ENDIAN" (Num 4321);;
    Define "__LITTLE_ENDIAN" (Num 1234);;
    #ifdef "__big_endian__" (Define "__BYTE_ORDER" (Alias "__BIG_ENDIAN"))
    #else (Define "__BYTE_ORDER" (Alias "__LITTLE_ENDIAN")) #endif)
  #endif.

Definition windows_names : text :=
  #ifdef "CONFIG_NATIVE_WINDOWS" (
    Include "winsock.h";;
    Item (Typedef "socklen_t" "int");;
    default_macro "MSG_DONTWAIT" (Num 0))
  #endif;;
  #ifdef "_MSC_VER" (
    Define "inline" (Alias "__inline");;
    Undef "vsnprintf";; Define "vsnprintf" (Alias "_vsnprintf");;
    Undef "close";; Define "close" (Alias "closesocket"))
  #endif.

(** The integer types. *)
Definition integer_types : text :=
  #ifdef "_MSC_VER" (
    typedefs [("u64", "UINT64"); ("u32", "UINT32"); ("u16", "UINT16"); ("u8", "UINT8");
      ("s64", "INT64"); ("s32", "INT32"); ("s16", "INT16"); ("s8", "INT8")];;
    Define "WPA_TYPES_DEFINED" Blank)
  #endif;;
  #ifdef "__vxworks" (
    typedefs [("u64", "unsigned long long"); ("u32", "UINT32"); ("u16", "UINT16"); ("u8", "UINT8");
      ("s64", "long long"); ("s32", "INT32"); ("s16", "INT16"); ("s8", "INT8")];;
    Define "WPA_TYPES_DEFINED" Blank)
  #endif;;
  #ifdef "CONFIG_TI_COMPILER" (
    #ifdef "_LLONG_AVAILABLE" (typedefs [("u64", "unsigned long long")])
    #else (typedefs [("u64", "unsigned long")]) #endif;;
    typedefs [("u32", "unsigned int"); ("u16", "unsigned short"); ("u8", "unsigned char")];;
    Define "WPA_TYPES_DEFINED" Blank)
  #endif;;
  #ifndef "WPA_TYPES_DEFINED" (
    #ifdef "CONFIG_USE_INTTYPES_H" (Include "inttypes.h") #else (Include "stdint.h") #endif;;
    typedefs [("u64", "uint64_t"); ("u32", "uint32_t"); ("u16", "uint16_t"); ("u8", "uint8_t");
      ("s64", "int64_t"); ("s32", "int32_t"); ("s16", "int16_t"); ("s8", "int8_t")];;
    Define "WPA_TYPES_DEFINED" Blank)
  #endif.

(** The conversions of byte order; [Body] stands for the argument itself. *)
Definition windows_conversions : text :=
  If (Or (Defined "__CYGWIN__") (Defined "CONFIG_NATIVE_WINDOWS"))
    (statics_ ["wpa_swap_16"; "wpa_swap_32"];;
     defines [("le_to_host16", Body "(n)"); ("host_to_le16", Body "(n)"); ("be_to_host16", Calls "wpa_swap_16");
       ("host_to_be16", Calls "wpa_swap_16"); ("le_to_host32", Body "(n)"); ("be_to_host32", Calls "wpa_swap_32");
       ("host_to_be32", Calls "wpa_swap_32")];;
     Define "WPA_BYTE_SWAP_DEFINED" Blank) Skip.

(** [__BYTE_ORDER] where no header has defined it. *)
Definition byte_order_default : text :=
  #ifndef "__BYTE_ORDER" (
    #ifndef "__LITTLE_ENDIAN" (
      #ifndef "__BIG_ENDIAN" (
        Define "__LITTLE_ENDIAN" (Num 1234);;
        Define "__BIG_ENDIAN" (Num 4321);;
        #ifdef "sparc" (Define "__BYTE_ORDER" (Alias "__BIG_ENDIAN")) #endif)
      #endif)
    #endif)
  #endif.

Definition little_endian_conversions : text :=
  defines [("le_to_host16", Body "(n)"); ("host_to_le16", Body "(n)"); ("be_to_host16", Calls "bswap_16");
    ("host_to_be16", Calls "bswap_16"); ("le_to_host32", Body "(n)"); ("host_to_le32", Body "(n)");
    ("be_to_host32", Calls "bswap_32"); ("host_to_be32", Calls "bswap_32"); ("le_to_host64", Body "(n)");
    ("host_to_le64", Body "(n)"); ("be_to_host64", Calls "bswap_64"); ("host_to_be64", Calls "bswap_64")].

Definition big_endian_conversions : text :=
  defines [("le_to_host16", Calls "bswap_16"); ("host_to_le16", Calls "bswap_16"); ("be_to_host16", Body "(n)");
    ("host_to_be16", Body "(n)"); ("le_to_host32", Calls "bswap_32"); ("host_to_le32", Calls "bswap_32");
    ("be_to_host32", Body "(n)"); ("host_to_be32", Body "(n)"); ("le_to_host64", Calls "bswap_64");
    ("host_to_le64", Calls "bswap_64"); ("be_to_host64", Body "(n)"); ("host_to_be64", Body "(n)")];;
  default_macro "WORDS_BIGENDIAN" Blank.

Definition conversions : text :=
  windows_conversions;;
  #ifndef "WPA_BYTE_SWAP_DEFINED" (
    byte_order_default;;
    If (Same "__BYTE_ORDER" "__LITTLE_ENDIAN") little_endian_conversions
      (If (Same "__BYTE_ORDER" "__BIG_ENDIAN") big_endian_conversions
        (Item (Error "Could not determine CPU byte order")));;
    Define "WPA_BYTE_SWAP_DEFINED" Blank)
  #endif.

Definition ethernet_constants : text :=
  default_macro "ETH_ALEN" (Num 6);;
  default_macro "IFNAMSIZ" (Num 16);;
  default_macro "ETH_P_ALL" (Num 0x0003);;
  default_macro "ETH_P_80211_ENCAP" (Num 0x890d);;
  default_macro "ETH_P_PAE" (Num 0x888E);;
  default_macro "ETH_P_EAPOL" (Alias "ETH_P_PAE");;
  default_macro "ETH_P_RSN_PREAUTH" (Num 0x88c7);;
  default_macro "ETH_P_RRB" (Num 0x890D);;
  #ifdef "__GNUC__"
    (Define "PRINTF_FORMAT" (Body "format attribute");; Define "STRUCT_PACKED" (Body "packed attribute"))
  #else (Define "PRINTF_FORMAT" Nothing;; Define "STRUCT_PACKED" Blank) #endif.

Definition ansi_extra : text :=
  #ifdef "CONFIG_ANSI_C_EXTRA" (
    If (Or (Not (Defined "_MSC_VER")) (Below "_MSC_VER" 1400)) (prototypes ["snprintf"; "vsnprintf"]) Skip;;
    Item (Declared "getopt");;
    Item (Extern "optarg");;
    Item (Extern "optind");;
    #ifndef "CONFIG_NO_SOCKLEN_T_TYPEDEF"
      (#ifndef "__socklen_t_defined" (Item (Typedef "socklen_t" "int")) #endif) #endif;;
    #ifdef "CONFIG_NO_INLINE" (Define "inline" Blank) #else (Define "inline" (Alias "__inline")) #endif;;
    default_macro "__func__" (Body "__func__ not defined");;
    default_macro "bswap_16" (Body "swapped");;
    default_macro "bswap_32" (Body "swapped");;
    default_macro "MSG_DONTWAIT" (Num 0);;
    #ifdef "_WIN32_WCE" (Item (Declared "perror")) #endif)
  #endif.

Definition attributes : text :=
  #ifndef "MAC2STR" (
    defines [("MAC2STR", Body "(a)[0], ..., (a)[5]"); ("MACSTR", Body "%02x:%02x:%02x:%02x:%02x:%02x");
      ("COMPACT_MACSTR", Body "%02x%02x%02x%02x%02x%02x")])
  #endif;;
  default_macro "BIT" (Body "(1 << (x))");;
  #ifdef "__CHECKER__"
    (Define "__force" (Body "force attribute");; Define "__bitwise" (Body "bitwise attribute"))
  #else (Define "__force" Blank;; Define "__bitwise" Blank) #endif;;
  typedefs [("be16", "u16"); ("le16", "u16"); ("be32", "u32"); ("le32", "u32"); ("be64", "u64"); ("le64", "u64")];;
  #ifndef "__must_check" (
    If (Or (Not (Below "__GNUC__" 4)) (And (And (Not (Below "__GNUC__" 3)) (Below "__GNUC__" 4)) (Not (Below "__GNUC_MINOR__" 4))))
      (Define "__must_check" (Body "warn_unused_result attribute")) (Define "__must_check" Blank))
  #endif;;
  #ifndef "__maybe_unused" (
    If (Or (Not (Below "__GNUC__" 4)) (And (And (Not (Below "__GNUC__" 3)) (Below "__GNUC__" 4)) (Not (Below "__GNUC_MINOR__" 4))))
      (Define "__maybe_unused" (Body "unused attribute")) (Define "__maybe_unused" Blank))
  #endif.

Definition common_prototypes : text :=
  prototypes ["hwaddr_aton"; "hwaddr_compact_aton"; "hwaddr_aton2"; "hex2byte"; "hexstr2bin";
    "inc_byte_array"; "wpa_get_ntp_timestamp"; "wpa_snprintf_hex";
    "wpa_snprintf_hex_uppercase"];;
  #ifdef "CONFIG_NATIVE_WINDOWS" (prototypes ["wpa_unicode2ascii_inplace"; "wpa_strdup_tchar"])
  #else (Define "wpa_unicode2ascii_inplace" Nothing;; Define "wpa_strdup_tchar" (Calls "strdup")) #endif;;
  prototypes ["printf_encode"; "printf_decode"; "wpa_ssid_txt"; "wpa_config_parse_string";
    "is_hex"; "find_first_bit"; "merge_byte_arrays"; "dup_binstr"].

Definition common_lists : text :=
  members "wpa_freq_range_list" ["range"; "num"];;
  members "wpa_freq_range" ["min"; "max"];;
  prototypes ["freq_range_list_parse"; "freq_range_list_includes"; "freq_range_list_str";
    "int_array_len"; "int_array_concat"; "int_array_sort_unique";
    "int_array_add_unique"];;
  Define "ARRAY_SIZE" (Body "(sizeof(a) / sizeof((a)[0]))");;
  Item (Declared "__hide_aliasing_typecast");;
  Define "aliasing_hide_typecast" (Body "(t *) __hide_aliasing_typecast((a))");;
  #ifdef "CONFIG_VALGRIND"
    (Include "valgrind/memcheck.h";; Define "WPA_MEM_DEFINED" (Calls "VALGRIND_MAKE_MEM_DEFINED"))
  #else (Define "WPA_MEM_DEFINED" Nothing) #endif.

Definition common_h : text := header "COMMON_H" (
  os_h;;
  byte_order_headers;;
  windows_names;;
  integer_types;;
  conversions;;
  statics_ ["WPA_GET_BE16"; "WPA_PUT_BE16"; "WPA_GET_LE16"; "WPA_PUT_LE16"; "WPA_GET_BE24";
    "WPA_PUT_BE24"; "WPA_GET_BE32"; "WPA_PUT_BE32"; "WPA_GET_LE32";
    "WPA_PUT_LE32"; "WPA_GET_BE64"; "WPA_PUT_BE64"; "WPA_GET_LE64"; "WPA_PUT_LE64"];;
  ethernet_constants;;
  ansi_extra;;
  attributes;;
  common_prototypes;;
  statics_ ["is_zero_ether_addr"; "is_broadcast_ether_addr"];;
  Define "broadcast_ether_addr" (Body "ff:ff:ff:ff:ff:ff");;
  wpa_debug_h;;
  common_lists).

(** ** wpa_ctrl.h, without the names of messages *)

(** The functions of the library. *)
Definition library_functions : list string :=
  ["wpa_ctrl_open"; "wpa_ctrl_close"; "wpa_ctrl_request"; "wpa_ctrl_attach"; "wpa_ctrl_detach";
   "wpa_ctrl_recv"; "wpa_ctrl_pending"; "wpa_ctrl_get_fd"].

Definition wpa_ctrl_h : text := header "WPA_CTRL_H" (
  prototypes library_functions;;
  Item (Declared "wpa_ctrl_get_remote_ifname");;
  #ifdef "ANDROID" (Item (Declared "wpa_ctrl_cleanup")) #endif;;
  #ifdef "CONFIG_CTRL_IFACE_UDP"
    (defines [("WPA_CTRL_IFACE_PORT", Num 9877); ("WPA_CTRL_IFACE_PORT_LIMIT", Num 50);
       ("WPA_GLOBAL_CTRL_IFACE_PORT", Num 9878); ("WPA_GLOBAL_CTRL_IFACE_PORT_LIMIT", Num 20)])
  #endif).
