(* ===== verification/Build.v ===== *)
(** * Builds of the library and the program

    The source files as the preprocessor sees them, and what a build gets from
    them: which functions it defines and how often, and what its macros lead to,
    for every set of predefined macros. *)

From S2P Require Export Headers Bytes.
Local Open Scope Z_scope.
Local Open Scope string_scope.
Local Open Scope text_scope.

(** ** wpa_ctrl.c *)

Definition struct_wpa_ctrl : text :=
  #ifdef "CONFIG_CTRL_IFACE_UDP" (members "wpa_ctrl" ["s"; "local"; "dest"; "cookie"; "remote_ifname"; "remote_ip"]) #endif;;
  #ifdef "CONFIG_CTRL_IFACE_UNIX" (members "wpa_ctrl" ["s"; "local"; "dest"]) #endif;;
  #ifdef "CONFIG_CTRL_IFACE_NAMED_PIPE" (members "wpa_ctrl" ["pipe"]) #endif.

Definition wpa_ctrl_unix : text :=
  #ifdef "CONFIG_CTRL_IFACE_UNIX" (
    default_macro "CONFIG_CTRL_IFACE_CLIENT_DIR" (Body "/tmp");;
    default_macro "CONFIG_CTRL_IFACE_CLIENT_PREFIX" (Body "wpa_ctrl_");;
    functions_ ["wpa_ctrl_open"; "wpa_ctrl_close"];;
    #ifdef "ANDROID" (Item (Function "wpa_ctrl_cleanup")) #endif)
  #else (
    #ifdef "ANDROID" (Item (Function "wpa_ctrl_cleanup")) #endif)
  #endif.

Definition wpa_ctrl_udp : text :=
  #ifdef "CONFIG_CTRL_IFACE_UDP" (
    functions_ ["wpa_ctrl_open"; "wpa_ctrl_get_remote_ifname"];;
    Define "WPA_CTRL_MAX_PS_NAME" (Num 100);;
    Item (Function "wpa_ctrl_close"))
  #endif.

Definition wpa_ctrl_socket : text :=
  #ifdef "CTRL_IFACE_SOCKET" (Item (Function "wpa_ctrl_request")) #endif;;
  Item (Static "wpa_ctrl_attach_helper");;
  functions_ ["wpa_ctrl_attach"; "wpa_ctrl_detach"];;
  #ifdef "CTRL_IFACE_SOCKET" (functions_ ["wpa_ctrl_recv"; "wpa_ctrl_pending"; "wpa_ctrl_get_fd"]) #endif.

Definition wpa_ctrl_pipe : text :=
  #ifdef "CONFIG_CTRL_IFACE_NAMED_PIPE" (
    default_macro "WPA_SUPPLICANT_NAMED_PIPE" (Body "WpaSupplicant");;
    Define "NAMED_PIPE_PREFIX" (Body "pipe prefix");;
    functions_ ["wpa_ctrl_open"; "wpa_ctrl_close"; "wpa_ctrl_request"; "wpa_ctrl_recv"; "wpa_ctrl_pending";
      "wpa_ctrl_get_fd"])
  #endif.

Definition wpa_ctrl_c : text :=
  includes_h;;
  #ifdef "CONFIG_CTRL_IFACE" (
    #ifdef "CONFIG_CTRL_IFACE_UNIX" (includes_ ["sys/un.h"; "unistd.h"; "fcntl.h"]) #endif;;
    #ifdef "CONFIG_CTRL_IFACE_UDP_REMOTE" (Include "netdb.h") #endif;;
    #ifdef "ANDROID" (includes_ ["dirent.h"; "cutils/sockets.h"; "private/android_filesystem_config.h"]) #endif;;
    wpa_ctrl_h;;
    common_h;;
    If (Or (Defined "CONFIG_CTRL_IFACE_UNIX") (Defined "CONFIG_CTRL_IFACE_UDP"))
      (Define "CTRL_IFACE_SOCKET" Blank) Skip;;
    struct_wpa_ctrl;;
    wpa_ctrl_unix;;
    wpa_ctrl_udp;;
    wpa_ctrl_socket;;
    wpa_ctrl_pipe)
  #endif.

(** ** os_unix.c; trace.h and list.h are not in the repository *)

Definition os_unix_c : text :=
  includes_h;;
  Include "time.h";;
  #ifdef "ANDROID"
    (includes_ ["sys/capability.h"; "linux/prctl.h"; "private/android_filesystem_config.h"]) #endif;;
  os_h;;
  common_h;;
  #ifdef "WPA_TRACE" (
    wpa_debug_h;;
    includes_ ["trace.h"; "list.h"];;
    defines [("ALLOC_MAGIC", Num 0xa84ef1b2); ("FREED_MAGIC", Num 0x67fd487a)];;
    members "os_alloc_trace" ["magic"; "list"; "len"])
  #endif;;
  functions_ ["os_sleep"; "os_get_time"; "os_get_reltime"; "os_mktime"; "os_gmtime"];;
  #ifdef "__APPLE__" (Include "fcntl.h";; Item (Static "os_daemon"))
  #else (Define "os_daemon" (Alias "daemon")) #endif;;
  functions_ ["os_daemonize"; "os_daemonize_terminate"; "os_get_random"; "os_random"; "os_rel2abs_path";
    "os_program_init"; "os_program_deinit"; "os_setenv"; "os_unsetenv"; "os_readfile"];;
  #ifndef "WPA_TRACE" (Item (Function "os_zalloc")) #endif;;
  Item (Function "os_strlcpy");;
  #ifdef "WPA_TRACE" (functions_ ["os_malloc"; "os_realloc"; "os_free"; "os_zalloc"; "os_strdup"]) #endif.

(** ** wpa_ex.c *)

Definition wpa_ex_c : text :=
  includes_ ["err.h"; "errno.h"; "poll.h"; "stdint.h"; "stdio.h"; "stdlib.h"; "string.h"; "sys/uio.h"; "unistd.h"; "arpa/inet.h"];;
  wpa_ctrl_h;;
  #ifdef "DEBUG" (Define "debug" (Calls "fprintf")) #else (Define "debug" Nothing) #endif;;
  Define "BUFFER_SIZE" (Num 2048);;
  statics_ ["send_to_erl"; "do_wpa_request"; "try_dispatch"; "process_erl"; "process_wpa"];;
  Item (Function "main").

(** The functions of the library that wpa_ex.c calls. *)
Definition wpa_ex_calls : list string :=
  ["wpa_ctrl_request"; "wpa_ctrl_pending"; "wpa_ctrl_recv"; "wpa_ctrl_open"; "wpa_ctrl_attach"; "wpa_ctrl_get_fd"].

(** [WPA_DEFINES] of the Makefile. *)
Definition make_defines : list string := ["CONFIG_CTRL_IFACE"; "CONFIG_CTRL_IFACE_UNIX"].

(** ** What a build gets *)

Definition function_of (i : item) : option string := match i with Function f => Some f | _ => None end.
Definition member_of (i : item) : option (string * string) := match i with Member s f => Some (s, f) | _ => None end.

(** Functions with a body, external or not. *)
Definition body_of (i : item) : option string := match i with Function f | Static f => Some f | _ => None end.

Section Builds.
(** The system headers. *)
Context (sys : string -> macros -> macros).

Definition functions (t : text) (D : macros) : list string := omap function_of (items sys t D).

(** *** The connections of the library *)

(** The macros that choose them, and those that nothing may have defined before. *)
Definition backend_flags : list string :=
  ["CONFIG_WIN32_DEFAULTS"; "CONFIG_CTRL_IFACE"; "CONFIG_CTRL_IFACE_UNIX"; "CONFIG_CTRL_IFACE_UDP";
   "CONFIG_CTRL_IFACE_NAMED_PIPE"; "ANDROID"].
Definition backend_fresh : list string := ["INCLUDES_H"; "BUILD_CONFIG_H"; "CTRL_IFACE_SOCKET"].

(** The functions and the members of the connection. *)
Definition connection_of (i : item) : option (string + string) :=
  match i with
  | Function f => Some (inl f)
  | Member s f => if bool_decide (s = "wpa_ctrl") then Some (inr f) else None
  | _ => None
  end.
Definition connection (D : macros) : list (string + string) := omap connection_of (items sys wpa_ctrl_c D).

Definition how_many (l : list bool) : nat := length (filter Is_true l).

Definition connection_builds (on : string -> bool) (c : list (string + string)) : Prop :=
  if on "CONFIG_CTRL_IFACE" || on "CONFIG_WIN32_DEFAULTS" then
    (NoDup c /\ Forall (fun f => inl f ∈ c) library_functions <->
     how_many [on "CONFIG_CTRL_IFACE_UNIX"; on "CONFIG_CTRL_IFACE_UDP";
       on "CONFIG_CTRL_IFACE_NAMED_PIPE" || on "CONFIG_WIN32_DEFAULTS"] = 1%nat) /\
    (inl "wpa_ctrl_get_remote_ifname" ∈ c <-> on "CONFIG_CTRL_IFACE_UDP") /\
    (inl "wpa_ctrl_cleanup" ∈ c <-> on "ANDROID")
  else c = [].

#[local] Instance if_dec (b : bool) P Q : Decision P -> Decision Q -> Decision (if b then P else Q).
Proof. by destruct b. Defined.

(** What matters of wpa_ctrl.c for these. *)
Definition connection_slice : text :=
  Eval vm_compute in slice connection_of (backend_flags ++ backend_fresh) wpa_ctrl_c.

Lemma connection_flags D :
  keeps (backend_flags ++ backend_fresh) sys -> (forall m, m ∈ backend_fresh -> is_defined m D = false) ->
  connection D = omap connection_of (items no_headers connection_slice (flags backend_flags D)).
Proof.
  intros Hk Hf. change connection_slice with (slice connection_of (backend_flags ++ backend_fresh) wpa_ctrl_c).
  apply (prep_flags connection_of backend_flags backend_fresh sys wpa_ctrl_c D); [done|by vm_compute|done..].
Qed.

(** C35: For every set of predefined macros: when the library is enabled, wpa_ctrl.c
    defines all functions of the library, none of them twice, and a structure with
    distinct members, exactly when one kind of connection is chosen, which the Windows
    defaults of build_config.h do; the name of the remote interface belongs to UDP and
    the clean-up to Android; a library that is not enabled is empty. *)
Theorem library_builds D :
  keeps (backend_flags ++ backend_fresh) sys -> (forall m, m ∈ backend_fresh -> is_defined m D = false) ->
  connection_builds (fun m => is_defined m D) (connection D).
Proof.
  intros Hk Hf. rewrite connection_flags by done.
  unfold flags, backend_flags, connection_builds. cbn [List.filter].
  generalize (is_defined "CONFIG_WIN32_DEFAULTS" D), (is_defined "CONFIG_CTRL_IFACE" D),
    (is_defined "CONFIG_CTRL_IFACE_UNIX" D), (is_defined "CONFIG_CTRL_IFACE_UDP" D),
    (is_defined "CONFIG_CTRL_IFACE_NAMED_PIPE" D), (is_defined "ANDROID" D).
  intros b1 b2 b3 b4 b5 b6. destruct b1, b2, b3, b4, b5, b6; apply (bool_decide_unpack _); vm_compute; exact I.
Qed.

(** *** The program that the Makefile builds *)

Definition build_flags : list string := backend_flags ++ ["WPA_TRACE"].

Definition program (D : macros) : list string := functions os_unix_c D ++ functions wpa_ctrl_c D ++ functions wpa_ex_c D.

Lemma functions_flags t D :
  depends function_of (build_flags ++ backend_fresh) t ->
  keeps (build_flags ++ backend_fresh) sys -> (forall m, m ∈ backend_fresh -> is_defined m D = false) ->
  functions t D = omap function_of (items no_headers (slice function_of (build_flags ++ backend_fresh) t) (flags build_flags D)).
Proof. intros Hd Hk Hf. by apply (prep_flags function_of build_flags backend_fresh sys t D). Qed.

(** With the macros of the Makefile the three files define no function twice, and those
    that wpa_ex.c calls are among them. *)
Theorem make_links D :
  keeps (build_flags ++ backend_fresh) sys -> (forall m, m ∈ backend_fresh -> is_defined m D = false) ->
  (forall m, m ∈ build_flags -> m <> "ANDROID" -> m <> "WPA_TRACE" -> is_defined m D = bool_decide (m ∈ make_defines)) ->
  NoDup (program D) /\ Forall (fun f => f ∈ program D) ("main" :: wpa_ex_calls).
Proof.
  intros Hk Hf HD. unfold program. rewrite !functions_flags by (done || by vm_compute).
  unfold flags, build_flags, backend_flags in *. cbn [List.filter app].
  rewrite !(fun m H => HD m H) by (discriminate || apply (bool_decide_unpack _); vm_compute; exact I).
  generalize (is_defined "ANDROID" D), (is_defined "WPA_TRACE" D). intros b1 b2. clear.
  destruct b1, b2; apply (bool_decide_unpack _); vm_compute; exact I.
Qed.

(** *** The functions of os.h *)

Definition c_library_functions : list string :=
  ["os_malloc"; "os_realloc"; "os_free"; "os_memcpy"; "os_memmove"; "os_memset"; "os_memcmp"; "os_strdup";
   "os_strlen"; "os_strcasecmp"; "os_strncasecmp"; "os_strchr"; "os_strrchr"; "os_strcmp"; "os_strncmp";
   "os_strstr"; "os_snprintf"].
Definition traced_functions : list string := ["os_malloc"; "os_realloc"; "os_free"; "os_strdup"].
Definition system_functions : list string :=
  ["os_sleep"; "os_get_time"; "os_get_reltime"; "os_time_before"; "os_time_sub"; "os_reltime_before";
   "os_reltime_sub"; "os_reltime_age"; "os_reltime_expired"; "os_reltime_initialized"; "os_mktime"; "os_gmtime";
   "os_daemonize"; "os_daemonize_terminate"; "os_get_random"; "os_random"; "os_rel2abs_path"; "os_program_init";
   "os_program_deinit"; "os_setenv"; "os_unsetenv"; "os_readfile"; "os_zalloc"; "os_calloc"; "os_realloc_array";
   "os_strlcpy"].
Definition os_functions : list string := system_functions ++ c_library_functions.

Definition has (f : string) (l : list string) : bool := existsb (String.eqb f) l.

(** The name that a function has in the C library, or in Microsoft's. *)
Definition microsoft_names : list (string * string) :=
  [("os_strdup", "_strdup"); ("os_strcasecmp", "_stricmp"); ("os_strncasecmp", "_strnicmp");
   ("os_snprintf", "_snprintf")].
Definition library_name (f : string) : string := String.substring 3 (String.length f) f.
Definition microsoft_name (f : string) : option string :=
  snd <$> List.find (fun d => String.eqb f d.1) microsoft_names.
Definition rejected_name (g : string) : string := "OS_DO_NOT_USE_" ++ g.

Definition os_flags : list string :=
  ["OS_NO_C_LIB_DEFINES"; "WPA_TRACE"; "_MSC_VER"; "OS_REJECT_C_LIB_FUNCTIONS"].

(** The macros that nothing else may define: the functions, and what they stand for. *)
Definition os_names : list string :=
  (os_functions ++ (library_name <$> c_library_functions) ++
   (rejected_name <$> (library_name <$> c_library_functions)) ++ microsoft_names.*2)%list.
Definition os_fresh : list string := "OS_H" :: "COMMON_H" :: os_names.

(** Functions of os.h that have a body, and how often. *)
Definition os_body (i : item) : option string :=
  match i with Function f | Static f => if has f os_functions then Some f else None | _ => None end.

Definition occurrences (f : string) (l : list string) : nat := length (List.filter (String.eqb f) l).

(** The function that a name of the source stands for, when the macros of that name, and
    of the names that they lead to, are expanded: a macro is not expanded again within its
    own expansion. *)
Fixpoint callee (fuel : nat) (f : string) (D : macros) : option string :=
  match fuel with
  | O => None
  | S fuel =>
      match meaning f D with
      | None => Some f
      | Some (Calls g) | Some (Alias g) => callee fuel g (undefine f D)
      | Some _ => None
      end
  end.

(** What a call of a function of os.h comes to: the bodies that the function has here,
    and the function that the call is compiled to, at most two macros away. *)
Definition implementation (f : string) (bodies : list string) (after : macros) : nat * option string :=
  (occurrences f bodies, callee 4 f after).

Definition os_bodies (D : macros) : list string := omap os_body (items sys os_unix_c D).
Definition os_after (D : macros) : macros := macros_after sys os_unix_c D.

Definition os_slice : text := Eval vm_compute in slice os_body (os_flags ++ os_fresh) os_unix_c.

Lemma os_flags_enough D :
  keeps (os_flags ++ os_fresh) sys -> leaves os_names sys -> (forall m, m ∈ os_fresh -> is_defined m D = false) ->
  os_bodies D = omap os_body (items no_headers os_slice (flags os_flags D)) /\
  same os_names (os_after D) (macros_after no_headers os_slice (flags os_flags D)).
Proof.
  intros Hk Hl Hf. change os_slice with (slice os_body (os_flags ++ os_fresh) os_unix_c). split.
  - apply (prep_flags os_body os_flags os_fresh sys os_unix_c D); [done|by vm_compute|done..].
  - apply (prep_flags_same os_body os_flags os_fresh os_names sys os_unix_c D); [done|by vm_compute| |done..].
    intros m Hm. by do 2 apply list_elem_of_further.
Qed.

(** The name by which a function of the C library is called: Microsoft's where there is
    one, and a name that nothing defines for the others when they are rejected. *)
Definition called (on : string -> bool) (f : string) : string :=
  match (if on "_MSC_VER" then microsoft_name f else None) with
  | Some g => g
  | None => if on "OS_REJECT_C_LIB_FUNCTIONS" then rejected_name (library_name f) else library_name f
  end.

(** What os.h means each function to be: one body, in the header or in os_unix.c, for
    those of the operating system and of the tracing allocator; nothing here and a call of
    the C library for the others, unless OS_NO_C_LIB_DEFINES leaves these to be defined
    elsewhere. *)
Definition meant (on : string -> bool) (f : string) : nat * option string :=
  if has f system_functions || on "WPA_TRACE" && has f traced_functions then (1%nat, Some f)
  else (0%nat, Some (if on "OS_NO_C_LIB_DEFINES" then f else called on f)).

(** The names that [callee] can meet after the file are all among [os_names]. *)
Definition closed (names : list string) (D : macros) : bool :=
  forallb (fun m => match meaning m D with Some (Calls g) | Some (Alias g) => has g names | _ => true end) names.

Lemma has_elem m l : has m l = true <-> m ∈ l.
Proof. apply existsb_elem. Qed.

Lemma callee_same names n f D1 D2 :
  same names D1 D2 -> closed names D2 = true -> f ∈ names -> callee n f D1 = callee n f D2.
Proof.
  revert f D1 D2. induction n as [|n IH]; intros f D1 D2 Hs Hc Hf; [done|]. cbn. rewrite (Hs f Hf).
  assert (Hcf := Hc). unfold closed in Hcf. rewrite forallb_forall in Hcf.
  specialize (Hcf f (proj1 (list_elem_of_In _ _) Hf)).
  assert (Hu : closed names (undefine f D2) = true).
  { unfold closed in *. rewrite forallb_forall in Hc |- *. intros m Hm. specialize (Hc m Hm).
    rewrite meaning_undefine. by destruct (String.eqb m f). }
  destruct (meaning f D2) as [[| |g|g| |]|]; try done;
    (apply IH; [by apply same_undefine|done|by apply has_elem]).
Qed.

(** C36: In every configuration in which neither the predefined macros nor the system
    headers define these names themselves, each function of os.h that belongs to the
    operating system or to the tracing allocator has exactly one body, in the header or
    in os_unix.c, and is no macro; each of the others has no body, and a call of it
    comes to the function of the C library of that name, or to the one that Microsoft
    has under another name. There are two exceptions: OS_NO_C_LIB_DEFINES leaves these
    others without a macro, and with OS_REJECT_C_LIB_FUNCTIONS the macros lead to names
    OS_DO_NOT_USE_... that nothing defines, except those for the names of Microsoft. *)
Theorem os_implemented D f :
  keeps (os_flags ++ os_fresh) sys -> leaves os_names sys -> (forall m, m ∈ os_fresh -> is_defined m D = false) ->
  f ∈ os_functions ->
  implementation f (os_bodies D) (os_after D) = meant (fun m => is_defined m D) f.
Proof.
  intros Hk Hl Hf Hfn. destruct (os_flags_enough D Hk Hl Hf) as [-> Ha]. unfold implementation.
  assert (Hc : closed os_names (macros_after no_headers os_slice (flags os_flags D)) = true);
    [|rewrite (callee_same os_names 4 f _ _ Ha Hc) by (by apply elem_of_app; left); clear Hc];
    unfold flags, os_flags, meant, called; cbn [List.filter];
    generalize (is_defined "OS_NO_C_LIB_DEFINES" D), (is_defined "WPA_TRACE" D), (is_defined "_MSC_VER" D),
      (is_defined "OS_REJECT_C_LIB_FUNCTIONS" D); intros b1 b2 b3 b4; clear -Hfn.
  - destruct b1, b2, b3, b4; vm_compute; reflexivity.
  - destruct b1, b2, b3, b4; revert f Hfn; apply Forall_forall; apply (bool_decide_unpack _); vm_compute; exact I.
Qed.

(** *** The debug functions of wpa_debug.h *)

Definition debug_functions : list string :=
  ["wpa_debug_print_timestamp"; "wpa_printf"; "wpa_hexdump"; "wpa_hexdump_buf"; "wpa_hexdump_key";
   "wpa_hexdump_buf_key"; "wpa_hexdump_ascii"; "wpa_hexdump_ascii_key"; "wpa_debug_open_file";
   "wpa_debug_close_file"; "wpa_debug_reopen_file"; "wpa_dbg"; "wpa_msg"; "wpa_msg_ctrl"; "wpa_msg_global";
   "wpa_msg_no_global"; "wpa_msg_register_cb"; "wpa_msg_register_ifname_cb"; "hostapd_logger";
   "hostapd_logger_register_cb"; "wpa_debug_open_syslog"; "wpa_debug_close_syslog";
   "wpa_debug_open_linux_tracing"; "wpa_debug_close_linux_tracing"; "WPA_ASSERT"].
Definition debug_flags : list string :=
  ["CONFIG_NO_STDOUT_DEBUG"; "CONFIG_NO_WPA_MSG"; "CONFIG_NO_HOSTAPD_LOGGER"; "CONFIG_DEBUG_SYSLOG";
   "CONFIG_DEBUG_LINUX_TRACING"; "EAPOL_TEST"].
Definition debug_fresh : list string := "WPA_DEBUG_H" :: debug_functions.

(** A debug function and whether it is only declared, to be defined elsewhere. *)
Definition debug_of (i : item) : option (string * bool) :=
  match i with
  | Static f => if has f debug_functions then Some (f, false) else None
  | Declared f => if has f debug_functions then Some (f, true) else None
  | _ => None
  end.
Definition debug_items (D : macros) : list (string * bool) := omap debug_of (items sys wpa_debug_h D).
Definition debug_after (D : macros) : macros := macros_after sys wpa_debug_h D.

Definition debug_slice : text := Eval vm_compute in slice debug_of (debug_flags ++ debug_fresh) wpa_debug_h.

Lemma debug_flags_enough D :
  keeps (debug_flags ++ debug_fresh) sys -> (forall m, m ∈ debug_fresh -> is_defined m D = false) ->
  debug_items D = omap debug_of (items no_headers debug_slice (flags debug_flags D)) /\
  agree (debug_flags ++ debug_fresh) (debug_after D) (macros_after no_headers debug_slice (flags debug_flags D)).
Proof.
  intros Hk Hf. change debug_slice with (slice debug_of (debug_flags ++ debug_fresh) wpa_debug_h).
  apply (prep_flags debug_of debug_flags debug_fresh sys wpa_debug_h D); [done|by vm_compute|done..].
Qed.

(** The declarations of a debug function, and a macro of that name. *)
Definition provisions (f : string) (declared : list string) (after : macros) : nat :=
  occurrences f declared + (if is_defined f after then 1 else 0).

(** Every debug function is exactly one of an inline function, a macro and a prototype. *)
Theorem debug_provided D f :
  keeps (debug_flags ++ debug_fresh) sys -> (forall m, m ∈ debug_fresh -> is_defined m D = false) -> f ∈ debug_functions ->
  provisions f (debug_items D).*1 (debug_after D) = 1%nat.
Proof.
  intros Hk Hf Hfn. destruct (debug_flags_enough D Hk Hf) as [-> Ha]. unfold provisions.
  rewrite (Ha f) by (apply elem_of_app; right; by apply list_elem_of_further).
  unfold flags, debug_flags. cbn [List.filter].
  generalize (is_defined "CONFIG_NO_STDOUT_DEBUG" D), (is_defined "CONFIG_NO_WPA_MSG" D),
    (is_defined "CONFIG_NO_HOSTAPD_LOGGER" D), (is_defined "CONFIG_DEBUG_SYSLOG" D),
    (is_defined "CONFIG_DEBUG_LINUX_TRACING" D), (is_defined "EAPOL_TEST" D).
  intros b1 b2 b3 b4 b5 b6. clear -Hfn.
  destruct b1, b2, b3, b4, b5, b6; revert f Hfn; apply Forall_forall; apply (bool_decide_unpack _); vm_compute; exact I.
Qed.

(** Nothing is left to be defined elsewhere when all output is switched off. *)
Theorem debug_silent D :
  keeps (debug_flags ++ debug_fresh) sys -> (forall m, m ∈ debug_fresh -> is_defined m D = false) ->
  (forall m, m ∈ debug_flags -> is_defined m D = has m ["CONFIG_NO_STDOUT_DEBUG"; "CONFIG_NO_WPA_MSG"; "CONFIG_NO_HOSTAPD_LOGGER"]) ->
  Forall (fun d => d.2 = false) (debug_items D).
Proof.
  intros Hk Hf HD. rewrite (proj1 (debug_flags_enough D Hk Hf)). unfold flags, debug_flags in *. cbn [List.filter].
  rewrite !(fun m H => HD m H) by (apply (bool_decide_unpack _); vm_compute; exact I).
  apply (bool_decide_unpack _). vm_compute. exact I.
Qed.

(** *** The integer types of common.h *)

Definition type_flags : list string := ["_MSC_VER"; "__vxworks"; "CONFIG_TI_COMPILER"; "_LLONG_AVAILABLE"].
Definition type_fresh : list string := ["COMMON_H"; "WPA_TYPES_DEFINED"].
Definition unsigned_types : list string := ["u8"; "u16"; "u32"; "u64"].
Definition signed_types : list string := ["s8"; "s16"; "s32"; "s64"].

Definition integer_of (i : item) : option (string * string) :=
  match i with
  | Typedef t ty => if has t (unsigned_types ++ signed_types) then Some (t, ty) else None
  | _ => None
  end.
Definition integers (D : macros) : list (string * string) := omap integer_of (items sys common_h D).

Definition type_slice : text := Eval vm_compute in slice integer_of (type_flags ++ type_fresh) common_h.

Lemma type_flags_enough D :
  keeps (type_flags ++ type_fresh) sys -> (forall m, m ∈ type_fresh -> is_defined m D = false) ->
  integers D = omap integer_of (items no_headers type_slice (flags type_flags D)).
Proof.
  intros Hk Hf. change type_slice with (slice integer_of (type_flags ++ type_fresh) common_h).
  apply (prep_flags integer_of type_flags type_fresh sys common_h D); [done|by vm_compute|done..].
Qed.
End Builds.

(** The bits of a type; those of [unsigned long] depend on the compiler. *)
Definition bits (ty : string) : option Z :=
  if has ty ["UINT8"; "uint8_t"; "INT8"; "int8_t"; "unsigned char"; "u8"; "s8"] then Some 8
  else if has ty ["UINT16"; "uint16_t"; "INT16"; "int16_t"; "unsigned short"; "u16"; "s16"] then Some 16
  else if has ty ["UINT32"; "uint32_t"; "INT32"; "int32_t"; "unsigned int"; "u32"; "s32"] then Some 32
  else if has ty ["UINT64"; "uint64_t"; "INT64"; "int64_t"; "unsigned long long"; "long long"; "u64"; "s64"] then Some 64
  else None.

Section Types.
Context (sys : string -> macros -> macros).

Definition times (t : string) (l : list (string * string)) : nat :=
  length (List.filter (fun d => String.eqb t d.1) l).

(** On at most one of the platforms with types of their own, each unsigned type is
    defined once, and each signed type unless the TI compiler is used, where there are
    none; every type has the bits of its name, except that u64 is [unsigned long] with
    the TI compiler without [long long].  On two of them there are two definitions. *)
Definition types_ok (on : string -> bool) (l : list (string * string)) : Prop :=
  let ti := on "CONFIG_TI_COMPILER" in
  let short := ti && negb (on "_LLONG_AVAILABLE") in
  if Nat.leb (how_many [on "_MSC_VER"; on "__vxworks"; ti]) 1 then
    Forall (fun t => times t l = 1%nat) unsigned_types /\
    Forall (fun t => times t l = if ti then 0%nat else 1%nat) signed_types /\
    Forall (fun d => bits d.2 = bits d.1 \/ short /\ d = ("u64", "unsigned long")) l /\
    (short -> ("u64", "unsigned long") ∈ l)
  else (2 <= times "u64" l)%nat.

(** The integer types of every platform, as [types_ok] describes them. *)
Theorem integer_types_ok D :
  keeps (type_flags ++ type_fresh) sys -> (forall m, m ∈ type_fresh -> is_defined m D = false) ->
  types_ok (fun m => is_defined m D) (integers sys D).
Proof.
  intros Hk Hf. rewrite type_flags_enough by done. unfold flags, type_flags, types_ok. cbn [List.filter].
  generalize (is_defined "_MSC_VER" D), (is_defined "__vxworks" D), (is_defined "CONFIG_TI_COMPILER" D),
    (is_defined "_LLONG_AVAILABLE" D).
  intros b1 b2 b3 b4. destruct b1, b2, b3, b4; apply (bool_decide_unpack _); vm_compute; exact I.
Qed.
End Types.

(** *** The byte order of common.h *)

(** What common.h makes of the platform, before its first function. *)
Definition platform_part : text := byte_order_headers;; windows_names;; integer_types;; conversions.

#[local] Instance byte_order_eq_dec : EqDecision byte_order.
Proof. solve_decision. Defined.

(** The conversions, with the order that they convert from or to and their width. *)
Definition order_conversions : list (string * (byte_order * string)) :=
  [("le_to_host16", (LITTLE_ENDIAN, "16")); ("host_to_le16", (LITTLE_ENDIAN, "16"));
   ("be_to_host16", (BIG_ENDIAN, "16")); ("host_to_be16", (BIG_ENDIAN, "16"));
   ("le_to_host32", (LITTLE_ENDIAN, "32")); ("host_to_le32", (LITTLE_ENDIAN, "32"));
   ("be_to_host32", (BIG_ENDIAN, "32")); ("host_to_be32", (BIG_ENDIAN, "32"));
   ("le_to_host64", (LITTLE_ENDIAN, "64")); ("host_to_le64", (LITTLE_ENDIAN, "64"));
   ("be_to_host64", (BIG_ENDIAN, "64")); ("host_to_be64", (BIG_ENDIAN, "64"))].

(** The macros that [platform_part] tests, and those that it is about. *)
Definition order_macros : list string :=
  ["__linux__"; "__GLIBC__"; "__FreeBSD__"; "__NetBSD__"; "__DragonFly__"; "__OpenBSD__"; "__APPLE__";
   "CONFIG_TI_COMPILER"; "__big_endian__"; "CONFIG_NATIVE_WINDOWS"; "MSG_DONTWAIT"; "_MSC_VER"; "__vxworks";
   "_LLONG_AVAILABLE"; "WPA_TYPES_DEFINED"; "CONFIG_USE_INTTYPES_H"; "__CYGWIN__"; "WPA_BYTE_SWAP_DEFINED";
   "__BYTE_ORDER"; "__LITTLE_ENDIAN"; "__BIG_ENDIAN"; "_BYTE_ORDER"; "_LITTLE_ENDIAN"; "_BIG_ENDIAN"; "sparc";
   "WORDS_BIGENDIAN"] ++ order_conversions.*1.

(** Platforms, with the byte order of the machine where there are machines of both.
    [Only_big_endian] is one that tells its byte order by the macro __BIG_ENDIAN alone. *)
Inductive platform : Type :=
| Glibc (o : byte_order)
| Free_BSD (o : byte_order)
| Open_BSD (o : byte_order)
| Ti (o : byte_order)
| Sparc
| Cygwin
| Only_big_endian
| Unknown.

(** What the compiler defines, and what the system headers are documented to define. *)
Definition predefined (p : platform) : macros :=
  match p with
  | Glibc _ => [("__linux__", Num 1); ("__GLIBC__", Num 2)]
  | Free_BSD _ => [("__FreeBSD__", Num 1)]
  | Open_BSD _ => [("__OpenBSD__", Num 1)]
  | Ti LITTLE_ENDIAN => [("CONFIG_TI_COMPILER", Blank)]
  | Ti BIG_ENDIAN => [("CONFIG_TI_COMPILER", Blank); ("__big_endian__", Num 1)]
  | Sparc => [("sparc", Num 1)]
  | Cygwin => [("__CYGWIN__", Num 1)]
  | Only_big_endian => [("__BIG_ENDIAN", Num 1)]
  | Unknown => []
  end.

Definition endian_macros (prefix : string) (o : byte_order) : macros :=
  [(prefix ++ "LITTLE_ENDIAN", Num 1234); (prefix ++ "BIG_ENDIAN", Num 4321);
   (prefix ++ "BYTE_ORDER", Alias (prefix ++ match o with LITTLE_ENDIAN => "LITTLE_ENDIAN" | BIG_ENDIAN => "BIG_ENDIAN" end))].

Definition header_sets (p : platform) (h : string) : macros :=
  match p with
  | Glibc o => if String.eqb h "endian.h" then endian_macros "__" o else []
  | Free_BSD o | Open_BSD o => if String.eqb h "sys/endian.h" then endian_macros "_" o else []
  | _ => []
  end.

(** The byte order that common.h works with, if it finds one. *)
Definition selected (p : platform) : option byte_order :=
  match p with
  | Glibc o | Free_BSD o | Open_BSD o | Ti o => Some o
  | Sparc => Some BIG_ENDIAN
  | Cygwin | Only_big_endian => Some LITTLE_ENDIAN
  | Unknown => None
  end.

(** What a conversion is: the swap where the orders differ; Cygwin lacks some of them. *)
Definition conversion (p : platform) (c : string * (byte_order * string)) : option macro :=
  let '(name, (o, width)) := c in
  match p, selected p with
  | Cygwin, _ =>
      if has name ["host_to_le32"; "le_to_host64"; "host_to_le64"; "be_to_host64"; "host_to_be64"] then None
      else match o with LITTLE_ENDIAN => Some (Body "(n)") | BIG_ENDIAN => Some (Calls ("wpa_swap_" ++ width)) end
  | _, Some o' => Some (if bool_decide (o = o') then Body "(n)" else Calls ("bswap_" ++ width))
  | _, None => None
  end.

(** Each conversion of byte order is the swap of its width where the order that it is
    about is not the one of the machine, and does nothing otherwise; without a known order
    there is an error message.  A platform that tells its order only by __BIG_ENDIAN is
    taken for a little-endian one, and Cygwin lacks the conversions of 64 bits and
    host_to_le32. *)
Theorem byte_order_selected sys p D :
  headers_set order_macros (header_sets p) sys -> same order_macros D (predefined p) ->
  Forall (fun c => meaning c.1 (macros_after sys platform_part D) = conversion p c) order_conversions /\
  (Error "Could not determine CPU byte order" ∈ items sys platform_part D <-> selected p = None).
Proof.
  intros Hk HD.
  destruct (prep_same order_macros (header_sets p) sys platform_part D (predefined p) Hk) as (Hs & _ & Hi).
  - intros h. unfold tame, header_sets. destruct p as [[]|[]|[]|o| | | |]; try destruct (String.eqb h _); repeat constructor.
  - by vm_compute.
  - done.
  - apply tame_tame_on. destruct p as [[]|[]|[]|[]| | | |]; repeat constructor.
  - rewrite Hi. split.
    + apply Forall_forall. intros c Hc. rewrite Hs by (apply elem_of_app; right; by apply list_elem_of_fmap_2).
      revert c Hc. apply Forall_forall. clear. destruct p as [[]|[]|[]|[]| | | |]; repeat constructor.
    + clear. destruct p as [[]|[]|[]|[]| | | |]; apply (bool_decide_unpack _); vm_compute; exact I.
Qed.

(** ** Witnesses: Linux with the GNU C library, and the macros of the Makefile *)

Definition glibc (h : string) (D : macros) : macros := (header_sets (Glibc LITTLE_ENDIAN) h ++ D)%list.
Definition make_macros : macros := (((fun m => (m, Blank)) <$> make_defines) ++ predefined (Glibc LITTLE_ENDIAN))%list.

Lemma glibc_keeps ms :
  forallb (fun m => negb (has m ["__LITTLE_ENDIAN"; "__BIG_ENDIAN"; "__BYTE_ORDER"])) ms = true -> keeps ms glibc.
Proof.
  intros H h D m Hm. rewrite forallb_forall in H. apply list_elem_of_In, H in Hm.
  unfold glibc, header_sets. destruct (String.eqb h "endian.h"); [|done].
  unfold has in Hm. cbn -[String.eqb] in Hm.
  change (is_defined m (("__LITTLE_ENDIAN", Num 1234) :: ("__BIG_ENDIAN", Num 4321) ::
    ("__BYTE_ORDER", Alias "__LITTLE_ENDIAN") :: D) = is_defined m D).
  rewrite !is_defined_cons.
  destruct (String.eqb m "__LITTLE_ENDIAN"), (String.eqb m "__BIG_ENDIAN"), (String.eqb m "__BYTE_ORDER"); done.
Qed.

Lemma fresh_by_computation ms D :
  forallb (fun m => negb (is_defined m D)) ms = true -> forall m, m ∈ ms -> is_defined m D = false.
Proof. intros H m Hm. rewrite forallb_forall in H. apply negb_true_iff, H. by apply list_elem_of_In. Qed.

Lemma library_builds_witness :
  connection_builds (fun m => is_defined m make_macros) (connection glibc make_macros) /\
  connection glibc make_macros = ([inr "s"; inr "local"; inr "dest"] ++ (inl <$> library_functions))%list.
Proof.
  split; [|vm_compute; reflexivity].
  apply (library_builds glibc make_macros); [by apply glibc_keeps|by apply fresh_by_computation].
Defined.

Lemma glibc_leaves names :
  forallb (fun m => negb (has m ["__LITTLE_ENDIAN"; "__BIG_ENDIAN"; "__BYTE_ORDER"])) names = true -> leaves names glibc.
Proof.
  intros H h D m Hm. rewrite forallb_forall in H. apply list_elem_of_In, H in Hm.
  unfold glibc, header_sets. destruct (String.eqb h "endian.h"); [|done].
  unfold has in Hm. cbn -[String.eqb] in Hm.
  change (meaning m (("__LITTLE_ENDIAN", Num 1234) :: ("__BIG_ENDIAN", Num 4321) ::
    ("__BYTE_ORDER", Alias "__LITTLE_ENDIAN") :: D) = meaning m D). cbn [meaning].
  destruct (String.eqb m "__LITTLE_ENDIAN"), (String.eqb m "__BIG_ENDIAN"), (String.eqb m "__BYTE_ORDER"); done.
Qed.

Lemma os_implemented_witness :
  implementation "os_malloc" (os_bodies glibc make_macros) (os_after glibc make_macros) = (0%nat, Some "malloc") /\
  implementation "os_malloc" (os_bodies glibc (("OS_REJECT_C_LIB_FUNCTIONS", Blank) :: make_macros))
    (os_after glibc (("OS_REJECT_C_LIB_FUNCTIONS", Blank) :: make_macros)) = (0%nat, Some "OS_DO_NOT_USE_malloc").
Proof.
  split.
  - rewrite (os_implemented glibc make_macros "os_malloc");
      [vm_compute; reflexivity|by apply glibc_keeps|by apply glibc_leaves|by apply fresh_by_computation|].
    apply (bool_decide_unpack _). vm_compute. exact I.
  - rewrite (os_implemented glibc (("OS_REJECT_C_LIB_FUNCTIONS", Blank) :: make_macros) "os_malloc");
      [vm_compute; reflexivity|by apply glibc_keeps|by apply glibc_leaves|by apply fresh_by_computation|].
    apply (bool_decide_unpack _). vm_compute. exact I.
Defined.
