(* ===== verification/WpaBuf.v ===== *)
(** * wpabuf.h: the dynamic data buffer

    The inline functions of the header over [struct wpabuf].  [wpabuf_put] is
    declared there and defined elsewhere, so it is a parameter: a function that
    gives the buffer with [len] more bytes in use and the offset of the first of
    them, or stops the process ([None]) when they do not fit ([WpabufPut]). *)

From S2P Require Export Bytes.
Local Open Scope Z_scope.

Definition WPABUF_FLAG_EXT_DATA : Z := BIT 0.

(** [buf] is the object that the pointer refers to, [None] the null pointer. *)
Record wpabuf : Type := MkWpabuf {
  wb_size : Z;
  wb_used : Z;
  wb_buf : option bytes;
  wb_flags : Z
}.

Definition wpabuf_size (buf : wpabuf) : Z := wb_size buf.
Definition wpabuf_len (buf : wpabuf) : Z := wb_used buf.
(** The difference of two [size_t]. *)
Definition wpabuf_tailroom (buf : wpabuf) : Z := to_u64 (wb_size buf - wb_used buf).
Definition wpabuf_head (buf : wpabuf) : option bytes := wb_buf buf.
Definition wpabuf_head_u8 (buf : wpabuf) : option bytes := wpabuf_head buf.
Definition wpabuf_mhead (buf : wpabuf) : option bytes := wb_buf buf.
Definition wpabuf_mhead_u8 (buf : wpabuf) : option bytes := wpabuf_mhead buf.

Definition set_used (n : Z) (b : wpabuf) : wpabuf :=
  MkWpabuf (wb_size b) n (wb_buf b) (wb_flags b).
Definition set_buf (m : bytes) (b : wpabuf) : wpabuf :=
  MkWpabuf (wb_size b) (wb_used b) (Some m) (wb_flags b).

(** A function that works on the object at [buf->buf + pos]. *)
Definition at_pos (b : wpabuf) (pos : Z) (f : bytes -> option bytes) : option wpabuf :=
  m ← wb_buf b;
  rest ← f (drop (Z.to_nat pos) m);
  Some (set_buf (take (Z.to_nat pos) m ++ rest) b).

Definition wpabuf_set (buf : wpabuf) (data : option bytes) (len : Z) : wpabuf :=
  MkWpabuf len len data WPABUF_FLAG_EXT_DATA.

(** What [wpabuf_put] promises. *)
Class WpabufPut (wpabuf_put : wpabuf -> Z -> option (wpabuf * Z)) : Prop := {
  wpabuf_put_room : forall b len, 0 <= len -> wb_used b + len <= wb_size b ->
    wpabuf_put b len = Some (set_used (wb_used b + len) b, wb_used b);
  wpabuf_put_overflow : forall b len, wb_size b < wb_used b + len -> wpabuf_put b len = None
}.

Section Put.
Context (wpabuf_put : wpabuf -> Z -> option (wpabuf * Z)).

Definition wpabuf_put_u8 (buf : wpabuf) (data : Z) : option wpabuf :=
  '(buf, pos) ← wpabuf_put buf 1;
  at_pos buf pos (set_u8 0 data).

Definition wpabuf_put_le16 (buf : wpabuf) (data : Z) : option wpabuf :=
  '(buf, pos) ← wpabuf_put buf 2;
  at_pos buf pos (fun pos => WPA_PUT_LE16 pos data).

Definition wpabuf_put_le32 (buf : wpabuf) (data : Z) : option wpabuf :=
  '(buf, pos) ← wpabuf_put buf 4;
  at_pos buf pos (fun pos => WPA_PUT_LE32 pos data).

Definition wpabuf_put_be16 (buf : wpabuf) (data : Z) : option wpabuf :=
  '(buf, pos) ← wpabuf_put buf 2;
  at_pos buf pos (fun pos => WPA_PUT_BE16 pos data).

Definition wpabuf_put_be24 (buf : wpabuf) (data : Z) : option wpabuf :=
  '(buf, pos) ← wpabuf_put buf 3;
  at_pos buf pos (fun pos => WPA_PUT_BE24 pos data).

Definition wpabuf_put_be32 (buf : wpabuf) (data : Z) : option wpabuf :=
  '(buf, pos) ← wpabuf_put buf 4;
  at_pos buf pos (fun pos => WPA_PUT_BE32 pos data).

(** [memcpy] reads [len] bytes of the object [data] points to. *)
Definition wpabuf_put_data (buf : wpabuf) (data : option bytes) (len : Z) : option wpabuf :=
  match data with
  | Some data =>
      '(buf, pos) ← wpabuf_put buf len;
      at_pos buf pos (fun pos =>
        if decide (Z.to_nat len <= length data)%nat
        then store_bytes pos 0 (take (Z.to_nat len) data) else None)
  | None => Some buf
  end.

Definition wpabuf_put_buf (dst src : wpabuf) : option wpabuf :=
  wpabuf_put_data dst (wpabuf_head src) (wpabuf_len src).

(** [str] is the object that holds the C string. *)
Definition wpabuf_put_str (dst : wpabuf) (str : bytes) : option wpabuf :=
  wpabuf_put_data dst (Some str) (Z.of_nat (length (cstr str))).

(** ** Specification: the buffer as a sequence of bytes *)

Definition wb_data (b : wpabuf) : bytes :=
  match wb_buf b with Some m => take (Z.to_nat (wb_used b)) m | None => [] end.

Definition wb_ok (b : wpabuf) : Prop :=
  0 <= wb_used b <= wb_size b /\ wb_size b < 2 ^ 64 /\
  exists m, wb_buf b = Some m /\ Z.of_nat (length m) = wb_size b.

(** [b'] is [b] with [xs] at its end. *)
Definition appended (b : wpabuf) (xs : bytes) (b' : wpabuf) : Prop :=
  wb_ok b' /\ wb_data b' = wb_data b ++ xs /\
  wb_used b' = wb_used b + Z.of_nat (length xs) /\
  wb_size b' = wb_size b /\ wb_flags b' = wb_flags b.

(** An operation that appends [xs], or stops the process. *)
Definition appends (b : wpabuf) (r : option wpabuf) (xs : bytes) : Prop :=
  if decide (wb_used b + Z.of_nat (length xs) <= wb_size b)
  then exists b', r = Some b' /\ appended b xs b' else r = None.

Context `{!WpabufPut wpabuf_put}.

(** The common part of the operations. *)
Lemma put_appends b n f xs :
  wb_ok b -> Z.of_nat (length xs) = n ->
  (forall rest, n <= Z.of_nat (length rest) -> f rest = Some (xs ++ drop (Z.to_nat n) rest)) ->
  appends b ('(b, pos) ← wpabuf_put b n; at_pos b pos f) xs.
Proof.
  intros (Hu & Hs & m & Hm & Hl) Hn Hf. unfold appends. rewrite Hn. case_decide as Hroom; cycle 1.
  { by rewrite wpabuf_put_overflow by lia. }
  rewrite wpabuf_put_room by lia. cbn [mbind option_bind]. unfold at_pos.
  cbn [wb_buf set_used]. rewrite Hm. cbn [mbind option_bind].
  rewrite Hf by (rewrite length_drop; lia). cbn [mbind option_bind].
  eexists. split; [done|]. unfold appended, wb_data, set_buf. cbn. rewrite Hm, Hn.
  assert (length (take (Z.to_nat (wb_used b)) m ++ xs) = Z.to_nat (wb_used b + n)) as Hlen
    by (rewrite length_app, length_take; lia).
  split_and!; try done.
  - split_and!; cbn; try lia. eexists. split; [done|].
    rewrite !length_app, length_take, !length_drop. lia.
  - rewrite app_assoc. by apply take_app_length'.
Qed.

(** An integer, stored by one of the [WPA_PUT] functions. *)
Ltac put_int spec :=
  apply put_appends;
  [done|rewrite ?length_le_bytes, ?length_be_bytes; done|intros rest Hr; apply spec; lia].

Lemma wpabuf_put_data_appends b data len :
  wb_ok b -> 0 <= len <= Z.of_nat (length data) ->
  appends b (wpabuf_put_data b (Some data) len) (take (Z.to_nat len) data).
Proof.
  intros Hb Hl. apply put_appends; [done|rewrite length_take; lia|].
  intros rest Hr. rewrite decide_True by lia.
  assert (length (take (Z.to_nat len) data) = Z.to_nat len) as Ht by (rewrite length_take; lia).
  rewrite store_bytes_0 by lia. by rewrite Ht.
Qed.

(** The operations as items of a message, and the bytes that each stands for. *)
Inductive item : Type :=
| U8 (v : Z)
| Le16 (v : Z)
| Le32 (v : Z)
| Be16 (v : Z)
| Be24 (v : Z)
| Be32 (v : Z)
| Octets (data : bytes) (len : Z)
| Contents (src : wpabuf)
| Text (str junk : bytes).

Definition put_item (b : wpabuf) (i : item) : option wpabuf :=
  match i with
  | U8 v => wpabuf_put_u8 b v
  | Le16 v => wpabuf_put_le16 b v
  | Le32 v => wpabuf_put_le32 b v
  | Be16 v => wpabuf_put_be16 b v
  | Be24 v => wpabuf_put_be24 b v
  | Be32 v => wpabuf_put_be32 b v
  | Octets data len => wpabuf_put_data b (Some data) len
  | Contents src => wpabuf_put_buf b src
  | Text str junk => wpabuf_put_str b (str ++ nul :: junk)
  end.

Definition item_bytes (i : item) : bytes :=
  match i with
  | U8 v => [byte.of_Z v]
  | Le16 v => le_bytes 2 v
  | Le32 v => le_bytes 4 v
  | Be16 v => be_bytes 2 v
  | Be24 v => be_bytes 3 v
  | Be32 v => be_bytes 4 v
  | Octets data len => take (Z.to_nat len) data
  | Contents src => wb_data src
  | Text str _ => str
  end.

Definition item_ok (i : item) : Prop :=
  match i with
  | Octets data len => 0 <= len <= Z.of_nat (length data)
  | Contents src => wb_ok src
  | Text str _ => nul_free str
  | _ => True
  end.

Lemma put_item_appends b i : wb_ok b -> item_ok i -> appends b (put_item b i) (item_bytes i).
Proof.
  intros Hb. destruct i as [v|v|v|v|v|v|data len|src|str junk]; cbn [put_item item_bytes item_ok]; intros Hi.
  - apply put_appends; [done|done|]. intros [|c rest] Hr; [cbn in Hr; lia|].
    unfold set_u8. rewrite store_in by (cbn; lia). done.
  - put_int WPA_PUT_LE16_spec.
  - put_int WPA_PUT_LE32_spec.
  - put_int WPA_PUT_BE16_spec.
  - put_int WPA_PUT_BE24_spec.
  - put_int WPA_PUT_BE32_spec.
  - by apply wpabuf_put_data_appends.
  - destruct Hi as (Hu & _ & m & Hm & Hl). unfold wpabuf_put_buf, wpabuf_head, wpabuf_len, wb_data.
    rewrite Hm. apply wpabuf_put_data_appends; [done|lia].
  - unfold wpabuf_put_str. rewrite cstr_app by done.
    assert (0 <= Z.of_nat (length str) <= Z.of_nat (length (str ++ nul :: junk))) as Hl
      by (rewrite length_app; cbn; lia).
    pose proof (wpabuf_put_data_appends b _ _ Hb Hl) as H.
    by rewrite Nat2Z.id, take_app_length in H.
Qed.

(** C38: Each put operation of a data buffer appends exactly the bytes of its argument
    to the contents and keeps the buffer well formed, or stops the process when they do
    not fit. *)
Theorem wpabuf_put_spec b v data len src str junk :
  wb_ok b -> wb_ok src -> 0 <= len <= Z.of_nat (length data) -> nul_free str ->
  appends b (wpabuf_put_u8 b v) [byte.of_Z v] /\
  appends b (wpabuf_put_le16 b v) (le_bytes 2 v) /\
  appends b (wpabuf_put_le32 b v) (le_bytes 4 v) /\
  appends b (wpabuf_put_be16 b v) (be_bytes 2 v) /\
  appends b (wpabuf_put_be24 b v) (be_bytes 3 v) /\
  appends b (wpabuf_put_be32 b v) (be_bytes 4 v) /\
  appends b (wpabuf_put_data b (Some data) len) (take (Z.to_nat len) data) /\
  wpabuf_put_data b None len = Some b /\
  appends b (wpabuf_put_buf b src) (wb_data src) /\
  appends b (wpabuf_put_str b (str ++ nul :: junk)) str.
Proof.
  intros Hb Hsrc Hlen Hstr. split_and!.
  - by apply (put_item_appends b (U8 v)).
  - by apply (put_item_appends b (Le16 v)).
  - by apply (put_item_appends b (Le32 v)).
  - by apply (put_item_appends b (Be16 v)).
  - by apply (put_item_appends b (Be24 v)).
  - by apply (put_item_appends b (Be32 v)).
  - by apply (put_item_appends b (Octets data len)).
  - done.
  - by apply (put_item_appends b (Contents src)).
  - by apply (put_item_appends b (Text str junk)).
Qed.

(** A message is put together item by item; the first item that does not fit
    stops the process. *)
Fixpoint put_items (b : wpabuf) (its : list item) : option wpabuf :=
  match its with
  | [] => Some b
  | i :: its => b ← put_item b i; put_items b its
  end.

(** C39: A data buffer stays well formed under every sequence of put operations, of a
    size that never changes: afterwards its contents are the earlier ones and the bytes
    of all items in order; the process stops exactly when they do not all fit. *)
Theorem wpabuf_build b its :
  wb_ok b -> Forall item_ok its ->
  match put_items b its with
  | Some b' => wb_ok b' /\ wb_data b' = wb_data b ++ concat (item_bytes <$> its) /\
      wb_used b' = wb_used b + Z.of_nat (length (concat (item_bytes <$> its))) /\
      wb_size b' = wb_size b /\ wb_flags b' = wb_flags b
  | None => wb_size b < wb_used b + Z.of_nat (length (concat (item_bytes <$> its)))
  end.
Proof.
  intros Hb His. revert b Hb. induction His as [|i its Hi _ IH]; intros b Hb; cbn.
  { rewrite app_nil_r. split_and!; try done. lia. }
  pose proof (put_item_appends b i Hb Hi) as Ha. unfold appends in Ha.
  rewrite length_app. case_decide as Hroom.
  - destruct Ha as (b1 & -> & Hb1 & Hd & Hu & Hs & Hf). cbn [mbind option_bind].
    specialize (IH b1 Hb1). destruct (put_items b1 its) as [b2|].
    + destruct IH as (? & -> & -> & -> & ->). rewrite Hd, Hu, app_assoc. split_and!; try done. lia.
    + rewrite Hs, Hu in IH. lia.
  - rewrite Ha. cbn [mbind option_bind]. lia.
Qed.

(** What has been appended can be read back behind the earlier contents. *)
Lemma appends_read_back b r n get value bytes_of v :
  wb_ok b -> reads n get value -> (forall v, length (bytes_of n v) = n) ->
  appends b r (bytes_of n v) -> value (bytes_of n v) = v -> wb_used b + Z.of_nat n <= wb_size b ->
  exists b', r = Some b' /\ get (drop (Z.to_nat (wpabuf_len b)) (wb_data b')) = Some v.
Proof.
  intros Hb Hg Hl Ha Hv Hroom. unfold appends in Ha. rewrite Hl, decide_True in Ha by done.
  destruct Ha as (b' & -> & _ & Hd & _). exists b'. split; [done|]. rewrite Hd.
  destruct Hb as (Hu & _ & m & Hm & Hml). unfold wb_data, wpabuf_len. rewrite Hm.
  rewrite drop_app_length' by (rewrite length_take; lia).
  rewrite Hg, decide_True, take_ge by (rewrite Hl; lia). by rewrite Hv.
Qed.

Ltac read_back bytes_of spec :=
  eapply (appends_read_back _ _ _ _ _ bytes_of);
  [done|eassumption|auto with octets|put_int spec|(apply le_value_bytes || apply be_value_bytes); cbn; lia|lia].

(** An integer that was put into a data buffer is read back by the corresponding
    WPA_GET at the offset where the buffer ended before. *)
Theorem wpabuf_read_back b v :
  wb_ok b -> wb_used b + 4 <= wb_size b -> 0 <= v < 2 ^ 32 ->
  (exists b', wpabuf_put_le32 b v = Some b' /\
     WPA_GET_LE32 (drop (Z.to_nat (wpabuf_len b)) (wb_data b')) = Some v) /\
  (exists b', wpabuf_put_be32 b v = Some b' /\
     WPA_GET_BE32 (drop (Z.to_nat (wpabuf_len b)) (wb_data b')) = Some v) /\
  (v < 2 ^ 24 -> exists b', wpabuf_put_be24 b v = Some b' /\
     WPA_GET_BE24 (drop (Z.to_nat (wpabuf_len b)) (wb_data b')) = Some v) /\
  (v < 2 ^ 16 ->
    (exists b', wpabuf_put_le16 b v = Some b' /\
       WPA_GET_LE16 (drop (Z.to_nat (wpabuf_len b)) (wb_data b')) = Some v) /\
    (exists b', wpabuf_put_be16 b v = Some b' /\
       WPA_GET_BE16 (drop (Z.to_nat (wpabuf_len b)) (wb_data b')) = Some v)).
Proof.
  intros Hb Hroom Hv. destruct get_all as (?&?&?&?&?&_).
  split_and!; [| |intros Hv2|intros Hv2; split].
  - read_back le_bytes WPA_PUT_LE32_spec.
  - read_back be_bytes WPA_PUT_BE32_spec.
  - read_back be_bytes WPA_PUT_BE24_spec.
  - read_back le_bytes WPA_PUT_LE16_spec.
  - read_back be_bytes WPA_PUT_BE16_spec.
Qed.

(** The room at the end, before and after an append. *)
Theorem wpabuf_tailroom_spec b xs b' :
  wb_ok b -> appended b xs b' ->
  wpabuf_tailroom b = wb_size b - wb_used b /\ Z.of_nat (length xs) <= wpabuf_tailroom b /\
  wpabuf_tailroom b' = wpabuf_tailroom b - Z.of_nat (length xs) /\
  wpabuf_len b' = wpabuf_len b + Z.of_nat (length xs) /\ wpabuf_size b' = wpabuf_size b.
Proof.
  intros (Hu & Hs & _) ((Hu' & Hs' & _) & _ & He & Hz & _).
  unfold wpabuf_tailroom, wpabuf_len, wpabuf_size, to_u64, unsigned_bits.
  rewrite !Z.mod_small by lia. lia.
Qed.
End Put.

(** A buffer of external data is full. *)
Lemma wpabuf_set_spec buf data len :
  0 <= len < 2 ^ 64 -> Z.of_nat (length data) = len ->
  wb_ok (wpabuf_set buf (Some data) len) /\ wb_data (wpabuf_set buf (Some data) len) = data /\
  wpabuf_tailroom (wpabuf_set buf (Some data) len) = 0.
Proof.
  intros Hl Hd. split_and!.
  - split_and!; cbn; [lia..|]. by exists data.
  - unfold wb_data. cbn. apply take_ge. lia.
  - unfold wpabuf_tailroom. cbn. by rewrite Z.sub_diag.
Qed.
