(* ===== verification/WpaDebug.v ===== *)
(** * wpa_debug.h: the inline functions of the debug interface

    The header declares the printing functions, which are defined elsewhere: a
    hexdump is a parameter.  Its inline functions pass a data buffer on to them;
    the variants of builds without debug output do nothing; [WPA_ASSERT] of the
    EAPOL_TEST build ends the process. *)

From S2P Require Export WpaBuf Sys.
Local Open Scope Z_scope.
Local Open Scope prog_scope.

Inductive msg_level : Type :=
| MSG_EXCESSIVE
| MSG_MSGDUMP
| MSG_DEBUG
| MSG_INFO
| MSG_WARNING
| MSG_ERROR.

(** The numbers that C gives the constants. *)
Definition msg_level_value (l : msg_level) : Z :=
  match l with
  | MSG_EXCESSIVE => 0 | MSG_MSGDUMP => 1 | MSG_DEBUG => 2
  | MSG_INFO => 3 | MSG_WARNING => 4 | MSG_ERROR => 5
  end.

Inductive hostapd_logger_level : Type :=
| HOSTAPD_LEVEL_DEBUG_VERBOSE
| HOSTAPD_LEVEL_DEBUG
| HOSTAPD_LEVEL_INFO
| HOSTAPD_LEVEL_NOTICE
| HOSTAPD_LEVEL_WARNING.

Section Hexdump.
(** The hexdump functions: level, title, memory (or the null pointer), length. *)
Context {R : Type} (wpa_hexdump wpa_hexdump_key : msg_level -> bytes -> option bytes -> Z -> R).

Definition wpa_hexdump_buf (level : msg_level) (title : bytes) (buf : option wpabuf) : R :=
  wpa_hexdump level title (match buf with Some b => wpabuf_head b | None => None end)
    (match buf with Some b => wpabuf_len b | None => 0 end).

Definition wpa_hexdump_buf_key (level : msg_level) (title : bytes) (buf : option wpabuf) : R :=
  wpa_hexdump_key level title (match buf with Some b => wpabuf_head b | None => None end)
    (match buf with Some b => wpabuf_len b | None => 0 end).

(** A hexdump of a well-formed buffer is given memory that holds its contents,
    as many bytes as there are in it; the null pointer goes with length 0. *)
Lemma wpa_hexdump_buf_spec level title b :
  wb_ok b ->
  (exists m len, wpa_hexdump_buf level title (Some b) = wpa_hexdump level title (Some m) len /\
     wpa_hexdump_buf_key level title (Some b) = wpa_hexdump_key level title (Some m) len /\
     0 <= len <= Z.of_nat (length m) /\ take (Z.to_nat len) m = wb_data b) /\
  wpa_hexdump_buf level title None = wpa_hexdump level title None 0 /\
  wpa_hexdump_buf_key level title None = wpa_hexdump_key level title None 0.
Proof.
  intros (Hu & _ & m & Hm & Hl). split; [|done]. exists m, (wb_used b).
  unfold wpa_hexdump_buf, wpa_hexdump_buf_key, wpabuf_head, wpabuf_len, wb_data. rewrite Hm.
  split_and!; [done..|lia|lia|done].
Qed.
End Hexdump.

(** The variants that have nothing to do. *)
Definition wpa_debug_reopen_file : sprog Z := ret 0.
Definition wpa_debug_open_syslog : sprog unit := ret tt.
Definition wpa_debug_close_syslog : sprog unit := ret tt.
Definition wpa_debug_open_linux_tracing : sprog Z := ret 0.
Definition wpa_debug_close_linux_tracing : sprog unit := ret tt.

(** [WPA_ASSERT] where it is compiled in; [text] is the condition with its place. *)
Definition WPA_ASSERT (a : bool) (text : bytes) : sprog unit :=
  if negb a then call (Stdout (bs "WPA_ASSERT FAILED " ++ text));;; exit_ 1 else ret tt.

(** What follows an assertion may rely on it. *)
Lemma wp_WPA_ASSERT {W} `{K : !Kernel sysE W} m a text (Q : post unit) w (s : statics) :
  (a = true -> Q [] (Val tt) s w) ->
  (forall tr w', a = false -> Q tr (Exit 1) s w') -> wp m (WPA_ASSERT a text) Q w s.
Proof. intros HQ HX. unfold WPA_ASSERT. destruct a; cbn [negb]; wp_steps; [by apply HQ|by apply HX]. Qed.
