(* ===== verification/CtrlRequest.v ===== *)
(** * wpa_ctrl.c: requests over a control connection

    [struct wpa_ctrl] and the operations on an open connection:
    [wpa_ctrl_request], [wpa_ctrl_attach], [wpa_ctrl_detach], [wpa_ctrl_recv],
    [wpa_ctrl_pending] and [wpa_ctrl_get_fd].  The file models the sockets
    build ([CTRL_IFACE_SOCKET]); [socket_request] is the body of
    [wpa_ctrl_request] with the cookie of the UDP build as a parameter, and
    [wpa_ctrl_request] is its UNIX instance. *)

From S2P Require Export OsTime OsStr.
Local Open Scope Z_scope.
Local Open Scope prog_scope.

(** ** Data: [struct wpa_ctrl] of the UNIX build

    [wc_ptr] is the address of the object, [wc_local] and [wc_dest] are the
    [sun_path] arrays of the two socket addresses. *)
Record wpa_ctrl : Type := MkCtrl {
  wc_ptr : Z;
  wc_s : Z;
  wc_local : bytes;
  wc_dest : bytes
}.

(** ** Memory operations of the requests *)

(** The command of a connection with a cookie: cookie, space, command. *)
Definition cookie_cmd (cookie cmd : bytes) : option bytes :=
  let len := (length cookie + 1 + length cmd)%nat in
  let buf := zeros len in
  match os_strlcpy buf (cookie ++ [nul]) len with
  | None => None
  | Some (buf, _) =>
      match store buf (length cookie) space with
      | None => None
      | Some buf => store_bytes buf (length cookie + 1) cmd
      end
  end.

(** ** Sets of descriptors

    [FD_SET] sets a bit of the array in an [fd_set]; a descriptor that has no
    bit there is an access outside the array. *)
Definition FD_SETSIZE : Z := 1024.

Definition in_fd_set (fd : Z) : bool := (0 <=? fd) && (fd <? FD_SETSIZE).

Definition FD_SET (fd : Z) : sprog unit := lift (if in_fd_set fd then Some tt else None).

(** ** wpa_ctrl_request *)

Definition would_block (e : errno) : bool :=
  bool_decide (e = EAGAIN) || bool_decide (e = EBUSY) || bool_decide (e = EWOULDBLOCK).

(** One pass from the label [retry_send]: the answer [true] is a command that
    has been sent, [false] a jump to [send_err]. *)
Definition retry_send (sock : Z) (cmd : bytes) (started_at : os_reltime)
    : sprog (os_reltime + bool) :=
  let* r := call (Send sock cmd) in
  match r with
  | SOk _ => ret (inr true)
  | SErr e =>
      if would_block e then
        if sec started_at =? 0 then
          let* q := os_get_reltime (Some started_at) in
          let* started_at := read_reltime (snd q) in
          os_sleep 1 0;;; ret (inl started_at)
        else
          let* q := os_get_reltime None in
          let* n := read_reltime (snd q) in
          if os_reltime_expired n started_at 5 then ret (inr false)
          else os_sleep 1 0;;; ret (inl started_at)
      else ret (inr false)
  end.

Definition send_cmd (sock : Z) (cmd : bytes) : sprog bool :=
  loop (retry_send sock cmd) (MkReltime 0 0).

Definition msg_callback : Type := option (bytes -> Z -> sprog unit).

(** An unsolicited message: a non-empty datagram that starts with '<'. *)
Definition unsolicited (d : bytes) : bool :=
  match d with c :: _ => bool_decide (c = langle) | [] => false end.

(** One pass of the receive loop; the state is the reply buffer, the result
    the return value, the reply buffer and [*reply_len]. *)
Definition recv_reply (sock : Z) (reply_len : Z) (msg_cb : msg_callback) (reply : bytes)
    : sprog (bytes + Z * bytes * Z) :=
  FD_SET sock;;;
  let* r := call (Select sock 10 0) in
  match r with
  | SErr _ => ret (inr (-1, reply, reply_len))
  | SOk false => ret (inr (-2, reply, reply_len))
  | SOk true =>
      let* d := call (Recv sock reply_len) in
      match d with
      | SErr _ => ret (inr (-1, reply, reply_len))
      | SOk d =>
          let* reply := lift (store_bytes reply 0 d) in
          let res := Z.of_nat (length d) in
          let* c := (if 0 <? res then lift (reply !! 0%nat) else ret nul) in
          if (0 <? res) && bool_decide (c = langle) then
            match msg_cb with
            | Some cb =>
                let res := if res =? reply_len then reply_len - 1 else res in
                let* reply := lift (store reply (Z.to_nat res) nul) in
                cb reply res;;; ret (inl reply)
            | None => ret (inl reply)
            end
          else ret (inr (0, reply, res))
      end
  end.

Definition socket_request (sock : Z) (cookie : option bytes) (cmd : bytes)
    (reply : bytes) (reply_len : Z) (msg_cb : msg_callback) : sprog (Z * bytes * Z) :=
  let* alloc :=
    match cookie with
    | Some cookie =>
        let* p := call (Malloc (Z.of_nat (length cookie + 1 + length cmd))) in
        match p with
        | None => ret None
        | Some p => let* b := lift (cookie_cmd cookie cmd) in ret (Some (Some p, b))
        end
    | None => ret (Some (None, cmd))
    end in
  match alloc with
  | None => ret (-1, reply, reply_len)
  | Some (cmd_buf, _cmd) =>
      let* ok := send_cmd sock _cmd in
      (match cmd_buf with Some p => call (Free p) | None => ret tt end);;;
      if ok : bool then loop (recv_reply sock reply_len msg_cb) reply
      else ret (-1, reply, reply_len)
  end.

(** The UNIX build: no cookie. *)
Definition wpa_ctrl_request (ctrl : wpa_ctrl) (cmd : bytes) (reply : bytes) (reply_len : Z)
    (msg_cb : msg_callback) : sprog (Z * bytes * Z) :=
  socket_request (wc_s ctrl) None cmd reply reply_len msg_cb.

(** ** wpa_ctrl_attach, wpa_ctrl_detach *)

Definition wpa_ctrl_attach_helper (ctrl : wpa_ctrl) (attach : bool) : sprog Z :=
  let* r := wpa_ctrl_request ctrl (if attach then bs "ATTACH" else bs "DETACH")
              (zeros 10) 10 None in
  let '(r, buf, len) := r in
  if r <? 0 then ret r
  else
    let* same := (if len =? 3 then
                    lift (if decide (3 <= length buf)%nat
                          then Some (bool_decide (take 3 buf = bs "OK" ++ [newline])) else None)
                  else ret false) in
    ret (if same : bool then 0 else -1).

Definition wpa_ctrl_attach (ctrl : wpa_ctrl) : sprog Z := wpa_ctrl_attach_helper ctrl true.
Definition wpa_ctrl_detach (ctrl : wpa_ctrl) : sprog Z := wpa_ctrl_attach_helper ctrl false.

(** ** wpa_ctrl_recv, wpa_ctrl_pending, wpa_ctrl_get_fd *)

Definition wpa_ctrl_recv (ctrl : wpa_ctrl) (reply : bytes) (reply_len : Z)
    : sprog (Z * bytes * Z) :=
  let* d := call (Recv (wc_s ctrl) reply_len) in
  match d with
  | SErr _ => ret (-1, reply, reply_len)
  | SOk d =>
      let* reply := lift (store_bytes reply 0 d) in
      ret (0, reply, Z.of_nat (length d))
  end.

(** The result of [select] is not looked at: when it fails, it leaves the set
    as it was, with the descriptor in it. *)
Definition wpa_ctrl_pending (ctrl : wpa_ctrl) : sprog Z :=
  FD_SET (wc_s ctrl);;;
  let* r := call (Select (wc_s ctrl) 0 0) in
  ret (match r with SOk b => if b : bool then 1 else 0 | SErr _ => 1 end).

Definition wpa_ctrl_get_fd (ctrl : wpa_ctrl) : Z := wc_s ctrl.

(** ** Memory lemmas *)

(** The command buffer holds the cookie, a space and the command. *)
Lemma cookie_cmd_result cookie cmd :
  nul_free cookie -> cookie_cmd cookie cmd = Some (cookie ++ space :: cmd).
Proof.
  intros Hc. unfold cookie_cmd.
  set (len := (length cookie + 1 + length cmd)%nat).
  assert (length (zeros len) = len) as Hlen by apply length_replicate.
  rewrite os_strlcpy_result by (done || lia).
  rewrite decide_False by lia. rewrite (take_ge cookie) || idtac.
  assert (put_cstr (zeros len) cookie (len - 1) = cookie ++ nul :: zeros (length cmd)) as ->.
  { unfold put_cstr. rewrite take_ge by lia. do 2 f_equal.
    unfold zeros. rewrite drop_replicate. f_equal. lia. }
  unfold zeros. rewrite store_app. unfold store_bytes. rewrite length_app. cbn [length].
  rewrite length_replicate, decide_True by lia. f_equal.
  rewrite take_app, take_ge by lia. rewrite <- app_assoc. f_equal.
  replace (length cookie + 1 - length cookie)%nat with 1%nat by lia. cbn. f_equal.
  rewrite drop_ge; [apply app_nil_r|]. rewrite length_app. cbn. rewrite length_replicate. lia.
Qed.

(** ** The check of a descriptor *)

Lemma FD_SET_in fd : in_fd_set fd = true -> FD_SET fd = ret tt.
Proof. unfold FD_SET. by intros ->. Qed.

Lemma FD_SET_out fd : in_fd_set fd = false -> FD_SET fd = ub.
Proof. unfold FD_SET. by intros ->. Qed.

Lemma wp_FD_SET {W} `{!Kernel sysE W} m fd (Q : post unit) w s :
  (in_fd_set fd = true -> Q [] (Val tt) s w) -> (in_fd_set fd = false -> Q [] Ub s w) ->
  wp m (FD_SET fd) Q w s.
Proof. unfold FD_SET. destruct (in_fd_set fd); intros H1 H2; wp_steps; auto. Qed.
