(* ===== verification/CtrlOpen.v ===== *)
(** * wpa_ctrl.c: opening and closing a control connection (UNIX sockets)

    [wpa_ctrl_open] and [wpa_ctrl_close] with every call they make and every
    early return; the resources they hold are read off the trace ([held]). *)

From S2P Require Export CtrlRequest.
Local Open Scope Z_scope.
Local Open Scope prog_scope.

(** [sizeof(struct wpa_ctrl)] and the size of a [sun_path]. *)
Definition SIZEOF_WPA_CTRL : Z := 224.
Definition SUN_PATH : nat := 108.
Definition O_NONBLOCK : Z := 2048.

Definition CONFIG_CTRL_IFACE_CLIENT_DIR : bytes := bs "/tmp".
Definition CONFIG_CTRL_IFACE_CLIENT_PREFIX : bytes := bs "wpa_ctrl_".

(** The text of the client socket's name: its format is [%d-%d]. *)
Definition client_path (pid counter : Z) : bytes :=
  CONFIG_CTRL_IFACE_CLIENT_DIR ++ bs "/" ++ CONFIG_CTRL_IFACE_CLIENT_PREFIX ++
  dec_int pid ++ bs "-" ++ dec_int counter.

(** [counter++] of an [int]: an overflow is undefined. *)
Definition incr_int (n : Z) : option Z := if n =? 2 ^ 31 - 1 then None else Some (n + 1).

(** One pass from the label [try_again]: the state is the local [sun_path] and
    [tries]; the result is the bound path, or [None] after a failure. *)
Definition try_again (p s : Z) (st : bytes * Z) : sprog (bytes * Z + option bytes) :=
  let '(sun_path, tries) := st in
  let* pid := call Getpid in
  let* counter := gets counter in
  let* r := lift (snprintf sun_path SUN_PATH (client_path pid counter)) in
  let '(sun_path, ret_) := r in
  if (ret_ <? 0) || (Z.of_nat SUN_PATH <=? ret_) then
    call (Close s);;; call (Free p);;; ret (inr None)
  else
    let tries := tries + 1 in
    let* b := call (Bind s (AddrUn sun_path)) in
    match b with
    | SOk _ => ret (inr (Some sun_path))
    | SErr e =>
        if bool_decide (e = EADDRINUSE) && (tries <? 2) then
          call (Unlink (cstr sun_path));;; ret (inl (sun_path, tries))
        else call (Close s);;; call (Free p);;; ret (inr None)
    end.

(** The destination's [sun_path]; [None] when [ctrl_path] does not fit.  The
    argument is the object that [ctrl_path] points to. *)
Definition dest_path (ctrl_path : bytes) : sprog (option bytes) :=
  let sun_path := zeros SUN_PATH in
  if os_strncmp (cstr ctrl_path) (bs "@abstract:") 10 =? 0 then
    let* sun_path := lift (store sun_path 0 nul) in
    let* r := lift (os_strlcpy (drop 1 sun_path) (drop 10 ctrl_path) (SUN_PATH - 1)) in
    ret (Some (take 1 sun_path ++ fst r))
  else
    let* r := lift (os_strlcpy sun_path ctrl_path SUN_PATH) in
    if (SUN_PATH <=? snd r)%nat then ret None else ret (Some (fst r)).

Definition set_nonblocking (s : Z) : sprog unit :=
  let* flags := call (FcntlGetfl s) in
  match flags with
  | SErr _ => ret tt
  | SOk flags =>
      if 0 <=? flags then
        let* r := call (FcntlSetfl s (Z.lor flags O_NONBLOCK)) in
        match r with
        | SErr _ => call (Stderr (bs "fcntl(ctrl->s, O_NONBLOCK)"))
        | SOk _ => ret tt
        end
      else ret tt
  end.

(** Connecting the bound socket to the destination of the path. *)
Definition connect_file (p s : Z) (local ctrl_path : bytes) : sprog (option wpa_ctrl) :=
  let* dest := dest_path ctrl_path in
  match dest with
  | None => call (Close s);;; call (Free p);;; ret None
  | Some dest =>
      let* c := call (Connect s (AddrUn dest)) in
      match c with
      | SErr _ =>
          call (Close s);;; call (Unlink (cstr local));;; call (Free p);;;
          ret None
      | SOk _ =>
          set_nonblocking s;;; ret (Some (MkCtrl p s local dest))
      end
  end.

(** [wpa_ctrl_open] up to the bound socket, and then [connect], which differs
    between the builds. *)
Definition open_with (connect : Z -> Z -> bytes -> bytes -> sprog (option wpa_ctrl))
    (ctrl_path : option bytes) : sprog (option wpa_ctrl) :=
  match ctrl_path with
  | None => ret None
  | Some ctrl_path =>
      let* p := call (Malloc SIZEOF_WPA_CTRL) in
      match p with
      | None => ret None
      | Some p =>
          let* s := call (Socket PF_UNIX) in
          match s with
          | SErr _ => call (Free p);;; ret None
          | SOk s =>
              let* n := gets counter in
              let* n := lift (incr_int n) in
              modify (set_counter n);;;
              let* local := loop (try_again p s) (zeros SUN_PATH, 0) in
              match local with
              | None => ret None
              | Some local => connect p s local ctrl_path
              end
          end
      end
  end.

Definition wpa_ctrl_open : option bytes -> sprog (option wpa_ctrl) := open_with connect_file.

Definition wpa_ctrl_close (ctrl : option wpa_ctrl) : sprog unit :=
  match ctrl with
  | None => ret tt
  | Some ctrl =>
      call (Unlink (cstr (wc_local ctrl)));;;
      (if 0 <=? wc_s ctrl then call (Close (wc_s ctrl));;; ret tt else ret tt);;;
      call (Free (wc_ptr ctrl))
  end.

(** ** The resources a trace holds *)

(** [Stray] is the release of a block or descriptor that is not in hand. *)
Inductive resource : Type :=
| Mem (p : Z)
| Fd (s : Z)
| SocketFile (path : bytes)
| Stray.

#[export] Instance resource_eq_dec : EqDecision resource.
Proof. solve_decision. Defined.

Fixpoint release_or (none : list resource) (r : resource) (h : list resource) : list resource :=
  match h with
  | [] => none
  | x :: h => if decide (x = r) then h else x :: release_or none r h
  end.

(** A call for its release counts as a release whatever its answer.  A file may
    be removed that is not in hand: the one that is in the way of a name. *)
Definition hold (h : list resource) (ev : event sysE) : list resource :=
  let '@Ev _ X e x := ev in
  match e in sysE X return X -> list resource with
  | Malloc _ => fun r => match r with Some p => Mem p :: h | None => h end
  | Free p => fun _ => release_or [Stray] (Mem p) h
  | Socket _ => fun r => match r with SOk s => Fd s :: h | SErr _ => h end
  | Close s => fun _ => release_or [Stray] (Fd s) h
  | Bind _ (AddrUn path) => fun r =>
      match r with SOk _ => SocketFile (cstr path) :: h | SErr _ => h end
  | Unlink path => fun _ => release_or [] (SocketFile path) h
  | _ => fun _ => h
  end x.

Definition holding (h : list resource) (tr : sys_trace) : list resource := fold_left hold tr h.
Definition held (tr : sys_trace) : list resource := holding [] tr.

(** The names of the sockets that have been bound. *)
Definition bind_of (ev : event sysE) : list bytes :=
  let '@Ev _ X e x := ev in
  match e in sysE X return X -> list bytes with
  | Bind _ (AddrUn path) => fun r => match r with SOk _ => [cstr path] | SErr _ => [] end
  | _ => fun _ => []
  end x.

Abbreviation bound := (observe_with bind_of).

(** ** Properties *)

Lemma release_eq none r h : release_or none r (r :: h) = h.
Proof. cbn. by rewrite decide_True. Qed.

Lemma release_ne none r r' h : r' <> r -> release_or none r (r' :: h) = r' :: release_or none r h.
Proof. intros. cbn. by rewrite decide_False. Qed.

Ltac released :=
  cbn [held holding hold fold_left app];
  repeat first [rewrite release_eq | rewrite release_ne by done]; cbn [release_or]; try done.

Lemma length_client_path pid n :
  int_ok pid -> int_ok n -> (length (client_path pid n) <= 37)%nat.
Proof.
  intros Hp%length_dec_int Hn%length_dec_int. unfold client_path. rewrite !length_app. cbn. lia.
Qed.

Lemma client_path_nul_free pid n : int_ok pid -> int_ok n -> nul_free (client_path pid n).
Proof.
  intros Hp%dec_int_nul_free Hn%dec_int_nul_free.
  unfold client_path. repeat apply nul_free_app; try done; repeat constructor; done.
Qed.

(** What the destination is for a path: an abstract name or a file. *)
Definition is_abstract (path : bytes) : bool :=
  bool_decide (take 10 path = bs "@abstract:").

Definition dest_of (path : bytes) : option bytes :=
  if is_abstract path then Some (nul :: put_cstr (zeros 107) (drop 10 path) 106)
  else if decide (SUN_PATH <= length path)%nat then None
  else Some (put_cstr (zeros SUN_PATH) path 107).

Lemma os_strncmp_abstract path :
  (os_strncmp path (bs "@abstract:") 10 =? 0) = is_abstract path.
Proof.
  unfold is_abstract.
  pose proof (os_strncmp_prefix (bs "@abstract:") path 10
    ltac:(by repeat constructor) eq_refl) as Hp.
  case_bool_decide as Ht.
  - apply Z.eqb_eq, Hp. exists (drop 10 path). by rewrite <- Ht, take_drop.
  - apply Z.eqb_neq. intros [r ->]%Hp. by apply Ht.
Qed.

Section Opening.
Context {W : Type} `{K : !Kernel sysE W} `{!PosixKernel W}.

Lemma wp_dest_path m path junk (Q : post (option bytes)) w (s : statics) :
  nul_free path -> Q [] (Val (dest_of path)) s w ->
  wp m (dest_path (path ++ nul :: junk)) Q w s.
Proof.
  intros Hn HQ. unfold dest_path. rewrite cstr_app, os_strncmp_abstract by done.
  unfold dest_of in HQ. destruct (is_abstract path) eqn:Ha.
  - apply bool_decide_eq_true in Ha.
    assert (path = bs "@abstract:" ++ drop 10 path) as Hp by (by rewrite <- Ha, take_drop).
    remember (drop 10 path) as name eqn:Hname. clear Hname.
    rewrite store_in by (cbn; lia). wp_steps.
    replace (drop 10 (path ++ nul :: junk)) with (name ++ nul :: junk) by (by rewrite Hp).
    rewrite Hp in Hn. apply Forall_app in Hn as [_ Hn].
    rewrite os_strlcpy_result by (done || cbn; lia). wp_steps. exact HQ.
  - rewrite os_strlcpy_result by (done || cbn; lia). wp_steps. cbn [fst snd].
    destruct (Nat.leb_spec SUN_PATH (length path)); wp_steps; wp_trace.
    + by rewrite decide_True in HQ.
    + by rewrite decide_False in HQ by lia.
Qed.

Definition bound_post (p s n : Z) (tr : sys_trace) (r : option bytes) : Prop :=
  quiet tr /\
  match r with
  | Some local => length local = SUN_PATH /\
      (exists pid, Ev Getpid pid ∈ tr /\ cstr local = client_path pid n) /\
      holding [Fd s; Mem p] tr = [SocketFile (cstr local); Fd s; Mem p] /\
      bound tr = [cstr local]
  | None => holding [Fd s; Mem p] tr = [] /\ bound tr = []
  end.

(** The client path always fits: the branch of an overlong path is dead. *)
Lemma snprintf_client_path sun_path pid n :
  length sun_path = SUN_PATH -> int_ok pid -> int_ok n ->
  exists sp r, snprintf sun_path SUN_PATH (client_path pid n) = Some (sp, r) /\
    length sp = SUN_PATH /\ cstr sp = client_path pid n /\ 0 <= r < Z.of_nat SUN_PATH.
Proof.
  intros Hl Hp Hn. pose proof (length_client_path pid n Hp Hn) as Hc.
  pose proof (client_path_nul_free pid n Hp Hn) as Hf.
  unfold SUN_PATH in *. unfold snprintf. rewrite decide_True by lia. rewrite decide_False by done.
  do 2 eexists. split; [done|]. rewrite cstr_put_cstr, take_ge by first [done|lia].
  split_and!; [|done|lia..].
  rewrite length_put_cstr; [done|]. rewrite take_ge by lia. lia.
Qed.

(** One attempt to bind: it succeeds, or the name is in use and is removed
    for the only other attempt, or the connection is given up. *)
Lemma wp_try_again m p s st tries (Q : post _) w stt :
  length st = SUN_PATH -> int_ok (counter stt) ->
  (forall pid sp r1 w', int_ok pid -> length sp = SUN_PATH ->
     cstr sp = client_path pid (counter stt) ->
     let tr := [Ev Getpid pid; Ev (Bind s (AddrUn sp)) r1] in
     match r1 with
     | SOk _ => Q tr (Val (inr (Some sp))) stt w'
     | SErr _ =>
         (tries + 1 < 2 -> forall r2,
           Q (tr ++ [Ev (Unlink (cstr sp)) r2]) (Val (inl (sp, tries + 1))) stt w') /\
         (forall r2, Q (tr ++ [Ev (Close s) r2; Ev (Free p) tt]) (Val (inr None)) stt w')
     end) ->
  wp m (try_again p s (st, tries)) Q w stt.
Proof.
  intros Hl Hn HQ. unfold try_again. wp_steps. pose proof (getpid_ok _ _ _ Hk) as Hp.
  destruct (snprintf_client_path st x (counter stt) Hl Hp Hn) as (sp & r & -> & Hsp & Hc & Hr).
  wp_steps. replace ((r <? 0) || (Z.of_nat SUN_PATH <=? r)) with false by lia.
  wp_steps. specialize (HQ x sp x0).
  destruct x0 as [[]|e]; wp_steps; [by apply HQ|].
  destruct (bool_decide (e = EADDRINUSE) && (tries + 1 <? 2)) eqn:Hretry; wp_steps.
  - destruct (HQ w2 Hp Hsp Hc) as [Hq _]. apply (Hq ltac:(lia)).
  - destruct (HQ w3 Hp Hsp Hc) as [_ Hq]. apply Hq.
Qed.

Lemma wp_bind_local m p s (Q : post (option bytes)) w stt :
  int_ok (counter stt) ->
  (forall tr r w', bound_post p s (counter stt) tr r -> Q tr (Val r) stt w') ->
  wp m (loop (try_again p s) (zeros SUN_PATH, 0)) Q w stt.
Proof.
  intros Hn HQ. apply wp_loop_unfold, wp_try_again; [done|done|].
  intros pid sp r1 w1 Hp Hl Hc tr. destruct r1 as [[]|e]; unfold tr.
  { unfold unfold_post. apply HQ. split; [done|]. split_and!; [done| |done..].
    exists pid. split; [by left|done]. }
  split; [intros _ r2|intros r2; apply HQ; split; [done|by split; released]].
  apply wp_loop_unfold, wp_try_again; [done|done|].
  intros pid2 sp2 r3 w2 Hp2 Hl2 Hc2 tr2. destruct r3 as [[]|e2]; unfold tr2.
  { apply HQ. split; [done|]. split_and!; [done| |by released|done].
    exists pid2. split; [|done]. unfold pre. cbn [app]. rewrite !elem_of_cons. auto 6. }
  split; [lia|]. intros r4. apply HQ. split; [done|]. by split; released.
Qed.

Lemma wp_set_nonblocking m fd (Q : post unit) w (s : statics) :
  (forall tr w', quiet tr -> (forall h, holding h tr = h) -> bound tr = [] -> Q tr (Val tt) s w') ->
  wp m (set_nonblocking fd) Q w s.
Proof.
  intros HQ. unfold set_nonblocking. wp_steps. destruct x as [flags|e]; wp_steps; [|by apply HQ].
  destruct (0 <=? flags); wp_steps; [|by apply HQ].
  destruct x as [|e]; wp_steps; by apply HQ.
Qed.

(** What opening a connection does: on success it holds one block, one
    descriptor and one socket file, named after the process id that it has asked
    for and the number of the connection, and is [connected]; on failure it holds
    nothing, except for the socket file when it [leaks]. *)
Definition opening_post (leaks : bool) (connected : wpa_ctrl -> sys_trace -> Prop)
    (n : Z) (tr : sys_trace) (r : option wpa_ctrl) : Prop :=
  quiet tr /\
  match r with
  | Some c =>
      held tr = [SocketFile (cstr (wc_local c)); Fd (wc_s c); Mem (wc_ptr c)] /\
      Ev (Socket PF_UNIX) (SOk (wc_s c)) ∈ tr /\ bound tr = [cstr (wc_local c)] /\
      (exists pid, Ev Getpid pid ∈ tr /\ cstr (wc_local c) = client_path pid n) /\
      connected c tr
  | None => held tr = if leaks then SocketFile <$> bound tr else []
  end.

Lemma holding_app h tr1 tr2 : holding h (tr1 ++ tr2) = holding (holding h tr1) tr2.
Proof. apply fold_left_app. Qed.

(** The part that differs between the builds: it neither binds nor moves data,
    and gives back what it is handed, or leaks the socket file. *)
Definition connects (leaks : bool) (connected : wpa_ctrl -> sys_trace -> Prop)
    (p fd : Z) (local : bytes) (tr : sys_trace) (r : option wpa_ctrl) : Prop :=
  quiet tr /\ bound tr = [] /\
  match r with
  | Some c => wc_ptr c = p /\ wc_s c = fd /\ wc_local c = local /\
      holding [SocketFile (cstr local); Fd fd; Mem p] tr = [SocketFile (cstr local); Fd fd; Mem p] /\
      connected c tr
  | None => holding [SocketFile (cstr local); Fd fd; Mem p] tr =
      if leaks then [SocketFile (cstr local)] else []
  end.

(** The trace of an opening, from the two allocations on. *)
Definition opening (p fd : Z) (tr : sys_trace) : sys_trace :=
  Ev (Malloc SIZEOF_WPA_CTRL) (Some p) :: Ev (Socket PF_UNIX) (SOk fd) :: tr.

Lemma opening_observe p fd tr tr' h b :
  quiet tr -> holding [Fd fd; Mem p] tr = h -> bound tr = b ->
  quiet tr' -> bound tr' = [] ->
  quiet (opening p fd (tr ++ tr')) /\ held (opening p fd (tr ++ tr')) = holding h tr' /\
  bound (opening p fd (tr ++ tr')) = b.
Proof.
  intros Hq <- <- Hq' Hb'. split_and!.
  - by apply (quiet_app [_; _]); auto with wpa.
  - apply holding_app.
  - unfold opening. autorewrite with wpa. by rewrite Hb', app_nil_r.
Qed.

Lemma wp_open_with connect leaks connected m path (Q : post (option wpa_ctrl)) w s :
  int_ok (counter s) -> counter s < 2 ^ 31 - 1 ->
  (forall c tr1 tr2, connected c tr2 -> connected c (tr1 ++ tr2)) ->
  (forall p fd local (Q' : post (option wpa_ctrl)) w s,
     (forall tr r s' w', connects leaks connected p fd local tr r -> clock_id s' = clock_id s ->
        Q' tr (Val r) s' w') ->
     wp m (connect p fd local path) Q' w s) ->
  (forall tr r s' w', opening_post leaks connected (counter s + 1) tr r -> clock_id s' = clock_id s ->
     Q tr (Val r) s' w') ->
  wp m (open_with connect (Some path)) Q w s.
Proof.
  intros Hn Hlt Hmono Hconn HQ. unfold open_with. wp_steps.
  destruct x as [p|]; wp_steps; [|by apply HQ; [split; [done|by destruct leaks]|]].
  destruct x as [fd|e]; wp_steps; cycle 1.
  { apply HQ; [split; [done|]|done]. released. by destruct leaks. }
  unfold incr_int. destruct (Z.eqb_spec (counter s) (2 ^ 31 - 1)) as [|_]; [lia|]. wp_steps.
  apply wp_bind_local; [unfold int_ok in *; cbn; lia|]. cbn [counter set_counter].
  intros tr r w3 [Hq Hr]. repeat wp_leaf.
  destruct r as [local|]; cycle 1.
  { destruct Hr as [Hh Hb]. wp_steps. wp_trace. apply HQ; [|done].
    destruct (opening_observe p fd tr [] _ _ Hq Hh Hb) as (Hq1 & Hh1 & Hb1); [done..|].
    unfold opening in *. rewrite app_nil_r in *. split; [done|]. rewrite Hb1, Hh1. by destruct leaks. }
  destruct Hr as (Hl & Hpid & Hh & Hb). apply Hconn. intros tr2 r s4 w4 (Hq2 & Hb2 & Hr) Hs4.
  wp_trace. apply HQ; [|done].
  destruct (opening_observe p fd tr tr2 _ _ Hq Hh Hb Hq2 Hb2) as (Hq1 & Hh1 & Hb1).
  change (opening_post leaks connected (counter s + 1) (opening p fd (tr ++ tr2)) r). split; [done|].
  rewrite Hh1, Hb1. destruct r as [[]|]; cbn in Hr.
  - destruct Hr as (-> & -> & -> & -> & Hc). cbn [wc_s wc_local wc_ptr]. unfold opening.
    split; [done|]. split; [rewrite !elem_of_cons; auto|]. split; [done|].
    split; [|by apply (Hmono _ (_ :: _ :: tr))]. destruct Hpid as (pid & Hpid & Hl').
    exists pid. split; [rewrite !elem_of_cons, elem_of_app; auto|done].
  - rewrite Hr. by destruct leaks.
Qed.

(** What [wpa_ctrl_open] does with a path: it connects to the destination of
    the path, and leaks the socket file when the path is too long for one. *)
Definition too_long (path : bytes) : bool := bool_decide (dest_of path = None).

Definition connected_file (path : bytes) (c : wpa_ctrl) (tr : sys_trace) : Prop :=
  dest_of path = Some (wc_dest c) /\ Ev (Connect (wc_s c) (AddrUn (wc_dest c))) (SOk tt) ∈ tr.

Definition open_post (path : bytes) : Z -> sys_trace -> option wpa_ctrl -> Prop :=
  opening_post (too_long path) (connected_file path).

Lemma connected_file_app path c tr1 tr2 :
  connected_file path c tr2 -> connected_file path c (tr1 ++ tr2).
Proof. intros [? ?]. split; [done|]. rewrite elem_of_app. auto. Qed.

Lemma wp_connect_file m p fd local path junk (Q : post (option wpa_ctrl)) w s :
  nul_free path ->
  (forall tr r s' w', connects (too_long path) (connected_file path) p fd local tr r ->
     clock_id s' = clock_id s -> Q tr (Val r) s' w') ->
  wp m (connect_file p fd local (path ++ nul :: junk)) Q w s.
Proof.
  intros Hp HQ. unfold connect_file, connects, too_long in *. wp_steps. apply wp_dest_path; [done|].
  repeat wp_leaf. destruct (dest_of path) as [dest|] eqn:Hdest; wp_steps.
  - destruct x as [[]|e]; wp_steps.
    + apply wp_set_nonblocking. intros tr2 w5 Hq2 Hh2 Hb2. repeat wp_leaf. wp_steps. wp_trace.
      apply HQ; [|done]. split; [by apply (quiet_app [_])|]. split; [by autorewrite with wpa; rewrite Hb2|].
      cbn [wc_s wc_local wc_ptr wc_dest]. split_and!; [done..|by apply Hh2|].
      split; [done|]. cbn [wc_s wc_dest]. rewrite elem_of_cons. auto.
    + wp_trace. apply HQ; [|done]. split_and!; [done..|]. by released.
  - wp_trace. apply HQ; [|done]. split_and!; [done..|]. by released.
Qed.

Lemma wp_wpa_ctrl_open m path junk (Q : post (option wpa_ctrl)) w s :
  nul_free path -> int_ok (counter s) -> counter s < 2 ^ 31 - 1 ->
  (forall tr r s' w', open_post path (counter s + 1) tr r -> clock_id s' = clock_id s ->
     Q tr (Val r) s' w') ->
  wp m (wpa_ctrl_open (Some (path ++ nul :: junk))) Q w s.
Proof.
  intros Hp Hn Hlt HQ. apply (wp_open_with _ (too_long path) (connected_file path)); [done..| | |done].
  - intros. by apply connected_file_app.
  - intros p fd local Q' w' s' HQ'. by apply wp_connect_file.
Qed.

Lemma wp_wpa_ctrl_close m c (Q : post unit) w (s : statics) :
  0 <= wc_s c ->
  (forall r1 r2 w', Q [Ev (Unlink (cstr (wc_local c))) r1; Ev (Close (wc_s c)) r2; Ev (Free (wc_ptr c)) tt]
     (Val tt) s w') ->
  wp m (wpa_ctrl_close (Some c)) Q w s.
Proof. intros Hs HQ. unfold wpa_ctrl_close. rewrite (proj2 (Z.leb_le _ _) Hs). wp_steps. apply HQ. Qed.

(** C11: Opening a connection always ends; on success exactly its memory, its descriptor
    and one socket file are in hand, the file named after the answer of getpid and the
    number of the connection, and the socket is connected to the destination that the
    path names, abstract or in the file system; a failure gives everything back, except
    for the socket file when the path is too long. *)
Theorem wpa_ctrl_open_spec path junk w s :
  nul_free path -> int_ok (counter s) -> counter s < 2 ^ 31 - 1 ->
  exists tr r s' w',
    exec w s (wpa_ctrl_open (Some (path ++ nul :: junk))) tr (Val r) s' w' /\
    open_post path (counter s + 1) tr r.
Proof.
  intros Hp Hn Hlt.
  assert (wp Totally (wpa_ctrl_open (Some (path ++ nul :: junk))) (fun tr o _ _ =>
    exists r, o = Val r /\ open_post path (counter s + 1) tr r) w s)
    as (tr & o & s' & w' & H & r & -> & Hr); [|by eauto 8].
  apply wp_wpa_ctrl_open; eauto.
Qed.

(** C12: A connection that is opened holds its socket file, its descriptor and its
    memory, and closing it removes that file, closes that descriptor and frees that
    block, in this order, and makes no other call, after which nothing is held. *)
Theorem wpa_ctrl_open_close path junk w s tr c s' w' :
  nul_free path -> int_ok (counter s) -> counter s < 2 ^ 31 - 1 ->
  exec w s (wpa_ctrl_open (Some (path ++ nul :: junk))) tr (Val (Some c)) s' w' ->
  held tr = [SocketFile (cstr (wc_local c)); Fd (wc_s c); Mem (wc_ptr c)] /\
  exists tr' w'' r1 r2, exec w' s' (wpa_ctrl_close (Some c)) tr' (Val tt) s' w'' /\
    tr' = [Ev (Unlink (cstr (wc_local c))) r1; Ev (Close (wc_s c)) r2; Ev (Free (wc_ptr c)) tt] /\
    held (tr ++ tr') = [].
Proof.
  intros Hp Hn Hlt H.
  assert (wp Partly (wpa_ctrl_open (Some (path ++ nul :: junk))) (fun tr o _ _ => match o with
    | Val (Some c) => open_post path (counter s + 1) tr (Some c) /\ Forall possible tr
    | _ => True end) w s) as Ho.
  { apply wp_possible, wp_wpa_ctrl_open; [done..|]. by intros ? [] **. }
  apply Ho in H. destruct H as [(_ & Hh & Hs & _) Hposs]. split; [done|].
  apply (proj1 (Forall_forall _ _) Hposs) in Hs as (w0 & w1 & Hs%socket_ok).
  assert (wp Totally (wpa_ctrl_close (Some c)) (fun tr' o s'' _ => o = Val tt /\ s'' = s' /\ exists r1 r2,
    tr' = [Ev (Unlink (cstr (wc_local c))) r1; Ev (Close (wc_s c)) r2; Ev (Free (wc_ptr c)) tt]) w' s')
    as (tr' & o & s'' & w'' & H & -> & -> & r1 & r2 & ->); [by apply wp_wpa_ctrl_close; eauto|].
  eexists _, w'', r1, r2. split; [exact H|]. split; [done|].
  unfold held. rewrite holding_app. fold (held tr). rewrite Hh. by released.
Qed.

(** C13: A path in the file system that does not fit the address is refused, but the
    socket file that was bound before stays behind: the early return closes the socket
    and frees the memory without removing the file. *)
Theorem wpa_ctrl_open_too_long path junk w s tr o s' w' :
  nul_free path -> int_ok (counter s) -> counter s < 2 ^ 31 - 1 ->
  is_abstract path = false -> (SUN_PATH <= length path)%nat ->
  exec w s (wpa_ctrl_open (Some (path ++ nul :: junk))) tr o s' w' ->
  o = Val None /\ held tr = SocketFile <$> bound tr.
Proof.
  intros Hp Hn Hlt Ha Hl H. exec_wp H. apply wp_wpa_ctrl_open; [done..|].
  assert (dest_of path = None) as Hd by (unfold dest_of; by rewrite Ha, decide_True).
  intros tr [c|] s' w' (_ & Hr) _.
  - destruct Hr as (_ & _ & _ & _ & [? _]). congruence.
  - split; [done|]. rewrite Hr. unfold too_long. by rewrite Hd.
Qed.

(** Client socket names are unique: two names are equal only for the same process
    id and the same counter. *)
Theorem client_path_inj pid1 n1 pid2 n2 :
  0 <= pid1 < 2 ^ 31 -> 0 <= pid2 < 2 ^ 31 -> int_ok n1 -> int_ok n2 ->
  client_path pid1 n1 = client_path pid2 n2 -> pid1 = pid2 /\ n1 = n2.
Proof.
  unfold client_path. intros H1 H2 Hn1 Hn2 Heq. do 3 apply app_inv_head in Heq.
  destruct (dec_int_spec pid1) as (d1 & E1 & U1 & D1 & _); [unfold int_ok; lia|].
  destruct (dec_int_spec pid2) as (d2 & E2 & U2 & D2 & _); [unfold int_ok; lia|].
  rewrite (proj2 (Z.ltb_ge pid1 0)) in E1 by lia. rewrite (proj2 (Z.ltb_ge pid2 0)) in E2 by lia.
  rewrite E1, E2 in Heq. apply digits_dash_inj in Heq as [Hd Hn]; [|done..].
  cbn [app] in Hd. split; [rewrite Hd in U1; lia|by apply dec_int_inj].
Qed.
End Opening.
