(* ===== verification/CtrlAndroid.v ===== *)
(** * wpa_ctrl.c: opening a control connection on Android

    The ANDROID build of [wpa_ctrl_open]: the socket file is handed to the
    group of the Wi-Fi service, and a path that is not absolute names a socket
    of the reserved namespace, which the Android system library connects to.
    The identifiers of that group are parameters. *)

From S2P Require Export CtrlOpen.
Local Open Scope Z_scope.
Local Open Scope prog_scope.

(** [S_IRUSR | S_IWUSR | S_IRGRP | S_IWGRP]. *)
Definition SOCKET_MODE : Z := Z.lor (Z.lor 256 128) (Z.lor 32 16).

(** Connecting to a name of the reserved namespace; the destination stays as
    [os_memset] left it. *)
Definition connect_reserved (p s : Z) (local name : bytes) : sprog (option wpa_ctrl) :=
  let* r := call (LocalConnect s name) in
  match r with
  | SErr _ => call (Close s);;; call (Unlink (cstr local));;; call (Free p);;; ret None
  | SOk _ => ret (Some (MkCtrl p s local (zeros SUN_PATH)))
  end.

(** The array [buf] is not initialised in C; [os_snprintf] terminates it. *)
Definition android_connect (AID_SYSTEM AID_WIFI p s : Z) (local ctrl_path : bytes)
    : sprog (option wpa_ctrl) :=
  call (Chmod (cstr local) SOCKET_MODE);;;
  call (Chown (cstr local) AID_SYSTEM AID_WIFI);;;
  if os_strncmp (cstr ctrl_path) (bs "@android:") 9 =? 0 then
    connect_reserved p s local (cstr (drop 9 ctrl_path))
  else
    let* c := lift (ctrl_path !! 0%nat) in
    if negb (bool_decide (c = Byte.x2f)) then
      let* r := lift (snprintf (zeros 21) 21 (bs "wpa_" ++ cstr ctrl_path)) in
      connect_reserved p s local (cstr (fst r))
    else connect_file p s local ctrl_path.

Definition android_open (AID_SYSTEM AID_WIFI : Z) : option bytes -> sprog (option wpa_ctrl) :=
  open_with (android_connect AID_SYSTEM AID_WIFI).

(** ** Specification *)

(** What a path names: a socket of the reserved namespace, or a file. *)
Inductive target : Type :=
| Reserved (name : bytes)
| FileSocket (sun_path : bytes).

Definition android_target (path : bytes) : option target :=
  if decide (take 9 path = bs "@android:") then Some (Reserved (drop 9 path))
  else if decide (head path = Some Byte.x2f) then FileSocket <$> dest_of path
  else Some (Reserved (take 20 (bs "wpa_" ++ path))).

(** The names of the files whose mode and owner have been set. *)
Definition mode_of (ev : event sysE) : list (bytes * Z) :=
  let '@Ev _ X e x := ev in
  match e in sysE X return X -> list (bytes * Z) with
  | Chmod path mode => fun _ => [(path, mode)]
  | _ => fun _ => []
  end x.

Definition owner_of (ev : event sysE) : list (bytes * Z * Z) :=
  let '@Ev _ X e x := ev in
  match e in sysE X return X -> list (bytes * Z * Z) with
  | Chown path uid gid => fun _ => [(path, uid, gid)]
  | _ => fun _ => []
  end x.

(** The socket of a connection belongs to the service's group and may be used
    by it, and it is connected to what the path names. *)
Definition connected_android (uid gid : Z) (path : bytes) (c : wpa_ctrl) (tr : sys_trace) : Prop :=
  (cstr (wc_local c), SOCKET_MODE) ∈ observe_with mode_of tr /\
  (cstr (wc_local c), uid, gid) ∈ observe_with owner_of tr /\
  exists t, android_target path = Some t /\
    match t with
    | Reserved name => wc_dest c = zeros SUN_PATH /\
        last tr = Some (Ev (LocalConnect (wc_s c) name) (SOk tt))
    | FileSocket sun_path => wc_dest c = sun_path /\
        Ev (Connect (wc_s c) (AddrUn sun_path)) (SOk tt) ∈ tr
    end.

Definition android_leaks (path : bytes) : bool := bool_decide (android_target path = None).

Lemma connected_android_app uid gid path c tr1 tr2 :
  connected_android uid gid path c tr2 -> connected_android uid gid path c (tr1 ++ tr2).
Proof.
  intros (Hm & Ho & t & Ht & Hc). unfold connected_android. autorewrite with wpa.
  rewrite !elem_of_app. split; [auto|]. split; [auto|]. exists t. split; [done|].
  destruct t as [name|sp]; destruct Hc as [? Hc]; (split; [done|]).
  - by rewrite last_app, Hc.
  - rewrite elem_of_app. auto.
Qed.

(** The test of the prefix. *)
Lemma os_strncmp_android path :
  (os_strncmp path (bs "@android:") 9 =? 0) = bool_decide (take 9 path = bs "@android:").
Proof.
  pose proof (os_strncmp_prefix (bs "@android:") path 9 ltac:(by repeat constructor) eq_refl) as Hp.
  case_bool_decide as Ht.
  - apply Z.eqb_eq, Hp. exists (drop 9 path). by rewrite <- Ht, take_drop.
  - apply Z.eqb_neq. intros [r ->]%Hp. by apply Ht.
Qed.

Section Android.
Context {W : Type} `{K : !Kernel sysE W} `{!PosixKernel W}.
Context (AID_SYSTEM AID_WIFI : Z).

(** The calls that hand the socket file over. *)
Definition handover (local : bytes) (a b : sres unit) : sys_trace :=
  [Ev (Chmod (cstr local) SOCKET_MODE) a; Ev (Chown (cstr local) AID_SYSTEM AID_WIFI) b].

Local Abbreviation connected := (connected_android AID_SYSTEM AID_WIFI).

(** A connection to a target of either kind, after the handover. *)
Lemma connects_target path t p fd local a b tr r :
  android_target path = Some t ->
  connects false (fun c tr => match t with
    | Reserved name => wc_dest c = zeros SUN_PATH /\
        last tr = Some (Ev (LocalConnect (wc_s c) name) (SOk tt))
    | FileSocket sun_path => wc_dest c = sun_path /\
        Ev (Connect (wc_s c) (AddrUn sun_path)) (SOk tt) ∈ tr
    end) p fd local tr r ->
  connects (android_leaks path) (connected path) p fd local (handover local a b ++ tr) r.
Proof.
  intros Ht (Hq & Hb & Hr). unfold connects, android_leaks. rewrite Ht.
  split; [by apply (quiet_app (handover local a b))|]. autorewrite with wpa. rewrite Hb.
  split; [done|]. rewrite holding_app. destruct r as [[cp cs cl cd]|]; [|exact Hr].
  cbn [wc_ptr wc_s wc_local wc_dest] in Hr. destruct Hr as (-> & -> & -> & Hh & Hc). split_and!; [done..|].
  unfold connected_android, handover.
  autorewrite with wpa. cbn [mode_of owner_of app wc_local wc_s].
  split; [by left|]. split; [by left|].
  exists t. split; [done|]. destruct t; destruct Hc as [? Hc]; (split; [done|]).
  - by rewrite !last_cons, Hc.
  - rewrite !elem_of_cons. auto.
Qed.

Lemma wp_connect_reserved m name p fd local (Q : post (option wpa_ctrl)) w (s : statics) :
  (forall tr r w', connects false (fun c tr => wc_dest c = zeros SUN_PATH /\
       last tr = Some (Ev (LocalConnect (wc_s c) name) (SOk tt))) p fd local tr r -> Q tr (Val r) s w') ->
  wp m (connect_reserved p fd local name) Q w s.
Proof.
  intros HQ. unfold connect_reserved. wp_steps. destruct x as [[]|e]; wp_steps; apply HQ;
    split_and!; try done. by released.
Qed.

Lemma wp_android_connect m path junk p fd local (Q : post (option wpa_ctrl)) w (s : statics) :
  nul_free path ->
  (forall tr r s' w', connects (android_leaks path) (connected path) p fd local tr r ->
     clock_id s' = clock_id s -> Q tr (Val r) s' w') ->
  wp m (android_connect AID_SYSTEM AID_WIFI p fd local (path ++ nul :: junk)) Q w s.
Proof.
  intros Hp HQ. unfold android_connect. wp_steps. rewrite cstr_app, os_strncmp_android by done.
  assert (forall name, android_target path = Some (Reserved name) ->
    wp m (connect_reserved p fd local name) (pre (handover local x x0) Q) w1 s) as Hres.
  { intros name Ht. apply wp_connect_reserved. intros tr r w' Hc. apply HQ; [|done].
    by apply (connects_target _ (Reserved name)). }
  unfold android_target in Hres. case_bool_decide as Ha.
  - rewrite decide_True in Hres by done. replace (cstr _) with (drop 9 path); [by apply Hres|].
    rewrite drop_app_le, cstr_app; [done|by apply Forall_drop|].
    assert (length (take 9 path) = 9%nat) as Hl by (by rewrite Ha). rewrite length_take in Hl. lia.
  - rewrite decide_False in Hres by done.
    assert ((path ++ nul :: junk) !! 0%nat = Some (hd nul path)) as -> by (by destruct path).
    wp_steps. case_bool_decide as Hs; cbn [negb]; wp_steps.
    + assert (android_target path = FileSocket <$> dest_of path) as Ht.
      { unfold android_target. rewrite decide_False, decide_True; [done| |done].
        destruct path; [done|by rewrite <- Hs]. }
      apply wp_connect_file; [done|]. intros tr r s' w' (Hq & Hb & Hr) Hs'. wp_trace. apply HQ; [|done].
      unfold too_long in Hr. destruct (dest_of path) as [dest|] eqn:Hd.
      * apply (connects_target _ (FileSocket dest)); [done|]. split; [done|]. split; [done|].
        destruct r as [c|]; [|exact Hr]. destruct Hr as (? & ? & ? & ? & Hdc & Hc). rewrite Hd in Hdc.
        injection Hdc as Hdc. split_and!; try done. by rewrite Hdc.
      * unfold connects, android_leaks. rewrite Ht. split; [by apply (quiet_app [_; _])|].
        split; [by autorewrite with wpa|]. destruct r as [c|]; [|exact Hr].
        destruct Hr as (_ & _ & _ & _ & Hdc & _). congruence.
    + unfold snprintf. rewrite decide_True, decide_False by (cbn; lia).
      wp_steps. cbn [fst]. rewrite cstr_put_cstr by (apply Forall_app_2; [by repeat constructor|done]).
      apply Hres. rewrite decide_False; [done|]. intros Hh. apply Hs. destruct path; [done|by injection Hh].
Qed.

(** C14: On Android opening a connection always ends; on success its socket file has
    been handed to the group of the Wi-Fi service and the socket is connected to what
    the path names: a reserved name after the prefix, a file for an absolute path, and
    else the reserved name of the interface, cut off to 20 characters; a failure gives
    everything back, except for the socket file when an absolute path is too long. *)
Theorem android_open_spec path junk w s :
  nul_free path -> int_ok (counter s) -> counter s < 2 ^ 31 - 1 ->
  exists tr r s' w',
    exec w s (android_open AID_SYSTEM AID_WIFI (Some (path ++ nul :: junk))) tr (Val r) s' w' /\
    opening_post (android_leaks path) (connected path) (counter s + 1) tr r.
Proof.
  intros Hp Hn Hlt.
  assert (wp Totally (android_open AID_SYSTEM AID_WIFI (Some (path ++ nul :: junk))) (fun tr o _ _ =>
    exists r, o = Val r /\ opening_post (android_leaks path) (connected path) (counter s + 1) tr r) w s)
    as (tr & o & s' & w' & H & r & -> & Hr); [|by eauto 8].
  apply (wp_open_with _ (android_leaks path) (connected path)); [done..| | |by eauto].
  - intros. by apply connected_android_app.
  - intros p fd local Q w' s' HQ. by apply wp_android_connect.
Qed.

(** A long interface name is cut off. *)
Lemma android_target_long name :
  head name <> Some Byte.x2f -> take 9 name <> bs "@android:" -> (16 < length name)%nat ->
  android_target name = Some (Reserved (bs "wpa_" ++ take 16 name)).
Proof. intros Hs Ha Hl. unfold android_target. by rewrite !decide_False. Qed.

(** The abstract names of the other builds are not available. *)
Lemma android_target_abstract name :
  android_target (bs "@abstract:" ++ name) = Some (Reserved (bs "wpa_@abstract:" ++ take 6 name)).
Proof. unfold android_target. rewrite !decide_False by done. done. Qed.
End Android.
