(* ===== verification/CtrlSend.v ===== *)
(** * Sending a command: the retry loop of wpa_ctrl_request

    The loop at the label [retry_send] moves no data but the command
    ([wp_send_cmd]); with a clock that runs it gives up after at most seven
    attempts ([send_cmd_total]). *)

From S2P Require Export CtrlRequest.
Local Open Scope Z_scope.

Section Sending.
Context {W : Type} `{K : !Kernel sysE W} `{!PosixKernel W}.

(** [send_cmd] moves no data but the command, which is accepted exactly when
    the answer is [true]. *)
Lemma wp_send_cmd sock cmd (Q : post bool) w s :
  (forall tr b s' w', sent tr = (if b : bool then [cmd] else []) -> received tr = [] ->
     input tr = [] -> output tr = [] -> Q tr (Val b) s' w') ->
  wp Partly (send_cmd sock cmd) Q w s.
Proof.
  intros HQ.
  set (quiet tr := sent tr = [] /\ received tr = [] /\ input tr = [] /\ output tr = []).
  apply (wp_loop_partial _ (fun tr _ _ _ => quiet tr) Q) with (tr0 := []); [|done].
  intros tr w1 s1 started (Hs & Hr & Hi & Ho). unfold retry_send. wp_steps.
  destruct x as [n|e]; wp_steps.
  - apply HQ; autorewrite with wpa; rewrite ?Hs, ?Hr, ?Hi, ?Ho; done.
  - assert (forall tr', silent tr' -> quiet (tr ++ Ev (Send sock cmd) (SErr e) :: tr')) as Hq.
    { intros tr' (E1 & E2 & E3 & E4 & _)%silent_observe. unfold quiet.
      autorewrite with wpa. rewrite Hs, Hr, Hi, Ho, E1, E2, E3, E4. done. }
    destruct (would_block e); [destruct (sec started =? 0)|]; wp_steps.
    + apply wp_os_get_reltime_ok. intros tr1 u c w2 Hs1. repeat wp_leaf.
      cbn [snd]. unfold read_reltime. wp_steps. apply wp_os_sleep. intros tr2 w3 Hs2.
      repeat wp_leaf. wp_steps. split; [|done]. cbn [app]. apply Hq.
      by repeat apply Forall_app_2.
    + apply wp_os_get_reltime_ok. intros tr1 u c w2 Hs1. repeat wp_leaf.
      cbn [snd]. unfold read_reltime. wp_steps.
      destruct (os_reltime_expired u started 5); wp_steps.
      * cbn [app]. rewrite app_nil_r. destruct (Hq tr1 Hs1) as (?&?&?&?). by apply HQ.
      * apply wp_os_sleep. intros tr2 w3 Hs2. repeat wp_leaf. wp_steps.
        split; [|done]. cbn [app]. apply Hq. by repeat apply Forall_app_2.
    + destruct (Hq [] ltac:(constructor)) as (?&?&?&?). by apply HQ.
Qed.

(** A clock that runs: [CLOCK_BOOTTIME] answers the time [now], in
    nanoseconds, which no call turns back, which a sleep advances by at least
    its length, and which is past its first second. *)
Class RunningClock (now : W -> Z) : Prop := {
  now_mono : forall X (e : sysE X) w x w', kstep e w = (x, w') -> now w <= now w';
  now_sleep : forall n w w', kstep (Sleep n) w = (tt, w') -> now w + n * 10 ^ 9 <= now w';
  now_read : forall w x w', kstep (ClockGettime CLOCK_BOOTTIME) w = (x, w') ->
    exists sc ns, x = SOk (sc, ns) /\ 0 <= ns < 10 ^ 9 /\ sc * 10 ^ 9 + ns = now w;
  now_started : forall w, 10 ^ 9 <= now w
}.

(** Reading that clock: the time in microseconds, rounded down. *)
Lemma wp_get_reltime_running `{!RunningClock now} m t (Q : post _) w s :
  clock_id s = CLOCK_BOOTTIME ->
  (forall tr u w', silent tr -> now w <= now w' -> normalized u -> 1 <= sec u ->
     usecs u * 1000 <= now w < usecs u * 1000 + 1000 -> Q tr (Val (0, Some u)) s w') ->
  wp m (os_get_reltime t) Q w s.
Proof.
  destruct s as [n c]. cbn. intros -> HQ. unfold os_get_reltime.
  apply wp_loop_unfold. unfold get_reltime_body at 1. wp_steps. cbn [clock_id] in *.
  destruct (now_read _ _ _ Hk) as (sc & ns & -> & Hns & Hnow).
  pose proof (now_mono _ _ _ _ _ Hk). pose proof (now_started w).
  wp_steps. rewrite Z.quot_div_nonneg by lia.
  pose proof (Z.div_mod ns 1000 ltac:(lia)). pose proof (Z.mod_pos_bound ns 1000 ltac:(lia)).
  apply HQ; [by repeat constructor|lia|unfold normalized; cbn; lia|cbn; lia|].
  unfold usecs; cbn. lia.
Qed.

(** The retries: after [k] sends that would have blocked, at least [k]
    seconds have passed since [started]. *)
Definition retrying (now : W -> Z) (tr : sys_trace) (w : W) (s : statics)
    (started : os_reltime) : Prop :=
  clock_id s = CLOCK_BOOTTIME /\
  ((started = MkReltime 0 0 /\ length (send_calls tr) = 0%nat) \/
   (normalized started /\ 1 <= sec started /\ (1 <= length (send_calls tr) <= 6)%nat /\
    usecs started * 1000 + Z.of_nat (length (send_calls tr)) * 10 ^ 9 <= now w)).

(** One pass of the retry loop, when the clock runs. *)
Lemma retry_send_running `{!RunningClock now} sock cmd tr w s started :
  retrying now tr w s started ->
  wp Totally (retry_send sock cmd started)
    (loop_post (retrying now)
       (fun tr' _ _ _ => (10 - length (send_calls tr') < 10 - length (send_calls tr))%nat)
       (fun tr _ s' w' => clock_id s' = CLOCK_BOOTTIME /\ (length (send_calls tr) <= 7)%nat)
       tr) w s.
Proof.
  intros (Hc & Hst). unfold retry_send. wp_steps.
  pose proof (now_mono _ _ _ _ _ Hk) as Hm. destruct x as [n|e]; wp_steps.
  { split; [done|]. autorewrite with wpa. rewrite length_app. cbn.
    destruct Hst as [[_ ->]|(_ & _ & ? & _)]; lia. }
  assert (forall tr', silent tr' -> length (send_calls (tr ++ Ev (Send sock cmd) (SErr e) :: tr'))
    = S (length (send_calls tr))) as Hcnt.
  { intros tr' (_ & _ & _ & _ & E)%silent_observe. autorewrite with wpa.
    rewrite E, length_app. cbn. lia. }
  destruct (would_block e); [destruct (Z.eqb_spec (sec started) 0)|]; wp_steps.
  + destruct Hst as [[-> Hk0]|(_ & ? & _)]; [|lia].
    apply wp_get_reltime_running; [done|]. intros tr1 u w2 Hs1 Hm1 Hn Hsec Hu.
    repeat wp_leaf. cbn [snd]. unfold read_reltime, os_sleep. wp_steps. cbn [negb Z.eqb].
    wp_steps. clear Hk. match goal with H : kstep (Sleep 1) _ = _ |- _ =>
      pose proof (now_sleep _ _ _ H) end.
    rewrite <- !app_assoc in *. cbn [app]. rewrite ?app_nil_r.
    assert (silent (tr1 ++ [Ev (Sleep 1) tt])) as Hs2 by (apply Forall_app_2; [done|by repeat constructor]).
    unfold retrying. rewrite (Hcnt _ Hs2), Hk0. split; [|lia].
    split; [done|]. right. split_and!; [done|done|lia|lia|lia].
  + destruct Hst as [[-> _]|(Hn0 & Hs0 & Hcount & Hnow)]; [done|].
    apply wp_get_reltime_running; [done|]. intros tr1 u w2 Hs1 Hm1 Hn Hsec Hu.
    repeat wp_leaf. cbn [snd]. unfold read_reltime, os_sleep. wp_steps.
    rewrite os_reltime_expired_usecs by done.
    destruct (Z.ltb_spec (5 * 1000000) (usecs u - usecs started)); wp_steps.
    * split; [done|]. cbn [app]. rewrite app_nil_r. rewrite (Hcnt _ Hs1). lia.
    * cbn [negb Z.eqb]. wp_steps. clear Hk. match goal with H : kstep (Sleep 1) _ = _ |- _ =>
        pose proof (now_sleep _ _ _ H) end.
      cbn [app]. rewrite ?app_nil_r.
      assert (silent (tr1 ++ [Ev (Sleep 1) tt])) as Hs2
        by (apply Forall_app_2; [done|by repeat constructor]).
      unfold retrying. rewrite (Hcnt _ Hs2). split; [|lia].
      split; [done|]. right. split_and!; [done|done|lia|lia|lia].
  + split; [done|]. cbn [app]. rewrite (Hcnt []) by constructor.
    destruct Hst as [[_ ->]|(_ & _ & ? & _)]; lia.
Qed.

Lemma wp_send_cmd_running `{!RunningClock now} sock cmd w s :
  clock_id s = CLOCK_BOOTTIME ->
  wp Totally (send_cmd sock cmd)
    (fun tr _ s' _ => clock_id s' = CLOCK_BOOTTIME /\ (length (send_calls tr) <= 7)%nat) w s.
Proof.
  intros Hc. eapply (wp_loop_total _ (retrying now)) with (tr0 := []); [|by split; [|left]].
  intros. by apply retry_send_running.
Qed.

(** C10: Against a socket whose queue stays full the send loop of a request gives up:
    with a running clock it makes at most seven attempts, and it reports success exactly
    when the command was accepted, once. *)
Theorem send_cmd_total `{!RunningClock now} sock cmd w s :
  clock_id s = CLOCK_BOOTTIME ->
  exists tr b s' w', exec w s (send_cmd sock cmd) tr (Val b) s' w' /\
    (length (send_calls tr) <= 7)%nat /\ sent tr = (if b : bool then [cmd] else []).
Proof.
  intros Hc. destruct (wp_send_cmd_running sock cmd w s Hc) as (tr & o & s' & w' & H & _ & Hl).
  pose proof H as Hw. apply (wp_send_cmd sock cmd (fun tr o _ _ => exists b : bool,
    o = Val b /\ sent tr = if b then [cmd] else []) w s) in Hw as (b & -> & Hb); [|by eauto].
  by exists tr, b, s', w'.
Qed.
End Sending.
