(* ===== verification/CtrlReply.v ===== *)
(** * Awaiting a reply: the receive loop of wpa_ctrl_request and its callers

    The interface of message callbacks ([MsgCallback]), the specification of
    the receive loop and of [wpa_ctrl_request] against it, and of
    [wpa_ctrl_attach], [wpa_ctrl_detach], [wpa_ctrl_recv] and
    [wpa_ctrl_pending]. *)

From S2P Require Export CtrlSend.
Local Open Scope Z_scope.
Local Open Scope prog_scope.

(** The interface of a message callback: for a message in a buffer it moves no
    datagram, reads no input and writes [encode msg] to the output, or it ends the
    process with a failure status, sending and reading nothing either, and having
    written a part of it. *)
Class MsgCallback (cb : msg_callback) (encode : bytes -> bytes) : Prop := {
  msg_callback_spec : forall W (K : Kernel sysE W) (P : PosixKernel W) f buf len Q w s,
    cb = Some f -> 0 <= len <= Z.of_nat (length buf) ->
    (forall tr s' w', sent tr = [] -> received tr = [] -> input tr = [] ->
       output tr = encode (take (Z.to_nat len) buf) -> Q tr (Val tt) s' w') ->
    (forall tr z s' w', z <> 0 -> sent tr = [] -> received tr = [] -> input tr = [] ->
       output tr `prefix_of` encode (take (Z.to_nat len) buf) -> Q tr (Exit z) s' w') ->
    wp Partly (f buf len) Q w s;
  no_msg_callback : forall msg, cb = None -> encode msg = []
}.

(** Without a callback the messages are dropped. *)
#[export] Instance no_callback : MsgCallback None (fun _ => []).
Proof. by constructor. Qed.

(** What the callback is given of an unsolicited message: a message that fills
    the buffer loses its last byte to the NUL. *)
Definition delivered (cap : Z) (d : bytes) : bytes :=
  if Z.of_nat (length d) =? cap then take (length d - 1) d else d.

(** An unsolicited message that fits the buffer. *)
Definition event_message (cap : Z) (d : bytes) : Prop :=
  unsolicited d /\ Z.of_nat (length d) <= cap.

(** The order of the actions: each message is passed to the callback before the
    next datagram is received. *)
Definition deliveries (cap : Z) (encode : bytes -> bytes) (evs : list bytes) : list action :=
  concat ((fun d => Dgram d :: (Out <$> encode (delivered cap d))) <$> evs).

Lemma deliveries_snoc cap encode evs d :
  deliveries cap encode (evs ++ [d]) =
    deliveries cap encode evs ++ Dgram d :: (Out <$> encode (delivered cap d)).
Proof. unfold deliveries. rewrite fmap_app, concat_app. cbn. by rewrite app_nil_r. Qed.

(** A callback that ends the process has been given a message, and has written
    a part of it. *)
Definition broken_off (cap : Z) (encode : bytes -> bytes) (tr : sys_trace) : Prop :=
  exists evs d out, Forall (event_message cap) evs /\ event_message cap d /\
    out `prefix_of` encode (delivered cap d) /\
    actions tr = (Cmd <$> sent tr) ++ deliveries cap encode evs ++ Dgram d :: (Out <$> out).

(** The specification of the receive loop: [evs] are the unsolicited messages
    that arrived before the reply, each passed to the callback, in order; the
    first other datagram is the reply. *)
Definition reply_post (cap : Z) (encode : bytes -> bytes)
    (tr : sys_trace) (r : Z) (reply : bytes) (len : Z) : Prop :=
  exists evs, Forall (event_message cap) evs /\
    output tr = concat ((encode ∘ delivered cap) <$> evs) /\
    ((r = 0 /\ exists d, received tr = evs ++ [d] /\ unsolicited d = false /\
        len = Z.of_nat (length d) /\ len <= cap /\ take (length d) reply = d /\
        actions tr = (Cmd <$> sent tr) ++ deliveries cap encode evs ++ [Dgram d]) \/
     ((r = -1 \/ r = -2) /\ received tr = evs /\ len = cap /\
        actions tr = (Cmd <$> sent tr) ++ deliveries cap encode evs)).

(** The specification of [wpa_ctrl_request]: the command is sent, and then the
    reply is awaited; when it cannot be sent the result is -1. *)
Definition request_post (cmd : bytes) (cap : Z) (encode : bytes -> bytes)
    (tr : sys_trace) (r : Z) (reply : bytes) (len : Z) : Prop :=
  input tr = [] /\ reply_post cap encode tr r reply len /\
  (sent tr = [cmd] \/ r = -1 /\ sent tr = [] /\ received tr = []).

(** Where an undefined operation leaves a request: the command is out, and the
    descriptor has no place in the set of [select]. *)
Definition unset (cmd : bytes) (tr : sys_trace) : Prop :=
  sent tr = [cmd] /\ received tr = [] /\ input tr = [] /\ output tr = [].

Lemma unset_actions cmd tr : unset cmd tr -> actions tr = [Cmd cmd].
Proof. intros (E1 & E2 & E3 & E4). by rewrite actions_sends, E1. Qed.

Section Receiving.
Context {W : Type} `{K : !Kernel sysE W} `{!PosixKernel W}.
Context (sock cap : Z) (cb : msg_callback) (encode : bytes -> bytes) `{!MsgCallback cb encode}.

(** The state of the receive loop: the messages seen so far. *)
Definition receiving (n : nat) (tr : sys_trace) (reply : bytes) : Prop :=
  length reply = n /\ Forall (event_message cap) (received tr) /\ sent tr = [] /\ input tr = [] /\
  output tr = concat ((encode ∘ delivered cap) <$> received tr) /\
  actions tr = deliveries cap encode (received tr).

(** An event that moves no datagram keeps the state. *)
Lemma receiving_quiet n tr tr' reply :
  receiving n tr reply -> quiet tr' -> receiving n (tr ++ tr') reply.
Proof.
  intros (? & HF & Hs & Hi & Ho & Ha) Hq. pose proof (quiet_actions _ Hq) as Ea.
  destruct Hq as (E1 & E2 & E3 & E4).
  unfold receiving. autorewrite with wpa. rewrite E1, E2, E3, E4, Ea, !app_nil_r.
  by repeat split.
Qed.

(** A message that the callback has been given is added to the state. *)
Lemma receiving_message n tr tr' reply reply' d :
  receiving n tr reply -> length reply' = n -> event_message cap d ->
  sent tr' = [] -> received tr' = [d] -> input tr' = [] ->
  output tr' = encode (delivered cap d) ->
  actions tr' = Dgram d :: (Out <$> encode (delivered cap d)) -> receiving n (tr ++ tr') reply'.
Proof.
  intros (? & HF & Hs & Hi & Ho & Ha) Hlen Hu E1 E2 E3 E4 E5. unfold receiving.
  autorewrite with wpa. rewrite E1, E2, E3, E4, E5, Hs, Hi, Ho, Ha, fmap_app, concat_app,
    deliveries_snoc.
  cbn. rewrite app_nil_r. split_and!; [done| |done..].
  apply Forall_app_2; [done|by constructor].
Qed.

Lemma reply_post_fail n tr r reply :
  receiving n tr reply -> r = -1 \/ r = -2 -> reply_post cap encode tr r reply cap.
Proof.
  intros (? & HF & Hs & Hi & Ho & Ha) Hr. exists (received tr). split_and!; [done|done|].
  right. by rewrite Hs.
Qed.

(** The message in the buffer as the callback sees it. *)
Lemma delivered_buffer d rest reply :
  unsolicited d -> Z.of_nat (length d) <= cap ->
  let res := if Z.of_nat (length d) =? cap then cap - 1 else Z.of_nat (length d) in
  store (d ++ rest) (Z.to_nat res) nul = Some reply ->
  0 <= res <= Z.of_nat (length reply) /\ take (Z.to_nat res) reply = delivered cap d.
Proof.
  intros Hu Hle res Hst. rewrite (take_store _ _ _ _ Hst), (length_store _ _ _ _ Hst).
  destruct d as [|c d]; [done|]. rewrite length_app. unfold delivered, res.
  destruct (Z.eqb_spec (Z.of_nat (length (c :: d))) cap) as [He|He].
  - split; [cbn in *; lia|]. rewrite take_app_le by (cbn in *; lia). f_equal. lia.
  - split; [cbn in *; lia|]. by rewrite Nat2Z.id, take_app_length.
Qed.

(** The first byte of the reply, which is read only when there is one. *)
Lemma wp_first_byte d rest m (Q : post byte) w (s : statics) :
  (forall c, (0 <? Z.of_nat (length d)) && bool_decide (c = langle) = unsolicited d ->
     Q [] (Val c) s w) ->
  wp m (if 0 <? Z.of_nat (length d) then lift ((d ++ rest) !! 0%nat) else ret nul) Q w s.
Proof. intros HQ. destruct d as [|c d]; cbn; apply wp_ret, HQ; done. Qed.

(** The terminating NUL of a message has room in the buffer. *)
Lemma store_terminator d rest :
  unsolicited d -> Z.of_nat (length d) <= cap <= Z.of_nat (length (d ++ rest)) ->
  exists buf, store (d ++ rest)
    (Z.to_nat (if Z.of_nat (length d) =? cap then cap - 1 else Z.of_nat (length d))) nul = Some buf.
Proof.
  intros Hu Hle. destruct d as [|c d]; [done|].
  eexists. apply store_in. destruct (Z.eqb_spec (Z.of_nat (length (c :: d))) cap);
    cbn [length app] in *; lia.
Qed.

(** An unsolicited message is passed to the callback, if there is one. *)
Definition deliver (reply : bytes) (res : Z) : sprog (bytes + Z * bytes * Z) :=
  match cb with
  | Some cb =>
      let res := if res =? cap then cap - 1 else res in
      let* reply := lift (store reply (Z.to_nat res) nul) in
      cb reply res;;; ret (inl reply)
  | None => ret (inl reply)
  end.

Lemma wp_deliver d rest (Q : post (bytes + Z * bytes * Z)) w s :
  unsolicited d -> Z.of_nat (length d) <= cap <= Z.of_nat (length (d ++ rest)) ->
  (forall tr reply s' w', length reply = length (d ++ rest) -> sent tr = [] -> received tr = [] ->
     input tr = [] -> output tr = encode (delivered cap d) -> Q tr (Val (inl reply)) s' w') ->
  (is_Some cb -> forall tr z s' w', z <> 0 -> sent tr = [] -> received tr = [] -> input tr = [] ->
     output tr `prefix_of` encode (delivered cap d) -> Q tr (Exit z) s' w') ->
  wp Partly (deliver (d ++ rest) (Z.of_nat (length d))) Q w s.
Proof.
  intros Hu Hle HQ HX. unfold deliver. destruct cb as [f|] eqn:Hcb; cycle 1.
  { wp_steps. apply HQ; [done..|]. by rewrite (no_msg_callback (cb := None)). }
  destruct (store_terminator d rest Hu Hle) as [buf Hst].
  destruct (delivered_buffer d rest buf Hu (proj1 Hle) Hst) as [Hres Hbuf].
  rewrite Hst. wp_steps.
  eapply (msg_callback_spec (cb := Some f)); [done|done|done| |].
  - intros tr1 s2 w3 E1 E2 E3 E4. repeat wp_leaf. wp_steps. wp_trace. rewrite Hbuf in E4.
    apply HQ; [by apply length_store in Hst|done..].
  - intros tr1 z s2 w3 Hz E1 E2 E3 E4. rewrite Hbuf in E4. repeat wp_leaf. by apply HX.
Qed.

Lemma wp_recv_loop reply (Q : post _) w s :
  0 <= cap <= Z.of_nat (length reply) ->
  (in_fd_set sock = false -> Q [] Ub s w) ->
  (in_fd_set sock = true -> forall tr r reply' len s' w', length reply' = length reply ->
     sent tr = [] -> input tr = [] -> reply_post cap encode tr r reply' len ->
     Q tr (Val (r, reply', len)) s' w') ->
  (is_Some cb -> forall tr z s' w', z <> 0 -> sent tr = [] -> input tr = [] ->
     broken_off cap encode tr -> Q tr (Exit z) s' w') ->
  wp Partly (loop (recv_reply sock cap cb) reply) Q w s.
Proof.
  intros Hcap HU HQ HX. destruct (in_fd_set sock) eqn:Hfd; cycle 1.
  { apply wp_loop_unfold. unfold recv_reply. rewrite FD_SET_out by done. wp_steps. by apply HU. }
  specialize (HQ eq_refl). clear HU.
  apply (wp_loop_partial _ (fun tr _ _ r => receiving (length reply) tr r) Q) with (tr0 := []);
    [|by repeat split].
  intros tr w1 s1 rep Hrep. unfold recv_reply. rewrite FD_SET_in by done. wp_steps.
  assert (forall tr' r w', quiet tr' -> r = -1 \/ r = -2 ->
    Q (tr ++ tr') (Val (r, rep, cap)) s1 w') as Hfail.
  { intros tr' r w' Hq Hr. pose proof (receiving_quiet _ _ _ _ Hrep Hq) as Hrep'.
    destruct Hrep' as (? & ? & ? & ? & ? & ?). apply HQ; [done..|].
    eapply reply_post_fail; [by repeat split|done]. }
  destruct x as [[]|e]; wp_steps; [|by apply Hfail; auto..].
  destruct x as [d|e]; wp_steps; [|by apply Hfail; auto].
  pose proof (recv_bound _ _ _ _ _ Hk0 ltac:(lia)) as Hd.
  pose proof Hrep as (Hlen & HF & Hs & Hi & Ho & Ha).
  rewrite store_bytes_0 by lia. wp_steps. set (rest := drop (length d) rep).
  assert (length (d ++ rest) = length reply) as Hlen'
    by (unfold rest; rewrite length_app, length_drop; lia).
  apply wp_first_byte. intros c Hc. repeat wp_leaf. rewrite Hc.
  destruct (unsolicited d) eqn:Hu; wp_steps.
  - apply Is_true_true in Hu. apply wp_deliver; [done|lia| |].
    + intros tr1 reply1 s2 w3 Hl E1 E2 E3 E4. repeat wp_leaf. split; [|done]. cbn [app].
      eapply receiving_message; [done|congruence|by split|..]; autorewrite with wpa;
        rewrite ?(actions_writes tr1), ?E1, ?E2, ?E3, ?E4 by done; done.
    + intros Hcb tr1 z s2 w3 Hz E1 E2 E3 E4. repeat wp_leaf. apply HX; [done..| | |];
        unfold broken_off; autorewrite with wpa; rewrite ?Hs, ?Hi, ?E1, ?E3; [done..|].
      exists (received tr), d, (output tr1). rewrite Ha, (actions_writes tr1) by done.
      split_and!; [done|split; [done|lia]|done|done].
  - cbn [app]. apply HQ; [done|..]; autorewrite with wpa; [by rewrite Hs|by rewrite Hi|].
    exists (received tr). split; [done|]. autorewrite with wpa. cbn.
    rewrite !app_nil_r. split; [done|]. left. split; [done|]. exists d.
    rewrite take_app_length, Hu, Ha, Hs. by split_and!.
Qed.
End Receiving.

Section Request.
Context {W : Type} `{K : !Kernel sysE W} `{!PosixKernel W}.
Context (cb : msg_callback) (encode : bytes -> bytes) `{!MsgCallback cb encode}.

(** What is sent for a command: with a cookie, the cookie and a space come first. *)
Definition wire_cmd (cookie : option bytes) (cmd : bytes) : bytes :=
  match cookie with Some c => c ++ space :: cmd | None => cmd end.

Lemma wp_exchange sock cmd reply cap (Q : post _) w s (release : sprog unit) :
  0 <= cap <= Z.of_nat (length reply) ->
  (forall m (Q : post unit) w s, (forall tr w', quiet tr -> Q tr (Val tt) s w') ->
     wp m release Q w s) ->
  (in_fd_set sock = false -> forall tr s' w', unset cmd tr -> Q tr Ub s' w') ->
  (forall tr r reply' len s' w', length reply' = length reply ->
     (0 <= r -> in_fd_set sock = true) -> request_post cmd cap encode tr r reply' len -> Q tr (Val (r, reply', len)) s' w') ->
  (is_Some cb -> forall tr z s' w', z <> 0 -> sent tr = [cmd] -> input tr = [] ->
     broken_off cap encode tr -> Q tr (Exit z) s' w') ->
  wp Partly (let* ok := send_cmd sock cmd in
    release;;;
    if ok : bool then loop (recv_reply sock cap cb) reply else ret (-1, reply, cap)) Q w s.
Proof.
  intros Hcap Hrel HU HQ HX. wp_steps.
  apply wp_send_cmd. intros tr b s1 w1 E1 E2 E3 E4. repeat wp_leaf. wp_steps.
  apply Hrel. intros tr1 w2 Hq. repeat wp_leaf.
  pose proof (quiet_actions _ Hq) as Ga. destruct Hq as (G1 & G2 & G3 & G4).
  pose proof (actions_sends _ E2 E3 E4) as Ea.
  destruct b.
  - eapply wp_recv_loop; [done|done| | |].
    + intros Hfd. wp_trace. apply HU; [done|]. unfold unset. autorewrite with wpa.
      by rewrite E1, E2, E3, E4, G1, G2, G3, G4.
    + intros Hfd tr' r reply' len s' w' Hl F1 F2 F3. unfold pre. apply HQ; [done|done|].
      split; [|split]; autorewrite with wpa; rewrite ?E1, ?E2, ?E3, ?E4, ?F1, ?F2, ?G1, ?G2, ?G3;
        [done| |by left].
      destruct F3 as (evs & ? & ? & Hr). exists evs. autorewrite with wpa.
      rewrite E2, E4, G2, G4, Ea, Ga, E1, G1, F1 in *. cbn [app fmap list_fmap].
      split_and!; [done..|]. destruct Hr as [(? & d & ? & ? & ? & ? & ? & ->)|(? & ? & ? & ->)];
        [left|right]; eauto 10.
    + intros Hs tr' z s' w' Hz F1 F2 F3. wp_trace.
      apply HX; [done..| | |]; autorewrite with wpa; [by rewrite E1, F1, G1|by rewrite E3, F2, G3|].
      destruct F3 as (evs & d & out & ? & ? & ? & Ha). exists evs, d, out. split_and!; [done..|].
      autorewrite with wpa. by rewrite Ea, Ga, Ha, E1, G1, F1.
  - wp_steps. wp_trace. apply HQ; [done|lia|]. unfold request_post, reply_post.
    autorewrite with wpa. rewrite Ea, Ga, E1, E2, E3, E4, G1, G2, G3, G4. cbn [app].
    split; [done|]. split; [|by right]. exists [].
    split_and!; [constructor|done|]. right. auto.
Qed.

(** A request over a connection with or without a cookie. *)
Lemma wp_socket_request sock cookie cmd reply cap (Q : post _) w s :
  0 <= cap <= Z.of_nat (length reply) -> (forall c, cookie = Some c -> nul_free c) ->
  (in_fd_set sock = false -> forall tr s' w', unset (wire_cmd cookie cmd) tr -> Q tr Ub s' w') ->
  (forall tr r reply' len s' w', length reply' = length reply ->
     (0 <= r -> in_fd_set sock = true) -> request_post (wire_cmd cookie cmd) cap encode tr r reply' len ->
     Q tr (Val (r, reply', len)) s' w') ->
  (is_Some cb -> forall tr z s' w', z <> 0 -> sent tr = [wire_cmd cookie cmd] -> input tr = [] ->
     broken_off cap encode tr -> Q tr (Exit z) s' w') ->
  wp Partly (socket_request sock cookie cmd reply cap cb) Q w s.
Proof.
  intros Hcap Hc HU HQ HX. unfold socket_request. wp_step. destruct cookie as [c|].
  - wp_steps. destruct x as [p|]; wp_steps; cycle 1.
    { wp_trace. apply HQ; [done|lia|]. split; [done|]. split; [|by right]. exists [].
      split_and!; [constructor|done|]. right. auto. }
    rewrite cookie_cmd_result by auto. do 2 wp_step.
    apply wp_exchange; [done|intros; by wp_steps; auto with wpa| | |].
    + intros Hfd tr s' w' Hu. wp_trace. by apply HU.
    + intros tr r reply' len s' w' Hl Hfd Hr. wp_trace. apply HQ; [done..|]. exact Hr.
    + intros Hs tr z s' w' Hz E1 E2 E3. wp_trace. by apply HX.
  - wp_step. apply wp_exchange; [done|intros; by wp_steps; auto with wpa| | |].
    + intros Hfd tr s' w' Hu. wp_trace. by apply HU.
    + intros tr r reply' len s' w' Hl Hfd Hr. wp_trace. by apply HQ.
    + intros Hs tr z s' w' Hz E1 E2 E3. wp_trace. by apply HX.
Qed.

Lemma wp_wpa_ctrl_request ctrl cmd reply cap (Q : post _) w s :
  0 <= cap <= Z.of_nat (length reply) ->
  (in_fd_set (wc_s ctrl) = false -> forall tr s' w', unset cmd tr -> Q tr Ub s' w') ->
  (forall tr r reply' len s' w', length reply' = length reply ->
     (0 <= r -> in_fd_set (wc_s ctrl) = true) -> request_post cmd cap encode tr r reply' len -> Q tr (Val (r, reply', len)) s' w') ->
  (is_Some cb -> forall tr z s' w', z <> 0 -> sent tr = [cmd] -> input tr = [] ->
     broken_off cap encode tr -> Q tr (Exit z) s' w') ->
  wp Partly (wpa_ctrl_request ctrl cmd reply cap cb) Q w s.
Proof.
  intros Hcap HU HQ HX. unfold wpa_ctrl_request.
  apply wp_socket_request; [done|by intros|exact HU|exact HQ|exact HX].
Qed.
End Request.

(** A dropped message writes nothing. *)
Lemma dropped_output cap (evs : list bytes) :
  concat (((fun _ : bytes => [] : bytes) ∘ delivered cap) <$> evs) = [].
Proof. induction evs as [|d evs IH]; [done|]. exact IH. Qed.

Lemma dropped_deliveries cap (evs : list bytes) :
  deliveries cap (fun _ => []) evs = Dgram <$> evs.
Proof. unfold deliveries. induction evs as [|d evs IH]; [done|]. cbn. by f_equal. Qed.

Section Operations.
Context {W : Type} `{K : !Kernel sysE W} `{!PosixKernel W}.

(** C9: A request sends the command once or not at all; unsolicited messages that arrive
    before the reply go to the callback in order; result 0 means that the first other
    datagram is in the reply buffer with its length, which is within the capacity;
    otherwise the length is unchanged; nothing is ever written outside the reply buffer;
    and the only undefined operation is to wait, after the command is out, on a
    descriptor that has no place in an fd_set. *)
Theorem wpa_ctrl_request_spec ctrl (cb : msg_callback) (encode : bytes -> bytes)
    `{!MsgCallback cb encode} cmd reply cap
    w s tr o s' w' :
  0 <= cap <= Z.of_nat (length reply) ->
  exec w s (wpa_ctrl_request ctrl cmd reply cap cb) tr o s' w' ->
  match o with
  | Val (r, reply', len) =>
      length reply' = length reply /\ request_post cmd cap encode tr r reply' len
  | Exit _ => True
  | Ub => in_fd_set (wc_s ctrl) = false /\ unset cmd tr
  end.
Proof.
  intros Hcap H. exec_wp H. apply (wp_wpa_ctrl_request _ encode); auto.
Qed.

(** The reply of [ATTACH] and [DETACH]. *)
Definition ok_reply : bytes := bs "OK" ++ [newline].

Lemma wp_attach_helper ctrl (attach : bool) (Q : post _) w s :
  (in_fd_set (wc_s ctrl) = false -> forall tr s' w',
     unset (if attach then bs "ATTACH" else bs "DETACH") tr -> Q tr Ub s' w') ->
  (forall tr r reply len s' w', (0 <= r -> in_fd_set (wc_s ctrl) = true) ->
     request_post (if attach then bs "ATTACH" else bs "DETACH") 10 (fun _ => []) tr r reply len ->
     Q tr (Val (if r <? 0 then r
                else if bool_decide (take (Z.to_nat len) reply = ok_reply) then 0 else -1)) s' w') ->
  wp Partly (wpa_ctrl_attach_helper ctrl attach) Q w s.
Proof.
  intros HU HQ. unfold wpa_ctrl_attach_helper. wp_steps.
  apply (wp_wpa_ctrl_request _ (fun _ => [])); [cbn; lia| | |].
  - intros Hfd tr s1 w1 Hu. repeat wp_leaf. by apply HU.
  - intros tr r reply len s1 w1 Hl Hfd Hp. repeat wp_leaf.
    specialize (HQ tr r reply len s1 w1 Hfd Hp).
    destruct (Z.ltb_spec r 0) as [|Hr]; wp_steps; wp_trace; [done|].
    destruct Hp as (_ & (evs & _ & _ & [Hp|Hp]) & _); [|destruct Hp as [[-> | ->] _]; lia].
    destruct Hp as (-> & d & _ & _ & Hlen & Hcap & Hd & _).
    rewrite Hlen, Nat2Z.id, Hd in HQ.
    destruct (Z.eqb_spec len 3) as [He|He].
    + assert (length d = 3%nat) as Hd3 by lia. rewrite Hd3 in Hd.
      rewrite decide_True by (rewrite Hl; cbn; lia). wp_steps. wp_trace.
      rewrite Hd. unfold ok_reply in HQ. by case_bool_decide.
    + wp_steps. wp_trace. rewrite bool_decide_eq_false_2 in HQ; [done|].
      intros ->. cbn in Hlen. lia.
  - by intros [].
Qed.

(** An attachment that has succeeded: the command, then messages, which are
    dropped, and the acknowledgement. *)
Definition attached (tr : sys_trace) : Prop :=
  sent tr = [bs "ATTACH"] /\ input tr = [] /\ output tr = [] /\
  exists evs, Forall unsolicited evs /\ received tr = evs ++ [ok_reply] /\
    actions tr = Cmd (bs "ATTACH") :: (Dgram <$> evs) ++ [Dgram ok_reply].

(** What a failed attachment has done: nothing, or the command went out and
    messages came in, with or without a refusal. *)
Definition attach_refused (tr : sys_trace) : Prop :=
  actions tr = [] \/
  exists evs, Forall unsolicited evs /\
    (actions tr = Cmd (bs "ATTACH") :: (Dgram <$> evs) \/
     exists d, unsolicited d = false /\ d <> ok_reply /\
       actions tr = Cmd (bs "ATTACH") :: (Dgram <$> evs) ++ [Dgram d]).

Lemma event_messages_unsolicited cap evs : Forall (event_message cap) evs -> Forall unsolicited evs.
Proof. intros H. eapply Forall_impl; [exact H|]. by intros d [? _]. Qed.

Lemma wp_attach ctrl (Q : post Z) w s :
  (in_fd_set (wc_s ctrl) = false -> forall tr s' w', unset (bs "ATTACH") tr -> Q tr Ub s' w') ->
  (forall tr r s' w', input tr = [] -> output tr = [] ->
     (r = 0 /\ in_fd_set (wc_s ctrl) = true /\ attached tr \/ (r = -1 \/ r = -2) /\ sent tr `prefix_of` [bs "ATTACH"] /\
        attach_refused tr /\
        forall evs, Forall unsolicited evs -> received tr <> evs ++ [ok_reply]) ->
     Q tr (Val r) s' w') ->
  wp Partly (wpa_ctrl_attach ctrl) Q w s.
Proof.
  intros HU HQ. unfold wpa_ctrl_attach. apply wp_attach_helper; [exact HU|].
  intros tr r reply len s' w' Hfd (Hi & (evs & HF%event_messages_unsolicited & Ho & Hr) & Hs).
  rewrite dropped_output in Ho. rewrite dropped_deliveries in Hr. apply HQ; [done..|].
  assert (sent tr `prefix_of` [bs "ATTACH"]) as Hpre
    by (destruct Hs as [-> |(_ & -> & _)]; [done|apply prefix_nil]).
  destruct Hr as [(-> & d & Hr & Hu & -> & Hle & Hd & Ha)|(Hr & Hrecv & _ & Ha)].
  - cbn [Z.ltb Z.compare]. rewrite Nat2Z.id, Hd.
    assert (sent tr = [bs "ATTACH"]) as Hsent by (destruct Hs as [|[? _]]; [done|lia]).
    rewrite Hsent in Ha. case_bool_decide as Hok; [left|right].
    + subst d. split; [done|]. split; [by apply Hfd|]. split_and!; eauto.
    + split; [by left|]. split; [done|]. split; [right; eauto 8|].
      intros evs' _ Heq. rewrite Hr in Heq. apply app_inj_tail in Heq as [_ ?]. done.
  - right. assert ((r <? 0) = true) as -> by lia.
    split; [destruct Hr as [-> | ->]; auto|]. split; [done|]. split.
    + destruct Hs as [Hs|(_ & Hs & Hrecv')]; rewrite Hs in Ha; [right; by eauto|left].
      rewrite Hrecv' in Hrecv. by subst evs.
    + intros evs' _ Heq. rewrite <- Hrecv, Heq in HF. apply Forall_app in HF as [_ HF].
      apply Forall_cons in HF as [HF _]. by vm_compute in HF.
Qed.

(** C15: Attaching answers 0 exactly when ATTACH was sent and the first datagram that is
    not an unsolicited message is OK; otherwise it answers -1 or -2 and no such
    acknowledgement was received; the only undefined operation is to wait for it on a
    descriptor that has no place in an fd_set. *)
Theorem wpa_ctrl_attach_spec ctrl w s tr o s' w' :
  exec w s (wpa_ctrl_attach ctrl) tr o s' w' ->
  input tr = [] /\ output tr = [] /\
  (o = Val 0 /\ attached tr \/
   (o = Val (-1) \/ o = Val (-2)) /\ sent tr `prefix_of` [bs "ATTACH"] /\
      (forall evs, Forall unsolicited evs -> received tr <> evs ++ [ok_reply]) \/
   o = Ub /\ in_fd_set (wc_s ctrl) = false /\ unset (bs "ATTACH") tr).
Proof.
  intros H. exec_wp H. apply wp_attach.
  { intros Hfd tr s' w' Hu. pose proof Hu as (_ & _ & Hi & Ho). split_and!; [done..|]. auto. }
  intros tr r s' w' Hi Ho Hr.
  split_and!; [done..|]. destruct Hr as [(-> & _ & ?)|([-> | ->] & ? & _ & ?)]; auto 7.
Qed.
(** C18: Receiving an event stores the datagram and its length within the buffer, or
    fails and changes nothing; the pending test does not touch the connection and
    answers 0 only if select finds no data, so that a failing select counts as pending
    data; it is undefined for a descriptor that has no place in an fd_set. *)
Theorem wpa_ctrl_recv_pending ctrl reply cap w s :
  0 <= cap <= Z.of_nat (length reply) ->
  (exists tr r reply' len w', exec w s (wpa_ctrl_recv ctrl reply cap) tr (Val (r, reply', len)) s w' /\
     length reply' = length reply /\
     ((exists d, r = 0 /\ tr = [Ev (Recv (wc_s ctrl) cap) (SOk d)] /\ len = Z.of_nat (length d) /\
         len <= cap /\ reply' = d ++ drop (length d) reply) \/
      (exists e, r = -1 /\ tr = [Ev (Recv (wc_s ctrl) cap) (SErr e)] /\ len = cap /\ reply' = reply))) /\
  (in_fd_set (wc_s ctrl) = true ->
   exists a r w', exec w s (wpa_ctrl_pending ctrl) [Ev (Select (wc_s ctrl) 0 0) a] (Val r) s w' /\
     (r = 0 <-> a = SOk false) /\ (r = 0 \/ r = 1)) /\
  (in_fd_set (wc_s ctrl) = false -> exec w s (wpa_ctrl_pending ctrl) [] Ub s w).
Proof.
  intros Hcap. split; [|split].
  - assert (wp Totally (wpa_ctrl_recv ctrl reply cap) (fun tr o s' _ => s' = s /\ exists r reply' len,
      o = Val (r, reply', len) /\ length reply' = length reply /\
      ((exists d, r = 0 /\ tr = [Ev (Recv (wc_s ctrl) cap) (SOk d)] /\ len = Z.of_nat (length d) /\
         len <= cap /\ reply' = d ++ drop (length d) reply) \/
       (exists e, r = -1 /\ tr = [Ev (Recv (wc_s ctrl) cap) (SErr e)] /\ len = cap /\ reply' = reply))) w s)
      as (tr & o & s' & w' & H & -> & r & reply' & len & -> & Hr); [|by eauto 10].
    unfold wpa_ctrl_recv. wp_steps. destruct x as [d|e]; wp_steps.
    + pose proof (recv_bound _ _ _ _ _ Hk ltac:(lia)). rewrite store_bytes_0 by lia. wp_steps.
      split; [done|]. do 3 eexists. split; [done|]. rewrite length_app, length_drop. split; [lia|].
      left. by exists d.
    + split; [done|]. do 3 eexists. split; [done|]. split; [done|]. right. by exists e.
  - intros Hfd.
    assert (wp Totally (wpa_ctrl_pending ctrl) (fun tr o s' _ => s' = s /\ exists a r,
      tr = [Ev (Select (wc_s ctrl) 0 0) a] /\ o = Val r /\ (r = 0 <-> a = SOk false) /\ (r = 0 \/ r = 1)) w s)
      as (tr & o & s' & w' & H & -> & a & r & -> & -> & Hr); [|by eauto].
    unfold wpa_ctrl_pending. rewrite FD_SET_in by done. wp_steps.
    split; [done|]. do 2 eexists. split; [done|]. split; [done|].
    destruct x as [[]|]; (split; [split; congruence || done|auto]).
  - intros Hfd.
    assert (wp Totally (wpa_ctrl_pending ctrl) (fun tr o s' w' => tr = [] /\ o = Ub /\ s' = s /\ w' = w) w s)
      as (tr & o & s' & w' & H & -> & -> & -> & ->); [|done].
    unfold wpa_ctrl_pending. rewrite FD_SET_out by done. by wp_steps.
Qed.
End Operations.
