(* ===== verification/Owned.v ===== *)
(** * Ownership: what a trace allocates, opens and releases

    The memory blocks, descriptors and streams that a run acquires and releases
    are read off its trace; [owned] is a balance between what is in hand before
    and after, and composes along traces. *)

From S2P Require Export OsTime.
From stdpp Require Import sorting.
Local Open Scope Z_scope.
Local Open Scope prog_scope.

(** An allocated string is its address and contents. *)
Abbreviation heap_string := (Z * bytes)%type.

Definition os_strdup (s : bytes) : sprog (option heap_string) :=
  let* p := call (Malloc (Z.of_nat (length s) + 1)) in
  ret (match p with Some p => Some (p, s) | None => None end).

(** [free] of a pointer that may be null. *)
Definition free_string (o : option heap_string) : sprog unit :=
  match o with Some (p, _) => call (Free p) | None => ret tt end.

(** ** Memory and descriptors of a trace *)

Definition alloc_of (ev : event sysE) : list Z :=
  let '@Ev _ X e x := ev in
  match e in sysE X return X -> list Z with
  | Malloc _ => fun r => match r with Some p => [p] | None => [] end
  | Calloc _ _ => fun r => match r with Some p => [p] | None => [] end
  | _ => fun _ => []
  end x.

Definition free_of (ev : event sysE) : list Z :=
  let '@Ev _ X e x := ev in match e with Free p => [p] | _ => [] end.

Definition open_of (ev : event sysE) : list Z :=
  let '@Ev _ X e x := ev in
  match e in sysE X return X -> list Z with
  | Socket _ => fun r => match r with SOk s => [s] | SErr _ => [] end
  | Open _ => fun r => match r with SOk s => [s] | SErr _ => [] end
  | Fopen _ _ => fun r => match r with Some f => [f] | None => [] end
  | Opendir _ => fun r => match r with Some d => [d] | None => [] end
  | _ => fun _ => []
  end x.

Definition close_of (ev : event sysE) : list Z :=
  let '@Ev _ X e x := ev in match e with Close s => [s] | Fclose f => [f] | Closedir d => [d] | _ => [] end.

Abbreviation allocated := (observe_with alloc_of).
Abbreviation freed := (observe_with free_of).
Abbreviation opened := (observe_with open_of).
Abbreviation closed := (observe_with close_of).

(** A trace that starts with the blocks [ps] and the descriptors [fs] in hand
    ends with [ps'] and [fs']. *)
Definition owned (ps fs : list Z) (tr : sys_trace) (ps' fs' : list Z) : Prop :=
  ps ++ allocated tr ≡ₚ ps' ++ freed tr /\ fs ++ opened tr ≡ₚ fs' ++ closed tr.

Definition string_ptr (o : option heap_string) : list Z :=
  match o with Some (p, _) => [p] | None => [] end.

(** Calls that neither allocate nor release. *)
Definition no_resource (ev : event sysE) : Prop :=
  alloc_of ev = [] /\ free_of ev = [] /\ open_of ev = [] /\ close_of ev = [].

Lemma owned_app ps fs tr1 ps1 fs1 tr2 ps2 fs2 :
  owned ps fs tr1 ps1 fs1 -> owned ps1 fs1 tr2 ps2 fs2 -> owned ps fs (tr1 ++ tr2) ps2 fs2.
Proof.
  intros [H1 H2] [H3 H4]. unfold owned. autorewrite with wpa. split.
  - rewrite app_assoc, H1, <- app_assoc, (Permutation_app_comm (freed tr1)), app_assoc, H3.
    by rewrite <- app_assoc, (Permutation_app_comm (freed tr2)).
  - rewrite app_assoc, H2, <- app_assoc, (Permutation_app_comm (closed tr1)), app_assoc, H4.
    by rewrite <- app_assoc, (Permutation_app_comm (closed tr2)).
Qed.

(** More blocks and descriptors in hand stay in hand. *)
Lemma owned_frame ps fs tr ps' fs' ps0 fs0 :
  owned ps fs tr ps' fs' -> owned (ps0 ++ ps) (fs0 ++ fs) tr (ps0 ++ ps') (fs0 ++ fs').
Proof. intros [H1 H2]. unfold owned. by rewrite <- !app_assoc, H1, H2. Qed.

Lemma no_resource_owned tr : Forall no_resource tr -> owned [] [] tr [] [].
Proof.
  induction 1 as [|ev tr (E1 & E2 & E3 & E4) _ [H1 H2]]; [done|].
  unfold owned in *. autorewrite with wpa. by rewrite E1, E2, E3, E4.
Qed.

#[export] Hint Extern 1 (no_resource _) => (by repeat split) : emits.

(** Ownership along a trace with parts of known ownership. *)
Ltac own_trace :=
  unfold owned in *; cbn [string_ptr] in *; autorewrite with wpa in *; cbn [app] in *;
  repeat match goal with
  | H : _ /\ _ |- _ => destruct H
  end;
  repeat match goal with
  | H : allocated ?t ≡ₚ _ |- _ => rewrite H; clear H
  | H : opened ?t ≡ₚ _ |- _ => rewrite H; clear H
  | H : _ ≡ₚ freed ?t |- _ => rewrite <- H; clear H
  | H : _ ≡ₚ closed ?t |- _ => rewrite <- H; clear H
  end;
  cbn in *; rewrite ?app_nil_r in *; split; first [assumption | solve_Permutation].

Section Owned.
Context {W : Type} `{K : !Kernel sysE W}.

Lemma wp_os_strdup m str (Q : post (option heap_string)) w (s : statics) :
  (forall tr d w', quiet tr -> owned [] [] tr (string_ptr d) [] -> (forall p t, d = Some (p, t) -> t = str) ->
     Q tr (Val d) s w') ->
  wp m (os_strdup str) Q w s.
Proof.
  intros HQ. unfold os_strdup. wp_steps. destruct x as [p|]; wp_trace;
    (apply HQ; [done|done|naive_solver]).
Qed.

Lemma wp_free_string m d (Q : post unit) w (s : statics) :
  (forall tr w', quiet tr -> owned (string_ptr d) [] tr [] [] -> Q tr (Val tt) s w') ->
  wp m (free_string d) Q w s.
Proof. intros HQ. destruct d as [[p t]|]; cbn; wp_steps; by apply HQ. Qed.

(** The postcondition that a value is returned with the same blocks in hand. *)
Definition keeps {A} : post (E := sysE) (S := statics) (W := W) A := fun tr o _ _ =>
  match o with Val _ => owned [] [] tr [] [] | _ => True end.

Lemma emits_keeps {A} (p : sprog A) w s : emits (W := W) no_resource p -> wp Partly p keeps w s.
Proof.
  intros He. eapply wp_mono; [apply He|]. intros tr [a|z|] s' w' Htr; cbn; [|done..].
  by apply no_resource_owned.
Qed.

Lemma keeps_bind {A B} (p : sprog A) (k : A -> sprog B) w s :
  wp Partly p keeps w s -> (forall a w s, wp Partly (k a) keeps w s) ->
  wp Partly (bind p k) keeps w s.
Proof.
  intros Hp Hk. apply wp_bind. eapply wp_mono; [exact Hp|].
  intros tr [a|z|] s' w' Htr; unfold bind_post; [|done..].
  eapply wp_mono; [apply Hk|]. intros tr2 [b|z|] s2 w2 Htr2; cbn; [|done..].
  by eapply owned_app.
Qed.

Lemma emits_os_get_reltime t : emits (W := W) no_resource (os_get_reltime t).
Proof. unfold os_get_reltime, get_reltime_body. emits_step. Qed.

Lemma emits_os_sleep a b : emits (W := W) no_resource (os_sleep a b).
Proof. unfold os_sleep. emits_step. Qed.
End Owned.
