(* ===== verification/CtrlUdp.v ===== *)
(** * wpa_ctrl.c: control connections over UDP

    The UDP build of the library ([CONFIG_CTRL_IFACE_UDP]), with and without
    [CONFIG_CTRL_IFACE_UDP_REMOTE] (the flag [remote]): opening, closing, the
    name of the remote interface, and requests, which carry the cookie of the
    connection.  The destination is an object ([u_dest]) that the steps of the
    opening are given and change.  The memory blocks and descriptors that a run has allocated and
    released are read off its trace. *)

From S2P Require Export Owned CtrlReply.
Local Open Scope Z_scope.
Local Open Scope prog_scope.

(** ** Data: [struct wpa_ctrl] of the UDP build

    A [struct sockaddr_in] has the four bytes of the address in network order. *)
Record sockaddr_in : Type := MkSin { s_addr : bytes; sin_port : Z }.

Definition sockaddr_of (a : sockaddr_in) : sockaddr := AddrIn (s_addr a) (sin_port a).

Record udp_ctrl : Type := MkUdp {
  u_ptr : Z;
  u_s : Z;
  u_dest : sockaddr_in;
  u_cookie : option heap_string;
  u_remote_ifname : option heap_string;
  u_remote_ip : option heap_string
}.

Definition WPA_CTRL_IFACE_PORT : Z := 9877.

(** The bytes of [htonl(n)] in memory. *)
Definition htonl (n : Z) : bytes :=
  [byte.of_Z (Z.shiftr n 24); byte.of_Z (Z.shiftr n 16); byte.of_Z (Z.shiftr n 8); byte.of_Z n].

Definition INADDR_ANY : Z := 0.
(** [(127 << 24) | 1]. *)
Definition LOOPBACK : Z := Z.lor (Z.shiftl 127 24) 1.
Definition SIZEOF_UDP_CTRL : Z := 64.

(** [strchr(name, ':')], with the text before and after the colon. *)
Fixpoint split_colon (name : bytes) : option (bytes * bytes) :=
  match name with
  | [] => None
  | c :: name =>
      if decide (c = Byte.x3a) then Some ([], name)
      else match split_colon name with Some (b, a) => Some (c :: b, a) | None => None end
  end.

(** [atoi] for a numeral without sign or leading space; a value that is not an
    [int] is undefined. *)
Fixpoint atoi_digits (s : bytes) (n : Z) : Z :=
  match s with
  | c :: s => if is_digit c then atoi_digits s (n * 10 + (byte.unsigned c - 48)) else n
  | [] => n
  end.

Definition atoi (s : bytes) : option Z :=
  let '(sign, digits) :=
    match s with
    | Byte.x2d :: s => (-1, s)
    | Byte.x2b :: s => (1, s)
    | _ => (1, s)
    end in
  let n := sign * atoi_digits digits 0 in
  if decide (- 2 ^ 31 <= n < 2 ^ 31) then Some n else None.

(** [memcpy(dst, src, n)]: the contents of [dst] afterwards. *)
Definition copy_bytes (dst src : bytes) (n : nat) : option bytes :=
  if decide (n <= length src)%nat then store_bytes dst 0 (take n src) else None.

(** The object [ctrl->dest] and [remote_ip] of a remote connection, or [None]
    after a failure.  [resolve_host] is the part from the call of
    [gethostbyname] on.  The copy goes into [h->h_addr], the object of the
    resolver, which is not used again. *)
Definition resolve_host (p s np : Z) (dest : sockaddr_in) (name : bytes) (port_id : Z)
    : sprog (option (sockaddr_in * option heap_string)) :=
  let* h := call (Gethostbyname name) in
  let* remote_ip := os_strdup name in
  call (Free np);;;
  match h with
  | None =>
      call (Stderr (bs "gethostbyname"));;; call (Close s);;;
      free_string remote_ip;;; call (Free p);;; ret None
  | Some h_addr =>
      let dest := MkSin (s_addr dest) (port_id mod 65536) in
      let* h_addr := lift (copy_bytes h_addr (s_addr dest) (length h_addr)) in
      ret (Some (dest, remote_ip))
  end.

Definition resolve_remote (p s : Z) (dest : sockaddr_in) (ctrl_path : option bytes)
    : sprog (option (sockaddr_in * option heap_string)) :=
  match ctrl_path with
  | Some ctrl_path =>
      let* name := os_strdup ctrl_path in
      match name with
      | None => call (Close s);;; call (Free p);;; ret None
      | Some (np, name) =>
          match split_colon name with
          | Some (name, port) =>
              let* port_id := lift (atoi port) in resolve_host p s np dest name port_id
          | None => resolve_host p s np dest name WPA_CTRL_IFACE_PORT
          end
      end
  | None =>
      let* remote_ip := os_strdup (bs "localhost") in
      ret (Some (dest, remote_ip))
  end.

(** A request whose reply is kept: the string, the buffer and [len]. *)
Definition request_string (s : Z) (cookie : option bytes) (cmd : bytes) (buf : bytes) (len : Z)
    : sprog (option heap_string * bytes * Z) :=
  let* r := socket_request s cookie cmd buf len None in
  let '(r, buf, len) := r in
  if r =? 0 then
    let* buf := lift (store buf (Z.to_nat len) nul) in
    let* d := os_strdup (cstr buf) in
    ret (d, buf, len)
  else ret (None, buf, len).

(** The two requests that complete an opening; [buf] and [len] are shared. *)
Definition udp_strings (p s : Z) (dest : sockaddr_in) (remote_ip : option heap_string)
    : sprog (option udp_ctrl) :=
  let buf := zeros 128 in
  let len := 127 in
  let* r := request_string s None (bs "GET_COOKIE") buf len in
  let '(cookie, buf, len) := r in
  let* r := request_string s (snd <$> cookie) (bs "IFNAME") buf len in
  let '(remote_ifname, buf, len) := r in
  ret (Some (MkUdp p s dest cookie remote_ifname remote_ip)).

Definition udp_connect (p s : Z) (dest : sockaddr_in) (remote_ip : option heap_string)
    : sprog (option udp_ctrl) :=
  let* c := call (Connect s (sockaddr_of dest)) in
  match c with
  | SErr _ =>
      call (Stderr (bs "connect"));;; call (Close s);;;
      free_string remote_ip;;; call (Free p);;; ret None
  | SOk _ => udp_strings p s dest remote_ip
  end.

Definition udp_open (remote : bool) (ctrl_path : option bytes) : sprog (option udp_ctrl) :=
  let* p := call (Malloc SIZEOF_UDP_CTRL) in
  match p with
  | None => ret None
  | Some p =>
      let* s := call (Socket PF_INET) in
      match s with
      | SErr _ => call (Stderr (bs "socket"));;; call (Free p);;; ret None
      | SOk s =>
          let local := MkSin (htonl (if remote then INADDR_ANY else LOOPBACK)) 0 in
          let* b := call (Bind s (sockaddr_of local)) in
          match b with
          | SErr _ => call (Close s);;; call (Free p);;; ret None
          | SOk _ =>
              let dest := MkSin (htonl LOOPBACK) WPA_CTRL_IFACE_PORT in
              let* r := (if remote then resolve_remote p s dest ctrl_path
                         else ret (Some (dest, None))) in
              match r with
              | None => ret None
              | Some (dest, remote_ip) => udp_connect p s dest remote_ip
              end
          end
      end
  end.

Definition udp_close (ctrl : udp_ctrl) : sprog unit :=
  call (Close (u_s ctrl));;;
  free_string (u_cookie ctrl);;;
  free_string (u_remote_ifname ctrl);;;
  free_string (u_remote_ip ctrl);;;
  call (Free (u_ptr ctrl)).

Definition udp_request (ctrl : udp_ctrl) (cmd reply : bytes) (reply_len : Z)
    (msg_cb : msg_callback) : sprog (Z * bytes * Z) :=
  socket_request (u_s ctrl) (snd <$> u_cookie ctrl) cmd reply reply_len msg_cb.

Definition WPA_CTRL_MAX_PS_NAME : nat := 100.

(** The static buffer [ps]; a null string is undefined for [%s]. *)
Definition wpa_ctrl_get_remote_ifname (ps : bytes) (ctrl : udp_ctrl) : option bytes :=
  match u_remote_ip ctrl, u_remote_ifname ctrl with
  | Some (_, ip), Some (_, ifname) =>
      fst <$> snprintf ps WPA_CTRL_MAX_PS_NAME (ip ++ bs "/" ++ ifname)
  | _, _ => None
  end.

Definition udp_ptrs (c : udp_ctrl) : list Z :=
  u_ptr c :: string_ptr (u_cookie c) ++ string_ptr (u_remote_ifname c) ++ string_ptr (u_remote_ip c).

Section UdpResources.
Context {W : Type} `{K : !Kernel sysE W} `{!PosixKernel W}.

#[local] Hint Resolve emits_os_get_reltime emits_os_sleep : emits.

Lemma emits_send_cmd sock cmd : emits (W := W) no_resource (send_cmd sock cmd).
Proof. unfold send_cmd, retry_send, read_reltime. emits_step. Qed.

Lemma emits_recv_loop sock cap reply :
  emits (W := W) no_resource (loop (recv_reply sock cap None) reply).
Proof. unfold recv_reply. emits_step. Qed.

(** A request without callback keeps what it owns. *)
Lemma socket_request_keeps sock cookie cmd reply cap w s :
  (forall c, cookie = Some c -> nul_free c) ->
  wp Partly (socket_request sock cookie cmd reply cap None) keeps w s.
Proof.
  intros Hc. pose proof (emits_send_cmd sock) as H1.
  pose proof (emits_recv_loop sock cap reply) as H2.
  unfold socket_request. wp_step. destruct cookie as [c|].
  - wp_steps. destruct x as [p|]; wp_steps; [|done].
    rewrite cookie_cmd_result by auto. do 2 wp_step.
    wp_steps. eapply wp_mono; [apply H1|]. intros tr [ok|z|] s1 w1 Htr; repeat wp_leaf; [|done..].
    wp_steps. destruct ok.
    + eapply wp_mono; [apply H2|]. intros tr2 [r|z|] s3 w3 Htr2; [|done..]. wp_trace. cbn.
      apply no_resource_owned in Htr as [E1 E2], Htr2 as [E3 E4].
      cbn [app] in *. unfold owned. autorewrite with wpa. rewrite E1, E2, E3, E4.
      cbn. rewrite ?app_nil_r. split; [|done]. solve_Permutation.
    + wp_steps. wp_trace. cbn. apply no_resource_owned in Htr as [E1 E2]. cbn [app] in *.
      unfold owned. autorewrite with wpa. rewrite E1, E2. cbn. rewrite ?app_nil_r.
      split; [|done]. solve_Permutation.
  - wp_step. apply emits_keeps. emits_step.
Qed.

(** ** Opening *)

Lemma cstr_until b n : b !! n = Some nul -> cstr b = cstr (take n b).
Proof.
  revert n. induction b as [|c b IH]; intros [|n] Hn; cbn in *; [done..| |].
  - injection Hn as ->. by rewrite decide_True.
  - case_decide; [done|]. by rewrite (IH n).
Qed.

(** What is exchanged for one request: nothing, or the command goes out and
    messages come in, and after them the reply, if there is one. *)
Definition asked (cmd : bytes) (acts : list action) (reply : option bytes) : Prop :=
  match reply with
  | Some g => exists evs, Forall unsolicited evs /\ unsolicited g = false /\
      acts = Cmd cmd :: (Dgram <$> evs) ++ [Dgram g]
  | None => acts = [] \/ exists evs, Forall unsolicited evs /\ acts = Cmd cmd :: (Dgram <$> evs)
  end.

(** What a request for a string gives: the C string in the reply [g], and [len]
    the length of the reply. *)
Definition string_post (cookie : option bytes) (cmd : bytes) (cap : Z) (tr : sys_trace)
    (d : option heap_string) (len : Z) : Prop :=
  owned [] [] tr (string_ptr d) [] /\ connects tr = [] /\ 0 <= len <= cap /\
  exists g, asked (wire_cmd cookie cmd) (actions tr) g /\
    len = match g with Some g => Z.of_nat (length g) | None => cap end /\
    forall p t, d = Some (p, t) -> exists g', g = Some g' /\ t = cstr g'.

(** Calls that do not connect. *)
Definition connectless (ev : event sysE) : Prop := connect_of ev = [].

Lemma connectless_connects tr : Forall connectless tr -> connects tr = [].
Proof. induction 1 as [|ev tr E _ IH]; [done|]. autorewrite with wpa. by rewrite E, IH. Qed.

#[local] Hint Extern 1 (connectless _) => done : emits.

Lemma connectless_get_reltime t : emits (W := W) connectless (os_get_reltime t).
Proof. unfold os_get_reltime, get_reltime_body. emits_step. Qed.

Lemma connectless_sleep a b : emits (W := W) connectless (os_sleep a b).
Proof. unfold os_sleep. emits_step. Qed.
#[local] Hint Resolve connectless_get_reltime connectless_sleep : emits.

Lemma connectless_request sock cookie cmd buf cap :
  emits (W := W) connectless (request_string sock cookie cmd buf cap).
Proof.
  unfold request_string, socket_request, send_cmd, retry_send, read_reltime, recv_reply, FD_SET, os_strdup.
  emits_step.
Qed.

(** The exchange of a request without a callback. *)
Lemma request_asked cmd cap tr r reply len :
  request_post cmd cap (fun _ => []) tr r reply len ->
  exists g, asked cmd (actions tr) g /\
    (r = 0 -> exists d, g = Some d /\ len = Z.of_nat (length d) /\ len <= cap /\ take (length d) reply = d) /\
    (r <> 0 -> g = None /\ len = cap).
Proof.
  intros (_ & (evs & HF%event_messages_unsolicited & _ & Hr) & Hs). rewrite dropped_deliveries in Hr.
  destruct Hr as [(-> & d & Hrecv & Hu & Hlen & Hle & Hd & Ha)|(Hr & Hrecv & -> & Ha)].
  - destruct Hs as [Hs|[? _]]; [|done]. exists (Some d). rewrite Ha, Hs. split; [by exists evs|].
    split; [by eauto 6|done].
  - exists None. split; [|split; [by destruct Hr; subst r|done]]. rewrite Ha.
    destruct Hs as [-> |(_ & -> & Hrecv')]; [right; by exists evs|left]. by rewrite <- Hrecv, Hrecv'.
Qed.

Lemma wp_request_string sock cookie cmd buf cap (Q : post _) w s :
  0 <= cap < Z.of_nat (length buf) -> (forall c, cookie = Some c -> nul_free c) ->
  (in_fd_set sock = false -> forall tr s' w', Q tr Ub s' w') ->
  (forall tr d buf' len s' w', string_post cookie cmd cap tr d len -> length buf' = length buf ->
     Q tr (Val (d, buf', len)) s' w') ->
  wp Partly (request_string sock cookie cmd buf cap) Q w s.
Proof.
  intros Hcap Hc HU HQ. apply (wp_emits connectless); [apply connectless_request|].
  unfold request_string. wp_steps.
  eapply wp_mono; [apply wp_and; [by apply (socket_request_keeps sock cookie cmd buf cap)|]|].
  { apply (wp_socket_request None (fun _ => []) sock cookie cmd buf cap (fun tr o _ _ => match o with
      | Val (r, reply', len) => length reply' = length buf /\
          request_post (wire_cmd cookie cmd) cap (fun _ => []) tr r reply' len
      | Exit _ => False | Ub => in_fd_set sock = false end)); [lia|done|done|by auto|by intros []]. }
  intros tr [[[r reply'] len]|z|] s1 w1 [Hk Hr]; repeat wp_leaf; [|done|by intros; apply HU]. cbn in Hk.
  destruct Hr as [Hl (g & Hg & H0 & H1)%request_asked].
  destruct (Z.eqb_spec r 0) as [->|Hr0]; cycle 1.
  { wp_steps. wp_trace. intros He%connectless_connects. destruct (H1 Hr0) as [-> ->].
    apply HQ; [|done]. split; [done|]. split; [done|]. split; [lia|]. exists None. by split_and!. }
  destruct (H0 eq_refl) as (dg & -> & -> & Hle & Hd). clear H0 H1.
  rewrite Nat2Z.id, store_in by lia. wp_steps.
  apply wp_os_strdup. intros tr2 d w2 Hq Ho Hd2. repeat wp_leaf. wp_steps. wp_trace.
  intros He%connectless_connects. apply HQ; [|by rewrite length_insert].
  split; [by eapply owned_app|]. split; [done|]. split; [lia|]. exists (Some dg).
  autorewrite with wpa. rewrite (quiet_actions _ Hq), app_nil_r.
  split; [done|]. split; [done|]. intros p t Heq. exists dg. split; [done|].
  rewrite (Hd2 _ _ Heq), (cstr_until _ (length dg)) by (apply list_lookup_insert_eq; lia).
  by rewrite take_insert_ge, Hd by lia.
Qed.

(** The port of a remote path is a number that fits an [int]. *)
Definition port_defined (ctrl_path : option bytes) : Prop :=
  forall path name port, ctrl_path = Some path -> split_colon path = Some (name, port) ->
    is_Some (atoi port).

(** The port that a path names. *)
Definition path_port (ctrl_path : option bytes) : Z :=
  match path ← ctrl_path; '(_, port) ← split_colon path; atoi port with
  | Some n => n mod 65536
  | None => WPA_CTRL_IFACE_PORT
  end.

(** What the resolution leaves in hand, from the connection's block and socket:
    the address of [dest] is as it was. *)
Definition resolved (p fd : Z) (dest : sockaddr_in) (port : Z) (tr : sys_trace)
    (r : option (sockaddr_in * option heap_string)) : Prop :=
  quiet tr /\
  match r with
  | None => owned [p] [fd] tr [] []
  | Some (dest', ip) => owned [p] [fd] tr (p :: string_ptr ip) [fd] /\ dest' = MkSin (s_addr dest) port
  end.

Lemma wp_resolve_host m p fd np dest name n (Q : post _) w (s : statics) :
  length (s_addr dest) = 4%nat ->
  (forall tr r w', quiet tr -> owned [np; p] [fd] tr (match r with None => [] | Some (_, ip) => p :: string_ptr ip end)
       (match r with None => [] | Some _ => [fd] end) ->
     (forall dest' ip, r = Some (dest', ip) -> dest' = MkSin (s_addr dest) (n mod 65536)) -> Q tr (Val r) s w') ->
  wp m (resolve_host p fd np dest name n) Q w s.
Proof.
  intros Hl HQ. unfold resolve_host. wp_steps. apply wp_os_strdup.
  intros tr ip w1 Hq Ho _. repeat wp_leaf. wp_steps. destruct x as [a|].
  - pose proof (gethostbyname_ok _ _ _ _ Hk) as Ha. unfold copy_bytes.
    rewrite decide_True by (cbn [s_addr]; lia). cbn [s_addr].
    rewrite store_bytes_0 by (rewrite length_take; lia). wp_steps. wp_trace. apply HQ.
    + apply (quiet_app [_]); [done|]. by apply quiet_app.
    + own_trace.
    + by intros dest' ip' [= <- _].
  - wp_steps. apply wp_free_string. intros tr2 w5 Hq2 Ho2. repeat wp_leaf. wp_steps. wp_trace.
    apply HQ; [| |done].
    + apply (quiet_app [_]); [done|]. apply quiet_app; [done|].
      apply (quiet_app [_; _; _]); [done|]. by apply quiet_app.
    + own_trace.
Qed.

Lemma wp_resolve_remote m p fd dest path (Q : post _) w (s : statics) :
  port_defined path -> length (s_addr dest) = 4%nat -> sin_port dest = WPA_CTRL_IFACE_PORT ->
  (forall tr r w', resolved p fd dest (path_port path) tr r -> Q tr (Val r) s w') ->
  wp m (resolve_remote p fd dest path) Q w s.
Proof.
  intros Hport Hl Hp HQ. unfold resolve_remote. destruct path as [path|]; cycle 1.
  { wp_steps. apply wp_os_strdup. intros tr ip w1 Hq Ho _. repeat wp_leaf. wp_steps. wp_trace.
    apply HQ. split; [done|]. split; [own_trace|]. destruct dest; cbn in *; by rewrite Hp. }
  wp_steps. unfold os_strdup at 1. wp_steps. destruct x as [np|]; wp_steps; cycle 1.
  { wp_trace. apply HQ. split; [done|]. own_trace. }
  assert (forall name n w, n mod 65536 = path_port (Some path) -> wp m (resolve_host p fd np dest name n)
    (pre [Ev (Malloc (Z.of_nat (length path) + 1)) (Some np)] Q) w s) as Hhost.
  { intros name n w1 Hn. apply wp_resolve_host; [done|]. intros tr r w2 Hq Ho Hr. unfold pre.
    rewrite Hn in Hr. apply HQ. split; [by apply (quiet_app [_])|].
    assert (owned [p] [fd] [Ev (Malloc (Z.of_nat (length path) + 1)) (Some np)] [np; p] [fd])
      as Hm by (clear; own_trace).
    destruct r as [[dest' ip]|]; [split; [|by eapply Hr]|]; by apply (owned_app _ _ _ _ _ _ _ _ Hm Ho). }
  destruct (split_colon path) as [[name port]|] eqn:Hc.
  - destruct (Hport path name port eq_refl Hc) as [n Hn]. rewrite Hn. wp_steps. apply Hhost.
    unfold path_port. cbn. rewrite Hc. cbn. by rewrite Hn.
  - apply Hhost. unfold path_port. cbn. by rewrite Hc.
Qed.

(** The two requests of an opening: the cookie is the reply to GET_COOKIE, and the
    interface name the reply to IFNAME, which is sent with the cookie and whose
    length is at most that of the cookie's reply. *)
Definition udp_asked (c : udp_ctrl) (acts : list action) : Prop :=
  exists acts1 acts2 g1 g2, acts = acts1 ++ acts2 /\
    asked (bs "GET_COOKIE") acts1 g1 /\
    asked (wire_cmd (snd <$> u_cookie c) (bs "IFNAME")) acts2 g2 /\
    (forall p t, u_cookie c = Some (p, t) -> exists g, g1 = Some g /\ t = cstr g) /\
    (forall p t, u_remote_ifname c = Some (p, t) -> exists g, g2 = Some g /\ t = cstr g /\
       (length g <= match g1 with Some g => length g | None => 127 end)%nat).

(** What [wpa_ctrl_open] of the UDP build leaves behind: nothing after a failure,
    and the blocks and the socket of the connection after a success.  The socket
    has been connected once, to the loopback address whatever the path says. *)
Definition udp_open_post (remote : bool) (path : option bytes) (tr : sys_trace) (r : option udp_ctrl)
    : Prop :=
  match r with
  | None => owned [] [] tr [] []
  | Some c =>
      owned [] [] tr (udp_ptrs c) [u_s c] /\
      u_dest c = MkSin (htonl LOOPBACK) (if remote then path_port path else WPA_CTRL_IFACE_PORT) /\
      connects tr = [(u_s c, sockaddr_of (u_dest c))] /\
      udp_asked c (actions tr)
  end.

Lemma string_post_cookie cmd cap tr d len :
  string_post None cmd cap tr d len -> forall c, snd <$> d = Some c -> nul_free c.
Proof.
  intros (_ & _ & _ & g & _ & _ & Hd) c Hc. destruct d as [[p t]|]; [|done]. injection Hc as <-.
  destruct (Hd _ _ eq_refl) as (dg & _ & ->). apply cstr_nul_free.
Qed.

Lemma wp_udp_strings p fd dest ip (Q : post (option udp_ctrl)) w s :
  (in_fd_set fd = false -> forall tr s' w', Q tr Ub s' w') ->
  (forall tr c s' w', u_s c = fd -> u_dest c = dest ->
     owned (p :: string_ptr ip) [fd] tr (udp_ptrs c) [fd] -> connects tr = [] ->
     udp_asked c (actions tr) -> Q tr (Val (Some c)) s' w') ->
  wp Partly (udp_strings p fd dest ip) Q w s.
Proof.
  intros HU HQ. unfold udp_strings. wp_steps. apply wp_request_string; [by cbn|done|intros; by apply HU|].
  intros tr1 d1 buf1 len1 s1 w1 H1 Hb1. repeat wp_leaf.
  pose proof (string_post_cookie _ _ _ _ _ H1) as Hc.
  destruct H1 as (Ho1 & Hn1 & Hl1 & g1 & Hg1 & -> & Hd1).
  wp_steps. apply wp_request_string; [rewrite Hb1; cbn; lia|done|intros; by apply HU|].
  intros tr2 d2 buf2 len2 s2 w2 (Ho2 & Hn2 & Hl2 & g2 & Hg2 & Hlen2 & Hd2) Hb2.
  repeat wp_leaf. wp_steps. wp_trace.
  apply HQ; [done|done|unfold udp_ptrs; cbn; own_trace|autorewrite with wpa; by rewrite Hn1, Hn2|].
  autorewrite with wpa. exists (actions tr1), (actions tr2), g1, g2. cbn [u_cookie u_remote_ifname].
  split_and!; [done..|]. intros q t Heq. destruct (Hd2 q t Heq) as (g & -> & ->).
  exists g. split; [done|]. split; [done|]. destruct g1; lia.
Qed.

(** From the destination on. *)
Lemma wp_udp_connect p fd dest ip (Q : post (option udp_ctrl)) w s :
  (in_fd_set fd = false -> forall tr s' w', Q tr Ub s' w') ->
  (forall tr r s' w', match r with
     | None => owned (p :: string_ptr ip) [fd] tr [] []
     | Some c => owned (p :: string_ptr ip) [fd] tr (udp_ptrs c) [fd] /\ u_s c = fd /\ u_dest c = dest /\
         connects tr = [(fd, sockaddr_of dest)] /\ udp_asked c (actions tr)
     end -> Q tr (Val r) s' w') ->
  wp Partly (udp_connect p fd dest ip) Q w s.
Proof.
  intros HU HQ. unfold udp_connect. wp_steps. destruct x as [[]|e]; cycle 1.
  { wp_steps. apply wp_free_string. intros tr w4 _ Ho. repeat wp_leaf. wp_steps. wp_trace.
    apply HQ. own_trace. }
  apply wp_udp_strings; [intros; by apply HU|].
  intros tr c s' w' Hs Hd Ho Hn Hstr. wp_trace. apply HQ. split; [own_trace|].
  autorewrite with wpa. cbn. by rewrite Hn.
Qed.

Lemma connectless_resolve p fd dest path : emits (W := W) connectless (resolve_remote p fd dest path).
Proof. unfold resolve_remote, resolve_host, os_strdup, free_string. emits_step. Qed.

(** The destination of an opening. *)
Lemma wp_resolved (remote : bool) p fd path w (s : statics) :
  (remote -> port_defined path) ->
  let dest := MkSin (htonl LOOPBACK) WPA_CTRL_IFACE_PORT in
  wp Partly (if remote then resolve_remote p fd dest path else ret (Some (dest, None)))
    (fun tr o s' _ => s' = s /\ connects tr = [] /\ exists r, o = Val r /\
       resolved p fd dest (if remote then path_port path else WPA_CTRL_IFACE_PORT) tr r) w s.
Proof.
  intros Hport dest. destruct remote.
  - apply (wp_emits connectless); [apply connectless_resolve|].
    apply wp_resolve_remote; [by apply Hport|done|done|].
    intros tr r w' Hr He%connectless_connects. by eauto.
  - wp_steps. split; [done|]. split; [done|]. eexists. split; [done|]. split; [done|]. split; [own_trace|done].
Qed.

Lemma wp_udp_open (remote : bool) path (Q : post (option udp_ctrl)) w s :
  (remote -> port_defined path) ->
  (forall tr fd s' w', Ev (Socket PF_INET) (SOk fd) ∈ tr -> in_fd_set fd = false -> Q tr Ub s' w') ->
  (forall tr r s' w', udp_open_post remote path tr r -> Q tr (Val r) s' w') ->
  wp Partly (udp_open remote path) Q w s.
Proof.
  intros Hport HU HQ. unfold udp_open. wp_steps.
  destruct x as [p|]; [|wp_steps; by apply HQ]. wp_steps.
  destruct x as [fd|e]; [|wp_steps; apply HQ; unfold udp_open_post; own_trace]. wp_steps.
  destruct x as [[]|e]; [|wp_steps; wp_trace; apply HQ; unfold udp_open_post; own_trace]. wp_steps.
  eapply wp_mono; [by apply wp_resolved|]. intros tr o s3 w3 (-> & Hn & r & -> & Hq & Hr). repeat wp_leaf.
  set (local := sockaddr_of _).
  set (tr0 := [Ev (Malloc SIZEOF_UDP_CTRL) (Some p); Ev (Socket PF_INET) (SOk fd);
    Ev (Bind fd local) (SOk tt)]).
  assert (owned [] [] tr0 [p] [fd]) as Ho0 by (clear; unfold tr0; own_trace).
  destruct r as [[dest ip]|]; cycle 1.
  { wp_steps. wp_trace. apply HQ. by apply (owned_app _ _ _ _ _ _ _ _ Ho0 Hr). }
  destruct Hr as [Hr ->]. pose proof (owned_app _ _ _ _ _ _ _ _ Ho0 Hr) as Ho1.
  apply wp_udp_connect.
  - intros Hfd tr2 s4 w4. wp_trace. apply (HU _ fd); [|done]. rewrite !elem_of_cons. auto.
  - intros tr2 c s4 w4 Hc. wp_trace. apply HQ.
    change (udp_open_post remote path (tr0 ++ tr ++ tr2) c). rewrite app_assoc.
    destruct c as [c|]; [|by apply (owned_app _ _ _ _ _ _ _ _ Ho1 Hc)].
    destruct Hc as (Hc & Hs & Hd & Hcn & Hask). unfold udp_open_post. rewrite Hs, Hd. cbn [s_addr].
    split; [by apply (owned_app _ _ _ _ _ _ _ _ Ho1 Hc)|]. autorewrite with wpa.
    split; [done|]. rewrite Hn, Hcn, (quiet_actions tr Hq). by split.
Qed.


(** Closing a UDP connection releases every block of memory and the descriptor that
    opening it acquired, each once. *)
Theorem udp_open_close (remote : bool) path w s tr c s' w' :
  (remote -> port_defined path) ->
  exec w s (udp_open remote path) tr (Val (Some c)) s' w' ->
  exists tr' w'', exec w' s' (udp_close c) tr' (Val tt) s' w'' /\ owned [] [] (tr ++ tr') [] [].
Proof.
  intros Hport H.
  apply (wp_udp_open remote path (fun tr o _ _ => match o with
    | Val (Some c) => udp_open_post remote path tr (Some c) | _ => True end)) in H;
    [|done|done|by intros ? [] **].
  destruct H as (Ho & _).
  assert (wp Totally (udp_close c) (fun tr' o s'' _ => o = Val tt /\ s'' = s' /\
    owned (udp_ptrs c) [u_s c] tr' [] []) w' s') as (tr' & o & s'' & w'' & H & -> & -> & Hc).
  { unfold udp_close. wp_steps. apply wp_free_string. intros tr1 w1 _ O1. repeat wp_leaf. wp_steps.
    apply wp_free_string. intros tr2 w2 _ O2. repeat wp_leaf. wp_steps.
    apply wp_free_string. intros tr3 w3 _ O3. repeat wp_leaf. wp_steps. wp_trace.
    split; [done|]. split; [done|]. unfold udp_ptrs. own_trace. }
  exists tr', w''. split; [done|]. by eapply owned_app.
Qed.

(** A request over UDP puts the cookie and a space before the command on the wire,
    and otherwise satisfies the specification of requests. *)
Theorem udp_request_spec c (cb : msg_callback) (encode : bytes -> bytes) `{!MsgCallback cb encode}
    cmd reply cap w s tr o s' w' :
  0 <= cap <= Z.of_nat (length reply) -> (forall cookie, snd <$> u_cookie c = Some cookie -> nul_free cookie) ->
  exec w s (udp_request c cmd reply cap cb) tr o s' w' ->
  match o with
  | Val (r, reply', len) => length reply' = length reply /\
      request_post (wire_cmd (snd <$> u_cookie c) cmd) cap encode tr r reply' len
  | Exit _ => True
  | Ub => in_fd_set (u_s c) = false
  end.
Proof.
  intros Hcap Hc H. exec_wp H. unfold udp_request.
  apply (wp_socket_request _ encode); by auto.
Qed.
End UdpResources.

(** The name of the remote interface: the text, cut to 99 characters. *)
Lemma remote_ifname_spec ps c p ip q ifname :
  u_remote_ip c = Some (p, ip) -> u_remote_ifname c = Some (q, ifname) ->
  nul_free ip -> nul_free ifname -> length ps = WPA_CTRL_MAX_PS_NAME ->
  exists ps', wpa_ctrl_get_remote_ifname ps c = Some ps' /\
    cstr ps' = take 99 (ip ++ bs "/" ++ ifname) /\ length ps' = WPA_CTRL_MAX_PS_NAME.
Proof.
  intros Hip Hif Hn1 Hn2 Hl. unfold wpa_ctrl_get_remote_ifname, snprintf. rewrite Hip, Hif.
  rewrite decide_True by lia. rewrite decide_False by done. cbn [fmap option_fmap option_map fst].
  eexists. split; [done|].
  rewrite cstr_put_cstr by (repeat apply nul_free_app; try done; by repeat constructor).
  split; [done|]. rewrite length_put_cstr; [done|]. rewrite length_take. unfold WPA_CTRL_MAX_PS_NAME in *. lia.
Qed.
