(* ===== verification/Events.v ===== *)
(** * wpa_ctrl.h: event names and BSS masks

    The fixed prefixes of the messages of wpa_supplicant and hostapd, the masks
    of the BSS command and the port numbers.  A message is told apart by its
    prefix ([event_of]). *)

From S2P Require Export Bytes CtrlUdp.
Local Open Scope Z_scope.

(** ** Message prefixes *)

Definition WPA_CTRL_REQ : bytes := bs "CTRL-REQ-".
Definition WPA_CTRL_RSP : bytes := bs "CTRL-RSP-".
Definition WPA_EVENT_CONNECTED : bytes := bs "CTRL-EVENT-CONNECTED ".
Definition WPA_EVENT_DISCONNECTED : bytes := bs "CTRL-EVENT-DISCONNECTED ".
Definition WPA_EVENT_ASSOC_REJECT : bytes := bs "CTRL-EVENT-ASSOC-REJECT ".
Definition WPA_EVENT_TERMINATING : bytes := bs "CTRL-EVENT-TERMINATING ".
Definition WPA_EVENT_PASSWORD_CHANGED : bytes := bs "CTRL-EVENT-PASSWORD-CHANGED ".
Definition WPA_EVENT_EAP_NOTIFICATION : bytes := bs "CTRL-EVENT-EAP-NOTIFICATION ".
Definition WPA_EVENT_EAP_STARTED : bytes := bs "CTRL-EVENT-EAP-STARTED ".
Definition WPA_EVENT_EAP_PROPOSED_METHOD : bytes := bs "CTRL-EVENT-EAP-PROPOSED-METHOD ".
Definition WPA_EVENT_EAP_METHOD : bytes := bs "CTRL-EVENT-EAP-METHOD ".
Definition WPA_EVENT_EAP_PEER_CERT : bytes := bs "CTRL-EVENT-EAP-PEER-CERT ".
Definition WPA_EVENT_EAP_TLS_CERT_ERROR : bytes := bs "CTRL-EVENT-EAP-TLS-CERT-ERROR ".
Definition WPA_EVENT_EAP_STATUS : bytes := bs "CTRL-EVENT-EAP-STATUS ".
Definition WPA_EVENT_EAP_SUCCESS : bytes := bs "CTRL-EVENT-EAP-SUCCESS ".
Definition WPA_EVENT_EAP_FAILURE : bytes := bs "CTRL-EVENT-EAP-FAILURE ".
Definition WPA_EVENT_TEMP_DISABLED : bytes := bs "CTRL-EVENT-SSID-TEMP-DISABLED ".
Definition WPA_EVENT_REENABLED : bytes := bs "CTRL-EVENT-SSID-REENABLED ".
Definition WPA_EVENT_SCAN_STARTED : bytes := bs "CTRL-EVENT-SCAN-STARTED ".
Definition WPA_EVENT_SCAN_RESULTS : bytes := bs "CTRL-EVENT-SCAN-RESULTS ".
Definition WPA_EVENT_STATE_CHANGE : bytes := bs "CTRL-EVENT-STATE-CHANGE ".
Definition WPA_EVENT_BSS_ADDED : bytes := bs "CTRL-EVENT-BSS-ADDED ".
Definition WPA_EVENT_BSS_REMOVED : bytes := bs "CTRL-EVENT-BSS-REMOVED ".
Definition IBSS_RSN_COMPLETED : bytes := bs "IBSS-RSN-COMPLETED ".
Definition WPA_EVENT_FREQ_CONFLICT : bytes := bs "CTRL-EVENT-FREQ-CONFLICT ".
Definition WPA_EVENT_AVOID_FREQ : bytes := bs "CTRL-EVENT-AVOID-FREQ ".
Definition WPS_EVENT_OVERLAP : bytes := bs "WPS-OVERLAP-DETECTED ".
Definition WPS_EVENT_AP_AVAILABLE_PBC : bytes := bs "WPS-AP-AVAILABLE-PBC ".
Definition WPS_EVENT_AP_AVAILABLE_AUTH : bytes := bs "WPS-AP-AVAILABLE-AUTH ".
Definition WPS_EVENT_AP_AVAILABLE_PIN : bytes := bs "WPS-AP-AVAILABLE-PIN ".
Definition WPS_EVENT_AP_AVAILABLE : bytes := bs "WPS-AP-AVAILABLE ".
Definition WPS_EVENT_CRED_RECEIVED : bytes := bs "WPS-CRED-RECEIVED ".
Definition WPS_EVENT_M2D : bytes := bs "WPS-M2D ".
Definition WPS_EVENT_FAIL : bytes := bs "WPS-FAIL ".
Definition WPS_EVENT_SUCCESS : bytes := bs "WPS-SUCCESS ".
Definition WPS_EVENT_TIMEOUT : bytes := bs "WPS-TIMEOUT ".
Definition WPS_EVENT_ACTIVE : bytes := bs "WPS-PBC-ACTIVE ".
Definition WPS_EVENT_DISABLE : bytes := bs "WPS-PBC-DISABLE ".
Definition WPS_EVENT_ENROLLEE_SEEN : bytes := bs "WPS-ENROLLEE-SEEN ".
Definition WPS_EVENT_OPEN_NETWORK : bytes := bs "WPS-OPEN-NETWORK ".
Definition WPS_EVENT_ER_AP_ADD : bytes := bs "WPS-ER-AP-ADD ".
Definition WPS_EVENT_ER_AP_REMOVE : bytes := bs "WPS-ER-AP-REMOVE ".
Definition WPS_EVENT_ER_ENROLLEE_ADD : bytes := bs "WPS-ER-ENROLLEE-ADD ".
Definition WPS_EVENT_ER_ENROLLEE_REMOVE : bytes := bs "WPS-ER-ENROLLEE-REMOVE ".
Definition WPS_EVENT_ER_AP_SETTINGS : bytes := bs "WPS-ER-AP-SETTINGS ".
Definition WPS_EVENT_ER_SET_SEL_REG : bytes := bs "WPS-ER-AP-SET-SEL-REG ".
Definition P2P_EVENT_DEVICE_FOUND : bytes := bs "P2P-DEVICE-FOUND ".
Definition P2P_EVENT_DEVICE_LOST : bytes := bs "P2P-DEVICE-LOST ".
Definition P2P_EVENT_GO_NEG_REQUEST : bytes := bs "P2P-GO-NEG-REQUEST ".
Definition P2P_EVENT_GO_NEG_SUCCESS : bytes := bs "P2P-GO-NEG-SUCCESS ".
Definition P2P_EVENT_GO_NEG_FAILURE : bytes := bs "P2P-GO-NEG-FAILURE ".
Definition P2P_EVENT_GROUP_FORMATION_SUCCESS : bytes := bs "P2P-GROUP-FORMATION-SUCCESS ".
Definition P2P_EVENT_GROUP_FORMATION_FAILURE : bytes := bs "P2P-GROUP-FORMATION-FAILURE ".
Definition P2P_EVENT_GROUP_STARTED : bytes := bs "P2P-GROUP-STARTED ".
Definition P2P_EVENT_GROUP_REMOVED : bytes := bs "P2P-GROUP-REMOVED ".
Definition P2P_EVENT_CROSS_CONNECT_ENABLE : bytes := bs "P2P-CROSS-CONNECT-ENABLE ".
Definition P2P_EVENT_CROSS_CONNECT_DISABLE : bytes := bs "P2P-CROSS-CONNECT-DISABLE ".
Definition P2P_EVENT_PROV_DISC_SHOW_PIN : bytes := bs "P2P-PROV-DISC-SHOW-PIN ".
Definition P2P_EVENT_PROV_DISC_ENTER_PIN : bytes := bs "P2P-PROV-DISC-ENTER-PIN ".
Definition P2P_EVENT_PROV_DISC_PBC_REQ : bytes := bs "P2P-PROV-DISC-PBC-REQ ".
Definition P2P_EVENT_PROV_DISC_PBC_RESP : bytes := bs "P2P-PROV-DISC-PBC-RESP ".
Definition P2P_EVENT_PROV_DISC_FAILURE : bytes := bs "P2P-PROV-DISC-FAILURE".
Definition P2P_EVENT_SERV_DISC_REQ : bytes := bs "P2P-SERV-DISC-REQ ".
Definition P2P_EVENT_SERV_DISC_RESP : bytes := bs "P2P-SERV-DISC-RESP ".
Definition P2P_EVENT_INVITATION_RECEIVED : bytes := bs "P2P-INVITATION-RECEIVED ".
Definition P2P_EVENT_INVITATION_RESULT : bytes := bs "P2P-INVITATION-RESULT ".
Definition P2P_EVENT_FIND_STOPPED : bytes := bs "P2P-FIND-STOPPED ".
Definition P2P_EVENT_PERSISTENT_PSK_FAIL : bytes := bs "P2P-PERSISTENT-PSK-FAIL id=".
Definition P2P_EVENT_PRESENCE_RESPONSE : bytes := bs "P2P-PRESENCE-RESPONSE ".
Definition P2P_EVENT_NFC_BOTH_GO : bytes := bs "P2P-NFC-BOTH-GO ".
Definition P2P_EVENT_NFC_PEER_CLIENT : bytes := bs "P2P-NFC-PEER-CLIENT ".
Definition P2P_EVENT_NFC_WHILE_CLIENT : bytes := bs "P2P-NFC-WHILE-CLIENT ".
Definition ESS_DISASSOC_IMMINENT : bytes := bs "ESS-DISASSOC-IMMINENT ".
Definition P2P_EVENT_REMOVE_AND_REFORM_GROUP : bytes := bs "P2P-REMOVE-AND-REFORM-GROUP ".
Definition INTERWORKING_AP : bytes := bs "INTERWORKING-AP ".
Definition INTERWORKING_NO_MATCH : bytes := bs "INTERWORKING-NO-MATCH ".
Definition INTERWORKING_ALREADY_CONNECTED : bytes := bs "INTERWORKING-ALREADY-CONNECTED ".
Definition GAS_RESPONSE_INFO : bytes := bs "GAS-RESPONSE-INFO ".
Definition GAS_QUERY_START : bytes := bs "GAS-QUERY-START ".
Definition GAS_QUERY_DONE : bytes := bs "GAS-QUERY-DONE ".
Definition EXT_RADIO_WORK_START : bytes := bs "EXT-RADIO-WORK-START ".
Definition EXT_RADIO_WORK_TIMEOUT : bytes := bs "EXT-RADIO-WORK-TIMEOUT ".
Definition WPS_EVENT_PIN_NEEDED : bytes := bs "WPS-PIN-NEEDED ".
Definition WPS_EVENT_NEW_AP_SETTINGS : bytes := bs "WPS-NEW-AP-SETTINGS ".
Definition WPS_EVENT_REG_SUCCESS : bytes := bs "WPS-REG-SUCCESS ".
Definition WPS_EVENT_AP_SETUP_LOCKED : bytes := bs "WPS-AP-SETUP-LOCKED ".
Definition WPS_EVENT_AP_SETUP_UNLOCKED : bytes := bs "WPS-AP-SETUP-UNLOCKED ".
Definition WPS_EVENT_AP_PIN_ENABLED : bytes := bs "WPS-AP-PIN-ENABLED ".
Definition WPS_EVENT_AP_PIN_DISABLED : bytes := bs "WPS-AP-PIN-DISABLED ".
Definition AP_STA_CONNECTED : bytes := bs "AP-STA-CONNECTED ".
Definition AP_STA_DISCONNECTED : bytes := bs "AP-STA-DISCONNECTED ".
Definition AP_REJECTED_MAX_STA : bytes := bs "AP-REJECTED-MAX-STA ".
Definition AP_REJECTED_BLOCKED_STA : bytes := bs "AP-REJECTED-BLOCKED-STA ".
Definition AP_EVENT_ENABLED : bytes := bs "AP-ENABLED ".
Definition AP_EVENT_DISABLED : bytes := bs "AP-DISABLED ".
Definition ACS_EVENT_STARTED : bytes := bs "ACS-STARTED ".
Definition ACS_EVENT_COMPLETED : bytes := bs "ACS-COMPLETED ".
Definition ACS_EVENT_FAILED : bytes := bs "ACS-FAILED ".
Definition DFS_EVENT_RADAR_DETECTED : bytes := bs "DFS-RADAR-DETECTED ".
Definition DFS_EVENT_NEW_CHANNEL : bytes := bs "DFS-NEW-CHANNEL ".
Definition DFS_EVENT_CAC_START : bytes := bs "DFS-CAC-START ".
Definition DFS_EVENT_CAC_COMPLETED : bytes := bs "DFS-CAC-COMPLETED ".
Definition DFS_EVENT_NOP_FINISHED : bytes := bs "DFS-NOP-FINISHED ".
Definition AP_CSA_FINISHED : bytes := bs "AP-CSA-FINISHED ".

(** The events of the header, in its order. *)
Definition events : list bytes :=
  [WPA_EVENT_CONNECTED; WPA_EVENT_DISCONNECTED; WPA_EVENT_ASSOC_REJECT; WPA_EVENT_TERMINATING;
    WPA_EVENT_PASSWORD_CHANGED; WPA_EVENT_EAP_NOTIFICATION; WPA_EVENT_EAP_STARTED;
    WPA_EVENT_EAP_PROPOSED_METHOD; WPA_EVENT_EAP_METHOD; WPA_EVENT_EAP_PEER_CERT;
    WPA_EVENT_EAP_TLS_CERT_ERROR; WPA_EVENT_EAP_STATUS; WPA_EVENT_EAP_SUCCESS;
    WPA_EVENT_EAP_FAILURE; WPA_EVENT_TEMP_DISABLED; WPA_EVENT_REENABLED; WPA_EVENT_SCAN_STARTED;
    WPA_EVENT_SCAN_RESULTS; WPA_EVENT_STATE_CHANGE; WPA_EVENT_BSS_ADDED; WPA_EVENT_BSS_REMOVED;
    IBSS_RSN_COMPLETED; WPA_EVENT_FREQ_CONFLICT; WPA_EVENT_AVOID_FREQ; WPS_EVENT_OVERLAP;
    WPS_EVENT_AP_AVAILABLE_PBC; WPS_EVENT_AP_AVAILABLE_AUTH; WPS_EVENT_AP_AVAILABLE_PIN;
    WPS_EVENT_AP_AVAILABLE; WPS_EVENT_CRED_RECEIVED; WPS_EVENT_M2D; WPS_EVENT_FAIL;
    WPS_EVENT_SUCCESS; WPS_EVENT_TIMEOUT; WPS_EVENT_ACTIVE; WPS_EVENT_DISABLE;
    WPS_EVENT_ENROLLEE_SEEN; WPS_EVENT_OPEN_NETWORK; WPS_EVENT_ER_AP_ADD; WPS_EVENT_ER_AP_REMOVE;
    WPS_EVENT_ER_ENROLLEE_ADD; WPS_EVENT_ER_ENROLLEE_REMOVE; WPS_EVENT_ER_AP_SETTINGS;
    WPS_EVENT_ER_SET_SEL_REG; P2P_EVENT_DEVICE_FOUND; P2P_EVENT_DEVICE_LOST;
    P2P_EVENT_GO_NEG_REQUEST; P2P_EVENT_GO_NEG_SUCCESS; P2P_EVENT_GO_NEG_FAILURE;
    P2P_EVENT_GROUP_FORMATION_SUCCESS; P2P_EVENT_GROUP_FORMATION_FAILURE; P2P_EVENT_GROUP_STARTED;
    P2P_EVENT_GROUP_REMOVED; P2P_EVENT_CROSS_CONNECT_ENABLE; P2P_EVENT_CROSS_CONNECT_DISABLE;
    P2P_EVENT_PROV_DISC_SHOW_PIN; P2P_EVENT_PROV_DISC_ENTER_PIN; P2P_EVENT_PROV_DISC_PBC_REQ;
    P2P_EVENT_PROV_DISC_PBC_RESP; P2P_EVENT_PROV_DISC_FAILURE; P2P_EVENT_SERV_DISC_REQ;
    P2P_EVENT_SERV_DISC_RESP; P2P_EVENT_INVITATION_RECEIVED; P2P_EVENT_INVITATION_RESULT;
    P2P_EVENT_FIND_STOPPED; P2P_EVENT_PERSISTENT_PSK_FAIL; P2P_EVENT_PRESENCE_RESPONSE;
    P2P_EVENT_NFC_BOTH_GO; P2P_EVENT_NFC_PEER_CLIENT; P2P_EVENT_NFC_WHILE_CLIENT;
    ESS_DISASSOC_IMMINENT; P2P_EVENT_REMOVE_AND_REFORM_GROUP; INTERWORKING_AP;
    INTERWORKING_NO_MATCH; INTERWORKING_ALREADY_CONNECTED; GAS_RESPONSE_INFO; GAS_QUERY_START;
    GAS_QUERY_DONE; EXT_RADIO_WORK_START; EXT_RADIO_WORK_TIMEOUT; WPS_EVENT_PIN_NEEDED;
    WPS_EVENT_NEW_AP_SETTINGS; WPS_EVENT_REG_SUCCESS; WPS_EVENT_AP_SETUP_LOCKED;
    WPS_EVENT_AP_SETUP_UNLOCKED; WPS_EVENT_AP_PIN_ENABLED; WPS_EVENT_AP_PIN_DISABLED;
    AP_STA_CONNECTED; AP_STA_DISCONNECTED; AP_REJECTED_MAX_STA; AP_REJECTED_BLOCKED_STA;
    AP_EVENT_ENABLED; AP_EVENT_DISABLED; ACS_EVENT_STARTED; ACS_EVENT_COMPLETED; ACS_EVENT_FAILED;
    DFS_EVENT_RADAR_DETECTED; DFS_EVENT_NEW_CHANNEL; DFS_EVENT_CAC_START; DFS_EVENT_CAC_COMPLETED;
    DFS_EVENT_NOP_FINISHED; AP_CSA_FINISHED].

(** The prefixes of all messages: requests, responses and events. *)
Definition message_prefixes : list bytes := WPA_CTRL_REQ :: WPA_CTRL_RSP :: events.

(** ** BSS command information masks *)

Definition WPA_BSS_MASK_ALL : Z := 4294836223.
Definition WPA_BSS_MASK_ID : Z := BIT 0.
Definition WPA_BSS_MASK_BSSID : Z := BIT 1.
Definition WPA_BSS_MASK_FREQ : Z := BIT 2.
Definition WPA_BSS_MASK_BEACON_INT : Z := BIT 3.
Definition WPA_BSS_MASK_CAPABILITIES : Z := BIT 4.
Definition WPA_BSS_MASK_QUAL : Z := BIT 5.
Definition WPA_BSS_MASK_NOISE : Z := BIT 6.
Definition WPA_BSS_MASK_LEVEL : Z := BIT 7.
Definition WPA_BSS_MASK_TSF : Z := BIT 8.
Definition WPA_BSS_MASK_AGE : Z := BIT 9.
Definition WPA_BSS_MASK_IE : Z := BIT 10.
Definition WPA_BSS_MASK_FLAGS : Z := BIT 11.
Definition WPA_BSS_MASK_SSID : Z := BIT 12.
Definition WPA_BSS_MASK_WPS_SCAN : Z := BIT 13.
Definition WPA_BSS_MASK_P2P_SCAN : Z := BIT 14.
Definition WPA_BSS_MASK_INTERNETW : Z := BIT 15.
Definition WPA_BSS_MASK_WIFI_DISPLAY : Z := BIT 16.
Definition WPA_BSS_MASK_DELIM : Z := BIT 17.

Definition bss_masks : list Z :=
  [WPA_BSS_MASK_ID; WPA_BSS_MASK_BSSID; WPA_BSS_MASK_FREQ; WPA_BSS_MASK_BEACON_INT;
    WPA_BSS_MASK_CAPABILITIES; WPA_BSS_MASK_QUAL; WPA_BSS_MASK_NOISE; WPA_BSS_MASK_LEVEL;
    WPA_BSS_MASK_TSF; WPA_BSS_MASK_AGE; WPA_BSS_MASK_IE; WPA_BSS_MASK_FLAGS; WPA_BSS_MASK_SSID;
    WPA_BSS_MASK_WPS_SCAN; WPA_BSS_MASK_P2P_SCAN; WPA_BSS_MASK_INTERNETW;
    WPA_BSS_MASK_WIFI_DISPLAY; WPA_BSS_MASK_DELIM].

(** ** Ports of the UDP interface *)

Definition WPA_CTRL_IFACE_PORT_LIMIT : Z := 50.
Definition WPA_GLOBAL_CTRL_IFACE_PORT : Z := 9878.
Definition WPA_GLOBAL_CTRL_IFACE_PORT_LIMIT : Z := 20.

(** ** Telling messages apart *)

Definition starts_with (p text : bytes) : bool := bool_decide (take (length p) text = p).

(** The kind of a message: the first prefix that it starts with. *)
Definition event_of (text : bytes) : option bytes :=
  List.find (fun p => starts_with p text) message_prefixes.

Lemma starts_with_app p args : starts_with p (p ++ args) = true.
Proof. unfold starts_with. by rewrite take_app_length, bool_decide_eq_true_2. Qed.

(** Two prefixes of one text are comparable. *)
Lemma starts_with_comparable p q text :
  starts_with p text = true -> starts_with q text = true ->
  starts_with p q = true \/ starts_with q p = true.
Proof.
  unfold starts_with. rewrite !bool_decide_eq_true. intros Hp Hq.
  destruct (le_ge_dec (length p) (length q)); [left|right].
  - rewrite <- Hq at 1. rewrite take_take. by replace (length p `min` length q)%nat with (length p) by lia.
  - rewrite <- Hp at 1. rewrite take_take. by replace (length q `min` length p)%nat with (length q) by lia.
Qed.

(** The tests of all pairs of prefixes, by computation. *)
Definition prefix_free (l : list bytes) : bool :=
  forallb (fun p => forallb (fun q => implb (starts_with p q) (bool_decide (p = q))) l) l.

Lemma message_prefixes_free p q :
  p ∈ message_prefixes -> q ∈ message_prefixes -> starts_with p q = true -> p = q.
Proof.
  assert (prefix_free message_prefixes = true) as Hf by (vm_compute; reflexivity).
  intros Hp Hq Hs. unfold prefix_free in Hf. rewrite forallb_forall in Hf.
  apply list_elem_of_In, Hf in Hp. rewrite forallb_forall in Hp.
  apply list_elem_of_In, Hp in Hq. rewrite Hs in Hq. by apply bool_decide_eq_true in Hq.
Qed.

(** The event names of the header tell messages apart: a message that starts with
    one of them starts with no other, so that its event is determined; and none of them
    looks like an unsolicited message by itself, so that the level in angle brackets
    before it is needed. *)
Theorem event_names p args :
  p ∈ message_prefixes ->
  event_of (p ++ args) = Some p /\ unsolicited (p ++ args) = false /\
  forall q, q ∈ message_prefixes -> starts_with q (p ++ args) = true -> q = p.
Proof.
  intros Hp.
  assert (forall q, q ∈ message_prefixes -> starts_with q (p ++ args) = true -> q = p) as Huniq.
  { intros q Hq Hs. destruct (starts_with_comparable q p (p ++ args)) as [Hqp|Hpq];
      [done|apply starts_with_app|..]; [|symmetry]; by apply message_prefixes_free. }
  split; [|split; [|done]].
  - unfold event_of. destruct (List.find _ _) as [q|] eqn:Hfind.
    + apply List.find_some in Hfind as [Hq%list_elem_of_In Hs]. f_equal. by apply Huniq.
    + apply list_elem_of_In in Hp. pose proof (List.find_none _ _ Hfind p Hp) as Hn.
      cbn in Hn. by rewrite starts_with_app in Hn.
  - assert (forallb (fun p => match p with c :: _ => negb (bool_decide (c = langle)) | [] => false end)
      message_prefixes = true) as Hc by (vm_compute; reflexivity).
    rewrite forallb_forall in Hc. apply list_elem_of_In, Hc in Hp. destruct p as [|c p]; [done|].
    cbn. by apply negb_true_iff in Hp.
Qed.

(** ** Masks and ports *)

(** The masks are the bits 0 to 17, and the mask of everything has all bits of
    an [unsigned int] but the one of the delimiter. *)
Lemma bss_masks_bits :
  bss_masks = (fun n => 2 ^ Z.of_nat n) <$> seq 0 18 /\
  forall m, m ∈ bss_masks -> Z.land WPA_BSS_MASK_ALL m = if decide (m = WPA_BSS_MASK_DELIM) then 0 else m.
Proof.
  split; [by vm_compute|]. apply Forall_forall. by repeat constructor.
Qed.

(** The ports of interfaces count down and those of global interfaces up, so
    that the two ranges do not meet. *)
Lemma ports_disjoint i j :
  0 <= i < WPA_CTRL_IFACE_PORT_LIMIT -> 0 <= j < WPA_GLOBAL_CTRL_IFACE_PORT_LIMIT ->
  WPA_CTRL_IFACE_PORT - i < WPA_GLOBAL_CTRL_IFACE_PORT + j.
Proof. unfold WPA_CTRL_IFACE_PORT, WPA_GLOBAL_CTRL_IFACE_PORT. lia. Qed.
