(* ===== verification/CtrlCleanup.v ===== *)
(** * wpa_ctrl.c: wpa_ctrl_cleanup

    The removal of the client sockets that earlier runs have left behind, in the
    Android configuration of the UNIX build; [cleanup_run] is the specification of
    a run. *)

From S2P Require Export OsStr CtrlOpen.
Local Open Scope Z_scope.
Local Open Scope prog_scope.

Definition PATH_MAX : nat := 4096.

(** One pass of the loop: the state is [pathname], of which [namep] points to
    the byte [dirnamelen]. *)
Definition cleanup_pass (dir : Z) (dirnamelen : nat) (pathname : bytes) : sprog (bytes + unit) :=
  let maxcopy := (PATH_MAX - dirnamelen)%nat in
  let* result := call (Readdir dir) in
  match result with
  | None => ret (inr tt)
  | Some d_name =>
      let* r := lift (os_strlcpy (drop dirnamelen pathname) (d_name ++ [nul]) maxcopy) in
      let pathname := take dirnamelen pathname ++ fst r in
      (if (snd r <? maxcopy)%nat then call (Unlink (cstr pathname));;; ret tt else ret tt);;;
      ret (inl pathname)
  end.

(** [pathname] is the array with its initial contents. *)
Definition wpa_ctrl_cleanup (pathname : bytes) : sprog unit :=
  let* dir := call (Opendir CONFIG_CTRL_IFACE_CLIENT_DIR) in
  match dir with
  | None => ret tt
  | Some dir =>
      let* r := lift (snprintf pathname PATH_MAX (CONFIG_CTRL_IFACE_CLIENT_DIR ++ bs "/")) in
      let '(pathname, dirnamelen) := r in
      if Z.of_nat PATH_MAX <=? dirnamelen then call (Closedir dir)
      else
        loop (cleanup_pass dir (Z.to_nat dirnamelen)) pathname;;;
        call (Closedir dir)
  end.

(** ** Specification *)

Definition dir_prefix : bytes := CONFIG_CTRL_IFACE_CLIENT_DIR ++ bs "/".

(** The path of an entry fits the buffer. *)
Definition path_fits (name : bytes) : Prop := (length dir_prefix + length name < PATH_MAX)%nat.

(** The run of the loop over a listing: each entry is removed as soon as it has
    been read when its path fits, whatever it is, and the loop goes on until
    [readdir_r] gives no more entry, at the end of the directory or for an error. *)
Inductive cleared (dir : Z) : list bytes -> sys_trace -> Prop :=
| cleared_end : cleared dir [] [Ev (Readdir dir) None]
| cleared_entry name r names tr :
    path_fits name -> cleared dir names tr ->
    cleared dir (name :: names) (Ev (Readdir dir) (Some name) :: Ev (Unlink (dir_prefix ++ name)) r :: tr)
| cleared_long name names tr :
    ~ path_fits name -> cleared dir names tr ->
    cleared dir (name :: names) (Ev (Readdir dir) (Some name) :: tr).

(** A clean-up: the directory cannot be opened, or it is, is cleared and is closed. *)
Definition cleanup_run (tr : sys_trace) : Prop :=
  tr = [Ev (Opendir CONFIG_CTRL_IFACE_CLIENT_DIR) None] \/
  exists dir names body, cleared dir names body /\
    tr = Ev (Opendir CONFIG_CTRL_IFACE_CLIENT_DIR) (Some dir) :: body ++ [Ev (Closedir dir) tt].

(** A directory with finitely many entries: each one that is listed is listed
    once, and no removal adds one. *)
Class FiniteDir (W : Type) `{K : !Kernel sysE W} (left : W -> nat) : Prop := {
  readdir_left : forall w d n w', kstep (Readdir d) w = (Some n, w') -> (left w' < left w)%nat;
  unlink_left : forall w p r w', kstep (Unlink p) w = (r, w') -> (left w' <= left w)%nat
}.

Section Cleanup.
Context {W : Type} `{K : !Kernel sysE W} `{!PosixKernel W}.

(** The array between two passes: the directory is in front. *)
Definition path_ok (pathname : bytes) : Prop :=
  length pathname = PATH_MAX /\ take (length dir_prefix) pathname = dir_prefix.

Lemma length_dir_prefix : length dir_prefix = 5%nat.
Proof. done. Qed.

Lemma dir_prefix_nul_free : nul_free dir_prefix.
Proof. by repeat constructor. Qed.

(** The name is put behind the directory, cut off to the room there is. *)
Lemma path_copy pathname name :
  path_ok pathname -> nul_free name ->
  exists tail, os_strlcpy (drop 5 pathname) (name ++ [nul]) (PATH_MAX - 5) = Some (tail, length name) /\
    path_ok (dir_prefix ++ tail) /\
    ((length name < PATH_MAX - 5)%nat -> cstr (dir_prefix ++ tail) = dir_prefix ++ name).
Proof.
  intros [Hl Ht] Hn. unfold PATH_MAX in *.
  assert (length (drop 5 pathname) = 4091)%nat as Hd by (rewrite length_drop; lia).
  rewrite os_strlcpy_result by (done || lia). rewrite decide_False by lia.
  change (4096 - 5 - 1)%nat with 4090%nat. eexists. split; [done|].
  assert (length (take 4090 name) < 4091)%nat as Htn by (rewrite length_take; lia).
  split; [split|].
  - rewrite length_app, length_put_cstr, length_dir_prefix by lia. unfold PATH_MAX. lia.
  - by apply take_app_length.
  - intros Hs. unfold put_cstr. rewrite take_ge by lia. rewrite app_assoc.
    apply cstr_app. apply nul_free_app; [apply dir_prefix_nul_free|done].
Qed.

Lemma path_fits_room name : path_fits name <-> (length name < PATH_MAX - 5)%nat.
Proof. unfold path_fits. rewrite length_dir_prefix. generalize PATH_MAX. intros m. lia. Qed.

Context {left : W -> nat} `{!FiniteDir W left}.

(** One pass: the end of the directory, or one name that is dealt with. *)
Lemma wp_cleanup_pass dir pathname (Q : post (bytes + unit)) w (s : statics) :
  path_ok pathname ->
  (forall w', Q [Ev (Readdir dir) None] (Val (inr tt)) s w') ->
  (forall name tr pathname' w',
     (forall names tr', cleared dir names tr' -> cleared dir (name :: names) (tr ++ tr')) ->
     path_ok pathname' -> (left w' < left w)%nat -> Q tr (Val (inl pathname')) s w') ->
  wp Totally (cleanup_pass dir 5 pathname) Q w s.
Proof.
  intros Hp HQ HR. unfold cleanup_pass. wp_steps. destruct x as [name|]; wp_steps; [|apply HQ].
  pose proof (readdir_ok _ _ _ _ Hk) as Hn. pose proof (readdir_left _ _ _ _ Hk) as Hleft.
  destruct (path_copy pathname name Hp Hn) as (tail & -> & Hp' & Hc). wp_steps. cbn [fst snd].
  assert (take 5 pathname = dir_prefix) as -> by apply Hp. pose proof (path_fits_room name) as Hroom.
  destruct (Nat.ltb_spec (length name) (PATH_MAX - 5)) as [Hs|Hs]; wp_steps; (apply (HR name); [|done|]).
  - intros names tr' Hcl. rewrite Hc by done. apply cleared_entry; [by apply Hroom|done].
  - pose proof (unlink_left _ _ _ _ Hk0). lia.
  - intros names tr' Hcl. apply cleared_long; [rewrite Hroom; unfold PATH_MAX in *; lia|done].
  - done.
Qed.

Lemma wp_cleanup_loop dir pathname (Q : post unit) w (s : statics) :
  path_ok pathname ->
  (forall names tr w', cleared dir names tr -> Q tr (Val tt) s w') ->
  wp Totally (loop (cleanup_pass dir 5) pathname) Q w s.
Proof.
  remember (left w) as n eqn:Hn. revert w Hn pathname Q.
  induction (lt_wf n) as [n _ IH]. intros w -> pathname Q Hp HQ. apply wp_loop_unfold.
  apply wp_cleanup_pass; [done|intros; apply (HQ []); constructor|].
  intros name tr pathname' w' Hc Hp' Hlt.
  apply (IH _ Hlt w' eq_refl _ _ Hp'). intros names tr2 w2 Hc2. by apply (HQ (name :: names)), Hc.
Qed.

(** C27: In a directory of finitely many entries the clean-up ends: it goes through the
    listing until readdir_r gives no more entry, at the end of the directory or for an
    error, removes each entry whose path fits the buffer as soon as it has been read, by
    the path of that entry, skips the others, closes the directory and makes no other
    call; the entries are not restricted to the sockets of this library. A directory
    that cannot be opened is left alone. *)
Theorem wpa_ctrl_cleanup_spec pathname w (s : statics) :
  length pathname = PATH_MAX ->
  exists tr w', exec w s (wpa_ctrl_cleanup pathname) tr (Val tt) s w' /\ cleanup_run tr.
Proof.
  intros Hl. assert (wp Totally (wpa_ctrl_cleanup pathname) (fun tr o s' _ => o = Val tt /\ s' = s /\
    cleanup_run tr) w s) as (tr & o & s' & w' & H & -> & -> & Hc); [|by eauto].
  unfold wpa_ctrl_cleanup. wp_steps. destruct x as [dir|]; wp_steps; [|split_and!; [done..|by left]].
  unfold snprintf. rewrite decide_True by (unfold PATH_MAX in *; lia). rewrite decide_False by done.
  wp_steps. change (Z.of_nat PATH_MAX <=? Z.of_nat (length (CONFIG_CTRL_IFACE_CLIENT_DIR ++ bs "/")))
    with false. cbn [negb]. wp_steps. change (Z.to_nat _) with 5%nat.
  apply wp_cleanup_loop.
  { split; [|by apply take_app_length]. rewrite length_put_cstr; [done|].
    rewrite length_take. unfold PATH_MAX in *. cbn. lia. }
  intros names body w2 Hb. repeat wp_leaf. wp_steps. wp_trace. split_and!; [done..|].
  right. by exists dir, names, body.
Qed.
End Cleanup.
