(* ===== verification/CtrlPipe.v ===== *)
(** * wpa_ctrl.c: control connections over Windows named pipes

    The named-pipe build of the library ([CONFIG_CTRL_IFACE_NAMED_PIPE]), with
    and without [UNICODE].  The Windows calls are an event type of their own,
    [winE]; the program monad and its rules are those of the other builds.  With
    [UNICODE] a name is an array of 16-bit units, which the calls get as they
    are; how [%S] converts a path to such units depends on the locale and is a
    parameter, [widen]. *)

From S2P Require Export OsStr Prog.
Local Open Scope Z_scope.
Local Open Scope prog_scope.

(** ** Strings of TCHAR *)

Inductive tstring : Type := Narrow (s : bytes) | Wide (s : list Z).

(** The contents of a wide C string at the start of an array. *)
Fixpoint wcstr (b : list Z) : list Z :=
  match b with
  | [] => []
  | c :: b => if decide (c = 0) then [] else c :: wcstr b
  end.

Definition tcstr (b : tstring) : tstring :=
  match b with Narrow b => Narrow (cstr b) | Wide b => Wide (wcstr b) end.

Definition tlength (b : tstring) : nat :=
  match b with Narrow b => length b | Wide b => length b end.

(** A literal [L"..."] of ASCII characters. *)
Definition wide (s : bytes) : list Z := byte.unsigned <$> s.

(** [_snwprintf(buf, count, ...)] whose formatted text is [text], [None] if a
    conversion fails.  A text of [count] units is stored without a terminator;
    a longer one is cut off and the result is negative. *)
Definition _snwprintf (buf : list Z) (count : nat) (text : option (list Z)) : option (list Z * Z) :=
  if decide (count <= length buf)%nat then
    Some match text with
         | None => (buf, -1)
         | Some t =>
             if decide (length t < count)%nat then
               (t ++ 0 :: drop (S (length t)) buf, Z.of_nat (length t))
             else
               (take count t ++ drop count buf,
                if decide (length t = count) then Z.of_nat count else -1)
         end
  else None.

(** ** The calls *)

Inductive winE : Type -> Type :=
| WMalloc (size : Z) : winE (option Z)
| WFree (p : Z) : winE unit
| CreateFile (name : tstring) : winE Z
| GetLastError : winE Z
| WaitNamedPipe (name : tstring) (timeout : Z) : winE bool
| SetNamedPipeHandleState (h mode : Z) : winE bool
| CloseHandle (h : Z) : winE unit
| WriteFile (h : Z) (data : bytes) : winE (option Z)
| ReadFile (h : Z) (len : Z) : winE (option bytes)
| PeekNamedPipe (h : Z) : winE (option Z).

Abbreviation wprog := (prog winE unit).

Definition INVALID_HANDLE_VALUE : Z := -1.
Definition ERROR_PIPE_BUSY : Z := 231.
Definition PIPE_READMODE_MESSAGE : Z := 2.
Definition SIZEOF_PIPE_CTRL : Z := 8.

(** [\\.\pipe\] and [WPA_SUPPLICANT_NAMED_PIPE]. *)
Definition NAMED_PIPE_PREFIX : bytes := bs "\\.\pipe\WpaSupplicant".

Record pipe_ctrl : Type := MkPipe { p_ptr : Z; p_pipe : Z }.

(** One attempt to open the pipe; the state is [i] and the handle so far. *)
Definition create_pass (name : tstring) (st : Z * Z) : wprog (Z * Z + Z) :=
  let '(i, pipe) := st in
  if i <? 10 then
    let* pipe := call (CreateFile name) in
    if negb (pipe =? INVALID_HANDLE_VALUE) then ret (inr pipe)
    else
      let* e := call GetLastError in
      if negb (e =? ERROR_PIPE_BUSY) then ret (inr pipe)
      else call (WaitNamedPipe name 1000);;; ret (inl (i + 1, pipe))
  else ret (inr pipe).

Section Open.
Context (widen : bytes -> option (list Z)) (UNICODE : bool).

(** The array [name], which is not initialised in C, after the formatting, and
    the result of the formatting. *)
Definition pipe_text (ctrl_path : option bytes) : option (tstring * Z) :=
  if UNICODE then
    let text :=
      match ctrl_path with
      | None => Some (wide NAMED_PIPE_PREFIX)
      | Some ctrl_path => (fun t => wide NAMED_PIPE_PREFIX ++ wide (bs "-") ++ t) <$> widen ctrl_path
      end in
    prod_map Wide id <$> _snwprintf (replicate 256 0) 256 text
  else
    let text :=
      match ctrl_path with
      | None => NAMED_PIPE_PREFIX
      | Some ctrl_path => NAMED_PIPE_PREFIX ++ bs "-" ++ ctrl_path
      end in
    prod_map Narrow id <$> snprintf (zeros 256) 256 text.

Definition pipe_open (ctrl_path : option bytes) : wprog (option pipe_ctrl) :=
  let* p := call (WMalloc SIZEOF_PIPE_CTRL) in
  match p with
  | None => ret None
  | Some p =>
      let* r := lift (pipe_text ctrl_path) in
      let '(name, ret_) := r in
      if (ret_ <? 0) || (256 <=? ret_) then call (WFree p);;; ret None
      else
        let* pipe := loop (create_pass (tcstr name)) (0, 0) in
        if pipe =? INVALID_HANDLE_VALUE then call (WFree p);;; ret None
        else
          let* ok := call (SetNamedPipeHandleState pipe PIPE_READMODE_MESSAGE) in
          if negb ok then call (CloseHandle pipe);;; call (WFree p);;; ret None
          else ret (Some (MkPipe p pipe))
  end.

End Open.

Definition pipe_close (ctrl : pipe_ctrl) : wprog unit :=
  call (CloseHandle (p_pipe ctrl));;; call (WFree (p_ptr ctrl)).

Definition pipe_request (ctrl : pipe_ctrl) (cmd reply : bytes) (reply_len : Z)
    : wprog (Z * bytes * Z) :=
  let* w := call (WriteFile (p_pipe ctrl) cmd) in
  match w with
  | None => ret (-1, reply, reply_len)
  | Some _ =>
      let* r := call (ReadFile (p_pipe ctrl) reply_len) in
      match r with
      | None => ret (-1, reply, reply_len)
      | Some d =>
          let* reply := lift (store_bytes reply 0 d) in
          ret (0, reply, Z.of_nat (length d))
      end
  end.

Definition pipe_recv (ctrl : pipe_ctrl) (reply : bytes) (reply_len : Z) : wprog (Z * bytes * Z) :=
  let* r := call (ReadFile (p_pipe ctrl) reply_len) in
  match r with
  | None => ret (-1, reply, reply_len)
  | Some d =>
      let* reply := lift (store_bytes reply 0 d) in
      ret (0, reply, Z.of_nat (length d))
  end.

Definition pipe_pending (ctrl : pipe_ctrl) : wprog Z :=
  let* r := call (PeekNamedPipe (p_pipe ctrl)) in
  match r with
  | None => ret (-1)
  | Some n => ret (if n =? 0 then 0 else 1)
  end.

Definition pipe_get_fd (ctrl : pipe_ctrl) : Z := -1.

(** ** Specification *)

(** [ReadFile] delivers at most what it is asked for, and [CreateFile] does not
    answer the null handle. *)
Class WindowsKernel (W : Type) `{K : !Kernel winE W} : Prop := {
  readfile_bound : forall w h n d w',
    kstep (ReadFile h n) w = (Some d, w') -> 0 <= n -> Z.of_nat (length d) <= n
}.

(** What a failed opening must not leave behind: the block and the handles that
    the trace still holds. *)
Inductive win_resource : Type := WMem (p : Z) | WHandle (h : Z).

Definition win_hold (ev : event winE) (h : list win_resource) : list win_resource :=
  let '@Ev _ X e x := ev in
  match e in winE X return X -> list win_resource with
  | WMalloc _ => fun r => match r with Some p => WMem p :: h | None => h end
  | CreateFile _ => fun r => if r =? INVALID_HANDLE_VALUE then h else WHandle r :: h
  | _ => fun _ => h
  end x.

(** Blocks and handles acquired, and those given back, along a trace. *)
Definition acquired (tr : trace winE) : list win_resource := foldr win_hold [] tr.

Definition win_give (ev : event winE) (h : list win_resource) : list win_resource :=
  let '@Ev _ X e _ := ev in
  match e with
  | WFree p => WMem p :: h
  | CloseHandle p => WHandle p :: h
  | _ => h
  end.

Definition given_back (tr : trace winE) : list win_resource := foldr win_give [] tr.

(** The names that have been opened, or tried, and the name of a path. *)
Definition win_create (ev : event winE) (l : list tstring) : list tstring :=
  let '@Ev _ X e _ := ev in match e with CreateFile name => name :: l | _ => l end.

Definition creates (tr : trace winE) : list tstring := foldr win_create [] tr.

(** [None]: the path cannot be converted. *)
Definition pipe_name (widen : bytes -> option (list Z)) (UNICODE : bool) (path : option bytes)
    : option tstring :=
  match path with
  | None => Some (if UNICODE then Wide (wide NAMED_PIPE_PREFIX) else Narrow NAMED_PIPE_PREFIX)
  | Some path =>
      if UNICODE then
        (fun t => Wide (wide (NAMED_PIPE_PREFIX ++ bs "-") ++ t)) <$> widen path
      else Some (Narrow (NAMED_PIPE_PREFIX ++ bs "-" ++ path))
  end.

Lemma acquired_app tr1 tr2 : acquired (tr1 ++ tr2) = acquired tr1 ++ acquired tr2.
Proof.
  induction tr1 as [|[X e x] tr1 IH]; [done|]. cbn. unfold acquired in *. rewrite IH.
  destruct e; cbn; try done; [by destruct x|by destruct (_ =? _)].
Qed.

Lemma given_back_app tr1 tr2 : given_back (tr1 ++ tr2) = given_back tr1 ++ given_back tr2.
Proof.
  induction tr1 as [|[X e x] tr1 IH]; [done|]. cbn. unfold given_back in *. rewrite IH.
  destruct e; cbn; done.
Qed.

Lemma creates_app tr1 tr2 : creates (tr1 ++ tr2) = creates tr1 ++ creates tr2.
Proof.
  induction tr1 as [|[X e x] tr1 IH]; [done|]. cbn. unfold creates in *. rewrite IH.
  by destruct e.
Qed.

Section Pipes.
Context {W : Type} `{K : !Kernel winE W} `{!WindowsKernel W}.

(** The attempts: at most [n] of them, all for the same name. *)
Definition attempts (n : nat) (name : tstring) (tr : trace winE) : Prop :=
  exists k, (k <= n)%nat /\ creates tr = replicate k name.

Lemma attempts_S n name tr1 tr2 :
  creates tr1 = [name] -> attempts n name tr2 -> attempts (S n) name (tr1 ++ tr2).
Proof.
  intros H1 (k & Hk & H2). exists (S k). split; [lia|]. by rewrite creates_app, H1, H2.
Qed.

(** Only the last one can have opened the pipe. *)
Lemma wp_create_pipe m name (Q : post Z) w s :
  (forall tr h w', attempts 10 name tr -> given_back tr = [] ->
     acquired tr = (if h =? INVALID_HANDLE_VALUE then [] else [WHandle h]) -> Q tr (Val h) s w') ->
  wp m (loop (create_pass name) (0, 0)) Q w s.
Proof.
  enough (forall n i pipe (Q : post Z) w s, i = 10 - Z.of_nat n -> (n < 10 -> pipe = INVALID_HANDLE_VALUE)%nat ->
    (forall tr h w', attempts n name tr -> given_back tr = [] ->
       acquired tr = (if h =? INVALID_HANDLE_VALUE then [] else [WHandle h]) -> Q tr (Val h) s w') ->
    wp m (loop (create_pass name) (i, pipe)) Q w s) as Hloop.
  { intros HQ. by apply (Hloop 10%nat); [|lia|]. }
  clear. induction n as [|n IH]; intros i pipe Q w s Hi Hp HQ; apply wp_loop_unfold; unfold create_pass.
  - destruct (Z.ltb_spec i 10); [lia|]. wp_steps. apply HQ; [by exists 0%nat|done|]. by rewrite Hp by lia.
  - destruct (Z.ltb_spec i 10); [|lia]. wp_steps.
    assert (attempts n name []) as Hnil by (exists 0%nat; split; [lia|done]).
    destruct (Z.eqb_spec x INVALID_HANDLE_VALUE) as [->|Hx]; cbn [negb]; wp_steps; cycle 1.
    { apply HQ; [by apply (attempts_S n name [_] [])|done|]. cbn. by rewrite (proj2 (Z.eqb_neq _ _) Hx). }
    destruct (Z.eqb_spec x ERROR_PIPE_BUSY); cbn [negb]; wp_steps.
    + apply IH; [lia|done|]. intros tr h w' Hc Hg Ha. unfold pre. apply HQ.
      * by apply (attempts_S n name [_; _; _]).
      * by rewrite given_back_app, Hg.
      * by rewrite acquired_app, Ha.
    + apply HQ; [by apply (attempts_S n name [_; _] [])|done|done].
Qed.

Section Opening.
Context (widen : bytes -> option (list Z)) (UNICODE : bool).
Implicit Types path : option bytes.

(** What an opening leaves: its block and its handle, or nothing; the pipe is
    that of the path, if it has a name and the name fits. *)
Definition pipe_open_post path (tr : trace winE) (r : option pipe_ctrl) : Prop :=
  match pipe_name widen UNICODE path with
  | Some name => attempts 10 name tr /\ ((256 <= tlength name)%nat -> r = None /\ creates tr = [])
  | None => r = None /\ creates tr = []
  end /\
  match r with
  | Some c => given_back tr = [] /\ acquired tr = [WMem (p_ptr c); WHandle (p_pipe c)] /\
      creates tr <> []
  | None => acquired tr ≡ₚ given_back tr
  end.

(** [buf] and [r] after formatting [name]: it is stored whole exactly if the test
    of the result lets it pass. *)
Definition formatted (name buf : tstring) (r : Z) : Prop :=
  if decide (tlength name < 256)%nat
  then tcstr buf = name /\ ((r <? 0) || (256 <=? r)) = false
  else ((r <? 0) || (256 <=? r)) = true.

Lemma snprintf_formatted t :
  nul_free t -> exists buf r, snprintf (zeros 256) 256 t = Some (buf, r) /\
    formatted (Narrow t) (Narrow buf) r.
Proof.
  intros Ht. unfold snprintf. rewrite decide_True by (cbn; lia). rewrite decide_False by done.
  do 2 eexists. split; [done|]. unfold formatted. cbn [tlength tcstr]. case_decide; [split|].
  - rewrite cstr_put_cstr, take_ge by first [done|lia]. done.
  - lia.
  - lia.
Qed.

Lemma wcstr_app t junk : Forall (fun c => c <> 0) t -> wcstr (t ++ 0 :: junk) = t.
Proof.
  induction 1 as [|c t Hc _ IH]; cbn; [done|]. rewrite decide_False by done. by rewrite IH.
Qed.

Lemma snwprintf_formatted t :
  Forall (fun c => c <> 0) t -> exists buf r, _snwprintf (replicate 256 0) 256 (Some t) = Some (buf, r) /\
    formatted (Wide t) (Wide buf) r.
Proof.
  intros Ht. unfold _snwprintf. rewrite decide_True by (rewrite length_replicate; lia).
  unfold formatted. cbn [tlength tcstr]. destruct (decide (length t < 256)%nat).
  - do 2 eexists. split; [done|]. rewrite wcstr_app by done. split; [done|lia].
  - do 2 eexists. split; [done|]. by case_decide.
Qed.

Lemma pipe_text_name path :
  (forall p, path = Some p -> nul_free p) ->
  (forall s t, nul_free s -> widen s = Some t -> Forall (fun c => c <> 0) t) ->
  exists buf r, pipe_text widen UNICODE path = Some (buf, r) /\
    match pipe_name widen UNICODE path with
    | Some name => formatted name buf r
    | None => ((r <? 0) || (256 <=? r)) = true
    end.
Proof.
  intros Hp Hw. unfold pipe_text, pipe_name.
  assert (forall t, Forall (fun c => c <> 0) t -> exists buf r,
    prod_map Wide id <$> _snwprintf (replicate 256 0) 256 (Some t) = Some (buf, r) /\
    formatted (Wide t) buf r) as HW.
  { intros t (buf & r & -> & H)%snwprintf_formatted. by do 2 eexists. }
  assert (forall t, nul_free t -> exists buf r,
    prod_map Narrow id <$> snprintf (zeros 256) 256 t = Some (buf, r) /\
    formatted (Narrow t) buf r) as HN.
  { intros t (buf & r & -> & H)%snprintf_formatted. by do 2 eexists. }
  destruct path as [p|], UNICODE; [| |apply HW; by repeat constructor|apply HN; by repeat constructor].
  - destruct (widen p) as [t|] eqn:Ht; cbn [fmap option_fmap option_map]; [|by do 2 eexists].
    unfold wide in *. rewrite fmap_app, <- app_assoc. apply HW.
    apply Forall_app_2; [by repeat constructor|]. apply Forall_app_2; [by repeat constructor|].
    by eapply Hw; [apply Hp|].
  - apply HN. apply nul_free_app; [by repeat constructor|].
    apply nul_free_app; [by repeat constructor|by apply Hp].
Qed.

(** A failure before the first attempt. *)
Lemma pipe_open_none path tr :
  creates tr = [] -> acquired tr ≡ₚ given_back tr -> pipe_open_post path tr None.
Proof.
  intros Hc Ha. split; [|done]. destruct (pipe_name _ _ _); [|done].
  split; [exists 0%nat; split; [lia|done]|done].
Qed.

Lemma acquired_creates tr h : WHandle h ∈ acquired tr -> creates tr <> [].
Proof.
  induction tr as [|[X e x] tr IH]; cbn; [by intros ?%elem_of_nil|].
  fold (acquired tr) (creates tr). destruct e; cbn; auto.
  destruct x; [|done]. rewrite elem_of_cons. naive_solver.
Qed.

(** What the calls after the attempts leave. *)
Lemma pipe_open_end path name p tr h tr' r :
  pipe_name widen UNICODE path = Some name -> (tlength name < 256)%nat ->
  attempts 10 name tr -> given_back tr = [] -> creates tr' = [] ->
  match r with
  | Some c => given_back tr' = [] /\ [WMem p] ++ acquired tr = [WMem (p_ptr c); WHandle (p_pipe c)] /\
      acquired tr' = [] /\ creates tr <> []
  | None => WMem p :: acquired tr ++ acquired tr' ≡ₚ given_back tr'
  end ->
  pipe_open_post path ([Ev (WMalloc h) (Some p)] ++ tr ++ tr') r.
Proof.
  intros Hn Hl Hc Hg Hc' Hr. unfold pipe_open_post, attempts in *. rewrite Hn.
  rewrite !creates_app, !acquired_app, !given_back_app, Hc', Hg, app_nil_r. split; [split; [exact Hc|lia]|].
  destruct r as [c|]; [|exact Hr]. destruct Hr as (-> & Hr & -> & Hne).
  rewrite !app_nil_r. by split_and!.
Qed.

Lemma wp_pipe_open m path (Q : post (option pipe_ctrl)) w s :
  (forall p, path = Some p -> nul_free p) ->
  (forall s t, nul_free s -> widen s = Some t -> Forall (fun c => c <> 0) t) ->
  (forall tr r w', pipe_open_post path tr r -> Q tr (Val r) s w') ->
  wp m (pipe_open widen UNICODE path) Q w s.
Proof.
  intros Hp Hw HQ. unfold pipe_open. wp_steps.
  destruct x as [p|]; wp_steps; [|apply HQ; by apply pipe_open_none].
  destruct (pipe_text_name path Hp Hw) as (buf & r & -> & Hname). wp_steps.
  destruct (pipe_name widen UNICODE path) as [name|] eqn:Hn; cycle 1.
  { rewrite Hname. wp_steps. apply HQ. by apply pipe_open_none. }
  unfold formatted in Hname. destruct (decide (tlength name < 256)%nat) as [Hl|]; cycle 1.
  { rewrite Hname. wp_steps. apply HQ. by apply pipe_open_none. }
  destruct Hname as [-> ->]. wp_steps.
  apply wp_create_pipe. intros tr h w1 Hc Hg Ha. repeat wp_leaf.
  pose proof (fun tr' r => pipe_open_end path name p tr SIZEOF_PIPE_CTRL tr' r Hn Hl Hc Hg) as Hend.
  destruct (Z.eqb_spec h INVALID_HANDLE_VALUE) as [->|Hh]; wp_steps.
  { wp_trace. apply HQ, Hend; [done|]. by rewrite Ha. }
  assert (creates tr <> []) as Hne by (apply (acquired_creates tr h); rewrite Ha; by constructor).
  destruct x as [|]; cbn [negb]; wp_steps; wp_trace; apply HQ, Hend; try done.
  - rewrite Ha. by split_and!.
  - rewrite Ha. cbn. apply Permutation_swap.
Qed.

(** C26: Opening a named pipe always ends, after at most ten attempts, all of them for
    the name of the path; it answers a connection that holds its block and its handle,
    or gives back what it acquired; a name that does not fit, or that cannot be
    converted to wide characters, is refused before any attempt. Both with UNICODE and
    without it. *)
Theorem pipe_open_spec path w s :
  (forall p, path = Some p -> nul_free p) ->
  (forall s t, nul_free s -> widen s = Some t -> Forall (fun c => c <> 0) t) ->
  exists tr r w', exec w s (pipe_open widen UNICODE path) tr (Val r) s w' /\ pipe_open_post path tr r.
Proof.
  intros Hp Hw. assert (wp Totally (pipe_open widen UNICODE path) (fun tr o s' _ => s' = s /\
    exists r, o = Val r /\ pipe_open_post path tr r) w s) as (tr & o & s' & w' & H & -> & r & -> & Hr);
    [apply wp_pipe_open; eauto|by eauto].
Qed.

End Opening.

(** A request over a named pipe writes the command and stores at most the capacity
    of the reply, with its length, or fails and leaves the length and the reply as they
    were. *)
Theorem pipe_request_spec c cmd reply cap w s :
  0 <= cap <= Z.of_nat (length reply) ->
  exists tr r reply' len w',
    exec w s (pipe_request c cmd reply cap) tr (Val (r, reply', len)) s w' /\
    length reply' = length reply /\
    ((r = 0 /\ exists n d, tr = [Ev (WriteFile (p_pipe c) cmd) (Some n);
        Ev (ReadFile (p_pipe c) cap) (Some d)] /\
        len = Z.of_nat (length d) /\ len <= cap /\ take (length d) reply' = d) \/
     (r = -1 /\ reply' = reply /\ len = cap)).
Proof.
  intros Hcap.
  assert (wp Totally (pipe_request c cmd reply cap) (fun tr o s' _ => s' = s /\ exists r reply' len,
    o = Val (r, reply', len) /\ length reply' = length reply /\
    ((r = 0 /\ exists n d, tr = [Ev (WriteFile (p_pipe c) cmd) (Some n);
        Ev (ReadFile (p_pipe c) cap) (Some d)] /\
        len = Z.of_nat (length d) /\ len <= cap /\ take (length d) reply' = d) \/
     (r = -1 /\ reply' = reply /\ len = cap))) w s)
    as (tr & o & s' & w' & H & -> & r & reply' & len & -> & Hr); [|by eauto 8].
  unfold pipe_request. wp_steps. destruct x as [n|]; wp_steps; cycle 1.
  { split; [done|]. do 3 eexists. split; [done|]. split; [done|]. by right. }
  destruct x as [d|]; wp_steps; cycle 1.
  { split; [done|]. do 3 eexists. split; [done|]. split; [done|]. by right. }
  pose proof (readfile_bound _ _ _ _ _ Hk0 ltac:(lia)). rewrite store_bytes_0 by lia. wp_steps.
  split; [done|]. do 3 eexists. split; [done|]. split; [rewrite length_app, length_drop; lia|].
  left. split; [done|]. exists n, d. split_and!; [done|done|lia|apply take_app_length].
Qed.
End Pipes.
