(* ===== verification/OsFile.v ===== *)
(** * os_unix.c: paths, files, processes; os.h: arrays

    [os_rel2abs_path], [os_readfile], [os_get_random], [os_daemonize] with
    [os_daemonize_terminate] and the [os_daemon] of the Apple build, and the
    allocation of arrays ([os_zalloc], [os_calloc], [os_realloc_array]).  Which
    contents a stream has is an interface, [FileKernel]. *)

From S2P Require Export Owned OsStr.
Local Open Scope Z_scope.
Local Open Scope prog_scope.

(** ** os_rel2abs_path *)

(** One pass of the loop: the state is [len], the result the buffer that holds
    the current directory, or [None] to give up. *)
Definition getcwd_pass (len : Z) : sprog (Z + option (Z * bytes)) :=
  let* buf := call (Malloc len) in
  match buf with
  | None => ret (inr None)
  | Some p =>
      let* cwd := call (Getcwd len) in
      match cwd with
      | SErr last_errno =>
          call (Free p);;;
          if negb (bool_decide (last_errno = ERANGE)) then ret (inr None)
          else
            let len := len * 2 in
            if 2000 <? len then ret (inr None) else ret (inl len)
      | SOk cwd =>
          let* buf := lift (store_bytes (zeros (Z.to_nat len)) 0 (cwd ++ [nul])) in
          let* buf := lift (store buf (Z.to_nat (len - 1)) nul) in
          ret (inr (Some (p, buf)))
      end
  end.

(** The contents of the new string: directory, slash, path and NUL. *)
Definition join_path (cwd rel_path : bytes) : option bytes :=
  let cwd_len := length cwd in
  let rel_len := length rel_path in
  let ret_len := (cwd_len + 1 + rel_len + 1)%nat in
  b ← store_bytes (zeros ret_len) 0 cwd;
  b ← store b cwd_len Byte.x2f;
  b ← store_bytes b (cwd_len + 1) rel_path;
  store b (ret_len - 1) nul.

(** The argument is the contents of the string; the result an allocated object. *)
Definition os_rel2abs_path (rel_path : option bytes) : sprog (option heap_string) :=
  match rel_path with
  | None => ret None
  | Some rel_path =>
      if bool_decide (head (rel_path ++ [nul]) = Some Byte.x2f) then
        let* d := os_strdup rel_path in
        ret (match d with Some (p, s) => Some (p, s ++ [nul]) | None => None end)
      else
        let* cwd := loop getcwd_pass 128 in
        match cwd with
        | None => ret None
        | Some (bp, buf) =>
            let cwd := cstr buf in
            let* rp := call (Malloc (Z.of_nat (length cwd + 1 + length rel_path + 1))) in
            match rp with
            | Some rp =>
                let* b := lift (join_path cwd rel_path) in
                call (Free bp);;; ret (Some (rp, b))
            | None => call (Free bp);;; ret None
            end
        end
  end.

(** ** os_readfile and os_get_random *)

(** [len] is the contents of [*len]; the answer is the buffer and the new contents. *)
Definition os_readfile (name : bytes) (len : Z) : sprog (option heap_string * Z) :=
  let* f := call (Fopen name (bs "rb")) in
  match f with
  | None => ret (None, len)
  | Some f =>
      let* e := call (FseekEnd f) in
      let* pos := (match e with
        | SErr _ => ret None
        | SOk _ =>
            let* pos := call (Ftell f) in
            ret (match pos with SOk pos => Some pos | SErr _ => None end)
        end) in
      match pos with
      | None => call (Fclose f);;; ret (None, len)
      | Some len =>
          let* e := call (FseekSet f) in
          match e with
          | SErr _ => call (Fclose f);;; ret (None, len)
          | SOk _ =>
              let* buf := call (Malloc len) in
              match buf with
              | None => call (Fclose f);;; ret (None, len)
              | Some p =>
                  let* d := call (Fread f len) in
                  if negb (Z.of_nat (length d) =? len) then
                    call (Fclose f);;; call (Free p);;; ret (None, len)
                  else call (Fclose f);;; ret (Some (p, d), len)
              end
          end
      end
  end.

(** [buf] is an object of at least [len] bytes. *)
Definition os_get_random (buf : bytes) (len : Z) : sprog (Z * bytes) :=
  let* f := call (Fopen (bs "/dev/urandom") (bs "rb")) in
  match f with
  | None => call (Stdout (bs "Could not open /dev/urandom." ++ [newline]));;; ret (-1, buf)
  | Some f =>
      let* d := call (Fread f len) in
      let* buf := lift (store_bytes buf 0 d) in
      call (Fclose f);;;
      ret (if negb (Z.of_nat (length d) =? len) then -1 else 0, buf)
  end.

(** ** os_daemonize *)

(** The Apple build's replacement for [daemon]. *)
Definition os_daemon : sprog Z :=
  let* c := call (Chdir (bs "/")) in
  match c with
  | SErr _ => ret (-1)
  | SOk _ =>
      let* devnull := call (Open (bs "/dev/null")) in
      match devnull with
      | SErr _ => ret (-1)
      | SOk devnull =>
          let* r0 := call (Dup2 devnull 0) in
          match r0 with
          | SErr _ => call (Close devnull);;; ret (-1)
          | SOk _ =>
              let* r1 := call (Dup2 devnull 1) in
              match r1 with
              | SErr _ => call (Close devnull);;; ret (-1)
              | SOk _ =>
                  let* r2 := call (Dup2 devnull 2) in
                  match r2 with
                  | SErr _ => call (Close devnull);;; ret (-1)
                  | SOk _ => ret 0
                  end
              end
          end
      end
  end.

(** Writing the process id: the text that [%u] gives for the [int]. *)
Definition dec_uint (z : Z) : bytes := digits 10 (z mod 2 ^ 32) [].

Definition os_daemonize (apple : bool) (pid_file : option bytes) : sprog Z :=
  let* d := (if apple then os_daemon
             else let* r := call Daemon in ret (match r with SOk _ => 0 | SErr _ => -1 end)) in
  if negb (d =? 0) then call (Stderr (bs "daemon"));;; ret (-1)
  else
    (match pid_file with
     | Some pid_file =>
         let* f := call (Fopen pid_file (bs "w")) in
         match f with
         | Some f =>
             let* pid := call Getpid in
             call (Fprintf f (dec_uint pid ++ [newline]));;; call (Fclose f)
         | None => ret tt
         end
     | None => ret tt
     end);;;
    ret 0.

Definition os_daemonize_terminate (pid_file : option bytes) : sprog unit :=
  match pid_file with
  | Some pid_file => call (Unlink pid_file);;; ret tt
  | None => ret tt
  end.

(** ** Arrays *)

(** [~(size_t) 0]. *)
Definition SIZE_MAX : Z := 2 ^ 64 - 1.

Definition os_zalloc (size : Z) : sprog (option Z) := call (Calloc 1 size).

Definition os_calloc (nmemb size : Z) : sprog (option Z) :=
  if negb (size =? 0) && (SIZE_MAX / size <? nmemb) then ret None
  else os_zalloc ((nmemb * size) mod 2 ^ 64).

Definition os_realloc_array (ptr : option Z) (nmemb size : Z) : sprog (option Z) :=
  if negb (size =? 0) && (SIZE_MAX / size <? nmemb) then ret None
  else call (Realloc ptr ((nmemb * size) mod 2 ^ 64)).

(** ** Properties *)

Lemma join_path_spec cwd rel :
  join_path cwd rel = Some (cwd ++ Byte.x2f :: rel ++ [nul]).
Proof.
  unfold join_path. set (n := (length cwd + 1 + length rel + 1)%nat).
  assert (length (zeros n) = n) as Hz by apply length_replicate.
  rewrite store_bytes_0 by lia. cbn [mbind option_bind].
  assert (drop (length cwd) (zeros n) = nul :: zeros (length rel + 1)) as ->.
  { unfold zeros. rewrite drop_replicate. replace (n - length cwd)%nat with (S (length rel + 1)) by lia.
    done. }
  rewrite store_app. cbn [mbind option_bind]. unfold store_bytes, zeros.
  rewrite decide_True by (rewrite length_app, length_cons, length_replicate; lia). cbn [mbind option_bind].
  assert (cwd ++ Byte.x2f :: replicate (length rel + 1) nul =
    (cwd ++ [Byte.x2f]) ++ replicate (length rel) nul ++ [nul]) as ->.
  { rewrite <- !app_assoc. cbn [app]. do 2 f_equal. by rewrite replicate_add. }
  assert (length (cwd ++ [Byte.x2f]) = length cwd + 1)%nat as Hc by (rewrite length_app; done).
  assert (drop (length cwd + 1 + length rel)
    ((cwd ++ [Byte.x2f]) ++ replicate (length rel) nul ++ [nul]) = [nul]) as ->
    by (rewrite app_assoc; apply drop_app_length'; rewrite length_app, length_replicate; lia).
  rewrite take_app_length' by lia. rewrite app_assoc. replace (n - 1)%nat with (length ((cwd ++ [Byte.x2f]) ++ rel))
    by (rewrite length_app; lia).
  rewrite store_app. by rewrite <- !app_assoc.
Qed.

Section Files.
Context {W : Type} `{K : !Kernel sysE W} `{!PosixKernel W}.

(** What an operation gives: a block of memory with its contents, or nothing. *)
Definition keeps_string (tr : sys_trace) (d : option heap_string) : Prop :=
  owned [] [] tr (string_ptr d) [].

Definition getcwd_of (ev : event sysE) : list bytes :=
  let '@Ev _ X e x := ev in
  match e in sysE X return X -> list bytes with
  | Getcwd _ => fun r => match r with SOk d => [d] | SErr _ => [] end
  | _ => fun _ => []
  end x.

(** The directories that [getcwd] has answered. *)
Abbreviation cwds := (observe_with getcwd_of).

Lemma getcwd_buffer len cwd :
  nul_free cwd -> Z.of_nat (length cwd) < len ->
  exists buf, store_bytes (zeros (Z.to_nat len)) 0 (cwd ++ [nul]) = Some buf /\
    exists buf', store buf (Z.to_nat (len - 1)) nul = Some buf' /\ cstr buf' = cwd.
Proof.
  intros Hn Hl. assert (length (zeros (Z.to_nat len)) = Z.to_nat len) as Hz by apply length_replicate.
  rewrite store_bytes_0 by (rewrite length_app; cbn; lia). eexists. split; [done|].
  set (rest := drop _ _). rewrite store_in by
    (unfold rest; rewrite !length_app, length_drop; cbn; rewrite ?length_app; cbn; lia).
  eexists. split; [done|]. rewrite <- app_assoc. cbn [app].
  destruct (decide (Z.to_nat (len - 1) = length cwd)) as [He|He].
  - rewrite He, insert_app_r_alt, Nat.sub_diag by lia. by apply cstr_app.
  - rewrite insert_app_r_alt by lia.
    destruct (Z.to_nat (len - 1) - length cwd)%nat eqn:Hk; [lia|]. by apply cstr_app.
Qed.

(** A buffer that holds the current directory, or none. *)
Definition cwd_post (tr : sys_trace) (r : option heap_string) : Prop :=
  keeps_string tr r /\
  (forall p buf, r = Some (p, buf) -> cwds tr = [cstr buf] /\ nul_free (cstr buf)).

(** One pass: an answer, or a buffer twice as large. *)
Lemma wp_getcwd_pass m len (Q : post (Z + option (Z * bytes))) w (s : statics) :
  0 < len ->
  (forall tr r w', cwd_post tr r -> Q tr (Val (inr r)) s w') ->
  (forall tr w', keeps_string tr None -> cwds tr = [] -> len * 2 <= 2000 ->
     Q tr (Val (inl (len * 2))) s w') ->
  wp m (getcwd_pass len) Q w s.
Proof.
  intros Hpos HQ HR. unfold getcwd_pass, keeps_string in *. wp_steps.
  destruct x as [p|]; wp_steps; [|by apply HQ].
  destruct x as [cwd|e]; wp_steps.
  - destruct (getcwd_ok _ _ _ _ Hk0) as [Hn Hl].
    destruct (getcwd_buffer len cwd Hn Hl) as (buf & -> & buf' & Hst & Hc). wp_steps.
    rewrite Hst. wp_steps. apply HQ. split; [done|]. intros p' b [= <- <-]. by rewrite Hc.
  - destruct (bool_decide (e = ERANGE)); cbn [negb]; wp_steps.
    + destruct (Z.ltb_spec 2000 (len * 2)); wp_steps; [apply HQ|apply HR; [|done|lia]];
        [split; [|done]|]; unfold keeps_string; own_trace.
    + apply HQ. split; [|done]. unfold keeps_string. own_trace.
Qed.

(** The current directory is found with at most four buffers, or given up. *)
Lemma wp_getcwd m (Q : post (option (Z * bytes))) w (s : statics) :
  (forall tr r w', cwd_post tr r -> Q tr (Val r) s w') ->
  wp m (loop getcwd_pass 128) Q w s.
Proof.
  enough (forall n len (Q : post (option (Z * bytes))) w, 0 < len -> 2000 < len * 2 ^ Z.of_nat n ->
    (forall tr r w', cwd_post tr r -> Q tr (Val r) s w') ->
    wp m (loop getcwd_pass len) Q w s) as Hloop.
  { intros HQ. by apply (Hloop 4%nat). }
  clear Q w. induction n as [|n IH]; intros len Q w Hpos Hlen HQ; apply wp_loop_unfold.
  - apply wp_getcwd_pass; [done|exact HQ|]. intros. cbn in Hlen. lia.
  - apply wp_getcwd_pass; [done|exact HQ|]. intros tr w' Hk Hc Hle.
    rewrite Nat2Z.inj_succ, Z.pow_succ_r in Hlen by lia.
    apply IH; [lia|lia|]. intros tr2 r w2 [Hk2 Hr]. unfold pre. apply HQ.
    split; [by eapply owned_app|]. intros p buf Hb. autorewrite with wpa. rewrite Hc. by eapply Hr.
Qed.

(** An absolute path is copied, any other one is put behind the current
    directory. *)
Definition rel2abs_post (rel : bytes) (tr : sys_trace) (r : option heap_string) : Prop :=
  keeps_string tr r /\
  forall p b, r = Some (p, b) ->
    (head rel = Some Byte.x2f /\ b = rel ++ [nul]) \/
    (head rel <> Some Byte.x2f /\ exists cwd, cwds tr = [cwd] /\ b = cwd ++ Byte.x2f :: rel ++ [nul]).

Lemma wp_os_rel2abs_path m rel (Q : post (option heap_string)) w (s : statics) :
  (forall tr r w', rel2abs_post rel tr r -> Q tr (Val r) s w') ->
  wp m (os_rel2abs_path (Some rel)) Q w s.
Proof.
  intros HQ. unfold os_rel2abs_path.
  assert (head (rel ++ [nul]) = Some Byte.x2f <-> head rel = Some Byte.x2f) as Hhead
    by (by destruct rel).
  case_bool_decide as Habs; rewrite Hhead in Habs; wp_steps.
  - apply wp_os_strdup. intros tr d w1 _ Ho Hd. repeat wp_leaf. wp_steps. wp_trace. apply HQ.
    destruct d as [[p b]|]; (split; [done|]); [|done]. intros p' b' [= <- <-]. left.
    by rewrite (Hd _ _ eq_refl).
  - apply wp_getcwd. intros tr r w1 [Ho Hr]. repeat wp_leaf.
    destruct r as [[bp buf]|]; wp_steps; cycle 1.
    { wp_trace. apply HQ. by split. }
    destruct (Hr _ _ eq_refl) as [Hc Hn]. destruct x as [rp|]; wp_steps.
    + rewrite join_path_spec. wp_steps. wp_trace. apply HQ. unfold rel2abs_post, keeps_string in *.
      split; [own_trace|]. intros p b [= <- <-]. right. split; [done|]. exists (cstr buf).
      autorewrite with wpa. by rewrite Hc.
    + wp_trace. apply HQ. unfold rel2abs_post, keeps_string in *. split; [own_trace|done].
Qed.

(** An absolute path is copied and any other path is put behind the current
    directory and a slash, NUL-terminated in a block of its own; the search for a large
    enough buffer ends; a failure leaves no memory behind. *)
Theorem os_rel2abs_path_spec rel w s :
  exists tr r w', exec w s (os_rel2abs_path (Some rel)) tr (Val r) s w' /\ rel2abs_post rel tr r.
Proof.
  apply exec_total, wp_os_rel2abs_path. eauto.
Qed.

Definition fread_of (ev : event sysE) : list bytes :=
  let '@Ev _ X e x := ev in
  match e in sysE X return X -> list bytes with Fread _ _ => fun d => [d] | _ => fun _ => [] end x.

(** What [fread] has read. *)
Abbreviation freads := (observe_with fread_of).

(** What the C library promises of a stream for a file that nobody changes
    meanwhile: [file w name] are the contents of the file and [stream w f] the
    contents and the position of the stream; reading delivers what follows the
    position, or a part of it. *)
Class FileKernel (file : W -> bytes -> bytes) (stream : W -> Z -> bytes * nat) : Prop := {
  fopen_stream : forall w name f w',
    kstep (Fopen name (bs "rb")) w = (Some f, w') -> stream w' f = (file w name, 0%nat);
  fseek_end_stream : forall w f w', kstep (FseekEnd f) w = (SOk tt, w') ->
    stream w' f = (fst (stream w f), length (fst (stream w f)));
  fseek_set_stream : forall w f w', kstep (FseekSet f) w = (SOk tt, w') ->
    stream w' f = (fst (stream w f), 0%nat);
  ftell_stream : forall w f n w', kstep (Ftell f) w = (SOk n, w') ->
    n = Z.of_nat (snd (stream w f)) /\ stream w' f = stream w f;
  malloc_stream : forall w n x w' f, kstep (Malloc n) w = (x, w') -> stream w' f = stream w f;
  fread_stream : forall w f n d w', kstep (Fread f n) w = (d, w') ->
    d `prefix_of` drop (snd (stream w f)) (fst (stream w f))
}.

(** The runs of [os_readfile]: the named file is opened, its length found by going
    to its end, and the whole of it read from its start into a block of that
    length; after the first call that fails the stream is closed, and the block
    released when there is one.  [*len] is the length once it is known. *)
Inductive readfile_run (name : bytes) (len : Z) : sys_trace -> option heap_string -> Z -> Prop :=
| read_not_opened : readfile_run name len [Ev (Fopen name (bs "rb")) None] None len
| read_no_end f e :
    readfile_run name len [Ev (Fopen name (bs "rb")) (Some f); Ev (FseekEnd f) (SErr e); Ev (Fclose f) tt] None len
| read_no_length f e :
    readfile_run name len [Ev (Fopen name (bs "rb")) (Some f); Ev (FseekEnd f) (SOk tt); Ev (Ftell f) (SErr e);
      Ev (Fclose f) tt] None len
| read_no_start f n e :
    readfile_run name len [Ev (Fopen name (bs "rb")) (Some f); Ev (FseekEnd f) (SOk tt); Ev (Ftell f) (SOk n);
      Ev (FseekSet f) (SErr e); Ev (Fclose f) tt] None n
| read_no_memory f n :
    readfile_run name len [Ev (Fopen name (bs "rb")) (Some f); Ev (FseekEnd f) (SOk tt); Ev (Ftell f) (SOk n);
      Ev (FseekSet f) (SOk tt); Ev (Malloc n) None; Ev (Fclose f) tt] None n
| read_short f n p d : Z.of_nat (length d) <> n ->
    readfile_run name len [Ev (Fopen name (bs "rb")) (Some f); Ev (FseekEnd f) (SOk tt); Ev (Ftell f) (SOk n);
      Ev (FseekSet f) (SOk tt); Ev (Malloc n) (Some p); Ev (Fread f n) d; Ev (Fclose f) tt; Ev (Free p) tt] None n
| read_whole f p d (n := Z.of_nat (length d)) :
    readfile_run name len [Ev (Fopen name (bs "rb")) (Some f); Ev (FseekEnd f) (SOk tt); Ev (Ftell f) (SOk n);
      Ev (FseekSet f) (SOk tt); Ev (Malloc n) (Some p); Ev (Fread f n) d; Ev (Fclose f) tt] (Some (p, d)) n.

Lemma readfile_run_keeps name len tr r len' : readfile_run name len tr r len' -> keeps_string tr r.
Proof. unfold keeps_string. destruct 1; own_trace. Qed.

(** C40: Reading a file opens the file of the given name and goes to its end for its
    length, then back to its start to read it whole into a block of that length: what is
    answered are the contents of the named file and their length, or nothing after the
    first call that fails or a short read. The stream is closed and no other memory is
    kept in every case. *)
Theorem os_readfile_spec file stream `{!FileKernel file stream} name len w s :
  exists tr r len' w', exec w s (os_readfile name len) tr (Val (r, len')) s w' /\
    readfile_run name len tr r len' /\ keeps_string tr r /\
    forall p d, r = Some (p, d) -> d = file w name /\ len' = Z.of_nat (length d).
Proof.
  assert (wp Totally (os_readfile name len) (fun tr o s' w' => s' = s /\ exists r len',
    o = Val (r, len') /\ readfile_run name len tr r len' /\
    forall p d, r = Some (p, d) -> d = file w name /\ len' = Z.of_nat (length d)) w s)
    as (tr & o & s' & w' & H & -> & r & len' & -> & Hr & Hd); [|by eauto 10 using readfile_run_keeps].
  unfold os_readfile. wp_steps. destruct x as [f|]; wp_steps.
  2: { split; [done|]. do 2 eexists. split; [done|]. split; [constructor|done]. }
  destruct x as [[]|e]; wp_steps.
  2: { split; [done|]. do 2 eexists. split; [done|]. split; [constructor|done]. }
  destruct x as [n|e]; wp_steps.
  2: { split; [done|]. do 2 eexists. split; [done|]. split; [constructor|done]. }
  destruct x as [[]|e]; wp_steps.
  2: { split; [done|]. do 2 eexists. split; [done|]. split; [constructor|done]. }
  destruct x as [p|]; wp_steps.
  2: { split; [done|]. do 2 eexists. split; [done|]. split; [constructor|done]. }
  destruct (Z.eqb_spec (Z.of_nat (length x)) n) as [Hn|]; cbn [negb]; wp_steps;
    (split; [done|]; do 2 eexists; split; [done|]); [|split; [by constructor|done]].
  subst n. split; [constructor|]. intros p' d [= <- <-]. split; [|done].
  apply fopen_stream in Hk. apply fseek_end_stream in Hk0. apply ftell_stream in Hk1 as [Hl Hk1].
  apply fseek_set_stream in Hk2. apply (malloc_stream _ _ _ _ f) in Hk3.
  apply fread_stream in Hk4 as [rest Hd].
  rewrite Hk3, Hk2, Hk1, Hk0, Hk in Hd. cbn [fst snd] in Hd. rewrite drop_0 in Hd.
  rewrite Hk0, Hk in Hl. cbn in Hl.
  assert (rest = []) as ->; [|by rewrite app_nil_r in Hd].
  apply (f_equal length) in Hd. rewrite length_app in Hd. destruct rest; [done|cbn in Hd; lia].
Qed.

(** Success is a buffer filled with what [fread] has read; the stream is closed
    either way. *)
Definition random_post (buf : bytes) (len : Z) (tr : sys_trace) (r : Z) (buf' : bytes) : Prop :=
  owned [] [] tr [] [] /\ length buf' = length buf /\
  (r = 0 /\ (exists d, freads tr = [d] /\ Z.of_nat (length d) = len /\
      buf' = d ++ drop (Z.to_nat len) buf) \/
   r = -1 /\ forall d, d ∈ freads tr -> Z.of_nat (length d) < len).

(** Success means that the buffer was filled with what the device gave; its size
    never changes and the stream is closed. *)
Theorem os_get_random_spec buf len w s :
  0 <= len <= Z.of_nat (length buf) ->
  exists tr r buf' w', exec w s (os_get_random buf len) tr (Val (r, buf')) s w' /\
    random_post buf len tr r buf'.
Proof.
  intros Hlen.
  assert (wp Totally (os_get_random buf len) (fun tr o s' _ => s' = s /\ exists r buf',
    o = Val (r, buf') /\ random_post buf len tr r buf') w s)
    as (tr & o & s' & w' & H & -> & r & buf' & -> & Hr); [|by eauto 8].
  unfold os_get_random. wp_steps. destruct x as [f|]; wp_steps.
  2: { split; [done|]. do 2 eexists. split; [done|]. split; [own_trace|]. split; [done|].
       right. split; [done|]. intros d. by rewrite elem_of_nil. }
  pose proof (fread_bound _ _ _ _ _ Hk0 ltac:(lia)) as Hb. rewrite store_bytes_0 by lia. wp_steps.
  split; [done|]. do 2 eexists. split; [done|]. split; [own_trace|].
  split; [rewrite length_app, length_drop; lia|].
  destruct (Z.eqb_spec (Z.of_nat (length x)) len) as [He|]; cbn [negb]; [left|right]; (split; [done|]).
  - exists x. split_and!; [done|done|]. by rewrite <- He, Nat2Z.id.
  - intros d. cbn. rewrite elem_of_cons, elem_of_nil. intros [->|[]]. lia.
Qed.

(** The standard descriptors that have been redirected. *)
Definition dup_of (ev : event sysE) : list Z :=
  let '@Ev _ X e x := ev in
  match e in sysE X return X -> list Z with
  | Dup2 _ b => fun r => match r with SOk _ => [b] | SErr _ => [] end
  | _ => fun _ => []
  end x.

Definition daemon_post (tr : sys_trace) (r : Z) : Prop :=
  r = -1 /\ owned [] [] tr [] [] \/
  r = 0 /\ observe_with dup_of tr = [0; 1; 2] /\ exists fd, owned [] [] tr [] [fd].

Definition written_of (ev : event sysE) : list bytes :=
  let '@Ev _ X e _ := ev in match e with Fprintf _ text => [text] | _ => [] end.

(** What is written to the pid file. *)
Abbreviation written := (observe_with written_of).

Lemma wp_os_daemon m (Q : post Z) w (s : statics) :
  (forall tr r w', daemon_post tr r -> written tr = [] -> Q tr (Val r) s w') ->
  wp m os_daemon Q w s.
Proof.
  intros HQ. assert (forall tr w', owned [] [] tr [] [] -> written tr = [] ->
    Q tr (Val (-1)) s w') as Hfail by (intros; apply HQ; [by left|done]).
  unfold os_daemon. wp_steps.
  destruct x as [[]|e]; wp_steps; [|apply Hfail; [own_trace|done]].
  destruct x as [fd|e]; wp_steps; [|apply Hfail; [own_trace|done]].
  destruct x as [[]|e]; wp_steps; [|apply Hfail; [own_trace|done]].
  destruct x as [[]|e]; wp_steps; [|apply Hfail; [own_trace|done]].
  destruct x as [[]|e]; wp_steps; [|apply Hfail; [own_trace|done]].
  apply HQ; [|done]. right. split; [done|]. split; [done|]. exists fd. own_trace.
Qed.

(** Becoming a daemon: the process id is the only text written, and no stream
    stays open; the Apple build keeps the descriptor of /dev/null. *)
Definition daemonize_post (apple : bool) (tr : sys_trace) (r : Z) : Prop :=
  (r = -1 /\ written tr = [] /\ owned [] [] tr [] [] \/
   r = 0 /\ exists fds, owned [] [] tr [] fds /\ length fds = (if apple then 1 else 0)%nat) /\
  Forall (fun text => exists pid, int_ok pid /\ text = dec_uint pid ++ [newline]) (written tr).

(** Becoming a daemon fails before the pid file is touched, or leaves nothing open
    but the descriptor that the Apple build keeps. *)
Theorem os_daemonize_spec apple pid_file w s :
  exists tr r w', exec w s (os_daemonize apple pid_file) tr (Val r) s w' /\ daemonize_post apple tr r.
Proof.
  apply exec_total. unfold os_daemonize. wp_steps.
  assert (wp Totally (if apple then os_daemon
      else let* r := call Daemon in ret (match r with SOk _ => 0 | SErr _ => -1 end))
    (fun tr o s' _ => s' = s /\ exists r, o = Val r /\ written tr = [] /\
      (r = -1 /\ owned [] [] tr [] [] \/
       r = 0 /\ exists fds, owned [] [] tr [] fds /\ length fds = (if apple then 1 else 0)%nat)) w s) as Hd.
  { destruct apple.
    - apply wp_os_daemon. intros tr r w' Hr Hwr. split; [done|]. exists r. split; [done|]. split; [done|].
      destruct Hr as [?|(-> & _ & fd & ?)]; [by left|right]. split; [done|]. by exists [fd].
    - wp_steps. split; [done|]. eexists. split; [done|]. split; [done|].
      destruct x; [right; split; [done|]; exists []; split; [own_trace|done]|left; split; [done|own_trace]]. }
  eapply wp_mono; [exact Hd|]. intros tr o s1 w1 (-> & r & -> & Hw & Hr). repeat wp_leaf.
  destruct Hr as [[-> Ho]|(-> & fds & Ho & Hl)]; cbn [Z.eqb negb].
  { wp_steps. wp_trace. split; [done|]. eexists. split; [done|].
    assert (written (tr ++ [Ev (Stderr (bs "daemon")) ()]) = []) as Hw2
      by (autorewrite with wpa; by rewrite Hw).
    split; [left; split_and!; [done|exact Hw2|]|by rewrite Hw2].
    eapply owned_app; [exact Ho|]. clear. own_trace. }
  assert (forall tr2 (s' : statics), s' = s -> written tr2 = [] \/ (exists pid, int_ok pid /\
      written tr2 = [dec_uint pid ++ [newline]]) -> owned [] [] tr2 [] [] ->
    s' = s /\ exists a, Val 0 = Val a /\ daemonize_post apple (tr ++ tr2) a) as Hend.
  { intros tr2 s' -> Hw2 Ho2. split; [done|]. exists 0. split; [done|]. split.
    - right. split; [done|]. exists fds. split; [|done]. eapply owned_app; [exact Ho|].
      pose proof (owned_frame _ _ _ _ _ [] fds Ho2) as Hf. by rewrite !app_nil_r in Hf.
    - autorewrite with wpa. rewrite Hw. destruct Hw2 as [->|(pid & Hp & ->)]; [constructor|].
      constructor; [by exists pid|constructor]. }
  destruct pid_file as [name|]; wp_steps; cycle 1.
  { wp_trace. pose proof (Hend [] s eq_refl) as Hn. rewrite app_nil_r in Hn.
    apply Hn; [by left|own_trace]. }
  destruct x as [f|]; wp_steps; (apply Hend; [done| |own_trace]).
  - right. match goal with H : kstep Getpid _ = (?n, _) |- _ =>
      exists n; split; [by apply (getpid_ok _ _ _ H)|done] end.
  - by left.
Qed.

(** An array whose size does not fit size_t is refused without a call of the
    allocator, and any other one is allocated with exactly the product as its size. *)
Theorem array_sizes ptr nmemb size w s :
  0 <= nmemb < 2 ^ 64 -> 0 <= size < 2 ^ 64 ->
  exists tr1 r1 w1 tr2 r2 w2,
    exec w s (os_calloc nmemb size) tr1 (Val r1) s w1 /\
    exec w s (os_realloc_array ptr nmemb size) tr2 (Val r2) s w2 /\
    if nmemb * size <? 2 ^ 64
    then tr1 = [Ev (Calloc 1 (nmemb * size)) r1] /\ tr2 = [Ev (Realloc ptr (nmemb * size)) r2]
    else r1 = None /\ tr1 = [] /\ r2 = None /\ tr2 = [].
Proof.
  intros Hn Hs.
  assert (negb (size =? 0) && (SIZE_MAX / size <? nmemb) = negb (nmemb * size <? 2 ^ 64)) as Hc.
  { unfold SIZE_MAX. destruct (Z.eqb_spec size 0) as [->|H0]; [by rewrite Z.mul_0_r|]. cbn [negb andb].
    destruct (Z.ltb_spec (nmemb * size) (2 ^ 64)).
    - apply Z.ltb_ge. apply Z.div_le_lower_bound; lia.
    - apply Z.ltb_lt. apply Z.div_lt_upper_bound; lia. }
  destruct (exec_total (os_calloc nmemb size) (fun tr r => if nmemb * size <? 2 ^ 64
    then tr = [Ev (Calloc 1 (nmemb * size)) r] else r = None /\ tr = []) w s) as (tr1 & r1 & w1 & H1 & P1).
  { unfold os_calloc, os_zalloc. rewrite Hc. destruct (Z.ltb_spec (nmemb * size) (2 ^ 64)); cbn [negb];
      wp_steps; [rewrite Z.mod_small by lia|]; eauto. }
  destruct (exec_total (os_realloc_array ptr nmemb size) (fun tr r => if nmemb * size <? 2 ^ 64
    then tr = [Ev (Realloc ptr (nmemb * size)) r] else r = None /\ tr = []) w s) as (tr2 & r2 & w2 & H2 & P2).
  { unfold os_realloc_array. rewrite Hc. destruct (Z.ltb_spec (nmemb * size) (2 ^ 64)); cbn [negb];
      wp_steps; [rewrite Z.mod_small by lia|]; eauto. }
  exists tr1, r1, w1, tr2, r2, w2. split; [done|]. split; [done|].
  destruct (nmemb * size <? 2 ^ 64); naive_solver.
Qed.
End Files.
