(* ===== verification/Framing.v ===== *)
(** * The message framing of the Erlang port ([{packet, 2}])

    A message is sent as two bytes of length, most significant first, and the
    message itself.  [frame] writes one message, [unframe] takes the complete
    messages off a byte stream; they are the specification of [send_to_erl]
    and of [process_erl] in wpa_ex.c. *)

From S2P Require Export Prelude.
From Equations Require Import Equations.
Local Open Scope Z_scope.

(** The two length bytes, as [htons] leaves them in memory. *)
Definition be16 (n : Z) : bytes := [byte.of_Z (n / 256); byte.of_Z n].

(** Reading them back ([ntohs]). *)
Definition of_be16 (h l : byte) : Z := byte.unsigned h * 256 + byte.unsigned l.

Definition frame (msg : bytes) : bytes := be16 (Z.of_nat (length msg)) ++ msg.

(** The complete messages at the start of a stream, and the rest. *)
Equations? unframe (b : bytes) : list bytes * bytes by wf (length b) lt :=
  unframe (h :: l :: b) :=
    let n := Z.to_nat (of_be16 h l) in
    if decide (n <= length b)%nat then
      let '(ms, rest) := unframe (drop n b) in (take n b :: ms, rest)
    else ([], h :: l :: b);
  unframe b := ([], b).
Proof. rewrite length_drop. lia. Qed.

Lemma of_be16_range h l : 0 <= of_be16 h l < 65536.
Proof.
  unfold of_be16. pose proof (byte.unsigned_range h). pose proof (byte.unsigned_range l). lia.
Qed.

Lemma of_be16_be16 n :
  0 <= n < 65536 -> of_be16 (byte.of_Z (n / 256)) (byte.of_Z n) = n.
Proof.
  intros Hn. unfold of_be16. rewrite !byte.unsigned_of_Z. unfold byte.wrap.
  change (2 ^ 8) with 256. rewrite (Z.mod_small (n / 256)) by
    (split; [apply Z.div_pos; lia|apply Z.div_lt_upper_bound; lia]).
  pose proof (Z.div_mod n 256). lia.
Qed.

Lemma be16_of_be16 h l : be16 (of_be16 h l) = [h; l].
Proof.
  unfold be16, of_be16. pose proof (byte.unsigned_range h). pose proof (byte.unsigned_range l).
  rewrite Z.div_add_l, (Z.div_small (byte.unsigned l)), Z.add_0_r by lia.
  rewrite byte.of_Z_unsigned. do 2 f_equal. apply byte.unsigned_inj.
  rewrite byte.unsigned_of_Z. unfold byte.wrap. change (2 ^ 8) with 256.
  by rewrite Z.add_comm, Z.mod_add, Z.mod_small by lia.
Qed.

(** [htons] keeps the low 16 bits, and so does the stored big-endian pair. *)
Lemma be16_mod n : be16 (n mod 65536) = be16 n.
Proof.
  unfold be16. apply (f_equal2 cons); [|apply (f_equal2 cons); [|done]];
    apply byte.unsigned_inj; rewrite !byte.unsigned_of_Z;
    unfold byte.wrap; change (2 ^ 8) with 256.
  - change 65536 with (256 * 256). rewrite Z.rem_mul_r by lia.
    rewrite (Z.mul_comm 256 (_ mod _)), Z.div_add by lia.
    rewrite (Z.div_small (n mod 256)) by (apply Z.mod_pos_bound; lia).
    by rewrite Z.add_0_l, Z.mod_mod by lia.
  - change 65536 with (256 * 256). rewrite Z.rem_mul_r by lia.
    by rewrite Z.mul_comm, Z.mod_add, Z.mod_mod by lia.
Qed.

Lemma length_frame msg : length (frame msg) = (2 + length msg)%nat.
Proof. done. Qed.

(** A complete message at the head of the stream. *)
Lemma unframe_cons h l b n :
  n = Z.to_nat (of_be16 h l) -> (n <= length b)%nat ->
  unframe (h :: l :: b) = (take n b :: fst (unframe (drop n b)), snd (unframe (drop n b))).
Proof.
  intros -> Hn. simp unframe. cbn zeta. rewrite decide_True by done.
  by destruct (unframe (drop _ b)).
Qed.

(** An incomplete message at the head of the stream. *)
Lemma unframe_partial h l b :
  (length b < Z.to_nat (of_be16 h l))%nat -> unframe (h :: l :: b) = ([], h :: l :: b).
Proof. intros Hn. simp unframe. cbn zeta. by rewrite decide_False by lia. Qed.

Lemma unframe_short b : (length b < 2)%nat -> unframe b = ([], b).
Proof. intros. destruct b as [|? [|]]; cbn in *; [by simp unframe..|lia]. Qed.

Definition fits16 (msg : bytes) : Prop := Z.of_nat (length msg) < 65536.

Lemma unframe_frame msg b :
  fits16 msg -> unframe (frame msg ++ b) = (msg :: fst (unframe b), snd (unframe b)).
Proof.
  unfold fits16, frame. intros Hm. cbn [app be16].
  erewrite unframe_cons; [|by rewrite of_be16_be16, Nat2Z.id by lia|].
  - by rewrite take_app_length, drop_app_length.
  - rewrite length_app. lia.
Qed.

(** Messages survive framing, whatever incomplete data follows. *)
Lemma unframe_frames msgs b :
  Forall fits16 msgs ->
  unframe (concat (frame <$> msgs) ++ b) = (msgs ++ fst (unframe b), snd (unframe b)).
Proof.
  induction 1 as [|m ms Hm _ IH]; cbn [fmap list_fmap concat app].
  - by destruct (unframe b).
  - rewrite <- app_assoc, unframe_frame, IH by done. done.
Qed.

(** A part of a frame holds no message. *)
Lemma unframe_part m part rest :
  fits16 m -> rest <> [] -> frame m = part ++ rest -> unframe part = ([], part).
Proof.
  unfold fits16. intros Hm Hr Hf. destruct part as [|h [|l part]]; [by apply unframe_short; cbn; lia..|].
  apply unframe_partial. unfold frame, be16 in Hf. cbn [app] in Hf. injection Hf as <- <- ->.
  rewrite of_be16_be16 by lia. rewrite length_app. destruct rest; [done|cbn; lia].
Qed.

(** The three cases of [unframe], as an induction principle. *)
Lemma unframe_ind (P : bytes -> Prop) :
  (forall b, (length b < 2)%nat -> P b) ->
  (forall h l b, (length b < Z.to_nat (of_be16 h l))%nat -> P (h :: l :: b)) ->
  (forall h l m b, Z.of_nat (length m) = of_be16 h l -> P b -> P (h :: l :: m ++ b)) ->
  forall b, P b.
Proof.
  intros H1 H2 H3 b. remember (length b) as n eqn:Hn. revert b Hn.
  induction n as [n IH] using lt_wf_ind. intros b ->.
  destruct b as [|h [|l b]]; [apply H1; cbn; lia..|].
  pose proof (of_be16_range h l).
  destruct (decide (Z.to_nat (of_be16 h l) <= length b)%nat); [|apply H2; lia].
  rewrite <- (take_drop (Z.to_nat (of_be16 h l)) b).
  apply H3; [rewrite length_take; lia|].
  eapply IH; [|done]. rewrite length_drop. cbn. lia.
Qed.

Lemma unframe_complete h l m b :
  Z.of_nat (length m) = of_be16 h l ->
  unframe (h :: l :: m ++ b) = (m :: fst (unframe b), snd (unframe b)).
Proof.
  intros Hm. rewrite (unframe_cons _ _ _ (length m)) by (rewrite ?length_app; lia).
  by rewrite take_app_length, drop_app_length.
Qed.

(** Data that arrive in pieces are cut into the same messages. *)
Lemma unframe_app b c :
  unframe (b ++ c) =
    (fst (unframe b) ++ fst (unframe (snd (unframe b) ++ c)), snd (unframe (snd (unframe b) ++ c))).
Proof.
  induction b as [b Hb|h l b Hb|h l m b Hm IH] using unframe_ind.
  - rewrite (unframe_short b) by done. cbn. by destruct (unframe (b ++ c)).
  - rewrite (unframe_partial h l b) by done. cbn. by destruct (unframe (h :: l :: b ++ c)).
  - cbn [app]. rewrite <- app_assoc. rewrite !unframe_complete, IH by done. done.
Qed.

(** The bytes are those of the messages and of the rest. *)
Lemma unframe_bytes b :
  b = concat (frame <$> fst (unframe b)) ++ snd (unframe b).
Proof.
  induction b as [b Hb|h l b Hb|h l m b Hm IH] using unframe_ind.
  - by rewrite (unframe_short b).
  - by rewrite (unframe_partial h l b).
  - rewrite unframe_complete by done. cbn [fst snd fmap list_fmap concat].
    rewrite <- app_assoc, <- IH. unfold frame at 1. by rewrite Hm, be16_of_be16.
Qed.
