(* ===== verification/Elixir.v ===== *)
(** * Elixir: terms, strings and exceptions

    What the library under src/lib uses of Elixir and of its standard library:
    terms, functions that can raise, the functions of [String], and the
    interface [Runtime] for what depends on the version of the runtime or on
    Unicode tables.  An Elixir string is the list of its UTF-8 bytes; patterns
    of the form [<< "prefix", rest::binary >>] are [match_prefix]. *)

From S2P Require Export Prelude.
From stdpp Require Export gmap.
Local Open Scope Z_scope.

(** ** Exceptions *)

Inductive exn : Type :=
| MatchError | FunctionClauseError | CaseClauseError | ArgumentError | SystemLimitError
| UndefinedError.

Inductive result (A : Type) : Type :=
| Ok (a : A)
| Raise (e : exn).
Arguments Ok {A} a.
Arguments Raise {A} e.

Definition rbind {A B} (r : result A) (f : A -> result B) : result B :=
  match r with Ok a => f a | Raise e => Raise e end.

Declare Scope elixir_scope.
Delimit Scope elixir_scope with elixir.
Notation "'let?' x ':=' r 'in' k" := (rbind r (fun x => k))
  (at level 10, x pattern, r at level 100, k at level 200) : elixir_scope.

Lemma rbind_ok {A B} (r : result A) (f : A -> result B) b :
  rbind r f = Ok b -> exists a, r = Ok a /\ f a = Ok b.
Proof. destruct r; [by eauto|done]. Qed.

(** ** Terms

    An atom is its text.  Maps only occur with atoms as keys. *)

#[export] Instance byte_countable : Countable byte.
Proof.
  refine (inj_countable' (fun c => Z.to_N (byte.unsigned c)) (fun n => byte.of_Z (Z.of_N n)) _).
  intros c. pose proof (byte.unsigned_range c). rewrite Z2N.id by lia. apply byte.of_Z_unsigned.
Defined.

#[warnings="-register-all"]
Inductive term : Type :=
| Atom (text : bytes)
| Int (n : Z)
| Bin (s : bytes)
| Tuple (l : list term)
| List (l : list term)
| Map (m : gmap bytes term)
| Pid (n : Z).

Abbreviation nil_ := (Atom (bs "nil")).
Abbreviation true_ := (Atom (bs "true")).
Abbreviation false_ := (Atom (bs "false")).

(** [if t do]: only [nil] and [false] do not count as true. *)
Definition truthy (t : term) : bool :=
  match t with
  | Atom a => negb (bool_decide (a = bs "nil") || bool_decide (a = bs "false"))
  | _ => true
  end.

(** ** Characters *)

(** A continuation byte of UTF-8: its six bits. *)
Definition cont (c : byte) : option Z :=
  let n := byte.unsigned c in
  if (128 <=? n) && (n <? 192) then Some (n - 128) else None.

(** The code point at the head of a string ([<< c::utf8, rest::binary >>]); no
    surrogates, and the shortest form only. *)
Definition utf8_next (s : bytes) : option (Z * bytes) :=
  match s with
  | [] => None
  | c0 :: s =>
      let n := byte.unsigned c0 in
      if n <? 128 then Some (n, s)
      else if (194 <=? n) && (n <? 224) then
        match s with
        | c1 :: s => x1 ← cont c1; Some ((n - 192) * 64 + x1, s)
        | _ => None
        end
      else if (224 <=? n) && (n <? 240) then
        match s with
        | c1 :: c2 :: s =>
            x1 ← cont c1; x2 ← cont c2;
            let p := ((n - 224) * 64 + x1) * 64 + x2 in
            if (2048 <=? p) && negb ((55296 <=? p) && (p <? 57344)) then Some (p, s) else None
        | _ => None
        end
      else if (240 <=? n) && (n <? 245) then
        match s with
        | c1 :: c2 :: c3 :: s =>
            x1 ← cont c1; x2 ← cont c2; x3 ← cont c3;
            let p := (((n - 240) * 64 + x1) * 64 + x2) * 64 + x3 in
            if (65536 <=? p) && (p <? 1114112) then Some (p, s) else None
        | _ => None
        end
      else None
  end.

Fixpoint utf8_fuel (fuel : nat) (s : bytes) : option (list Z) :=
  match fuel, s with
  | _, [] => Some []
  | O, _ => None
  | S fuel, s => '(c, s) ← utf8_next s; l ← utf8_fuel fuel s; Some (c :: l)
  end.

(** The code points of a string, if it is valid UTF-8. *)
Definition codepoints (s : bytes) : option (list Z) := utf8_fuel (length s) s.

(** ** The runtime

    Atoms of characters above 255 exist from Erlang/OTP 20 on; [string_length]
    counts the grapheme clusters of Unicode; [to_chars] is the protocol
    [String.Chars] on the terms that are not atoms, integers or strings. *)
Class Runtime : Type := {
  max_atom_char : Z;
  string_length : bytes -> nat;
  to_chars : term -> result bytes
}.

Definition printable (c : byte) : bool := (32 <=? byte.unsigned c) && (byte.unsigned c <? 127).

Class RuntimeLaws `{!Runtime} : Prop := {
  latin1_atoms : 255 <= max_atom_char;
  string_length_ascii : forall s, Forall printable s -> string_length s = length s
}.

(** [String.to_atom]: at most 255 characters. *)
Definition to_atom `{!Runtime} (s : bytes) : result term :=
  match codepoints s with
  | None => Raise ArgumentError
  | Some cs =>
      if (255 <? length cs)%nat then Raise SystemLimitError
      else if forallb (fun c => c <=? max_atom_char) cs then Ok (Atom s)
      else Raise ArgumentError
  end.

(** ** Numbers as text *)

(** [to_string] of an integer. *)
Definition int_text (n : Z) : bytes :=
  let ds m := digits (S (Z.to_nat (Z.log2 m))) m [] in
  if n <? 0 then dash :: ds (- n) else ds n.

Definition digit_of (base : Z) (c : byte) : option Z :=
  let n := byte.unsigned c in
  let v := if (48 <=? n) && (n <? 58) then n - 48
           else if (65 <=? n) && (n <? 71) then n - 55
           else if (97 <=? n) && (n <? 103) then n - 87
           else base in
  if v <? base then Some v else None.

Fixpoint read_digits (base acc : Z) (s : bytes) : result Z :=
  match s with
  | [] => Ok acc
  | c :: s =>
      match digit_of base c with
      | Some v => read_digits base (acc * base + v) s
      | None => Raise ArgumentError
      end
  end.

(** [String.to_integer(s, base)], for a base of at most 16: an optional sign
    and at least one digit. *)
Definition to_integer (base : Z) (s : bytes) : result Z :=
  let unsigned ds := match ds with [] => Raise ArgumentError | _ => read_digits base 0 ds end in
  match s with
  | c :: ds =>
      if bool_decide (c = dash) then let? n := unsigned ds in Ok (- n)
      else if bool_decide (c = Byte.x2b) then unsigned ds
      else unsigned s
  | [] => Raise ArgumentError
  end%elixir.

(** ** Prefixes and white space *)

Fixpoint match_prefix (p s : bytes) : option bytes :=
  match p, s with
  | [], _ => Some s
  | c :: p, d :: s => if decide (c = d) then match_prefix p s else None
  | _, [] => None
  end.

(** The encodings of the characters that Unicode calls white space. *)
Definition whitespace : list bytes :=
  Eval vm_compute in
  map (fun c => [byte.of_Z c]) [9; 10; 11; 12; 13; 32] ++
  map (fun c => [byte.of_Z 194; byte.of_Z c]) [133; 160] ++
  map (fun '(c, d) => [byte.of_Z 225; byte.of_Z c; byte.of_Z d]) [(154, 128)] ++
  map (fun '(c, d) => [byte.of_Z 226; byte.of_Z c; byte.of_Z d])
    [(128, 128); (128, 129); (128, 130); (128, 131); (128, 132); (128, 133); (128, 134);
     (128, 135); (128, 136); (128, 137); (128, 138); (128, 168); (128, 169); (128, 175);
     (129, 159)] ++
  [[byte.of_Z 227; byte.of_Z 128; byte.of_Z 128]].

(** The rest of the string behind a first character out of a table. *)
Fixpoint strip_one (table : list bytes) (s : bytes) : option bytes :=
  match table with
  | [] => None
  | w :: table => match match_prefix w s with Some s => Some s | None => strip_one table s end
  end.

Fixpoint strip_all (fuel : nat) (table : list bytes) (s : bytes) : bytes :=
  match fuel with
  | O => s
  | S fuel => match strip_one table s with Some s => strip_all fuel table s | None => s end
  end.

(** [String.lstrip], [String.rstrip] and [String.strip]; at the right end the
    bytes are looked at in reverse. *)
Definition lstrip (s : bytes) : bytes := strip_all (length s) whitespace s.
Definition rstrip (s : bytes) : bytes :=
  rev (strip_all (length s) (@rev byte <$> whitespace) (rev s)).
Definition strip (s : bytes) : bytes := rstrip (lstrip s).

(** [String.rstrip(s, c)]: all copies of one character at the end. *)
Definition rstrip_char (c : byte) (s : bytes) : bytes :=
  rev (strip_all (length s) [[c]] (rev s)).

(** ** Splitting at a character *)

(** The text up to the first [c], and behind it. *)
Fixpoint cut (c : byte) (s : bytes) : option (bytes * bytes) :=
  match s with
  | [] => None
  | d :: s =>
      if decide (d = c) then Some ([], s)
      else match cut c s with Some (h, t) => Some (d :: h, t) | None => None end
  end.

(** [String.split(s, c)]. *)
Fixpoint split (c : byte) (s : bytes) : list bytes :=
  match s with
  | [] => [[]]
  | d :: s =>
      if decide (d = c) then [] :: split c s
      else match split c s with h :: t => (d :: h) :: t | [] => [[d]] end
  end.

(** [String.split(s, c, trim: true)]. *)
Definition split_trim (c : byte) (s : bytes) : list bytes := filter (fun p => p <> []) (split c s).

(** [String.split(s, c, parts: cuts + 1, trim: true)]: copies of [c] in front of
    a part are dropped, the last part is the rest as it is. *)
Fixpoint split_parts (c : byte) (cuts : nat) (s : bytes) : list bytes :=
  match cuts with
  | O => match s with [] => [] | _ => [s] end
  | S cuts =>
      match strip_all (length s) [[c]] s with
      | [] => []
      | s => match cut c s with
             | Some (h, t) => h :: split_parts c cuts t
             | None => [s]
             end
      end
  end.

Example split_example :
  split_parts dash 2 (bs "IDENTITY-1-Human readable text") =
    [bs "IDENTITY"; bs "1"; bs "Human readable text"] /\
  split_trim space (bs " 34 00:11") = [bs "34"; bs "00:11"] /\
  strip (bs " PONG  ") = bs "PONG" /\ to_integer 16 (bs "0011") = Ok 17 /\
  int_text 2412 = bs "2412".
Proof. by vm_compute. Qed.

(** ** Properties *)

Lemma match_prefix_spec p s r : match_prefix p s = Some r <-> s = p ++ r.
Proof.
  revert s. induction p as [|c p IH]; intros s; cbn; [by split; intros [= ->]|].
  destruct s as [|d s]; [done|]. case_decide as Hc; [|naive_solver].
  rewrite IH. naive_solver.
Qed.

Create Rewrite HintDb elixir.

Lemma match_prefix_app p r : match_prefix p (p ++ r) = Some r.
Proof. by apply match_prefix_spec. Qed.
#[export] Hint Rewrite match_prefix_app : elixir.

(** *** Integers *)

Lemma digit_of_is_digit c : is_digit c -> digit_of 10 c = Some (byte.unsigned c - 48).
Proof.
  unfold is_digit, digit_of. intros Hc%Is_true_true. rewrite Hc.
  apply andb_true_iff in Hc as [??]. by rewrite (proj2 (Z.ltb_lt _ _)) by lia.
Qed.

Lemma read_digits_undigits ds acc :
  Forall is_digit ds ->
  read_digits 10 acc ds = Ok (fold_left (fun n c => n * 10 + (byte.unsigned c - 48)) ds acc).
Proof.
  intros H. revert acc. induction H as [|c ds Hc _ IH]; intros acc; [done|].
  cbn. by rewrite digit_of_is_digit, IH.
Qed.

Lemma log2_pow10 n : 0 <= n -> n < 10 ^ Z.of_nat (S (Z.to_nat (Z.log2 n))).
Proof.
  intros Hn. destruct (decide (n = 0)) as [->|]; [done|].
  rewrite Nat2Z.inj_succ, Z2Nat.id by apply Z.log2_nonneg.
  destruct (Z.log2_spec n) as [_ H]; [lia|]. eapply Z.lt_le_trans; [exact H|].
  apply Z.pow_le_mono_l. lia.
Qed.

(** The text of an integer: a sign and digits. *)
Lemma int_text_spec n :
  exists ds, int_text n = (if n <? 0 then [dash] else []) ++ ds /\
    undigits ds = Z.abs n /\ Forall is_digit ds /\ ds <> [].
Proof.
  unfold int_text. cbv zeta. assert (forall m, 0 <= m -> exists ds,
    digits (S (Z.to_nat (Z.log2 m))) m [] = ds /\ undigits ds = m /\ Forall is_digit ds /\ ds <> [])
    as Hd.
  { intros m Hm. destruct (digits_spec (S (Z.to_nat (Z.log2 m))) m []) as (ds & -> & Hu & HF & Hl);
      [split; [done|by apply log2_pow10]|lia|].
    exists ds. rewrite app_nil_r. split_and!; [done..|]. intros ->. cbn in Hl. lia. }
  destruct (Z.ltb_spec n 0).
  - destruct (Hd (- n)) as (ds & -> & Hu & HF & Hn); [lia|]. exists ds. split_and!; [done|lia|done..].
  - destruct (Hd n) as (ds & -> & Hu & HF & Hn); [lia|]. exists ds. split_and!; [done|lia|done..].
Qed.

Lemma to_integer_int_text n : to_integer 10 (int_text n) = Ok n.
Proof.
  destruct (int_text_spec n) as (ds & -> & Hu & HF & Hn).
  assert (match ds with [] => Raise ArgumentError | _ => read_digits 10 0 ds end = Ok (Z.abs n)) as Hr.
  { destruct ds; [done|]. rewrite read_digits_undigits by done. by rewrite <- Hu. }
  destruct (Z.ltb_spec n 0); cbn [app to_integer].
  - rewrite bool_decide_eq_true_2 by done. rewrite Hr. cbn. f_equal. lia.
  - destruct ds as [|c ds]; [done|]. apply Forall_cons in HF as [Hc _]. cbn [to_integer].
    rewrite !bool_decide_eq_false_2; [rewrite Hr; f_equal; lia|intros ->; by vm_compute in Hc..].
Qed.

(** *** White space *)

(** An ASCII character that is not white space, at either end. *)
Definition graphic (c : byte) : bool := (32 <? byte.unsigned c) && (byte.unsigned c <? 127).

Lemma strip_one_graphic_table c s :
  graphic c -> strip_one whitespace (c :: s) = None /\
    strip_one (@rev byte <$> whitespace) (c :: s) = None.
Proof. intros H. by destruct c; try done; vm_compute in H. Qed.

Lemma lstrip_graphic c s : graphic c -> lstrip (c :: s) = c :: s.
Proof. intros H. unfold lstrip. cbn [length strip_all]. by rewrite (proj1 (strip_one_graphic_table c s H)). Qed.

Lemma strip_all_none fuel table s : strip_one table s = None -> strip_all fuel table s = s.
Proof. intros H. destruct fuel; [done|]. cbn. by rewrite H. Qed.

(** White space in ASCII. *)
Definition blank (c : byte) : bool := bool_decide (c ∈ [Byte.x09; Byte.x0a; Byte.x0b; Byte.x0c; Byte.x0d; Byte.x20]).

Lemma strip_one_blank c s :
  blank c -> strip_one whitespace (c :: s) = Some s /\
    strip_one (@rev byte <$> whitespace) (c :: s) = Some s.
Proof. intros H. by destruct c; try done; vm_compute in H. Qed.

Lemma strip_all_blanks fuel table w s :
  (forall c s, blank c -> strip_one table (c :: s) = Some s) ->
  Forall blank w -> (length w <= fuel)%nat -> strip_one table s = None ->
  strip_all fuel table (w ++ s) = s.
Proof.
  intros Ht Hw. revert fuel. induction Hw as [|c w Hc _ IH]; intros fuel Hl Hs; cbn in *.
  - by apply strip_all_none.
  - destruct fuel as [|fuel]; [lia|]. cbn. rewrite Ht by done. apply IH; [lia|done].
Qed.

(** A text between white space. *)
Lemma lstrip_blanks w s :
  Forall blank w -> strip_one whitespace s = None -> lstrip (w ++ s) = s.
Proof.
  intros Hw Hs. unfold lstrip. rewrite strip_all_blanks; [done| |done|rewrite length_app; lia|done].
  intros c t Hc. exact (proj1 (strip_one_blank c t Hc)).
Qed.

Lemma rstrip_blanks s c w :
  graphic c -> Forall blank w -> rstrip (s ++ c :: w) = s ++ [c].
Proof.
  intros Hc Hw. unfold rstrip. rewrite (cons_middle c), app_assoc, rev_app_distr.
  rewrite strip_all_blanks.
  - by rewrite rev_involutive.
  - intros d t Hd. exact (proj2 (strip_one_blank d t Hd)).
  - by apply Forall_rev.
  - rewrite length_rev, !length_app. lia.
  - rewrite rev_app_distr. cbn [rev app]. exact (proj2 (strip_one_graphic_table c _ Hc)).
Qed.

(** *** Splitting *)

Lemma split_none c s : c ∉ s -> split c s = [s].
Proof.
  induction s as [|d s IH]; [done|]. rewrite not_elem_of_cons. intros [Hd Hs]. cbn.
  rewrite decide_False by done. by rewrite IH.
Qed.

Lemma split_app c h t : c ∉ h -> split c (h ++ c :: t) = h :: split c t.
Proof.
  induction h as [|d h IH]; [intros _; cbn; by rewrite decide_True|].
  rewrite not_elem_of_cons. intros [Hd Hs]. cbn. rewrite decide_False by done. by rewrite IH.
Qed.

Lemma cut_app c h t : c ∉ h -> cut c (h ++ c :: t) = Some (h, t).
Proof.
  induction h as [|d h IH]; [intros _; cbn; by rewrite decide_True|].
  rewrite not_elem_of_cons. intros [Hd Hs]. cbn. rewrite decide_False by done. by rewrite IH.
Qed.

(** Lines. *)
Lemma split_lines c ls :
  Forall (fun l => c ∉ l) ls ->
  split c (concat ((fun l => l ++ [c]) <$> ls)) = ls ++ [[]].
Proof.
  induction 1 as [|l ls Hl _ IH]; [done|]. cbn. rewrite <- app_assoc. cbn.
  by rewrite split_app, IH by done.
Qed.
