(* ===== verification/ExEncode.v ===== *)
(** * encode.ex: commands as text

    [WpaSupplicant.Encode]: an atom is the name of a command, a tuple a command
    with up to three arguments, or the answer to an interactive request.  A
    clause of [encode] is a branch of the match, in the order of the source. *)

From S2P Require Export Elixir.
Local Open Scope Z_scope.
Local Open Scope elixir_scope.

Definition dquote : byte := Eval vm_compute in byte.of_Z 34.
Definition colon : byte := Eval vm_compute in byte.of_Z 58.

(** [[\da-fA-F]]. *)
Definition hex_digit (c : byte) : bool :=
  let n := byte.unsigned c in
  ((48 <=? n) && (n <? 58)) || ((97 <=? n) && (n <? 103)) || ((65 <=? n) && (n <? 71)).

(** The pattern of the regular expression: six pairs of digits with colons
    between them. *)
Fixpoint mac_prefix (pairs : nat) (s : bytes) : bool :=
  match pairs, s with
  | O, _ => true
  | S O, c :: d :: _ => hex_digit c && hex_digit d
  | S pairs, c :: d :: e :: s => hex_digit c && hex_digit d && bool_decide (e = colon) && mac_prefix pairs s
  | _, _ => false
  end.

(** [Regex.match?]: the pattern anywhere in the string. *)
Fixpoint mac_match (s : bytes) : bool :=
  mac_prefix 6 s || match s with [] => false | _ :: s => mac_match s end.

Section Encode.
Context `{RT : !Runtime}.

(** [to_string]. *)
Definition to_string (t : term) : result bytes :=
  match t with
  | Atom a => Ok (if bool_decide (a = bs "nil") then [] else a)
  | Int n => Ok (int_text n)
  | Bin s => Ok s
  | _ => to_chars t
  end.

Definition encode_arg (arg : term) : result bytes :=
  match arg with
  | Bin arg =>
      if (string_length arg =? 17)%nat && mac_match arg then Ok arg
      else Ok ([dquote] ++ arg ++ [dquote])
  | _ => to_string arg
  end.

(** ["CTRL-RSP-...-#{network_id}-#{string}"]. *)
Definition ctrl_rsp (name : bytes) (network_id string : term) : result bytes :=
  let? network_id := to_string network_id in
  let? string := to_string string in
  Ok (name ++ bs "-" ++ network_id ++ bs "-" ++ string).

Definition ctrl_rsp_names : list bytes :=
  [bs "CTRL-RSP-IDENTITY"; bs "CTRL-RSP-PASSWORD"; bs "CTRL-RSP-NEW_PASSWORD"; bs "CTRL-RSP-PIN";
   bs "CTRL-RSP-OTP"; bs "CTRL-RSP-PASSPHRASE"].

Definition encode (cmd : term) : result bytes :=
  match cmd with
  | Atom _ => to_string cmd
  | Tuple [Atom cmd; arg] =>
      let? c := to_string (Atom cmd) in
      let? a := encode_arg arg in
      Ok (c ++ bs " " ++ a)
  | Tuple [Atom cmd; arg; arg2] =>
      if bool_decide (cmd ∈ ctrl_rsp_names) then ctrl_rsp cmd arg arg2
      else
        let? c := to_string (Atom cmd) in
        let? a := encode_arg arg in
        let? a2 := encode_arg arg2 in
        Ok (c ++ bs " " ++ a ++ bs " " ++ a2)
  | Tuple [Atom cmd; arg; arg2; arg3] =>
      let? c := to_string (Atom cmd) in
      let? a := encode_arg arg in
      let? a2 := encode_arg arg2 in
      let? a3 := encode_arg arg3 in
      Ok (c ++ bs " " ++ a ++ bs " " ++ a2 ++ bs " " ++ a3)
  | _ => Raise FunctionClauseError
  end.

(** ** Reading commands

    A reader of the encoded text, for the round trip: words at spaces, and
    quoted texts up to the next quote. *)

Inductive token : Type := Word (w : bytes) | Quoted (s : bytes).

Fixpoint tokens (fuel : nat) (s : bytes) : list token :=
  match fuel with
  | O => []
  | S fuel =>
      match s with
      | [] => []
      | c :: t =>
          if decide (c = space) then tokens fuel t
          else if decide (c = dquote) then
            match cut dquote t with
            | Some (q, t) => Quoted q :: tokens fuel t
            | None => [Word s]
            end
          else
            match cut space s with
            | Some (w, t) => Word w :: tokens fuel t
            | None => [Word s]
            end
      end
  end.
End Encode.

(** ** Properties *)

(** A MAC address. *)
Definition is_mac (s : bytes) : bool := (length s =? 17)%nat && mac_prefix 6 s.

Lemma mac_prefix_length n s : mac_prefix n s -> (3 * n <= S (length s))%nat.
Proof.
  revert s. induction n as [|[|n] IH]; intros s H; [lia|..].
  - destruct s as [|c [|d s]]; cbn in *; [done..|lia].
  - destruct s as [|c [|d [|e s]]]; [done..|]. cbn [mac_prefix] in H.
    apply andb_prop_elim in H as [_ H%IH]. cbn. lia.
Qed.

Lemma mac_match_length s : mac_match s -> (17 <= length s)%nat.
Proof.
  induction s as [|c s IH]; [done|]. cbn [mac_match]. intros Hm. apply orb_prop_elim in Hm as [Hm|Hm];
    [apply mac_prefix_length in Hm|apply IH in Hm]; cbn in *; lia.
Qed.

(** In a string of 17 bytes the pattern can only match at the start. *)
Lemma mac_match_17 s : length s = 17%nat -> mac_match s = mac_prefix 6 s.
Proof.
  destruct s as [|c s]; [done|]. intros Hl. cbn [mac_match].
  destruct (mac_match s) eqn:Hs; [|by rewrite orb_false_r].
  assert (Is_true (mac_match s)) as H%mac_match_length by by rewrite Hs. cbn in Hl. lia.
Qed.

(** The characters of a MAC address. *)
Lemma mac_prefix_chars n s c :
  mac_prefix (S n) s -> length s = (3 * n + 2)%nat -> c ∈ s -> hex_digit c \/ c = colon.
Proof.
  revert s. induction n as [|n IH]; intros s H Hl Hc.
  - destruct s as [|d [|e [|? ?]]]; try done. cbn in H. apply andb_prop_elim in H as [??].
    set_solver.
  - destruct s as [|d [|e [|f s]]]; try (cbn in Hl; lia). cbn [mac_prefix] in H.
    apply andb_prop_elim in H as [Hm H]. apply andb_prop_elim in Hm as [Hm Hf%bool_decide_unpack].
    apply andb_prop_elim in Hm as [??].
    rewrite !elem_of_cons in Hc. destruct Hc as [->|[->|[->|Hc]]]; [by left..|by right|].
    apply (IH s); [done|cbn in Hl; lia|done].
Qed.

Lemma is_mac_no_space s : is_mac s -> (space ∉ s) /\ (forall t, s <> dquote :: t).
Proof.
  intros H. apply andb_prop_elim in H as [Hl H].
  apply Is_true_true, Nat.eqb_eq in Hl.
  assert (forall c, c ∈ s -> hex_digit c \/ c = colon) as Hc by (intros c; by apply (mac_prefix_chars 5)).
  split.
  - intros Hs. by destruct (Hc _ Hs) as [Hd|Hd]; [by vm_compute in Hd|].
  - intros t ->. by destruct (Hc dquote) as [Hd|Hd]; [left|by vm_compute in Hd|].
Qed.

(** ** Reading back what is encoded *)

(** A text that reads as one word. *)
Definition word (w : bytes) : Prop := w <> [] /\ (space ∉ w) /\ (forall t, w <> dquote :: t).

Lemma tokens_word n w : word w -> tokens (S n) w = [Word w].
Proof.
  intros (Hne & Hs & Hq). destruct w as [|c w]; [done|]. cbn [tokens].
  rewrite decide_False by (intros ->; by apply Hs; left).
  rewrite decide_False by (intros ->; by eapply Hq).
  destruct (cut space (c :: w)) as [[h t]|] eqn:Hc; [|done]. exfalso. apply Hs.
  revert Hc. clear. generalize (c :: w) as s. intros s. revert h t.
  induction s as [|d s IH]; intros h t; cbn; [done|].
  destruct (decide (d = space)) as [->|]; [by left|].
  destruct (cut space s) as [[h' t']|] eqn:Hc; [|done]. right. by eapply IH.
Qed.

Lemma tokens_word_cons n w s :
  word w -> tokens (S n) (w ++ space :: s) = Word w :: tokens n s.
Proof.
  intros (Hne & Hs & Hq). destruct w as [|c w]; [done|]. rewrite <- app_comm_cons. cbn [tokens].
  rewrite decide_False by (intros ->; by apply Hs; left).
  rewrite decide_False by (intros ->; by eapply Hq).
  by rewrite app_comm_cons, cut_app.
Qed.

Lemma tokens_quoted n q s :
  dquote ∉ q -> tokens (S n) ([dquote] ++ (q ++ [dquote]) ++ s) = Quoted q :: tokens n s.
Proof. intros Hq. rewrite <- app_assoc. cbn [app tokens]. by rewrite cut_app. Qed.

Lemma tokens_nil n : tokens n [] = [].
Proof. by destruct n. Qed.

Lemma tokens_space n s : tokens (S n) (space :: s) = tokens n s.
Proof. done. Qed.

Lemma int_text_word n : word (int_text n).
Proof.
  destruct (int_text_spec n) as (ds & -> & _ & HF & Hn).
  assert (forall c, c ∈ ds -> is_digit c) as Hd by (by rewrite <- Forall_forall).
  unfold word. destruct ds as [|c ds]; [done|].
  assert (is_digit c) as Hc by (apply Hd; by left).
  assert (space ∉ c :: ds) by (intros Hs%Hd; by vm_compute in Hs).
  destruct (n <? 0); cbn [app]; split_and!; [done|by rewrite not_elem_of_cons|done|done|done|].
  intros t [= -> _]. by vm_compute in Hc.
Qed.

Section EncodeProperties.
Context `{RT : !Runtime, RL : !RuntimeLaws}.

(** Arguments that can be read back: names without spaces, integers, and texts
    without quotes; texts beyond ASCII must not contain a MAC address. *)
Definition readable (arg : term) : Prop :=
  match arg with
  | Atom a => word a /\ a <> bs "nil"
  | Int _ => True
  | Bin s => (dquote ∉ s) /\ (Forall printable s \/ ~ mac_match s)
  | _ => False
  end.

Definition arg_token (arg : term) : token :=
  match arg with
  | Atom a => Word a
  | Int n => Word (int_text n)
  | Bin s => if is_mac s then Word s else Quoted s
  | _ => Word []
  end.

Lemma bare_is_mac s :
  Forall printable s \/ ~ mac_match s -> ((string_length s =? 17)%nat && mac_match s) = is_mac s.
Proof.
  unfold is_mac. intros [Hs|Hs].
  - rewrite string_length_ascii by done. destruct (Nat.eqb_spec (length s) 17); [|done].
    by rewrite mac_match_17.
  - destruct (mac_match s) eqn:Hm; [by destruct Hs|]. rewrite andb_false_r.
    destruct (Nat.eqb_spec (length s) 17); [|done]. by rewrite <- mac_match_17, Hm.
Qed.

(** One argument at the head of a text. *)
Lemma encode_arg_tokens arg :
  readable arg -> exists t, encode_arg arg = Ok t /\
    (forall n, tokens (S n) t = [arg_token arg]) /\
    (forall n s, exists n', (n <= n')%nat /\ tokens (S (S n)) (t ++ space :: s) = arg_token arg :: tokens n' s).
Proof.
  assert (forall w, word w -> (forall n, tokens (S n) w = [Word w]) /\
    (forall n s, exists n', (n <= n')%nat /\ tokens (S (S n)) (w ++ space :: s) = Word w :: tokens n' s)) as Hw.
  { intros w Hw. split; [intros; by apply tokens_word|]. intros n s. exists (S n). split; [lia|].
    by apply tokens_word_cons. }
  destruct arg as [a|n|s| | | |]; cbn [readable]; try done.
  - intros [Ha Hn]. exists a. cbn. rewrite bool_decide_eq_false_2 by done. split; [done|]. by apply Hw.
  - intros _. exists (int_text n). split; [done|]. apply Hw, int_text_word.
  - intros [Hq Hm]. cbn [encode_arg]. rewrite bare_is_mac by done. unfold arg_token.
    destruct (is_mac s) eqn:Hs.
    + exists s. split; [done|]. apply Hw. assert (Is_true (is_mac s)) as [??]%is_mac_no_space by by rewrite Hs.
      split_and!; [by intros ->|done..].
    + eexists. split; [done|]. split.
      * intros n. rewrite <- (app_nil_r (s ++ [dquote])), tokens_quoted, tokens_nil by done. done.
      * intros n s'. exists n. split; [done|]. rewrite <- app_assoc, tokens_quoted by done.
        by rewrite tokens_space.
Qed.

Lemma to_string_word c : word c -> c <> bs "nil" -> to_string (Atom c) = Ok c.
Proof. intros _ Hc. cbn. by rewrite bool_decide_eq_false_2. Qed.

(** The arguments behind the name of a command, each after a space. *)
Definition command_args (args : list term) (s : bytes) : Prop :=
  exists ts, Forall2 (fun a t => encode_arg a = Ok t) args ts /\
    s = concat ((fun t => space :: t) <$> ts).

Lemma command_args_tokens args s n w :
  word w -> Forall readable args -> command_args args s -> (2 * length args < n)%nat ->
  tokens n (w ++ s) = Word w :: (arg_token <$> args).
Proof.
  intros Hw Hargs (ts & Hts & ->) Hn. destruct n as [|n]; [lia|].
  destruct Hts as [|a t args ts Ha Hts]; [cbn [fmap list_fmap concat]; by rewrite app_nil_r, tokens_word|].
  cbn [fmap list_fmap concat app]. rewrite tokens_word_cons by done. f_equal.
  clear w Hw. revert a t n Ha Hargs Hn.
  induction Hts as [|b u args ts Hb Hts IH]; intros a t n Ha [Hr Hargs]%Forall_cons Hn;
    destruct (encode_arg_tokens a Hr) as (t' & Ht & H1 & H2); assert (t' = t) as -> by congruence;
    (destruct n as [|n]; [cbn in Hn; lia|]).
  - cbn [fmap list_fmap concat]. rewrite app_nil_r. apply H1.
  - destruct n as [|n]; [cbn in Hn; lia|]. cbn [fmap list_fmap concat app].
    destruct (H2 n (u ++ concat ((fun t => space :: t) <$> ts))) as (n' & Hn' & ->).
    f_equal. apply IH; [done..|]. cbn in *. lia.
Qed.

(** The answer to an interactive request. *)
Definition is_ctrl_rsp (c : bytes) (args : list term) : bool :=
  bool_decide (c ∈ ctrl_rsp_names) && (length args =? 2)%nat.

Lemma encode_args c args :
  word c -> c <> bs "nil" -> is_ctrl_rsp c args = false -> Forall readable args -> (length args <= 3)%nat ->
  exists s, command_args args s /\
    encode (match args with [] => Atom c | _ => Tuple (Atom c :: args) end) = Ok (c ++ s).
Proof.
  intros Hc Hn Hname Hargs Hl. pose proof (to_string_word c Hc Hn) as Ec.
  assert (exists ts, Forall2 (fun a t => encode_arg a = Ok t) args ts) as [ts Hts].
  { clear Hl Hname. induction Hargs as [|a args Ha _ [ts IH]]; [by eexists|].
    destruct (encode_arg_tokens a Ha) as (t & Ht & _). exists (t :: ts). by constructor. }
  exists (concat ((fun t => space :: t) <$> ts)). split; [by exists ts|].
  destruct Hts as [|a t args ts Ha Hts]; [cbn [fmap list_fmap concat]; rewrite app_nil_r; exact Ec|].
  destruct Hts as [|b u args ts Hb Hts].
  { cbn [encode]. rewrite Ec, Ha. cbn. by rewrite app_nil_r. }
  destruct Hts as [|d v args ts Hd Hts].
  { unfold is_ctrl_rsp in Hname. cbn [length Nat.eqb] in Hname. rewrite andb_true_r in Hname.
    cbn [encode]. rewrite Hname, Ec, Ha, Hb. cbn. by rewrite app_nil_r. }
  destruct Hts; [|cbn in Hl; lia]. cbn [encode]. rewrite Ec, Ha, Hb, Hd. cbn. by rewrite app_nil_r.
Qed.

(** An argument as it is. *)
Definition bare (arg : term) : bytes :=
  match arg with Atom a => a | Int n => int_text n | Bin s => s | _ => [] end.

Lemma to_string_bare arg : readable arg -> to_string arg = Ok (bare arg).
Proof.
  destruct arg as [a|n|s| | | |]; try done. intros [_ Hn]. cbn. by rewrite bool_decide_eq_false_2.
Qed.

Lemma encode_ctrl_rsp c args :
  is_ctrl_rsp c args = true -> Forall readable args ->
  encode (Tuple (Atom c :: args)) = Ok (c ++ concat ((fun a => dash :: bare a) <$> args)).
Proof.
  intros [Hc Hl%Nat.eqb_eq]%andb_prop Hargs. destruct args as [|a [|b [|? ?]]]; try done.
  apply Forall_cons in Hargs as [Ha [Hb _]%Forall_cons]. cbn [encode]. rewrite Hc. unfold ctrl_rsp.
  rewrite !to_string_bare by done. cbn [rbind fmap list_fmap concat app]. by rewrite app_nil_r.
Qed.

(** C19: A command whose name and arguments are free of spaces and quotes where these
    separate is encoded as its name and its arguments, which can be read back: names and
    numbers bare, a MAC address bare, any other text in quotes. The six CTRL-RSP
    commands with two arguments are the exception: name, network and text are joined by
    dashes, the text without quotes. *)
Theorem encode_tokens c args :
  word c -> c <> bs "nil" -> Forall readable args -> (length args <= 3)%nat ->
  exists text, encode (match args with [] => Atom c | _ => Tuple (Atom c :: args) end) = Ok text /\
    if is_ctrl_rsp c args then text = c ++ concat ((fun a => dash :: bare a) <$> args)
    else forall n, (7 <= n)%nat -> tokens n text = Word c :: (arg_token <$> args).
Proof.
  intros Hc Hn Hargs Hl. destruct (is_ctrl_rsp c args) eqn:Hr.
  - exists (c ++ concat ((fun a => dash :: bare a) <$> args)). split; [|done].
    destruct args as [|a args]; [by apply andb_prop in Hr as [_ [=]]|by apply encode_ctrl_rsp].
  - destruct (encode_args c args) as (s & Hs & He); [done..|].
    exists (c ++ s). split; [exact He|]. intros n Hle. apply command_args_tokens; [done..|lia].
Qed.
End EncodeProperties.
