(* ===== verification/ExDecode.v ===== *)
(** * decode.ex: notifications and responses as terms

    [WpaSupplicant.Decode].  A clause of [notif] and of [tresp] is a branch, in
    the order of the source; a match that fails raises.  [shows] relates the values
    of a report to their terms, and [line_error] is what is wrong with a line. *)

From S2P Require Export ExEncode.
Local Open Scope Z_scope.
Local Open Scope elixir_scope.

Definition equals_sign : byte := Eval vm_compute in byte.of_Z 61.

(** [[x, y] = l] and [[x, y, z] = l]. *)
Definition match2 (l : list bytes) : result (bytes * bytes) :=
  match l with [x; y] => Ok (x, y) | _ => Raise MatchError end.
Definition match3 (l : list bytes) : result (bytes * bytes * bytes) :=
  match l with [x; y; z] => Ok (x, y, z) | _ => Raise MatchError end.

(** [s] matches [<< p, _::binary >>]. *)
Definition starts (p s : bytes) : bool :=
  match match_prefix p s with Some _ => true | None => false end.

Section Decode.
Context `{RT : !Runtime}.

Definition notif (string : bytes) : result term :=
  match match_prefix (bs "CTRL-REQ-") string with
  | Some rest =>
      let? (field, net_id, text) := match3 (split_parts dash 2 rest) in
      let? a := to_atom (bs "CTRL-REQ-" ++ field) in
      let? n := to_integer 10 net_id in
      Ok (Tuple [a; Int n; Bin text])
  | None =>
  match match_prefix (bs "CTRL-EVENT-BSS-ADDED") string with
  | Some rest =>
      let? (entry_id, bssid) := match2 (split_trim space rest) in
      let? n := to_integer 10 entry_id in
      Ok (Tuple [Atom (bs "CTRL-EVENT-BSS-ADDED"); Int n; Bin bssid])
  | None =>
  match match_prefix (bs "CTRL-EVENT-BSS-REMOVED") string with
  | Some rest =>
      let? (entry_id, bssid) := match2 (split_trim space rest) in
      let? n := to_integer 10 entry_id in
      Ok (Tuple [Atom (bs "CTRL-EVENT-BSS-REMOVED"); Int n; Bin bssid])
  | None =>
  if starts (bs "CTRL-EVENT-CONNECTED") string then Ok (Atom (bs "CTRL-EVENT-CONNECTED"))
  else if starts (bs "CTRL-EVENT-DISCONNECTED") string then Ok (Atom (bs "CTRL-EVENT-DISCONNECTED"))
  else if starts (bs "CTRL-EVENT-") string then to_atom (rstrip string)
  else if starts (bs "WPS-") string then to_atom (rstrip string)
  else
  match match_prefix (bs "AP-STA-CONNECTED ") string with
  | Some mac => Ok (Tuple [Atom (bs "AP-STA-CONNECTED"); Bin (rstrip mac)])
  | None =>
  match match_prefix (bs "AP-STA-DISCONNECTED ") string with
  | Some mac => Ok (Tuple [Atom (bs "AP-STA-DISCONNECTED"); Bin (rstrip mac)])
  | None => Ok (Tuple [Atom (bs "INFO"); Bin (rstrip string)])
  end end end end end.

(** [kv_value/2]: a value that is no number stays as it is. *)
Definition kv_value2 (value : bytes) (base : Z) : result term :=
  match to_integer base value with
  | Ok n => Ok (Int n)
  | Raise ArgumentError => Ok (Bin value)
  | Raise e => Raise e
  end.

Definition kv_value (value : bytes) : result term :=
  if bool_decide (value = bs "TRUE") then Ok true_
  else if bool_decide (value = bs "FALSE") then Ok false_
  else if bool_decide (value = []) then Ok nil_
  else match match_prefix (bs "0x") value with
       | Some hex => kv_value2 hex 16
       | None => kv_value2 value 10
       end.

Definition kv_pair (acc : gmap bytes term) (p : bytes) : result (gmap bytes term) :=
  let? (key, value) := match2 (split equals_sign p) in
  let? _ := to_atom key in
  let? v := kv_value (rstrip value) in
  Ok (<[key := v]> acc).

(** [List.foldl]. *)
Fixpoint kv_fold (acc : gmap bytes term) (pairs : list bytes) : result (gmap bytes term) :=
  match pairs with
  | [] => Ok acc
  | p :: pairs => let? acc := kv_pair acc p in kv_fold acc pairs
  end.

Definition kv_resp (resp : bytes) : result term :=
  let? m := kv_fold ∅ (split_trim newline resp) in Ok (Map m).

(** The clauses of [tresp] that depend on the request; [None]: none of them
    matches. *)
Definition tresp_req (req : term) (resp : bytes) : option (result term) :=
  match req with
  | Atom r =>
      if bool_decide (r = bs "PING") && bool_decide (resp = bs "PONG") then Some (Ok (Atom (bs "PONG")))
      else if bool_decide (r = bs "MIB") then Some (kv_resp resp)
      else if bool_decide (r = bs "STATUS") then Some (kv_resp resp)
      else if bool_decide (r = bs "STATUS-VERBOSE") then Some (kv_resp resp)
      else if bool_decide (r = bs "INTERFACES") then Some (Ok (List (Bin <$> split newline resp)))
      else if bool_decide (r = bs "ADD_NETWORK") then
        Some (let? n := to_integer 10 resp in Ok (Int n))
      else None
  | Tuple [Atom r; _] =>
      if bool_decide (r = bs "BSS") then
        Some (if bool_decide (resp = []) then Ok nil_ else kv_resp resp)
      else None
  | _ => None
  end.

Definition tresp (req : term) (resp : bytes) : result term :=
  match tresp_req req resp with
  | Some r => r
  | None =>
      if bool_decide (resp = bs "OK") then Ok (Atom (bs "ok"))
      else if bool_decide (resp = bs "FAIL") then Ok (Atom (bs "FAIL"))
      else match match_prefix [dquote] resp with
           | Some string => Ok (Bin (rstrip_char dquote string))
           | None => Ok (Bin resp)
           end
  end.

Definition resp (req : term) (resp : bytes) : result term := tresp req (strip resp).
End Decode.

(** ** Atoms and values *)

(** Membership of a character in a literal. *)
Ltac in_text := apply (bool_decide_unpack _); by vm_compute.

Lemma utf8_ascii s fuel :
  Forall (fun c => byte.unsigned c < 128) s -> (length s <= fuel)%nat ->
  utf8_fuel fuel s = Some (byte.unsigned <$> s).
Proof.
  intros Hs. revert fuel. induction Hs as [|c s Hc _ IH]; intros fuel Hl; [by destruct fuel|].
  destruct fuel as [|fuel]; [cbn in Hl; lia|]. cbn [utf8_fuel utf8_next].
  rewrite (proj2 (Z.ltb_lt _ _)) by done. cbn [mbind option_bind]. rewrite IH by (cbn in Hl; lia). done.
Qed.

Lemma printable_bound c : printable c -> 32 <= byte.unsigned c < 127.
Proof. unfold printable. intros H%Is_true_true. lia. Qed.

Section DecodeProperties.
Context `{RT : !Runtime, RL : !RuntimeLaws}.

(** A name that every runtime makes an atom of. *)
Definition atom_name (s : bytes) : Prop := Forall printable s /\ (length s <= 255)%nat.

Lemma to_atom_name s : atom_name s -> to_atom s = Ok (Atom s).
Proof.
  intros [Hs Hl]. unfold to_atom, codepoints. rewrite utf8_ascii; [|..|done].
  2: { eapply Forall_impl; [exact Hs|]. intros c Hc%printable_bound. lia. }
  rewrite length_fmap. destruct (Nat.ltb_spec 255 (length s)); [lia|].
  replace (forallb _ _) with true; [done|]. symmetry. apply forallb_forall.
  intros n (c & -> & Hc)%list_elem_of_In%list_elem_of_fmap.
  rewrite Forall_forall in Hs. pose proof (printable_bound c (Hs c Hc)).
  pose proof latin1_atoms. lia.
Qed.

(** A value stays within its line, and does not end with white space. *)
Definition value_text (s : bytes) : Prop :=
  (equals_sign ∉ s) /\ (newline ∉ s) /\ (s = [] \/ exists s' c, s = s' ++ [c] /\ graphic c).

(** The number of hexadecimal digits. *)
Definition hex_value (s : bytes) : Z :=
  fold_left (fun n c => n * 16 + match digit_of 16 c with Some v => v | None => 0 end) s 0.

(** The terms that stand for the values of a report.  A text behind [0x] that is no
    hexadecimal number loses the [0x]. *)
Inductive shows : bytes -> term -> Prop :=
| shows_true : shows (bs "TRUE") true_
| shows_false : shows (bs "FALSE") false_
| shows_nil : shows [] nil_
| shows_int n : shows (int_text n) (Int n)
| shows_hex s : s <> [] -> Forall hex_digit s -> shows (bs "0x" ++ s) (Int (hex_value s))
| shows_not_hex s : value_text s -> to_integer 16 s = Raise ArgumentError -> shows (bs "0x" ++ s) (Bin s)
| shows_text s :
    value_text s -> s <> [] -> s <> bs "TRUE" -> s <> bs "FALSE" -> match_prefix (bs "0x") s = None ->
    to_integer 10 s = Raise ArgumentError -> shows s (Bin s).

Lemma rstrip_graphic s c : graphic c -> rstrip (s ++ [c]) = s ++ [c].
Proof. intros Hc. by apply rstrip_blanks. Qed.

Lemma digit_graphic c : is_digit c -> graphic c.
Proof. unfold is_digit, graphic. intros H%Is_true_true. apply Is_true_true. lia. Qed.

Lemma int_text_last n : exists s c, int_text n = s ++ [c] /\ graphic c.
Proof.
  destruct (int_text_spec n) as (ds & -> & _ & HF & Hn).
  destruct ds as [|c ds] using rev_ind; [done|]. apply Forall_app in HF as [_ [Hc _]%Forall_cons].
  eexists _, c. rewrite app_assoc. split; [done|by apply digit_graphic].
Qed.

Lemma int_text_chars n c : c ∈ int_text n -> is_digit c \/ c = dash.
Proof.
  destruct (int_text_spec n) as (ds & -> & _ & HF & _). rewrite elem_of_app, Forall_forall in *.
  intros [H|H]; [|left; auto]. destruct (n <? 0); set_solver.
Qed.

Lemma int_text_not n : int_text n <> bs "TRUE" /\ int_text n <> bs "FALSE" /\ int_text n <> [] /\
  match_prefix (bs "0x") (int_text n) = None.
Proof.
  assert (forall s c, int_text n = s -> c ∈ s -> is_digit c \/ c = dash) as H
    by (intros s c <-; apply int_text_chars).
  split_and!.
  - intros Hs. destruct (H _ Byte.x45 Hs) as [Hd|Hd]; [in_text|by vm_compute in Hd|done].
  - intros Hs. destruct (H _ Byte.x45 Hs) as [Hd|Hd]; [in_text|by vm_compute in Hd|done].
  - destruct (int_text_last n) as (s & c & -> & _). by destruct s.
  - destruct (match_prefix _ _) as [r|] eqn:Hs; [|done]. apply match_prefix_spec in Hs.
    destruct (H _ Byte.x78 Hs) as [Hd|Hd]; [right; left|by vm_compute in Hd|done].
Qed.

(** A value never raises. *)
Lemma read_digits_error base acc s e : read_digits base acc s = Raise e -> e = ArgumentError.
Proof.
  revert acc. induction s as [|c s IH]; intros acc; cbn; [done|].
  destruct (digit_of base c); [apply IH|by intros [= <-]].
Qed.

Lemma to_integer_error base s e : to_integer base s = Raise e -> e = ArgumentError.
Proof.
  assert (forall ds, match ds with [] => Raise ArgumentError | _ => read_digits base 0 ds end = Raise e ->
    e = ArgumentError) as H.
  { intros [|c ds]; [by intros [= <-]|apply read_digits_error]. }
  destruct s as [|c s]; cbn [to_integer]; [by intros [= <-]|].
  destruct (bool_decide (c = dash)).
  - specialize (H s). destruct (match s with [] => _ | _ => _ end); cbn; [done|exact H].
  - destruct (bool_decide (c = Byte.x2b)); [apply H|apply (H (c :: s))].
Qed.

Lemma kv_value_total v : exists t, kv_value v = Ok t.
Proof.
  assert (forall s base, exists t, kv_value2 s base = Ok t) as H.
  { intros s base. unfold kv_value2. destruct (to_integer base s) as [n|e] eqn:E; [by eexists|].
    apply to_integer_error in E as ->. by eexists. }
  unfold kv_value. repeat (case_bool_decide; [by eexists|]). by destruct (match_prefix _ v).
Qed.

(** A text behind [0x] that is no hexadecimal number is kept without it. *)
Lemma kv_value_hex s e :
  to_integer 16 s = Raise e -> kv_value (bs "0x" ++ s) = Ok (Bin s).
Proof.
  intros H. unfold kv_value. rewrite !bool_decide_eq_false_2, match_prefix_app by done.
  unfold kv_value2. rewrite H. by apply to_integer_error in H as ->.
Qed.

Lemma rstrip_value s : value_text s -> rstrip s = s.
Proof. intros (_ & _ & [->|(s' & c & -> & Hc)]); [by vm_compute|by apply rstrip_graphic]. Qed.

Lemma hex_digit_graphic c : hex_digit c -> graphic c.
Proof. unfold hex_digit, graphic. intros H%Is_true_true. apply Is_true_true. lia. Qed.

Lemma hex_digit_of c : hex_digit c -> exists v, digit_of 16 c = Some v.
Proof.
  unfold hex_digit, digit_of. intros H%Is_true_true.
  destruct ((48 <=? _) && _) eqn:H1; [rewrite (proj2 (Z.ltb_lt _ _)) by lia; eauto|].
  destruct ((65 <=? _) && _) eqn:H2; [rewrite (proj2 (Z.ltb_lt _ _)) by lia; eauto|].
  destruct ((97 <=? _) && _) eqn:H3; [rewrite (proj2 (Z.ltb_lt _ _)) by lia; eauto|lia].
Qed.

Lemma read_hex s : Forall hex_digit s -> forall acc,
  read_digits 16 acc s =
    Ok (fold_left (fun n c => n * 16 + match digit_of 16 c with Some v => v | None => 0 end) s acc).
Proof.
  induction 1 as [|c s Hc _ IH]; intros acc; [done|]. cbn [read_digits fold_left].
  destruct (hex_digit_of c Hc) as [v ->]. apply IH.
Qed.

Lemma to_integer_hex s : s <> [] -> Forall hex_digit s -> to_integer 16 s = Ok (hex_value s).
Proof.
  intros Hne Hs. destruct s as [|c s]; [done|]. pose proof (read_hex _ Hs 0) as Hr.
  apply Forall_cons in Hs as [Hc _]. unfold to_integer.
  rewrite !bool_decide_eq_false_2; [exact Hr|intros ->; by vm_compute in Hc..].
Qed.

Lemma hex_value_text s : Forall hex_digit s -> value_text (bs "0x" ++ s).
Proof.
  intros Hs. assert (forall c, c ∈ bs "0x" ++ s -> hex_digit c \/ c = Byte.x78) as Hc.
  { intros c [Hc|Hc]%elem_of_app; [|rewrite Forall_forall in Hs; auto].
    apply elem_of_cons in Hc as [-> |Hc]; [left; by vm_compute|].
    apply elem_of_cons in Hc as [-> |Hc]; [by right|by apply elem_of_nil in Hc]. }
  split_and!; [intros [H|H]%Hc; by vm_compute in H..|]. right.
  destruct (exists_last (l := bs "0x" ++ s)) as (s' & c & E); [done|]. exists s', c. split; [done|].
  destruct (Hc c) as [H| ->]; [rewrite E; apply elem_of_app; right; by left|by apply hex_digit_graphic|by vm_compute].
Qed.

Lemma value_text_0x s : value_text s -> value_text (bs "0x" ++ s).
Proof.
  intros (He & Hn & Hl). unfold value_text. rewrite !not_elem_of_app.
  split_and!; [in_text|done|in_text|done|]. right.
  destruct Hl as [->|(s' & c & -> & Hc)]; [by exists (bs "0"), Byte.x78|].
  exists (bs "0x" ++ s'), c. by rewrite app_assoc.
Qed.

(** The value is read back, and its text does not disturb the lines. *)
Lemma shows_spec s v : shows s v -> kv_value (rstrip s) = Ok v /\ value_text s.
Proof.
  intros H. assert (value_text s) as Hs.
  { destruct H as [| | |n|s Hne Hs|s Hs He|s Hs]; [..|by apply hex_value_text|by apply value_text_0x|done].
    - split_and!; [in_text|in_text|]. right. by exists (bs "TRU"), Byte.x45.
    - split_and!; [in_text|in_text|]. right. by exists (bs "FALS"), Byte.x45.
    - split_and!; [in_text|in_text|by left].
    - split_and!; [intros [Hd|Hd]%int_text_chars; by vm_compute in Hd..|]. right. apply int_text_last. }
  split; [|done]. rewrite rstrip_value by done.
  destruct H as [| | |n|s Hne Hh|s Hv He|s Hv Hne H1 H2 H3 H4]; [by vm_compute..| | | |].
  - destruct (int_text_not n) as (H1 & H2 & H3 & H4).
    unfold kv_value. rewrite !bool_decide_eq_false_2, H4 by done. unfold kv_value2.
    by rewrite to_integer_int_text.
  - unfold kv_value. rewrite !bool_decide_eq_false_2, match_prefix_app by done.
    unfold kv_value2. by rewrite to_integer_hex.
  - by apply kv_value_hex with ArgumentError.
  - unfold kv_value. rewrite !bool_decide_eq_false_2, H3 by done. unfold kv_value2. by rewrite H4.
Qed.

(** ** Reports

    A report is a list of lines [key=value]. *)

Record field : Type := Field { f_key : bytes; f_text : bytes; f_value : term }.

Definition show_pair (p : field) : bytes := f_key p ++ [equals_sign] ++ f_text p.

Definition report (kvs : list field) : bytes :=
  concat ((fun p => show_pair p ++ [newline]) <$> kvs).

(** A key: a name without an equals sign, which does not start with a space. *)
Definition key_name (k : bytes) : Prop :=
  atom_name k /\ (equals_sign ∉ k) /\ exists c k', k = c :: k' /\ graphic c.

Definition plain_pair (p : field) : Prop := key_name (f_key p) /\ shows (f_text p) (f_value p).

Lemma kv_pair_show m p : plain_pair p -> kv_pair m (show_pair p) = Ok (<[f_key p := f_value p]> m).
Proof.
  intros [(Hk & He & _) Hv]. destruct (shows_spec _ _ Hv) as (Hs & He' & _).
  unfold kv_pair, show_pair. cbn [app]. rewrite split_app, split_none by done.
  cbn. by rewrite to_atom_name, Hs.
Qed.

Lemma kv_fold_show kvs m rest :
  Forall plain_pair kvs ->
  kv_fold m ((show_pair <$> kvs) ++ rest) =
    kv_fold (foldl (fun m p => <[f_key p := f_value p]> m) m kvs) rest.
Proof.
  intros H. revert m. induction H as [|p kvs Hp _ IH]; intros m; [done|].
  cbn. rewrite kv_pair_show by done. apply IH.
Qed.

Lemma atom_name_newline k : atom_name k -> newline ∉ k.
Proof.
  intros [Hk _] Hn. rewrite Forall_forall in Hk. apply Hk in Hn. by vm_compute in Hn.
Qed.

Lemma show_pair_line p : plain_pair p -> (newline ∉ show_pair p) /\ show_pair p <> [].
Proof.
  intros [(Hk & _) Hv]. destruct (shows_spec _ _ Hv) as (_ & _ & Hn & _). split.
  - unfold show_pair. rewrite !not_elem_of_app. split; [by apply atom_name_newline|].
    split; [in_text|done].
  - unfold show_pair. by destruct (f_key p).
Qed.

(** The pieces of lines whose last terminator has been stripped. *)
Lemma split_trim_lines c ls l :
  Forall (fun l => (c ∉ l) /\ l <> []) ls -> (c ∉ l) ->
  split_trim c (concat ((fun l => l ++ [c]) <$> ls) ++ l) = ls ++ (if decide (l = []) then [] else [l]).
Proof.
  unfold split_trim. intros H Hl. induction H as [|l' ls [Hc Hne] _ IH].
  - cbn [fmap list_fmap concat app]. rewrite split_none, filter_cons, filter_nil by done.
    by destruct (decide (l = [])), (decide (l <> [])).
  - cbn [fmap list_fmap concat app]. rewrite <- !app_assoc. cbn [app].
    rewrite split_app, filter_cons, decide_True, IH by done. done.
Qed.

Lemma report_lines kvs p :
  Forall plain_pair (kvs ++ [p]) ->
  strip (report (kvs ++ [p])) = concat ((fun l => l ++ [newline]) <$> (show_pair <$> kvs)) ++ show_pair p.
Proof.
  intros H. unfold report, strip. rewrite <- list_fmap_compose.
  change ((fun l => l ++ [newline]) ∘ show_pair) with (fun p => show_pair p ++ [newline]).
  rewrite fmap_app, concat_app. cbn [fmap list_fmap concat]. rewrite app_nil_r.
  set (front := concat _).
  assert (exists c s, front ++ show_pair p ++ [newline] = c :: s /\ graphic c) as (c & s & E & Hc).
  { subst front. destruct kvs as [|q kvs]; apply Forall_cons in H as [[(_ & _ & c & k & Hk & Hc) _] _];
      unfold show_pair; cbn [fmap list_fmap concat app]; rewrite Hk; by eexists c, _. }
  rewrite E, lstrip_graphic, <- E by done. apply Forall_app in H as [_ [Hp _]%Forall_cons].
  assert (exists s c, show_pair p = s ++ [c] /\ graphic c) as (s' & c' & Es & Hc').
  { destruct Hp as [_ Hv]. destruct (shows_spec _ _ Hv) as (_ & _ & _ & [Hs|(s' & c' & Hs & Hc')]);
      unfold show_pair; rewrite Hs; cbn [app]; [by eexists (f_key p), _|].
    exists (f_key p ++ equals_sign :: s'), c'. by rewrite <- app_assoc. }
  rewrite Es, <- app_assoc, app_assoc. cbn [app].
  rewrite rstrip_blanks; [by rewrite app_assoc|done|by repeat constructor].
Qed.

(** The requests whose response is a report. *)
Definition report_request (req : term) : Prop :=
  req = Atom (bs "MIB") \/ req = Atom (bs "STATUS") \/ req = Atom (bs "STATUS-VERBOSE") \/
  exists n, req = Tuple [Atom (bs "BSS"); n].

Lemma resp_report req s : report_request req -> strip s <> [] -> resp req s = kv_resp (strip s).
Proof.
  intros [->|[->|[->|[n ->]]]] Hs; unfold resp, tresp, tresp_req; try done.
  rewrite bool_decide_eq_true_2 by done. by rewrite bool_decide_eq_false_2.
Qed.

Lemma foldl_insert_reverse kvs :
  foldl (fun m p => <[f_key p := f_value p]> m) ∅ kvs =
    list_to_map (reverse ((fun p => (f_key p, f_value p)) <$> kvs)) :> gmap bytes term.
Proof.
  induction kvs as [|p kvs IH] using rev_ind; [done|].
  rewrite foldl_snoc, fmap_app, reverse_app, IH. done.
Qed.


(** *** Malformed reports *)

Definition equals_signs (l : bytes) : nat := length (filter (fun c => c = equals_sign) l).

(** What is wrong with a line: it has no equals sign or more than one, or its key can
    not be made an atom. *)
Definition line_error (l : bytes) : option exn :=
  if (equals_signs l =? 1)%nat then
    match cut equals_sign l with
    | Some (key, _) => match to_atom key with Raise e => Some e | Ok _ => None end
    | None => None
    end
  else Some MatchError.

Lemma split_count c l : length (split c l) = S (length (filter (fun d => d = c) l)).
Proof.
  induction l as [|d l IH]; [done|]. cbn [split]. rewrite filter_cons.
  destruct (decide (d = c)); [cbn; by rewrite IH|]. by destruct (split c l).
Qed.

Lemma split_cut c l : match cut c l with Some (h, t) => split c l = h :: split c t | None => split c l = [l] end.
Proof.
  induction l as [|d l IH]; [done|]. cbn [cut split]. destruct (decide (d = c)); [done|].
  destruct (cut c l) as [[h t]|]; by rewrite IH.
Qed.

Lemma kv_pair_error m l :
  match line_error l with Some e => kv_pair m l = Raise e | None => exists m', kv_pair m l = Ok m' end.
Proof.
  unfold line_error, kv_pair. pose proof (split_count equals_sign l) as Hl.
  pose proof (split_cut equals_sign l) as Hc. fold (equals_signs l) in *.
  destruct (Nat.eqb_spec (equals_signs l) 1) as [E|E].
  - rewrite E in Hl. destruct (cut equals_sign l) as [[key value]|]; [|by rewrite Hc in Hl].
    rewrite Hc in Hl |- *. pose proof (split_cut equals_sign value) as Hv.
    destruct (split equals_sign value) as [|v [|? ?]]; try done. cbn [match2 rbind].
    destruct (to_atom key); [|done]. cbn. destruct (kv_value_total (rstrip v)) as [t ->]. by eexists.
  - by destruct (split equals_sign l) as [|x [|y [|? ?]]]; cbn in Hl; [..|lia|].
Qed.

(** C21: A status report that is not empty is decoded as a map exactly when each of its
    lines has exactly one equals sign and a key that can be an atom; otherwise it raises
    the error of the first line that has not, whatever the lines around it are: a match
    error for a line with no equals sign or several, so that a network name with an
    equals sign, or the answer FAIL, ends the server. The values never raise. *)
Theorem report_malformed req s :
  report_request req -> strip s <> [] ->
  match head (omap line_error (split_trim newline (strip s))) with
  | Some e => resp req s = Raise e
  | None => exists m, resp req s = Ok (Map m)
  end.
Proof.
  intros Hreq Hs. rewrite resp_report by done. unfold kv_resp. generalize (∅ : gmap bytes term) as m.
  induction (split_trim newline (strip s)) as [|l ls IH]; intros m; [by eexists|].
  cbn [kv_fold omap list_omap]. pose proof (kv_pair_error m l) as Hp.
  destruct (line_error l) as [e|]; [by rewrite Hp|]. destruct Hp as [m' ->]. apply IH.
Qed.

(** ** Texts *)

Lemma rstrip_char_quotes s c w :
  c <> dquote -> Forall (fun d => d = dquote) w -> rstrip_char dquote (s ++ c :: w) = s ++ [c].
Proof.
  intros Hc Hw. unfold rstrip_char. rewrite (cons_middle c), app_assoc, rev_app_distr.
  assert (forall n r, strip_all n [[dquote]] (c :: r) = c :: r) as Hend.
  { intros n r. apply strip_all_none. cbn. by rewrite decide_False. }
  rewrite (rev_app_distr s). cbn [rev app].
  assert (Forall (fun d => d = dquote) (rev w)) as Hr by (by apply Forall_rev).
  assert (length (rev w) <= length ((s ++ [c]) ++ w))%nat as Hl by (rewrite length_rev, !length_app; lia).
  revert Hl. generalize (length ((s ++ [c]) ++ w)) as n.
  induction Hr as [|d l -> _ IH]; intros n Hl; cbn [app].
  - rewrite Hend. cbn. by rewrite rev_involutive.
  - destruct n as [|n]; [cbn in Hl; lia|]. cbn [strip_all strip_one match_prefix].
    rewrite decide_True by done. apply IH. cbn in Hl. lia.
Qed.

(** A request whose response is decoded by its own form. *)
Definition text_request (req : term) : Prop := forall r, tresp_req req r = None.

Lemma is_mac_ends s : is_mac s -> exists c t u d, s = c :: t /\ s = u ++ [d] /\ graphic c /\ graphic d /\
  c <> dquote.
Proof.
  intros H. destruct (is_mac_no_space s H) as [_ Hq]. apply andb_prop_elim in H as [Hl H].
  apply Is_true_true, Nat.eqb_eq in Hl.
  assert (forall c, c ∈ s -> graphic c) as Hg.
  { intros c Hc. destruct (mac_prefix_chars 5 s c H Hl Hc) as [Hh| ->]; [by apply hex_digit_graphic|].
    by vm_compute. }
  destruct s as [|c t]; [done|]. destruct (exists_last (l := c :: t)) as (u & d & E); [done|].
  exists c, t, u, d. split_and!; [done|done|apply Hg; by left| |by intros ->; eapply Hq].
  apply Hg. rewrite E. apply elem_of_app. right. by left.
Qed.

Lemma dquote_graphic : graphic dquote.
Proof. by vm_compute. Qed.

(** One line is stripped of its terminator only. *)
Lemma strip_line c t u d :
  c :: t = u ++ [d] -> graphic c -> graphic d -> strip ((c :: t) ++ [newline]) = c :: t.
Proof.
  intros E Hc Hd. unfold strip. cbn [app]. rewrite lstrip_graphic by done.
  rewrite app_comm_cons, E, <- app_assoc. apply rstrip_blanks; [done|by repeat constructor].
Qed.

(** C22: A text that has been sent as an argument and is reported back in the same form
    is decoded as the same text, provided that it does not end with a quote. *)
Theorem text_roundtrip req s t :
  text_request req -> Forall printable s \/ ~ mac_match s -> last s <> Some dquote ->
  encode_arg (Bin s) = Ok t -> resp req (t ++ [newline]) = Ok (Bin s).
Proof.
  intros Hreq Hs Hlast. cbn [encode_arg]. rewrite bare_is_mac by done. unfold resp, tresp.
  destruct (is_mac s) eqn:Hm; intros [= <-]; rewrite Hreq.
  - assert (Is_true (is_mac s)) as H by by rewrite Hm.
    destruct (is_mac_ends s H) as (c & t & u & d & E & E' & Hc & Hd & Hq).
    apply andb_prop_elim in H as [Hl%Is_true_true%Nat.eqb_eq _].
    rewrite E in *. rewrite (strip_line c t u d) by done.
    rewrite !bool_decide_eq_false_2; [|by intros H; rewrite H in Hl..].
    cbn [match_prefix]. by rewrite decide_False.
  - change ([dquote] ++ s ++ [dquote]) with (dquote :: (s ++ [dquote])).
    rewrite (strip_line dquote (s ++ [dquote]) (dquote :: s) dquote) by (done || apply dquote_graphic).
    rewrite !bool_decide_eq_false_2 by done. cbn [match_prefix]. rewrite decide_True by done.
    destruct s as [|c s _] using rev_ind; [done|]. rewrite <- app_assoc. cbn [app].
    rewrite rstrip_char_quotes; [done| |by repeat constructor].
    intros ->. by rewrite last_snoc in Hlast.
Qed.

(** ** Notifications *)

Inductive notification : Type :=
| CtrlReq (field : bytes) (net_id : Z) (text : bytes)
| BssAdded (entry_id : Z) (bssid : bytes)
| BssRemoved (entry_id : Z) (bssid : bytes)
| Connected (args : bytes)
| Disconnected (args : bytes)
| CtrlEvent (type : bytes)
| Wps (type : bytes)
| StaConnected (mac : bytes)
| StaDisconnected (mac : bytes)
| Info (text : bytes).

Definition show_notification (n : notification) : bytes :=
  match n with
  | CtrlReq field id text => bs "CTRL-REQ-" ++ field ++ bs "-" ++ int_text id ++ bs "-" ++ text
  | BssAdded id bssid => bs "CTRL-EVENT-BSS-ADDED " ++ int_text id ++ bs " " ++ bssid
  | BssRemoved id bssid => bs "CTRL-EVENT-BSS-REMOVED " ++ int_text id ++ bs " " ++ bssid
  | Connected args => bs "CTRL-EVENT-CONNECTED" ++ args
  | Disconnected args => bs "CTRL-EVENT-DISCONNECTED" ++ args
  | CtrlEvent type => bs "CTRL-EVENT-" ++ type
  | Wps type => bs "WPS-" ++ type
  | StaConnected mac => bs "AP-STA-CONNECTED " ++ mac
  | StaDisconnected mac => bs "AP-STA-DISCONNECTED " ++ mac
  | Info text => text
  end.

Definition notification_term (n : notification) : term :=
  match n with
  | CtrlReq field id text => Tuple [Atom (bs "CTRL-REQ-" ++ field); Int id; Bin text]
  | BssAdded id bssid => Tuple [Atom (bs "CTRL-EVENT-BSS-ADDED"); Int id; Bin bssid]
  | BssRemoved id bssid => Tuple [Atom (bs "CTRL-EVENT-BSS-REMOVED"); Int id; Bin bssid]
  | Connected _ => Atom (bs "CTRL-EVENT-CONNECTED")
  | Disconnected _ => Atom (bs "CTRL-EVENT-DISCONNECTED")
  | CtrlEvent type => Atom (bs "CTRL-EVENT-" ++ type)
  | Wps type => Atom (bs "WPS-" ++ type)
  | StaConnected mac => Tuple [Atom (bs "AP-STA-CONNECTED"); Bin mac]
  | StaDisconnected mac => Tuple [Atom (bs "AP-STA-DISCONNECTED"); Bin mac]
  | Info text => Tuple [Atom (bs "INFO"); Bin text]
  end.

(** The names that [notif] looks for, in its order. *)
Definition notif_names : list bytes :=
  [bs "CTRL-REQ-"; bs "CTRL-EVENT-BSS-ADDED"; bs "CTRL-EVENT-BSS-REMOVED"; bs "CTRL-EVENT-CONNECTED";
   bs "CTRL-EVENT-DISCONNECTED"; bs "CTRL-EVENT-"; bs "WPS-"; bs "AP-STA-CONNECTED ";
   bs "AP-STA-DISCONNECTED "].

(** A word without white space at its end. *)
Definition trimmed (s : bytes) : Prop := exists s' c, s = s' ++ [c] /\ graphic c.

Definition well_formed (n : notification) : Prop :=
  match n with
  | CtrlReq field id text =>
      atom_name (bs "CTRL-REQ-" ++ field) /\ field <> [] /\ (dash ∉ field) /\ 0 <= id /\ text <> []
  | BssAdded _ bssid | BssRemoved _ bssid => bssid <> [] /\ (space ∉ bssid)
  | Connected _ | Disconnected _ => True
  | CtrlEvent type =>
      atom_name (bs "CTRL-EVENT-" ++ type) /\ trimmed type /\
      Forall (fun p => starts p (bs "CTRL-EVENT-" ++ type) = false) (take 5 notif_names)
  | Wps type => atom_name (bs "WPS-" ++ type) /\ trimmed type
  | StaConnected mac | StaDisconnected mac => trimmed mac
  | Info text => trimmed text /\ Forall (fun p => starts p text = false) notif_names
  end.

Lemma starts_app p s : starts p (p ++ s) = true.
Proof. unfold starts. by rewrite match_prefix_app. Qed.

Lemma starts_none p s : starts p s = false <-> match_prefix p s = None.
Proof. unfold starts. by destruct (match_prefix p s). Qed.

Lemma trimmed_rstrip s : trimmed s -> rstrip s = s.
Proof. intros (s' & c & -> & Hc). by apply rstrip_graphic. Qed.

Lemma trimmed_app p s : trimmed s -> trimmed (p ++ s).
Proof. intros (s' & c & -> & Hc). exists (p ++ s'), c. by rewrite app_assoc. Qed.

Lemma split_bss id bssid :
  bssid <> [] -> (space ∉ bssid) ->
  split_trim space (bs " " ++ int_text id ++ bs " " ++ bssid) = [int_text id; bssid].
Proof.
  intros Hne Hs. unfold split_trim. change (bs " ") with [space].
  assert (space ∉ int_text id) by (intros [Hd|Hd]%int_text_chars; by vm_compute in Hd).
  cbn [app split]. rewrite decide_True, filter_cons, decide_False by (done || intros H'; by apply H').
  rewrite split_app, (split_none _ bssid), !filter_cons, filter_nil by done.
  destruct (int_text_not id) as (_ & _ & Hi & _). by rewrite !decide_True.
Qed.

Lemma split_req field id text :
  field <> [] -> (dash ∉ field) -> 0 <= id -> text <> [] ->
  split_parts dash 2 (field ++ bs "-" ++ int_text id ++ bs "-" ++ text) = [field; int_text id; text].
Proof.
  intros Hne Hf Hid Ht. change (bs "-") with [dash]. cbn [app].
  assert (dash ∉ int_text id) as Hi.
  { destruct (int_text_spec id) as (ds & -> & _ & HF & _). rewrite (proj2 (Z.ltb_ge _ _)) by done.
    cbn [app]. intros Hd. rewrite Forall_forall in HF. apply HF in Hd. by vm_compute in Hd. }
  assert (forall c h t, h <> [] -> c ∉ h -> forall n, strip_all n [[c]] (h ++ t) = h ++ t) as Hstrip.
  { intros c h t Hh Hc n. apply strip_all_none. destruct h as [|d h]; [done|]. cbn.
    rewrite decide_False; [done|]. intros ->. apply Hc. by left. }
  destruct (int_text_not id) as (_ & _ & Hin & _).
  cbn [split_parts]. rewrite Hstrip by done. destruct field as [|c field]; [done|].
  rewrite <- app_comm_cons. rewrite app_comm_cons, cut_app by done.
  rewrite Hstrip by done.
  destruct (int_text id) as [|d ds] eqn:E; [done|].
  rewrite <- app_comm_cons. rewrite app_comm_cons, cut_app by done. by destruct text.
Qed.

(** The clauses of other literals do not match. *)
Ltac other_clauses :=
  unfold notif, starts;
  repeat match goal with
  | |- context [match_prefix (bs ?p) (bs ?q ++ ?s)] =>
      change (match_prefix (bs p) (bs q ++ s)) with (@None bytes)
  end; cbn iota.

(** C23: Each kind of notification is decoded to its term: the requests with their
    field, network and text, the access points with their number and address, the events
    by name, and anything else as information. *)
Theorem notif_roundtrip n :
  well_formed n -> notif (show_notification n) = Ok (notification_term n).
Proof.
  destruct n as [field id text|id bssid|id bssid|args|args|type|type|mac|mac|text];
    cbn [well_formed show_notification notification_term].
  - intros (Ha & Hf & Hd & Hid & Ht). unfold notif. rewrite match_prefix_app.
    rewrite split_req by done. cbn [match3 rbind]. rewrite to_atom_name by done. cbn [rbind].
    by rewrite to_integer_int_text.
  - intros [Hne Hs]. other_clauses.
    change (bs "CTRL-EVENT-BSS-ADDED ") with (bs "CTRL-EVENT-BSS-ADDED" ++ bs " "). rewrite <- app_assoc.
    rewrite match_prefix_app, split_bss by done. cbn [match2 rbind]. by rewrite to_integer_int_text.
  - intros [Hne Hs]. other_clauses.
    change (bs "CTRL-EVENT-BSS-REMOVED ") with (bs "CTRL-EVENT-BSS-REMOVED" ++ bs " "). rewrite <- app_assoc.
    rewrite match_prefix_app, split_bss by done. cbn [match2 rbind]. by rewrite to_integer_int_text.
  - intros _. other_clauses. by rewrite match_prefix_app.
  - intros _. other_clauses. by rewrite match_prefix_app.
  - intros (Ha & Ht & HF). unfold notif_names in HF. cbn [take] in HF. rewrite !Forall_cons in HF.
    destruct HF as (H1 & H2 & H3 & H4 & H5 & _). unfold notif.
    rewrite (proj1 (starts_none _ _) H1), (proj1 (starts_none _ _) H2), (proj1 (starts_none _ _) H3), H4, H5.
    rewrite starts_app, trimmed_rstrip by by apply trimmed_app. by apply to_atom_name.
  - intros [Ha Ht]. other_clauses. rewrite match_prefix_app. cbn iota.
    rewrite trimmed_rstrip by by apply trimmed_app. by apply to_atom_name.
  - intros Ht. other_clauses. rewrite match_prefix_app. cbn iota. by rewrite trimmed_rstrip.
  - intros Ht. other_clauses. rewrite match_prefix_app. cbn iota. by rewrite trimmed_rstrip.
  - intros (Ht & HF). unfold notif_names in HF. rewrite !Forall_cons in HF.
    destruct HF as (H1 & H2 & H3 & H4 & H5 & H6 & H7 & H8 & H9 & _). unfold notif.
    rewrite (proj1 (starts_none _ _) H1), (proj1 (starts_none _ _) H2), (proj1 (starts_none _ _) H3), H4, H5.
    rewrite H6, H7, (proj1 (starts_none _ _) H8), (proj1 (starts_none _ _) H9).
    by rewrite trimmed_rstrip.
Qed.
End DecodeProperties.
