(* ===== verification/ExServer.v ===== *)
(** * wpa_supplicant.ex: the server process

    The callbacks of the GenServer [WpaSupplicant]: commands of its clients go
    to the port, and what the port delivers is an event for the event manager
    or the response to the oldest request.  A callback yields the messages that
    it sends, in order, and the next state, unless the server stops. *)

From S2P Require Export ExDecode.
Local Open Scope Z_scope.
Local Open Scope elixir_scope.

(** [%WpaSupplicant{}]; a client is the [from] of its call. *)
Record server : Type := MkServer { srv_port : Z; srv_manager : Z; requests : list (Z * term) }.

(** The state after [init]. *)
Definition server0 (port manager : Z) : server := MkServer port manager [].

Inductive call_request : Type :=
| Request (command : term)
| EventManager
| UnknownCall.

Inductive message : Type :=
| MCall (from : Z) (c : call_request)
| MData (d : bytes)
| MExitStatus (status : Z)
| MOther.

Inductive effect : Type :=
| Logged (text : bytes)
| PortCommand (port : Z) (payload : bytes)
| Notify (manager : Z) (event : term)
| Reply (client : Z) (value : term)
| Returned (client : Z) (value : term).

Inductive next_state : Type :=
| Running (s : server)
| UnexpectedExit
| Crashed (e : exn).

(** A callback that can raise before it sends anything. *)
Definition or_crash {A} (r : result A) (k : A -> list effect * next_state) : list effect * next_state :=
  match r with Ok a => k a | Raise e => ([], Crashed e) end.

(** [<< "<", _priority::utf8, ">", notification::binary >>]. *)
Definition match_notification (m : bytes) : option bytes :=
  m ← match_prefix (bs "<") m;
  '(_, m) ← utf8_next m;
  match_prefix (bs ">") m.

Section Server.
Context `{RT : !Runtime} (self : Z).

Definition handle_call (c : call_request) (from : Z) (s : server) : list effect * next_state :=
  match c with
  | Request command =>
      or_crash (encode command) (fun payload =>
        ([Logged (bs "WpaSupplicant: sending '" ++ payload ++ bs "'"); PortCommand (srv_port s) payload],
         Running (MkServer (srv_port s) (srv_manager s) (requests s ++ [(from, command)]))))
  | EventManager => ([Returned from (Pid (srv_manager s))], Running s)
  | UnknownCall => ([], Crashed FunctionClauseError)
  end.

Definition handle_wpa (m : bytes) (s : server) : list effect * next_state :=
  match match_notification m with
  | Some notification =>
      or_crash (notif notification) (fun decoded_notif =>
        ([Notify (srv_manager s) (Tuple [Atom (bs "wpa_supplicant"); Pid self; decoded_notif])], Running s))
  | None =>
      match requests s with
      | [] => ([], Crashed MatchError)
      | (client, command) :: next_ones =>
          or_crash (resp command m) (fun decoded_response =>
            ([Reply client decoded_response], Running (MkServer (srv_port s) (srv_manager s) next_ones)))
      end
  end.

Definition handle (m : message) (s : server) : list effect * next_state :=
  match m with
  | MCall from c => handle_call c from s
  | MData d => handle_wpa d s
  | MExitStatus _ => ([], UnexpectedExit)
  | MOther => ([], Crashed FunctionClauseError)
  end.

(** The receive loop of the server. *)
Fixpoint serve (ms : list message) (s : server) : list effect * next_state :=
  match ms with
  | [] => ([], Running s)
  | m :: ms =>
      let '(out, n) := handle m s in
      match n with
      | Running s => let '(out', n) := serve ms s in (out ++ out', n)
      | _ => (out, n)
      end
  end.

(** ** What goes in and out *)

Definition call_of (m : message) : list (Z * term) :=
  match m with MCall from (Request c) => [(from, c)] | _ => [] end.
Definition response_of (m : message) : list bytes :=
  match m with
  | MData d => match match_notification d with Some _ => [] | None => [d] end
  | _ => []
  end.
Definition notification_of (m : message) : list bytes :=
  match m with
  | MData d => match match_notification d with Some n => [n] | None => [] end
  | _ => []
  end.
Definition payload_of (e : effect) : list bytes :=
  match e with PortCommand _ p => [p] | _ => [] end.
Definition event_of (e : effect) : list term :=
  match e with Notify _ t => [t] | _ => [] end.

(** The replies to requests. *)
Definition reply_of (e : effect) : list (Z * term) :=
  match e with Reply c v => [(c, v)] | _ => [] end.

Definition calls (ms : list message) : list (Z * term) := ms ≫= call_of.
Definition responses (ms : list message) : list bytes := ms ≫= response_of.
Definition notifications (ms : list message) : list bytes := ms ≫= notification_of.
Definition payloads (es : list effect) : list bytes := es ≫= payload_of.
Definition events (es : list effect) : list term := es ≫= event_of.
Definition replies (es : list effect) : list (Z * term) := es ≫= reply_of.

(** The reply [r] answers the request with the message [d]. *)
Definition answers (req : Z * term) (d : bytes) (r : Z * term) : Prop :=
  r.1 = req.1 /\ resp req.2 d = Ok r.2.

(** The event that a notification is passed on as. *)
Definition event_for (n : bytes) (e : term) : Prop :=
  exists t, notif n = Ok t /\ e = Tuple [Atom (bs "wpa_supplicant"); Pid self; t].

(** ** Properties

    [serves ms es reqs reqs']: the messages [ms] have been served with the
    effects [es], and the queue has gone from [reqs] to [reqs']. *)
Definition served_in_order (ms : list message) (es : list effect) (reqs reqs' : list (Z * term)) : Prop :=
  Forall2 (fun c p => encode c.2 = Ok p) (calls ms) (payloads es) /\
  Forall2 event_for (notifications ms) (events es) /\
  exists served, reqs ++ calls ms = served ++ reqs' /\
    Forall3 answers served (responses ms) (replies es).

Lemma served_nil reqs : served_in_order [] [] reqs reqs.
Proof. split; [constructor|]. split; [constructor|]. exists []. split; [apply app_nil_r|constructor]. Qed.

Lemma served_app ms1 es1 reqs1 reqs2 ms2 es2 reqs3 :
  served_in_order ms1 es1 reqs1 reqs2 -> served_in_order ms2 es2 reqs2 reqs3 ->
  served_in_order (ms1 ++ ms2) (es1 ++ es2) reqs1 reqs3.
Proof.
  intros (P1 & N1 & l1 & E1 & A1) (P2 & N2 & l2 & E2 & A2).
  unfold served_in_order, calls, payloads, notifications, events, responses, replies in *.
  rewrite !bind_app. split; [by apply Forall2_app|]. split; [by apply Forall2_app|].
  exists (l1 ++ l2). split; [by rewrite app_assoc, E1, <- !app_assoc, E2|by apply Forall3_app].
Qed.

Lemma or_crash_running {A} (r : result A) k es s :
  or_crash r k = (es, Running s) -> exists a, r = Ok a /\ k a = (es, Running s).
Proof. destruct r; [by eauto|done]. Qed.

Lemma handle_served m s es s' :
  handle m s = (es, Running s') -> served_in_order [m] es (requests s) (requests s').
Proof.
  destruct m as [from [c| |]|d|st|]; cbn [handle handle_call]; try done.
  - intros (p & Hp & [= <- <-])%or_crash_running. split; [by repeat constructor|].
    split; [constructor|]. exists []. split; [done|constructor].
  - intros [= <- <-]. split; [constructor|]. split; [constructor|]. exists [].
    split; [apply app_nil_r|constructor].
  - unfold handle_wpa, served_in_order, responses, notifications. cbn [mbind list_bind response_of notification_of].
    destruct (match_notification d) as [n|].
    + intros (t & Ht & [= <- <-])%or_crash_running. split; [constructor|].
      split; [constructor; [by exists t|constructor]|]. exists []. split; [apply app_nil_r|constructor].
    + destruct (requests s) as [|[client cmd] next] eqn:Hs; [done|].
      intros (v & Hv & [= <- <-])%or_crash_running. split; [constructor|]. split; [constructor|].
      exists [(client, cmd)]. split; [cbn; by rewrite app_nil_r|]. by repeat constructor.
Qed.

Lemma serve_cons m ms s es s' :
  serve (m :: ms) s = (es, Running s') ->
  exists es1 s1 es2, handle m s = (es1, Running s1) /\ serve ms s1 = (es2, Running s') /\ es = es1 ++ es2.
Proof.
  cbn. destruct (handle m s) as [es1 [s1| |e]]; [|done..].
  destruct (serve ms s1) as [es2 n] eqn:E. intros [= <- ->]. by exists es1, s1, es2.
Qed.

Lemma serve_served ms s es s' :
  serve ms s = (es, Running s') -> served_in_order ms es (requests s) (requests s').
Proof.
  revert s es. induction ms as [|m ms IH]; intros s es.
  - intros [= <- <-]. apply served_nil.
  - intros (es1 & s1 & es2 & H1 & H2 & ->)%serve_cons.
    apply (served_app [m]) with (requests s1); [by apply handle_served|by apply IH].
Qed.

Lemma serve_app ms1 ms2 s :
  serve (ms1 ++ ms2) s =
    let '(es, n) := serve ms1 s in
    match n with
    | Running s' => let '(es', n) := serve ms2 s' in (es ++ es', n)
    | _ => (es, n)
    end.
Proof.
  revert s. induction ms1 as [|m ms1 IH]; intros s; [cbn; by destruct (serve ms2 s)|].
  cbn. destruct (handle m s) as [es [s'| |e]]; [|done..]. rewrite IH.
  destruct (serve ms1 s') as [es1 [s1| |e]]; [|done..].
  destruct (serve ms2 s1). by rewrite app_assoc.
Qed.

(** The requests are encoded and sent to the port in the order of the calls, the
    notifications are passed on in the order in which they arrive, and the responses
    are decoded for the oldest requests, in order; the other requests wait. *)
Theorem server_fifo port manager ms es s :
  serve ms (server0 port manager) = (es, Running s) ->
  Forall2 (fun c p => encode c.2 = Ok p) (calls ms) (payloads es) /\
  Forall2 event_for (notifications ms) (events es) /\
  exists served, calls ms = served ++ requests s /\ Forall3 answers served (responses ms) (replies es).
Proof. apply serve_served. Qed.

(** Why a server in state [s] stops at a message. *)
Definition stops_at (m : message) (s : server) (n : next_state) : Prop :=
  match m with
  | MCall _ (Request c) => exists e, encode c = Raise e /\ n = Crashed e
  | MCall _ EventManager => False
  | MCall _ UnknownCall | MOther => n = Crashed FunctionClauseError
  | MExitStatus _ => n = UnexpectedExit
  | MData d =>
      match match_notification d with
      | Some text => exists e, notif text = Raise e /\ n = Crashed e
      | None =>
          match requests s with
          | [] => n = Crashed MatchError
          | (_, c) :: _ => exists e, resp c d = Raise e /\ n = Crashed e
          end
      end
  end.

Lemma or_crash_stops {A} (r : result A) k es n :
  or_crash r k = (es, n) -> (forall a, exists s, snd (k a) = Running s) -> (forall s, n <> Running s) ->
  es = [] /\ exists e, r = Raise e /\ n = Crashed e.
Proof.
  intros H Hk Hn. destruct r as [a|e]; cbn in H.
  - destruct (Hk a) as [s Hs]. rewrite H in Hs. by destruct (Hn s).
  - injection H as <- <-. by eauto.
Qed.

Lemma handle_stops m s es n :
  handle m s = (es, n) -> (forall s', n <> Running s') -> es = [] /\ stops_at m s n.
Proof.
  intros H Hn. destruct m as [from [c| |]|d|st|]; cbn [handle handle_call stops_at] in *.
  - apply or_crash_stops in H; [exact H| |done]. by eexists.
  - injection H as <- <-. by destruct (Hn s).
  - by injection H as <- <-.
  - unfold handle_wpa in H. destruct (match_notification d).
    + apply or_crash_stops in H; [exact H| |done]. by eexists.
    + destruct (requests s) as [|[client c] next]; [by injection H as <- <-|].
      apply or_crash_stops in H; [exact H| |done]. by eexists.
  - by injection H as <- <-.
  - by injection H as <- <-.
Qed.

(** The server stops at the first message that it cannot serve: when the port has
    exited, when encoding or decoding raises, or at a response for which no request
    waits; nothing is sent for that message. *)
Theorem server_stops ms s es n :
  serve ms s = (es, n) -> (forall s', n <> Running s') ->
  exists ms1 m ms2 s1, ms = ms1 ++ m :: ms2 /\ serve ms1 s = (es, Running s1) /\ stops_at m s1 n.
Proof.
  revert s es. induction ms as [|m ms IH]; intros s es H Hn; [injection H as <- <-; by destruct (Hn s)|].
  cbn in H. destruct (handle m s) as [es1 n1] eqn:Hm.
  assert ((forall s', n1 <> Running s') -> exists ms1 m' ms2 s1, m :: ms = ms1 ++ m' :: ms2 /\
    serve ms1 s = (es1, Running s1) /\ stops_at m' s1 n1) as Hstop.
  { intros [-> Hs]%(handle_stops m s es1); [|done]. by exists [], m, ms, s. }
  destruct n1 as [s1| |e]; [|by injection H as <- <-; apply Hstop..].
  destruct (serve ms s1) as [es2 n2] eqn:Hms. injection H as <- <-.
  destruct (IH _ _ Hms Hn) as (ms1 & m' & ms2 & s2 & -> & Hs & Hst).
  exists (m :: ms1), m', ms2, s2. split_and!; [done| |done]. cbn. by rewrite Hm, Hs.
Qed.
End Server.
