(* ===== verification/ExClient.v ===== *)
(** * wpa_supplicant.ex: the functions for clients

    [request], [status], [set_network] and [scan] run in the process of a
    client and call the server.  The calls are an event type of their own,
    [clientE]; the program monad is that of the C code.  An exception and an
    exit end the calling process. *)

From S2P Require Export Elixir Prog.
Local Open Scope Z_scope.
Local Open Scope prog_scope.

(** What a stream of events yields: an event, its end, or nothing for the
    60 seconds of the timeout. *)
Inductive stream_item : Type := StreamEvent (t : term) | StreamEnd | StreamTimeout.

(** [CallServer] is [GenServer.call] with a request, [GetManager] the one of
    [event_manager]; no answer means that the server stops, or does not answer
    in time.  [NextEvent] takes the next event of the stream of a manager. *)
Inductive clientE : Type -> Type :=
| CallServer (command : term) : clientE (option term)
| GetManager : clientE (option Z)
| NextEvent (manager : Z) : clientE stream_item.

Abbreviation cprog := (prog clientE unit).
Abbreviation client_trace := (trace clientE).

(** How the calling process ends. *)
Definition exit_status (e : option exn) : Z :=
  match e with
  | None => 1
  | Some MatchError => 2
  | Some FunctionClauseError => 3
  | Some CaseClauseError => 4
  | Some ArgumentError => 5
  | Some SystemLimitError => 6
  | Some UndefinedError => 7
  end.

Definition raise {A} (e : exn) : cprog A := exit_ (exit_status (Some e)).

Definition answer {A} (r : option A) : cprog A :=
  match r with Some a => ret a | None => exit_ (exit_status None) end.

Abbreviation ok_ := (Atom (bs "ok")).

Definition is_ok (t : term) : bool :=
  match t with Atom a => bool_decide (a = bs "ok") | _ => false end.

(** [:ok = r]. *)
Definition match_ok (r : term) : cprog unit := if is_ok r then ret tt else raise MatchError.

Definition request (command : term) : cprog term :=
  let* r := call (CallServer command) in answer r.

Definition event_manager : cprog Z := let* r := call GetManager in answer r.

Definition status : cprog term := request (Atom (bs "STATUS")).

(** [Enum.each] of [set_network]. *)
Fixpoint set_options (netid : term) (options : list (term * term)) : cprog unit :=
  match options with
  | [] => ret tt
  | (key, value) :: options =>
      let* r := request (Tuple [Atom (bs "SET_NETWORK"); netid; key; value]) in
      match_ok r;;; set_options netid options
  end.

Definition set_network (options : list (term * term)) : cprog term :=
  request (Tuple [Atom (bs "REMOVE_NETWORK"); Atom (bs "all")]);;;
  let* netid := request (Atom (bs "ADD_NETWORK")) in
  set_options netid options;;;
  let* r := request (Tuple [Atom (bs "SELECT_NETWORK"); netid]) in
  match_ok r;;; ret ok_.

(** [{:wpa_supplicant, pid, :"CTRL-EVENT-SCAN-RESULTS"}]. *)
Definition scan_results (pid : Z) : term :=
  Tuple [Atom (bs "wpa_supplicant"); Pid pid; Atom (bs "CTRL-EVENT-SCAN-RESULTS")].

Definition is_scan_results (pid : Z) (t : term) : bool :=
  match t with
  | Tuple [Atom a; Pid p; Atom e] =>
      bool_decide (a = bs "wpa_supplicant") && (p =? pid) && bool_decide (e = bs "CTRL-EVENT-SCAN-RESULTS")
  | _ => false
  end.

(** [Enum.take_while]: the first event that fails the test is taken off the
    stream, too. *)
Definition wait_pass (pid manager : Z) (_ : unit) : cprog (unit + unit) :=
  let* item := call (NextEvent manager) in
  match item with
  | StreamEvent t => if is_scan_results pid t then ret (inl tt) else ret (inr tt)
  | StreamEnd => ret (inr tt)
  | StreamTimeout => exit_ (exit_status None)
  end.

Definition wait_for_results (pid manager : Z) : cprog unit := loop (wait_pass pid manager) tt.

(** One call of [all_bss]; it calls itself in tail position. *)
Definition bss_pass (st : Z * list term) : cprog (Z * list term + list term) :=
  let '(count, acc) := st in
  let* result := request (Tuple [Atom (bs "BSS"); Int count]) in
  if truthy result then ret (inl (count + 1, result :: acc)) else ret (inr acc).

Definition all_bss (count : Z) (acc : list term) : cprog (list term) := loop bss_pass (count, acc).

(** [:ok] or ["FAIL-BUSY"]. *)
Definition scan_started (t : term) : bool :=
  match t with
  | Atom a => bool_decide (a = bs "ok")
  | Bin s => bool_decide (s = bs "FAIL-BUSY")
  | _ => false
  end.

Definition scan (pid : Z) : cprog term :=
  let* manager := event_manager in
  let* r := request (Atom (bs "SCAN")) in
  if scan_started r then
    wait_for_results pid manager;;;
    let* l := all_bss 0 [] in
    ret (List l)
  else raise CaseClauseError.

(** ** Properties *)

(** The commands of a trace with their answers. *)
Definition asked_of (ev : event clientE) : list (term * option term) :=
  let '@Ev _ X e x := ev in
  match e in clientE X return X -> list (term * option term) with
  | CallServer c => fun r => [(c, r)]
  | _ => fun _ => []
  end x.

Definition asked (tr : client_trace) : list (term * option term) := tr ≫= asked_of.

Section Client.
Context {W : Type} `{K : !Kernel clientE W}.

Lemma is_ok_true t : is_ok t = true -> t = ok_.
Proof. destruct t; cbn; try done. by case_bool_decide; subst. Qed.

(** The part of a failed run that says why: the last answer was not [:ok]. *)
Definition refused (tr : client_trace) : Prop :=
  exists c a, last (asked tr) = Some (c, a) /\ a <> Some ok_.

Lemma refused_app tr1 tr2 : refused tr2 -> refused (tr1 ++ tr2).
Proof.
  intros (c & a & Hl & Ha). exists c, a. split; [|done].
  unfold asked in *. by rewrite bind_app, last_app, Hl.
Qed.

(** A request with its answer, or the end of the process. *)
Lemma wp_request m c (Q : post term) w s :
  (forall t w', Q [Ev (CallServer c) (Some t)] (Val t) s w') ->
  (forall w', Q [Ev (CallServer c) None] (Exit (exit_status None)) s w') ->
  wp m (request c) Q w s.
Proof.
  intros HQ HX. unfold request, answer. wp_steps. destruct x as [t|]; wp_steps; [apply HQ|apply HX].
Qed.

Lemma wp_match_ok m r (Q : post unit) w s :
  (r = ok_ -> Q [] (Val tt) s w) -> (r <> ok_ -> Q [] (Exit (exit_status (Some MatchError))) s w) ->
  wp m (match_ok r) Q w s.
Proof.
  intros HQ HX. unfold match_ok, raise. destruct (is_ok r) eqn:Hr; wp_steps.
  - apply HQ. by apply is_ok_true.
  - apply HX. intros ->. by vm_compute in Hr.
Qed.

Definition accepted (c : term) : event clientE := Ev (CallServer c) (Some ok_).

Definition set_option (netid : term) (o : term * term) : term :=
  Tuple [Atom (bs "SET_NETWORK"); netid; o.1; o.2].

Lemma wp_set_options m netid options (Q : post unit) w s :
  (forall w', Q (accepted ∘ set_option netid <$> options) (Val tt) s w') ->
  (forall tr z w', refused tr -> Q tr (Exit z) s w') ->
  wp m (set_options netid options) Q w s.
Proof.
  revert Q w s. induction options as [|[key value] options IH]; intros Q w s HQ HX; cbn [set_options].
  - wp_steps. apply HQ.
  - wp_steps. apply wp_request.
    + intros t w'. repeat wp_leaf. wp_steps. apply wp_match_ok; intros Ht; repeat wp_leaf.
      * subst t. apply IH; intros; wp_trace; [apply HQ|by apply HX, (refused_app [_])].
      * wp_trace. apply HX. eexists _, _. split; [done|]. by intros [= ->].
    + intros w'. repeat wp_leaf. wp_trace. apply HX. by eexists _, _.
Qed.

(** [set_network] always ends.  It succeeds exactly when every option and the
    selection have been accepted, in order, for the network that ADD_NETWORK has
    answered; otherwise it ends the process at the first answer that is not [:ok]. *)
Theorem set_network_spec options w s :
  exists tr o w', exec w s (set_network options) tr o s w' /\
    match o with
    | Val r => r = ok_ /\ exists a netid,
        tr = [Ev (CallServer (Tuple [Atom (bs "REMOVE_NETWORK"); Atom (bs "all")])) (Some a);
              Ev (CallServer (Atom (bs "ADD_NETWORK"))) (Some netid)] ++
             (accepted ∘ set_option netid <$> options) ++
             [accepted (Tuple [Atom (bs "SELECT_NETWORK"); netid])]
    | Exit _ => refused tr
    | Ub => False
    end.
Proof.
  enough (wp Totally (set_network options) (fun tr o s' _ => s' = s /\ match o with
    | Val r => r = ok_ /\ exists a netid,
        tr = [Ev (CallServer (Tuple [Atom (bs "REMOVE_NETWORK"); Atom (bs "all")])) (Some a);
              Ev (CallServer (Atom (bs "ADD_NETWORK"))) (Some netid)] ++
             (accepted ∘ set_option netid <$> options) ++
             [accepted (Tuple [Atom (bs "SELECT_NETWORK"); netid])]
    | Exit _ => refused tr
    | Ub => False
    end) w s) as (tr & o & s' & w' & H & -> & Ho) by eauto.
  unfold set_network. wp_steps. apply wp_request; intros; repeat wp_leaf; [|wp_trace; split; [done|by eexists _, _]].
  wp_steps. apply wp_request; intros; repeat wp_leaf; [|wp_trace; split; [done|by eexists _, _]].
  wp_steps. apply wp_set_options; intros; repeat wp_leaf;
    [|wp_trace; split; [done|by apply (refused_app [_; _])]].
  wp_steps. apply wp_request; intros; repeat wp_leaf.
  - wp_steps. apply wp_match_ok; intros Ht; repeat wp_leaf; wp_steps; wp_trace; split; try done.
    + subst. split; [done|]. by eexists _, _.
    + apply (refused_app [_; _]), refused_app. eexists _, _. split; [done|]. by intros [= ->].
  - wp_trace. split; [done|]. apply (refused_app [_; _]), refused_app. by eexists _, _.
Qed.

(** *** Scanning *)

Lemma is_scan_results_true pid t : is_scan_results pid t = true -> t = scan_results pid.
Proof.
  destruct t as [| | |[|[] [|[] [|[] [|]]]]| | |]; cbn; try done.
  intros [[Ha Hp]%andb_true_iff He]%andb_true_iff.
  apply bool_decide_eq_true in Ha, He. apply Z.eqb_eq in Hp. by subst.
Qed.

Lemma is_scan_results_refl pid : is_scan_results pid (scan_results pid) = true.
Proof. cbn. by rewrite Z.eqb_refl. Qed.

(** The events that [scan] waits for: notices of results, and one other item. *)
Definition waited (pid manager : Z) (tr : client_trace) (item : stream_item) : Prop :=
  item <> StreamEvent (scan_results pid) /\
  exists k, tr = replicate k (Ev (NextEvent manager) (StreamEvent (scan_results pid))) ++
                 [Ev (NextEvent manager) item].

Lemma waited_cons pid manager tr item :
  waited pid manager tr item ->
  waited pid manager (Ev (NextEvent manager) (StreamEvent (scan_results pid)) :: tr) item.
Proof. intros (Hi & k & ->). split; [done|]. by exists (S k). Qed.

(** The answers to [BSS 0], [BSS 1] and so on. *)
Definition bss_event (i : nat) (v : term) : event clientE :=
  Ev (CallServer (Tuple [Atom (bs "BSS"); Int (Z.of_nat i)])) (Some v).

(** One pass of each loop. *)
Lemma wp_wait_pass m pid manager (Q : post (unit + unit)) w s :
  (forall w', kstep (NextEvent manager) w = (StreamEvent (scan_results pid), w') ->
     Q [Ev (NextEvent manager) (StreamEvent (scan_results pid))] (Val (inl tt)) s w') ->
  (forall item w', item <> StreamEvent (scan_results pid) -> item <> StreamTimeout ->
     Q [Ev (NextEvent manager) item] (Val (inr tt)) s w') ->
  (forall w', Q [Ev (NextEvent manager) StreamTimeout] (Exit (exit_status None)) s w') ->
  wp m (wait_pass pid manager tt) Q w s.
Proof.
  intros H1 H2 H3. unfold wait_pass. wp_steps. destruct x as [t| |]; wp_steps; [|by apply H2|by apply H3].
  destruct (is_scan_results pid t) eqn:Ht; wp_steps.
  - apply is_scan_results_true in Ht as ->. by apply H1.
  - apply H2; [|done]. intros [= ->]. by rewrite is_scan_results_refl in Ht.
Qed.

Lemma wp_bss_pass m count acc (Q : post (Z * list term + list term)) w s :
  (forall v w', truthy v = true ->
     kstep (CallServer (Tuple [Atom (bs "BSS"); Int count])) w = (Some v, w') ->
     Q [Ev (CallServer (Tuple [Atom (bs "BSS"); Int count])) (Some v)] (Val (inl (count + 1, v :: acc))) s w') ->
  (forall v w', truthy v = false ->
     Q [Ev (CallServer (Tuple [Atom (bs "BSS"); Int count])) (Some v)] (Val (inr acc)) s w') ->
  (forall w', Q [Ev (CallServer (Tuple [Atom (bs "BSS"); Int count])) None] (Exit (exit_status None)) s w') ->
  wp m (bss_pass (count, acc)) Q w s.
Proof.
  intros H1 H2 H3. unfold bss_pass, request, answer. wp_steps. destruct x as [v|]; wp_steps; [|apply H3].
  destruct (truthy v) eqn:Hv; wp_steps; [by apply H1|by apply H2].
Qed.

Lemma wp_wait pid manager (Q : post unit) w s :
  (forall tr item w', waited pid manager tr item -> Q tr (Val tt) s w') ->
  (forall tr z w', Q tr (Exit z) s w') ->
  wp Partly (wait_for_results pid manager) Q w s.
Proof.
  intros HQ HX. unfold wait_for_results.
  apply (wp_loop_partial _ (fun tr _ s' _ => s' = s /\
    exists k, tr = replicate k (Ev (NextEvent manager) (StreamEvent (scan_results pid)))) Q) with (tr0 := []);
    [|split; [done|by exists 0%nat]].
  intros tr w1 s1 [] [-> [k ->]]. apply wp_wait_pass; unfold loop_post; intros; cbn [app].
  - split; [|done]. split; [done|]. exists (S k). by rewrite replicate_S_end.
  - eapply HQ. split; [done|]. by exists k.
  - apply HX.
Qed.

Lemma wp_all_bss (Q : post (list term)) w s :
  (forall vs v w', Forall truthy vs -> truthy v = false ->
     Q (imap bss_event vs ++ [bss_event (length vs) v]) (Val (reverse vs)) s w') ->
  (forall tr z w', Q tr (Exit z) s w') ->
  wp Partly (all_bss 0 []) Q w s.
Proof.
  intros HQ HX. unfold all_bss.
  apply (wp_loop_partial _ (fun tr _ s' '(count, acc) => s' = s /\ exists vs, Forall truthy vs /\
    tr = imap bss_event vs /\ count = Z.of_nat (length vs) /\ acc = reverse vs) Q) with (tr0 := []);
    [|split; [done|by exists []]].
  intros tr w1 s1 [count acc] (-> & vs & Hvs & -> & -> & ->).
  apply wp_bss_pass; unfold loop_post; intros; cbn [app].
  - split; [|done]. split; [done|]. exists (vs ++ [v]). split_and!.
    + apply Forall_app_2; [done|]. constructor; [by apply Is_true_true|done].
    + rewrite imap_app. cbn. unfold bss_event. by rewrite Nat.add_0_r.
    + rewrite length_app. cbn. lia.
    + by rewrite reverse_snoc.
  - by apply HQ.
  - apply HX.
Qed.

Lemma scan_started_true t : scan_started t = true -> t = ok_ \/ t = Bin (bs "FAIL-BUSY").
Proof. destruct t; cbn; try done; intros H%bool_decide_eq_true; subst; auto. Qed.

(** A scan that succeeds. *)
Definition scanned (pid : Z) (tr : client_trace) (r : term) : Prop :=
  exists manager started waiting item vs v,
    tr = [Ev GetManager (Some manager); Ev (CallServer (Atom (bs "SCAN"))) (Some started)] ++
         waiting ++ imap bss_event vs ++ [bss_event (length vs) v] /\
    (started = ok_ \/ started = Bin (bs "FAIL-BUSY")) /\
    waited pid manager waiting item /\
    Forall truthy vs /\ truthy v = false /\ r = List (reverse vs).

(** C24: A scan that succeeds has asked for a scan, has taken events as long as they
    announce results and one item more, and answers the access points from 0 to the
    first unknown one, in reverse; so the first event that is not the announcement ends
    the wait. *)
Theorem scan_spec pid w s tr o s' w' :
  exec w s (scan pid) tr o s' w' ->
  match o with Val r => scanned pid tr r | Exit _ => True | Ub => False end.
Proof.
  revert tr o s' w'. change (wp Partly (scan pid) (fun tr o _ _ =>
    match o with Val r => scanned pid tr r | Exit _ => True | Ub => False end) w s).
  unfold scan, event_manager. wp_steps. unfold answer. destruct x as [manager|]; wp_steps; [|done].
  apply wp_request; intros; repeat wp_leaf; [|done].
  destruct (scan_started t) eqn:Ht; [|unfold raise; by wp_steps].
  wp_steps. apply wp_wait; [|done]. intros waiting item w2 Hw. repeat wp_leaf.
  wp_steps. apply wp_all_bss; [|done]. intros vs v w3 Hvs Hv. repeat wp_leaf. wp_steps. wp_trace.
  exists manager, t, waiting, item, vs, v. split_and!; try done. by apply scan_started_true.
Qed.

(** An environment with finitely many events and access points: the loops of
    [scan] end. *)
Class FiniteScan : Type := {
  events_left : W -> nat;
  known_bss : Z;
  event_taken : forall w m t w', kstep (NextEvent m) w = (StreamEvent t, w') -> (events_left w' < events_left w)%nat;
  bss_end : forall w n v w', known_bss <= n ->
    kstep (CallServer (Tuple [Atom (bs "BSS"); Int n])) w = (Some v, w') -> truthy v = false
}.

Context `{!FiniteScan}.

Lemma wp_wait_total pid manager (Q : post unit) w s :
  (forall tr o w', o <> Ub -> Q tr o s w') ->
  wp Totally (wait_for_results pid manager) Q w s.
Proof.
  intros HQ. unfold wait_for_results.
  apply (wp_loop_total _ (fun _ _ s' _ => s' = s) (fun _ w' _ _ => events_left w') Q) with (tr0 := []); [|done].
  intros tr w1 s1 [] ->. apply wp_wait_pass; unfold loop_post; intros; cbn [app].
  - split; [done|]. by eapply event_taken.
  - by apply HQ.
  - by apply HQ.
Qed.

Lemma wp_all_bss_total (Q : post (list term)) w s :
  (forall tr o w', o <> Ub -> Q tr o s w') ->
  wp Totally (all_bss 0 []) Q w s.
Proof.
  intros HQ. unfold all_bss.
  apply (wp_loop_total _ (fun _ _ s' '(n, _) => s' = s) (fun _ _ _ '(n, _) => Z.to_nat (known_bss - n)) Q)
    with (tr0 := []); [|done].
  intros tr w1 s1 [n acc] ->. apply wp_bss_pass; unfold loop_post; [intros v w' Hv Hk|intros v w' Hv|intros w']; cbn [app].
  - split; [done|]. destruct (decide (known_bss <= n)) as [Hn|]; [|lia].
    by rewrite (bss_end _ _ _ _ Hn Hk) in Hv.
  - by apply HQ.
  - by apply HQ.
Qed.

(** With finitely many events and access points a scan ends, with a list or
    with the end of the process. *)
Theorem scan_ends pid w s :
  exists tr o s' w', exec w s (scan pid) tr o s' w' /\ (o <> Ub).
Proof.
  change (wp Totally (scan pid) (fun _ o _ _ => o <> Ub) w s).
  unfold scan, event_manager. wp_steps. unfold answer. destruct x as [manager|]; wp_steps; [|done].
  apply wp_request; intros; repeat wp_leaf; [|done].
  destruct (scan_started t); [|unfold raise; by wp_steps].
  wp_steps. apply wp_wait_total. intros tr [[]|z|] w2 Ho; repeat wp_leaf; [|done..].
  wp_steps. apply wp_all_bss_total. intros tr2 [l|z|] w3 Ho2; repeat wp_leaf; [by wp_steps|done..].
Qed.
End Client.
