(* ===== verification/WpaEx.v ===== *)
(** * wpa_ex.c: the port program

    The program relays between Erlang (standard input and output, framed) and
    wpa_supplicant (the control connection).  The file's static variables are
    the record [port], passed from call to call; [erl_buffer] and [wpa_buffer]
    are arrays of [BUFFER_SIZE] bytes, and an access outside them is the
    outcome [Ub]. *)

From S2P Require Export CtrlOpen CtrlReply Framing.
Local Open Scope Z_scope.
Local Open Scope prog_scope.

Definition BUFFER_SIZE : nat := 2048.
Definition EXIT_FAILURE : Z := 1.
Definition EXIT_SUCCESS : Z := 0.
Definition STDIN_FILENO : Z := 0.
Definition STDOUT_FILENO : Z := 1.

Record port : Type := MkPort {
  ctrl : wpa_ctrl;
  erl_buffer_ix : Z;
  erl_buffer : bytes;
  wpa_buffer : bytes
}.

(** The static buffers when the program starts. *)
Definition port0 (c : wpa_ctrl) : port := MkPort c 0 (zeros BUFFER_SIZE) (zeros BUFFER_SIZE).

Definition set_ix (p : port) (ix : Z) : port :=
  MkPort (ctrl p) ix (erl_buffer p) (wpa_buffer p).
Definition set_erl_buffer (p : port) (b : bytes) : port :=
  MkPort (ctrl p) (erl_buffer_ix p) b (wpa_buffer p).
Definition set_wpa_buffer (p : port) (b : bytes) : port :=
  MkPort (ctrl p) (erl_buffer_ix p) (erl_buffer p) b.

(** [len] bytes of the object [buf] from [off] on. *)
Definition slice (buf : bytes) (off len : Z) : option bytes :=
  if decide (0 <= off /\ 0 <= len /\ off + len <= Z.of_nat (length buf))
  then Some (take (Z.to_nat len) (drop (Z.to_nat off) buf)) else None.

(** [err] and [errx]: a message on standard error and the end of the process. *)
Definition err {A} (msg : bytes) : sprog A := call (Stderr msg);;; exit_ EXIT_FAILURE.

Definition send_to_erl (msg : bytes) (len : Z) : sprog unit :=
  let* data := lift (slice msg 0 len) in
  let iov := [be16 (len mod 65536); data] in
  loop (fun _ : unit =>
    let* r := call (Writev STDOUT_FILENO iov) in
    match r with
    | SErr EINTR => ret (inl tt)
    | SErr _ => err (bs "writev")
    | SOk amount_written =>
        if negb (amount_written =? len + 2) then err (bs "not enough bytes written")
        else ret (inr tt)
    end) tt.

Definition do_wpa_request (p : port) (cmd : bytes) : sprog port :=
  let* r := wpa_ctrl_request (ctrl p) cmd (wpa_buffer p) (Z.of_nat BUFFER_SIZE)
              (Some send_to_erl) in
  let '(r, wpa_buffer, reply_len) := r in
  if r <? 0 then err (bs "wpa_ctrl_request")
  else
    send_to_erl wpa_buffer reply_len;;;
    ret (set_wpa_buffer p wpa_buffer).

(** The result is the number of bytes of the buffer that are done with. *)
Definition try_dispatch (p : port) : sprog (port * Z) :=
  if erl_buffer_ix p <? 2 then ret (p, 0)
  else
    let* hl := lift (slice (erl_buffer p) 0 2) in
    let msglen := of_be16 (nth 0 hl nul) (nth 1 hl nul) in
    if Z.of_nat BUFFER_SIZE <? msglen + 2 then err (bs "Message too long")
    else if erl_buffer_ix p <? msglen + 2 then ret (p, 0)
    else
      let* cmd := lift (slice (erl_buffer p) 2 msglen) in
      let* p := do_wpa_request p cmd in
      ret (p, msglen + 2).

(** One pass of the dispatch loop of [process_erl]. *)
Definition dispatch_pass (p : port) : sprog (port + port) :=
  let* r := try_dispatch p in
  let '(p, bytes_processed) := r in
  if bytes_processed =? 0 then ret (inr p)
  else if bytes_processed <? erl_buffer_ix p then
    let* rest := lift (slice (erl_buffer p) bytes_processed (erl_buffer_ix p - bytes_processed)) in
    let* b := lift (store_bytes (erl_buffer p) 0 rest) in
    ret (inl (set_ix (set_erl_buffer p b) (erl_buffer_ix p - bytes_processed)))
  else ret (inr (set_ix p 0)).

Definition process_erl (p : port) : sprog port :=
  let* r := call (Read STDIN_FILENO (Z.of_nat BUFFER_SIZE - erl_buffer_ix p)) in
  match r with
  | SErr EINTR => ret p
  | SErr _ => err (bs "read")
  | SOk [] => exit_ EXIT_SUCCESS
  | SOk d =>
      let* b := lift (store_bytes (erl_buffer p) (Z.to_nat (erl_buffer_ix p)) d) in
      loop dispatch_pass (set_ix (set_erl_buffer p b) (erl_buffer_ix p + Z.of_nat (length d)))
  end.

(** One pass of the loop of [process_wpa]. *)
Definition wpa_pass (p : port) : sprog (port + port) :=
  let* pending := wpa_ctrl_pending (ctrl p) in
  if pending =? 0 then ret (inr p)
  else
    let* r := wpa_ctrl_recv (ctrl p) (wpa_buffer p) (Z.of_nat BUFFER_SIZE) in
    let '(r, wpa_buffer, reply_len) := r in
    if r <? 0 then err (bs "wpa_ctrl_recv")
    else
      send_to_erl wpa_buffer reply_len;;;
      ret (inl (set_wpa_buffer p wpa_buffer)).

Definition process_wpa (p : port) : sprog port := loop wpa_pass p.

(** The [revents] bits of [poll]. *)
Definition POLLIN : Z := 1.
Definition POLLHUP : Z := 16.

(** One turn of the main loop. *)
Definition main_turn (p : port) : sprog port :=
  let* rc := call (Poll STDIN_FILENO (wpa_ctrl_get_fd (ctrl p))) in
  match rc with
  | SErr EINTR => ret p
  | SErr _ => err (bs "poll")
  | SOk (re0, re1) =>
      let* p := (if negb (Z.land re0 (Z.lor POLLIN POLLHUP) =? 0) then process_erl p else ret p) in
      if negb (Z.land re1 POLLIN =? 0) then process_wpa p else ret p
  end.

(** [main] up to its loop: the connection is opened and attached to. *)
Definition main_start (argv : list bytes) : sprog port :=
  match argv with
  | [_; path] =>
      let* c := wpa_ctrl_open (Some path) in
      match c with
      | None => err (bs "Couldn't open")
      | Some c =>
          let* r := wpa_ctrl_attach c in
          if r <? 0 then err (bs "wpa_ctrl_attach") else ret (port0 c)
      end
  | _ => err (bs "<path to supplicant control pipe>")
  end.

(** The whole program; [argv] are the objects that the arguments point to. *)
Definition main (argv : list bytes) : sprog Empty_set :=
  let* p := main_start argv in
  loop (fun p => let* p := main_turn p in ret (inl p)) p.
