(* ===== verification/Relay.v ===== *)
(** * The relay as an abstract machine

    What the port program promises, as a deterministic machine over the visible
    actions (bytes in, bytes out, commands sent, datagrams received): one
    command at a time, taken from the head of the input; the messages that
    arrive while its reply is awaited are passed on at once, and the reply ends
    the wait; nothing is read while a complete command is pending; every
    datagram is written out in full before the next action.  PortRelay,
    PortLoop and PortMain show that the program implements the machine. *)

From S2P Require Export WpaEx.
Local Open Scope Z_scope.

(** Where the relay stands; [Writing out awaiting] has the bytes [out] still to
    write, and awaits a reply after them or not. *)
Inductive phase : Type :=
| Detached
| Attaching
| Idle
| Awaiting
| Writing (out : bytes) (awaiting : bool)
| Stopped.

(** [pending] are the bytes of the input that are not dispatched yet. *)
Record relay : Type := MkRelay { pending : bytes; phase_of : phase }.

Definition relay0 : relay := MkRelay [] Detached.

(** The message at the head of a stream, if it is complete, and the rest. *)
Definition head_message (b : bytes) : option (bytes * bytes) :=
  match b with
  | h :: l :: b =>
      let n := Z.to_nat (of_be16 h l) in
      if decide (n <= length b)%nat then Some (take n b, drop n b) else None
  | _ => None
  end.

Definition written (awaiting : bool) (out : bytes) : phase :=
  match out with
  | [] => if awaiting then Awaiting else Idle
  | _ => Writing out awaiting
  end.

(** What is passed on of a datagram that arrives while a reply is awaited. *)
Definition passed_on (d : bytes) : bytes :=
  if unsolicited d then delivered (Z.of_nat BUFFER_SIZE) d else d.

(** One action of the relay; an action that is out of place is refused. *)
Definition relay_next (r : relay) (a : action) : option relay :=
  let '(MkRelay pend ph) := r in
  match ph, a with
  | Detached, Cmd m =>
      if decide (m = bs "ATTACH") then Some (MkRelay pend Attaching) else None
  | Attaching, Dgram d => Some (MkRelay pend
      (if unsolicited d then Attaching else if decide (d = ok_reply) then Idle else Stopped))
  | Idle, Inp d =>
      match head_message pend with
      | None => Some (MkRelay (pend ++ d) Idle)
      | Some _ => None
      end
  | Idle, Cmd m =>
      match head_message pend with
      | Some (m', rest) => if decide (m = m') then Some (MkRelay rest Awaiting) else None
      | None => None
      end
  | Idle, Dgram d =>
      match head_message pend with
      | None => Some (MkRelay pend (written false (frame d)))
      | Some _ => None
      end
  | Awaiting, Dgram d => Some (MkRelay pend (written (unsolicited d) (frame (passed_on d))))
  | Writing (b :: out) awaiting, Out b' =>
      if decide (b = b') then Some (MkRelay pend (written awaiting out)) else None
  | _, _ => None
  end.

Fixpoint relay_run (r : relay) (acts : list action) : option relay :=
  match acts with
  | [] => Some r
  | a :: acts => r' ← relay_next r a; relay_run r' acts
  end.

Lemma relay_run_app r acts1 acts2 :
  relay_run r (acts1 ++ acts2) = (r' ← relay_run r acts1; relay_run r' acts2).
Proof.
  revert r. induction acts1 as [|a acts1 IH]; intros r; [done|].
  cbn. destruct (relay_next r a) as [r'|]; [|done]. apply IH.
Qed.

Lemma relay_run_prefix r acts1 acts2 :
  is_Some (relay_run r (acts1 ++ acts2)) -> is_Some (relay_run r acts1).
Proof. rewrite relay_run_app. destruct (relay_run r acts1); [by eexists|by intros [? ?]]. Qed.

(** ** The head message *)

Lemma head_message_frame msg rest :
  fits16 msg -> head_message (frame msg ++ rest) = Some (msg, rest).
Proof.
  unfold fits16, frame, be16. intros Hm. cbn [app head_message]. rewrite of_be16_be16, Nat2Z.id by lia.
  rewrite decide_True by (rewrite length_app; lia).
  by rewrite take_app_length, drop_app_length.
Qed.

Lemma head_message_none b : fst (unframe b) = [] -> head_message b = None.
Proof.
  destruct b as [|h [|l b]]; [done..|]. cbn -[of_be16].
  destruct (decide _) as [Hn|]; [|done]. by erewrite unframe_cons.
Qed.

(** ** Runs of the relay *)

(** Writing a frame out, or a part of it. *)
Lemma relay_writes pend aw out rest :
  relay_run (MkRelay pend (written aw (out ++ rest))) (Out <$> out) =
    Some (MkRelay pend (written aw rest)).
Proof.
  induction out as [|b out IH]; [done|]. cbn. rewrite decide_True by done. exact IH.
Qed.

(** A datagram, once it is settled how it is written out. *)
Lemma relay_forwards pend ph aw d out rest :
  relay_next (MkRelay pend ph) (Dgram d) = Some (MkRelay pend (written aw (out ++ rest))) ->
  relay_run (MkRelay pend ph) (Dgram d :: (Out <$> out)) = Some (MkRelay pend (written aw rest)).
Proof. intros H. cbn [relay_run]. rewrite H. apply relay_writes. Qed.

(** The messages that arrive while a reply is awaited. *)
Lemma relay_deliveries pend evs :
  Forall unsolicited evs ->
  relay_run (MkRelay pend Awaiting) (deliveries (Z.of_nat BUFFER_SIZE) frame evs) =
    Some (MkRelay pend Awaiting).
Proof.
  induction 1 as [|d evs Hu _ IH]; [done|].
  unfold deliveries. cbn [fmap list_fmap concat]. rewrite relay_run_app.
  rewrite (relay_forwards _ _ true _ _ []); [exact IH|].
  cbn [relay_next]. unfold passed_on. rewrite app_nil_r. by destruct (unsolicited d).
Qed.

(** The run of a request: the command, messages, and a datagram that is
    written out up to [rest']. *)
Lemma relay_request msg rest evs d out rest' :
  fits16 msg -> Forall unsolicited evs -> frame (passed_on d) = out ++ rest' ->
  relay_run (MkRelay (frame msg ++ rest) Idle)
    (Cmd msg :: deliveries (Z.of_nat BUFFER_SIZE) frame evs ++ Dgram d :: (Out <$> out)) =
    Some (MkRelay rest (written (unsolicited d) rest')).
Proof.
  intros Hm HF Hd. cbn [relay_run relay_next]. rewrite head_message_frame, decide_True by done.
  cbn [mbind option_bind]. rewrite relay_run_app, relay_deliveries by done. cbn [mbind option_bind].
  apply relay_forwards. cbn [relay_next]. by rewrite Hd.
Qed.

(** A request that breaks off before a datagram. *)
Lemma relay_unanswered msg rest evs :
  fits16 msg -> Forall unsolicited evs ->
  is_Some (relay_run (MkRelay (frame msg ++ rest) Idle)
    (Cmd msg :: deliveries (Z.of_nat BUFFER_SIZE) frame evs)).
Proof.
  intros Hm HF. eapply (relay_run_prefix _ _ (Dgram [] :: (Out <$> []))).
  rewrite <- app_comm_cons. by erewrite relay_request.
Qed.

(** The attachment. *)
Lemma relay_attaching evs :
  Forall unsolicited evs ->
  relay_run relay0 (Cmd (bs "ATTACH") :: (Dgram <$> evs)) = Some (MkRelay [] Attaching).
Proof.
  intros HF. cbn [relay_run relay_next relay0]. rewrite decide_True by done. cbn [mbind option_bind].
  induction HF as [|d evs Hu _ IH]; [done|]. cbn. destruct (unsolicited d); [exact IH|done].
Qed.

Lemma relay_attached tr : attached tr -> relay_run relay0 (actions tr) = Some (MkRelay [] Idle).
Proof.
  intros (_ & _ & _ & evs & HF & _ & ->). rewrite app_comm_cons, relay_run_app, relay_attaching by done.
  done.
Qed.

Lemma relay_refused tr : attach_refused tr -> is_Some (relay_run relay0 (actions tr)).
Proof.
  intros [-> |(evs & HF & [-> |(d & _ & _ & ->)])]; [by eexists|..].
  - rewrite relay_attaching by done. by eexists.
  - rewrite app_comm_cons, relay_run_app, relay_attaching by done. by eexists.
Qed.

(** ** Traces as runs

    [serves pend tr pend']: the trace is a run from one idle state to another;
    [stops pend tr]: it is a run from an idle state. *)

Definition serves (pend : bytes) (tr : sys_trace) (pend' : bytes) : Prop :=
  relay_run (MkRelay pend Idle) (actions tr) = Some (MkRelay pend' Idle).

Definition stops (pend : bytes) (tr : sys_trace) : Prop :=
  is_Some (relay_run (MkRelay pend Idle) (actions tr)).

Lemma serves_quiet pend tr : quiet tr -> serves pend tr pend.
Proof. intros H%quiet_actions. unfold serves. by rewrite H. Qed.

Lemma serves_app pend1 tr1 pend2 tr2 pend3 :
  serves pend1 tr1 pend2 -> serves pend2 tr2 pend3 -> serves pend1 (tr1 ++ tr2) pend3.
Proof. unfold serves. intros H1 H2. autorewrite with wpa. by rewrite relay_run_app, H1. Qed.

Lemma stops_app pend1 tr1 pend2 tr2 :
  serves pend1 tr1 pend2 -> stops pend2 tr2 -> stops pend1 (tr1 ++ tr2).
Proof. unfold serves, stops. intros H1 H2. autorewrite with wpa. by rewrite relay_run_app, H1. Qed.

Lemma serves_stops pend1 tr pend2 : serves pend1 tr pend2 -> stops pend1 tr.
Proof. intros H. by eexists. Qed.

Lemma stops_quiet pend tr : quiet tr -> stops pend tr.
Proof. intros H. by eapply serves_stops, serves_quiet. Qed.
#[export] Hint Resolve serves_quiet serves_app stops_app serves_stops stops_quiet : wpa.

Lemma serves_read pend fd n d :
  fst (unframe pend) = [] -> d <> [] -> serves pend [Ev (Read fd n) (SOk d)] (pend ++ d).
Proof.
  intros Hp Hd. unfold serves. destruct d as [|c d]; [done|]. cbn -[head_message].
  by rewrite head_message_none.
Qed.

(** A datagram that is forwarded while the relay is idle, up to a part of it. *)
Lemma relay_idle_datagram pend d out rest :
  fst (unframe pend) = [] -> frame d = out ++ rest ->
  relay_run (MkRelay pend Idle) (Dgram d :: (Out <$> out)) = Some (MkRelay pend (written false rest)).
Proof.
  intros Hp Hd. apply relay_forwards. cbn [relay_next]. by rewrite head_message_none, Hd.
Qed.

(** ** Requests as runs *)

(** A request that fails, or whose callback ends the process. *)
Lemma request_stops cmd tr r reply len rest :
  request_post cmd (Z.of_nat BUFFER_SIZE) frame tr r reply len -> r < 0 -> fits16 cmd ->
  stops (frame cmd ++ rest) tr.
Proof.
  intros (_ & (evs & HF%event_messages_unsolicited & _ & Hr) & Hs) Hneg Hfit. unfold stops.
  destruct Hr as [[-> _]|(_ & Hrecv & _ & ->)]; [lia|].
  destruct Hs as [-> |(_ & -> & Hrecv')]; [by apply relay_unanswered|].
  assert (evs = []) as -> by congruence. by eexists.
Qed.

Lemma broken_off_stops cmd tr rest :
  broken_off (Z.of_nat BUFFER_SIZE) frame tr -> sent tr = [cmd] -> fits16 cmd ->
  stops (frame cmd ++ rest) tr.
Proof.
  intros (evs & d & out & HF%event_messages_unsolicited & [Hd _] & [rest' Hout] & Ha) Hs Hfit.
  unfold stops. rewrite Ha, Hs. cbn [app fmap list_fmap]. erewrite relay_request; [by eexists|done..|].
  unfold passed_on. destruct (unsolicited d); [exact Hout|done].
Qed.

(** The reply [d] of a request, written out up to [rest']. *)
Lemma reply_served cmd evs d tr tr2 rest rest' :
  Forall (event_message (Z.of_nat BUFFER_SIZE)) evs -> unsolicited d = false -> fits16 cmd ->
  actions tr = Cmd cmd :: deliveries (Z.of_nat BUFFER_SIZE) frame evs ++ [Dgram d] ->
  actions tr2 = Out <$> output tr2 -> frame d = output tr2 ++ rest' ->
  relay_run (MkRelay (frame cmd ++ rest) Idle) (actions (tr ++ tr2)) =
    Some (MkRelay rest (written false rest')).
Proof.
  intros HF%event_messages_unsolicited Hd Hfit Ha Ha2 Hout. autorewrite with wpa. rewrite Ha, Ha2.
  rewrite <- app_comm_cons, <- app_assoc. cbn [app].
  rewrite (relay_request _ _ _ _ _ rest'); [by rewrite Hd|done..|]. unfold passed_on. by rewrite Hd.
Qed.

(** ** What has been written

    The frames that a run has written out, against the datagrams that it has
    received since the acknowledgement of the attachment. *)

Definition unwritten (ph : phase) : bytes := match ph with Writing out _ => out | _ => [] end.

Definition out_of (a : action) : bytes := match a with Out b => [b] | _ => [] end.
Definition dgram_of (a : action) : list bytes := match a with Dgram d => [d] | _ => [] end.

(** What becomes of a datagram: it is forwarded whole, but an unsolicited
    message that fills the buffer while a reply is awaited loses its last byte. *)
Definition relayed (d m : bytes) : Prop :=
  m = d \/ (unsolicited d /\ length d = BUFFER_SIZE /\ m = take (BUFFER_SIZE - 1) d).

(** The datagrams after the acknowledgement, which is the first one that is not an
    unsolicited message. *)
Fixpoint acknowledged (ds : list bytes) : list bytes :=
  match ds with
  | [] => []
  | d :: ds => if unsolicited d then acknowledged ds else if decide (d = ok_reply) then ds else []
  end.

(** What the reader of the other side has in hand: a complete message for each
    datagram, or for each one but the last, and a part of that one's frame. *)
Definition framed_out (ds : list bytes) (out : bytes) : Prop :=
  exists ms part, out = concat (frame <$> ms) ++ part /\
    (part = [] /\ Forall2 relayed ds ms \/
     exists m rest, rest <> [] /\ frame m = part ++ rest /\ Forall2 relayed ds (ms ++ [m])).

Lemma passed_on_relayed d : relayed d (passed_on d).
Proof.
  unfold relayed, passed_on, delivered. destruct (unsolicited d); [|by left].
  destruct (Z.eqb_spec (Z.of_nat (length d)) (Z.of_nat BUFFER_SIZE)) as [He|]; [|by left].
  right. assert (length d = BUFFER_SIZE) as Hl by lia. by rewrite Hl.
Qed.

(** Whether the attachment has been acknowledged, by the phase. *)
Definition ack_phase (ph : phase) (ds : list bytes) : Prop :=
  match ph with
  | Detached | Attaching => Forall unsolicited ds
  | Stopped => acknowledged ds = []
  | _ => exists evs, Forall unsolicited evs /\ ds = evs ++ ok_reply :: acknowledged ds
  end.

Lemma acknowledged_app evs ds :
  Forall unsolicited evs -> acknowledged (evs ++ ds) = acknowledged ds.
Proof. induction 1 as [|d evs Hu _ IH]; [done|]. cbn. by destruct (unsolicited d). Qed.

Lemma acknowledged_snoc ds d :
  (exists evs, Forall unsolicited evs /\ ds = evs ++ ok_reply :: acknowledged ds) ->
  acknowledged (ds ++ [d]) = acknowledged ds ++ [d] /\
  exists evs, Forall unsolicited evs /\ ds ++ [d] = evs ++ ok_reply :: acknowledged (ds ++ [d]).
Proof.
  intros (evs & HF & Hds). assert (acknowledged (ds ++ [d]) = acknowledged ds ++ [d]) as E.
  { rewrite Hds at 1. rewrite <- app_assoc, acknowledged_app by done. done. }
  split; [done|]. exists evs. split; [done|]. by rewrite E, Hds at 1; rewrite <- app_assoc.
Qed.

(** The frames by the phase: one may be under way. *)
Definition frames_inv (ph : phase) (acts : list action) : Prop :=
  let ds := acts ≫= dgram_of in
  ack_phase ph ds /\
  exists ms part, acts ≫= out_of = concat (frame <$> ms) ++ part /\
    match ph with
    | Writing out _ => out <> [] /\ exists m, frame m = part ++ out /\
        Forall2 relayed (acknowledged ds) (ms ++ [m])
    | _ => part = [] /\ Forall2 relayed (acknowledged ds) ms
    end.

(** A datagram is to be written out as a frame. *)
Lemma frames_inv_dgram ph acts d m aw :
  ph = Idle \/ ph = Awaiting -> relayed d m -> frames_inv ph acts ->
  frames_inv (written aw (frame m)) (acts ++ [Dgram d]).
Proof.
  unfold frames_inv. intros Hph Hm (Ha & ms & part & Ho & Hp). rewrite !bind_app. cbn. rewrite !app_nil_r.
  assert (part = [] /\ Forall2 relayed (acknowledged (acts ≫= dgram_of)) ms) as [-> HF]
    by (by destruct Hph; subst ph).
  destruct (acknowledged_snoc (acts ≫= dgram_of) d) as [E Hack]; [by destruct Hph; subst ph|].
  split; [exact Hack|]. exists ms, []. split; [done|]. split; [done|]. exists m. split; [done|].
  rewrite E. by apply Forall2_app; [|apply Forall2_cons; split].
Qed.

(** One action. *)
Lemma frames_inv_step pend ph a r acts :
  relay_next (MkRelay pend ph) a = Some r -> frames_inv ph acts -> frames_inv (phase_of r) (acts ++ [a]).
Proof.
  intros Hn Hi. destruct ph as [| | | |[|b out] aw|], a as [i|b'|c|d]; cbn in Hn; try done.
  - case_decide; simplify_eq. unfold frames_inv in *. rewrite !bind_app. cbn. by rewrite !app_nil_r.
  - injection Hn as <-. destruct Hi as (Ha & ms & part & Ho & -> & HF). unfold frames_inv.
    rewrite !bind_app. cbn -[acknowledged]. rewrite !app_nil_r. cbn in Ha.
    assert (acknowledged (acts ≫= dgram_of) = []) as E
      by (rewrite <- (app_nil_r (acts ≫= _)); by rewrite acknowledged_app).
    rewrite E in HF. apply Forall2_nil_inv_l in HF as ->. rewrite acknowledged_app by done.
    destruct (unsolicited d) eqn:Hu; [|case_decide as Hd]; cbn [phase_of ack_phase].
    + split; [apply Forall_app_2; [done|by repeat constructor; rewrite Hu]|].
      exists [], []. cbn. by rewrite Hu.
    + subst d. split; [|by exists [], []]. exists (acts ≫= dgram_of). by rewrite acknowledged_app.
    + assert (acknowledged [d] = []) as E1 by (cbn; by rewrite Hu, decide_False).
      rewrite acknowledged_app, E1 by done. split; [done|]. by exists [], [].
  - destruct (head_message pend); simplify_eq. unfold frames_inv in *. rewrite !bind_app. cbn. by rewrite !app_nil_r.
  - destruct (head_message pend) as [[m' rest]|]; [|done]. case_decide; simplify_eq.
    unfold frames_inv in *. rewrite !bind_app. cbn. by rewrite !app_nil_r.
  - destruct (head_message pend); simplify_eq. by eapply frames_inv_dgram; [by left|by left|].
  - injection Hn as <-. by eapply frames_inv_dgram; [by right|by apply passed_on_relayed|].
  - case_decide; simplify_eq. destruct Hi as (Ha & ms & part & Ho & _ & m & Hm & HF).
    unfold frames_inv. rewrite !bind_app, Ho. cbn. rewrite !app_nil_r.
    destruct out as [|b out]; cbn.
    + split; [by destruct aw|]. exists (ms ++ [m]), []. rewrite fmap_app, concat_app. change (frame <$> [m]) with [frame m]. cbn [concat].
      rewrite !app_nil_r, Hm, app_assoc. split; [done|]. by destruct aw.
    + split; [done|]. exists ms, (part ++ [b']). rewrite app_assoc. split; [done|]. split; [done|].
      exists m. by rewrite <- app_assoc.
Qed.

Lemma relay_frames acts r : relay_run relay0 acts = Some r -> frames_inv (phase_of r) acts.
Proof.
  revert r. induction acts as [|a acts IH] using rev_ind; intros r Hr.
  - injection Hr as <-. split; [constructor|]. by exists [], [].
  - rewrite relay_run_app in Hr. destruct (relay_run relay0 acts) as [[pend ph]|]; [|done]. cbn -[relay_next] in Hr.
    destruct (relay_next _ a) as [r'|] eqn:Hn; [|done]. injection Hr as <-.
    eapply frames_inv_step; [exact Hn|by apply (IH (MkRelay pend ph))].
Qed.

Lemma relay_framed_out acts r :
  relay_run relay0 acts = Some r -> framed_out (acknowledged (acts ≫= dgram_of)) (acts ≫= out_of).
Proof.
  intros (_ & ms & part & Ho & Hp)%relay_frames. exists ms, part. split; [done|].
  destruct (phase_of r); auto. destruct Hp as (? & m & ? & ?). right. by exists m, out.
Qed.

Lemma relay_framed_idle acts pend :
  relay_run relay0 acts = Some (MkRelay pend Idle) ->
  exists ms, acts ≫= out_of = concat (frame <$> ms) /\ Forall2 relayed (acknowledged (acts ≫= dgram_of)) ms.
Proof. intros (_ & ms & part & Ho & -> & HF)%relay_frames. exists ms. by rewrite app_nil_r in Ho. Qed.

(** The observations on a trace through its actions. *)
Lemma actions_output tr : actions tr ≫= out_of = output tr.
Proof.
  induction tr as [|[X e x] tr IH]; [done|]. autorewrite with wpa. rewrite bind_app, IH. f_equal. clear.
  destruct e; try done; destruct x as [y|]; try done; [by destruct y|]. cbn.
  generalize (take (Z.to_nat y) (concat iov)). intros l. induction l as [|b l IHl]; [done|]. cbn. by f_equal.
Qed.

Lemma actions_received tr : actions tr ≫= dgram_of = received tr.
Proof.
  induction tr as [|[X e x] tr IH]; [done|]. autorewrite with wpa. rewrite bind_app, IH. f_equal. clear.
  destruct e; try done; destruct x as [y|]; try done; [by destruct y|]. cbn.
  generalize (take (Z.to_nat y) (concat iov)). intros l. induction l as [|b l IHl]; [done|]. exact IHl.
Qed.

