(* ===== verification/PortRelay.v ===== *)
(** * wpa_ex.c: the port program relays faithfully

    The specification of the port program in terms of the framing: the
    commands sent to wpa_supplicant are the complete messages of the input,
    in order and whatever the sizes of the reads ([unframe]), and every
    datagram received is forwarded as one frame, in order. *)

From S2P Require Export Relay.
Local Open Scope Z_scope.
Local Open Scope prog_scope.

(** ** Specification *)

Lemma BUFFER_SIZE_Z : Z.of_nat BUFFER_SIZE = 2048.
Proof. done. Qed.

(** The bytes of the input buffer that are still to be processed. *)
Definition unread (p : port) : bytes := take (Z.to_nat (erl_buffer_ix p)) (erl_buffer p).

(** The static arrays have their size and the index is inside; the descriptor of
    the connection has a place in the set of [select]. *)
Definition port_ok (p : port) : Prop :=
  length (erl_buffer p) = BUFFER_SIZE /\ length (wpa_buffer p) = BUFFER_SIZE /\
  0 <= erl_buffer_ix p <= Z.of_nat BUFFER_SIZE /\ in_fd_set (wc_s (ctrl p)) = true.

(** Between two turns the buffer has room, and holds no complete message. *)
Definition port_ready (p : port) : Prop :=
  port_ok p /\ erl_buffer_ix p < Z.of_nat BUFFER_SIZE /\ unframe (unread p) = ([], unread p).

Definition forwarded (tr : sys_trace) : Prop :=
  exists ms, output tr = concat (frame <$> ms) /\ Forall2 relayed (received tr) ms /\
    Forall fits16 ms.

Lemma forwarded_nil tr : output tr = [] -> received tr = [] -> forwarded tr.
Proof. intros Ho Hr. exists []. rewrite Ho, Hr. by split_and!. Qed.

Lemma forwarded_app tr1 tr2 : forwarded tr1 -> forwarded tr2 -> forwarded (tr1 ++ tr2).
Proof.
  intros (m1 & Ho1 & H1 & F1) (m2 & Ho2 & H2 & F2). exists (m1 ++ m2). autorewrite with wpa.
  rewrite Ho1, Ho2, fmap_app, concat_app. split; [done|].
  split; [by apply Forall2_app|by apply Forall_app_2].
Qed.

Lemma forwarded_quiet tr : quiet tr -> forwarded tr.
Proof. intros (_ & ? & _ & ?). by apply forwarded_nil. Qed.
#[export] Hint Resolve forwarded_app forwarded_quiet forwarded_nil : wpa.

Lemma slice_0 buf len :
  0 <= len <= Z.of_nat (length buf) -> slice buf 0 len = Some (take (Z.to_nat len) buf).
Proof. intros. unfold slice. by rewrite decide_True by lia. Qed.

Lemma slice_in buf off len :
  0 <= off -> 0 <= len -> off + len <= Z.of_nat (length buf) ->
  slice buf off len = Some (take (Z.to_nat len) (drop (Z.to_nat off) buf)).
Proof. intros. unfold slice. by rewrite decide_True by lia. Qed.

(** ** Output *)

Section Output.
Context {W : Type} `{K : !Kernel sysE W}.

Lemma wp_err {A} m msg (Q : post A) w s :
  (forall tr w', quiet tr -> Q tr (Exit EXIT_FAILURE) s w') -> wp m (err msg) Q w s.
Proof. intros HQ. unfold err. wp_steps. wp_trace. by apply HQ. Qed.

(** [send_to_erl] writes one frame, or ends the process. *)
Lemma wp_send_to_erl msg len (Q : post unit) w s :
  0 <= len <= Z.of_nat (length msg) ->
  (forall tr w', sent tr = [] -> received tr = [] -> input tr = [] ->
     output tr = frame (take (Z.to_nat len) msg) -> Q tr (Val tt) s w') ->
  (forall tr w', sent tr = [] -> received tr = [] -> input tr = [] ->
     output tr `prefix_of` frame (take (Z.to_nat len) msg) -> Q tr (Exit EXIT_FAILURE) s w') ->
  wp Partly (send_to_erl msg len) Q w s.
Proof.
  intros Hlen HQ HX. unfold send_to_erl. rewrite slice_0 by done. wp_steps.
  set (data := take (Z.to_nat len) msg).
  assert (Z.of_nat (length data) = len) as Hd by (unfold data; rewrite length_take; lia).
  apply (wp_loop_partial _ (fun tr _ s' _ => quiet tr /\ s' = s) (pre [] Q)) with (tr0 := []);
    [|done].
  assert (be16 (len mod 65536) ++ data = frame data) as Hiov
    by (rewrite be16_mod; unfold frame; by rewrite Hd).
  intros tr w1 s1 [] [(E1 & E2 & E3 & E4) ->]. wp_steps. destruct x as [n|e].
  - destruct (Z.eqb_spec n (len + 2)) as [->|]; cbn [negb].
    + wp_steps. wp_trace. apply HQ; autorewrite with wpa; rewrite ?E1, ?E2, ?E3, ?E4; [done..|].
      cbn -[be16 take]. rewrite !app_nil_r, Hiov. rewrite take_ge; [done|]. rewrite length_frame. lia.
    + apply wp_err. intros tr2 w2 (F1 & F2 & F3 & F4). repeat wp_leaf. wp_trace.
      apply HX; autorewrite with wpa; rewrite ?E1, ?E2, ?E3, ?E4, ?F1, ?F2, ?F3, ?F4; [done..|].
      cbn -[be16 take]. rewrite !app_nil_r, Hiov. apply prefix_take.
  - assert (forall tr', quiet tr' -> quiet (tr ++ Ev (Writev STDOUT_FILENO
      [be16 (len mod 65536); data]) (SErr e) :: tr')) as Hq.
    { intros tr' (F1 & F2 & F3 & F4). unfold quiet. autorewrite with wpa.
      by rewrite E1, E2, E3, E4, F1, F2, F3, F4. }
    destruct e; try (apply wp_err; intros tr2 w2 Hq2; repeat wp_leaf; wp_trace;
      by destruct (Hq tr2 Hq2) as (?&?&?&Ho); apply HX; rewrite ?Ho; [..|apply prefix_nil]).
    wp_steps. wp_trace. split; [|done]. split; [|done]. by apply (Hq []).
Qed.
End Output.

#[export] Instance send_to_erl_callback : MsgCallback (Some send_to_erl) frame.
Proof.
  constructor; [|done]. intros W K P f buf len Q w s [= <-] Hlen HQ HX.
  apply wp_send_to_erl; [done|by auto|]. intros. by apply HX.
Qed.

(** ** Dispatching commands *)

Section Dispatch.
Context {W : Type} `{K : !Kernel sysE W} `{!PosixKernel W}.

(** What the callback forwards of a message. *)
Lemma delivered_relayed e :
  event_message 2048 e ->
  relayed e (delivered 2048 e) /\ Z.of_nat (length (delivered 2048 e)) <= 2048.
Proof.
  intros [Hu Hle]. unfold delivered. destruct (Z.eqb_spec (Z.of_nat (length e)) 2048) as [Heq|].
  - split; [right|rewrite length_take; lia].
    assert (length e = BUFFER_SIZE) as Hl by (unfold BUFFER_SIZE; lia). by rewrite Hl.
  - split; [by left|lia].
Qed.

(** The messages and the reply of a request are forwarded. *)
Lemma request_forwarded evs d tr tr2 :
  Forall (event_message (Z.of_nat BUFFER_SIZE)) evs -> Z.of_nat (length d) <= Z.of_nat BUFFER_SIZE ->
  output tr = concat ((frame ∘ delivered (Z.of_nat BUFFER_SIZE)) <$> evs) -> output tr2 = frame d ->
  received (tr ++ tr2) = evs ++ [d] -> forwarded (tr ++ tr2).
Proof.
  rewrite BUFFER_SIZE_Z. intros HF Hd Ho Ho2 Hr. exists ((delivered 2048 <$> evs) ++ [d]). rewrite Hr.
  autorewrite with wpa. rewrite Ho, Ho2, fmap_app, concat_app. cbn.
  rewrite app_nil_r, <- list_fmap_compose. split; [done|].
  unfold fits16. split; [apply Forall2_app|apply Forall_app_2].
  - clear -HF. induction HF as [|e evs He _ IH]; constructor; [|done]. by apply delivered_relayed.
  - by constructor; [left|].
  - apply Forall_fmap. eapply Forall_impl; [done|]. intros e [_ He2]%delivered_relayed.
    change (Z.of_nat (length (delivered 2048 e)) < 65536). lia.
  - constructor; [lia|done].
Qed.

(** A request is one command out, one reply forwarded, and the messages in
    between forwarded too. *)
Lemma wp_do_wpa_request p cmd (Q : post port) w s :
  port_ok p ->
  (forall tr buf s' w', length buf = BUFFER_SIZE -> sent tr = [cmd] -> input tr = [] ->
     forwarded tr -> (forall rest, fits16 cmd -> serves (frame cmd ++ rest) tr rest) ->
     Q tr (Val (set_wpa_buffer p buf)) s' w') ->
  (forall tr z s' w', z <> 0 -> input tr = [] -> sent tr `prefix_of` [cmd] ->
     (forall rest, fits16 cmd -> stops (frame cmd ++ rest) tr) -> Q tr (Exit z) s' w') ->
  wp Partly (do_wpa_request p cmd) Q w s.
Proof.
  intros (He & Hw & Hix & Hfd) HQ HX. unfold do_wpa_request. wp_steps.
  apply (wp_wpa_ctrl_request _ frame); [rewrite Hw; lia|congruence| |].
  2: { intros _ tr z s' w' Hz Hs Hi Hb. repeat wp_leaf. apply HX; [done..|by rewrite Hs|].
       intros. by apply broken_off_stops. }
  intros tr r reply len s1 w1 Hl _ Hp. repeat wp_leaf.
  pose proof Hp as (Hi & (evs & HF & Ho & Hr) & Hs).
  destruct (Z.ltb_spec r 0) as [Hneg|Hr0].
  { apply wp_err. intros tr2 w2 Hq. pose proof Hq as (E1 & _ & E3 & _). wp_trace.
    apply HX; [done|autorewrite with wpa..|]; [by rewrite Hi, E3| |].
    - rewrite E1, app_nil_r. destruct Hs as [-> |(_ & -> & _)]; [done|apply prefix_nil].
    - intros rest Hfit. unfold stops. autorewrite with wpa. rewrite (quiet_actions tr2), app_nil_r by done.
      by eapply request_stops. }
  destruct Hr as [(-> & d & Hrecv & Hu & -> & Hcap & Hd & Ha)|[[-> | ->] _]]; [|lia..].
  destruct Hs as [Hs|[? _]]; [|lia]. rewrite Hs in Ha.
  wp_steps. apply wp_send_to_erl; [lia| |]; rewrite Nat2Z.id, Hd.
  2: { intros tr2 w2 E1 E2 E3 [rest' Hout]. repeat wp_leaf. wp_trace.
       apply HX; [done|autorewrite with wpa..|]; [by rewrite Hi, E3|by rewrite Hs, E1|].
       intros rest Hfit. unfold stops. erewrite reply_served; eauto using actions_writes. }
  intros tr2 w2 E1 E2 E3 E4. repeat wp_leaf. wp_steps. wp_trace.
  apply HQ; [congruence|autorewrite with wpa; rewrite ?Hs, ?E1, ?Hi, ?E3; done..| |].
  { eapply request_forwarded; [done..|]. autorewrite with wpa. by rewrite Hrecv, E2, app_nil_r. }
  intros rest Hfit. eapply (reply_served _ _ _ _ _ _ []); eauto using actions_writes.
  by rewrite E4, app_nil_r.
Qed.

(** The head of the unread bytes, as the code reads it. *)
Lemma unread_header p :
  port_ok p -> 2 <= erl_buffer_ix p ->
  exists h l rest, slice (erl_buffer p) 0 2 = Some [h; l] /\ unread p = h :: l :: rest /\
    Z.of_nat (length rest) = erl_buffer_ix p - 2.
Proof.
  intros (He & _ & Hix & _) H2. rewrite slice_0 by lia. unfold unread.
  assert (length (take (Z.to_nat (erl_buffer_ix p)) (erl_buffer p)) =
    Z.to_nat (erl_buffer_ix p)) as Hlen by (rewrite length_take; lia).
  destruct (take (Z.to_nat (erl_buffer_ix p)) (erl_buffer p)) as [|h [|l rest]] eqn:Ht;
    [cbn in Hlen; lia..|].
  exists h, l, rest. cbn in Hlen. split_and!; [|done|lia].
  assert (take 2 (take (Z.to_nat (erl_buffer_ix p)) (erl_buffer p)) = [h; l]) as <-
    by (by rewrite Ht).
  rewrite take_take. do 2 f_equal. lia.
Qed.

Lemma slice_unread p off len :
  port_ok p -> 0 <= off -> 0 <= len -> off + len <= erl_buffer_ix p ->
  slice (erl_buffer p) off len = Some (take (Z.to_nat len) (drop (Z.to_nat off) (unread p))).
Proof.
  intros (He & _ & Hix & _) Hoff Hlen Hle. rewrite slice_in by lia. f_equal. unfold unread.
  rewrite <- (take_drop (Z.to_nat (erl_buffer_ix p)) (erl_buffer p)) at 1.
  rewrite drop_app_le by (rewrite length_take; lia).
  apply take_app_le. rewrite length_drop, length_take. lia.
Qed.

(** The head message is dispatched when it is complete. *)
Lemma wp_try_dispatch p (Q : post (port * Z)) w s :
  port_ok p ->
  (forall s' w', erl_buffer_ix p < Z.of_nat BUFFER_SIZE -> unframe (unread p) = ([], unread p) ->
     Q [] (Val (p, 0)) s' w') ->
  (forall tr buf msg rest s' w', length buf = BUFFER_SIZE -> sent tr = [msg] -> input tr = [] ->
     forwarded tr -> serves (unread p) tr rest -> unread p = frame msg ++ rest -> fits16 msg ->
     Q tr (Val (set_wpa_buffer p buf, Z.of_nat (length (frame msg)))) s' w') ->
  (forall tr z s' w', z <> 0 -> input tr = [] -> sent tr `prefix_of` fst (unframe (unread p)) ->
     stops (unread p) tr -> Q tr (Exit z) s' w') ->
  wp Partly (try_dispatch p) Q w s.
Proof.
  intros Hok HQ0 HQ1 HX. unfold try_dispatch. pose proof Hok as (He & _ & Hix & _).
  destruct (Z.ltb_spec (erl_buffer_ix p) 2) as [|H2].
  { wp_steps. apply HQ0; [rewrite BUFFER_SIZE_Z; lia|]. apply unframe_short. unfold unread.
    rewrite length_take. lia. }
  destruct (unread_header p Hok H2) as (h & l & rest & -> & Hun & Hrest).
  wp_steps. cbn [nth]. pose proof (of_be16_range h l) as Hr.
  destruct (Z.ltb_spec (Z.of_nat BUFFER_SIZE) (of_be16 h l + 2)).
  { apply wp_err. intros tr2 w2 Hq. repeat wp_leaf. wp_trace.
    apply HX; [done|apply Hq|by rewrite (proj1 Hq); apply prefix_nil|by auto with wpa]. }
  destruct (Z.ltb_spec (erl_buffer_ix p) (of_be16 h l + 2)).
  { wp_steps. wp_trace. apply HQ0; [lia|]. rewrite Hun. apply unframe_partial. lia. }
  rewrite slice_unread by (done || lia). wp_steps. rewrite Hun. cbn [drop].
  set (msg := take (Z.to_nat (of_be16 h l)) rest).
  assert (Z.of_nat (length msg) = of_be16 h l) as Hmsg
    by (unfold msg; rewrite length_take; lia).
  assert (unread p = frame msg ++ drop (Z.to_nat (of_be16 h l)) rest) as Hframe.
  { unfold frame. rewrite Hmsg, Hun, be16_of_be16. cbn [app]. unfold msg. by rewrite take_drop. }
  apply wp_do_wpa_request; [done| |].
  - intros tr buf s1 w1 Hb Hs Hi Hf Hv. repeat wp_leaf. wp_steps. wp_trace.
    replace (of_be16 h l + 2) with (Z.of_nat (length (frame msg))) by (rewrite length_frame; lia).
    assert (fits16 msg) by (unfold fits16; lia).
    eapply HQ1; try done. rewrite Hframe. by apply Hv.
  - intros tr z s1 w1 Hz Hi Hs Hv. repeat wp_leaf. assert (fits16 msg) by (unfold fits16; lia).
    apply HX; [done..| |rewrite Hframe; by apply Hv].
    rewrite Hframe, unframe_frame by done. etrans; [done|]. by apply prefix_cons, prefix_nil.
Qed.

(** The state of the dispatch loop: [sent tr] are the commands sent so far, and
    the messages still to be taken off are those of the unread bytes. *)
Definition dispatching (p0 : port) (pend : bytes) (tr : sys_trace) (p : port) : Prop :=
  port_ok p /\ ctrl p = ctrl p0 /\ input tr = [] /\ forwarded tr /\ serves pend tr (unread p) /\
  unframe pend = (sent tr ++ fst (unframe (unread p)), snd (unframe (unread p))).

Lemma length_unread p : port_ok p -> Z.of_nat (length (unread p)) = erl_buffer_ix p.
Proof. intros (He & _ & Hix & _). unfold unread. rewrite length_take. lia. Qed.

(** Moving the rest of the buffer to its start. *)
Lemma unread_shift p n :
  port_ok p -> (n <= Z.to_nat (erl_buffer_ix p))%nat ->
  exists b, store_bytes (erl_buffer p) 0 (drop n (unread p)) = Some b /\
    length b = BUFFER_SIZE /\
    unread (set_ix (set_erl_buffer p b) (erl_buffer_ix p - Z.of_nat n)) = drop n (unread p).
Proof.
  intros Hok Hn. pose proof (length_unread p Hok) as Hlen. destruct Hok as (He & _ & Hix & _).
  remember (drop n (unread p)) as rest eqn:Hrest.
  assert (Z.of_nat (length rest) = erl_buffer_ix p - Z.of_nat n) as Hr
    by (subst; rewrite length_drop; lia).
  rewrite store_bytes_0 by lia. eexists. split; [done|].
  split; [rewrite length_app, length_drop; lia|].
  unfold unread at 1. cbn [erl_buffer_ix erl_buffer set_ix set_erl_buffer].
  apply take_app_length'. lia.
Qed.

(** One pass: nothing to dispatch, or one message is dispatched and taken off
    the buffer. *)
Lemma wp_dispatch_pass p (Q : post (port + port)) w s :
  port_ok p ->
  (forall s' w', port_ready p -> Q [] (Val (inr p)) s' w') ->
  (forall tr msg p' (again : bool) s' w', port_ok p' -> ctrl p' = ctrl p -> sent tr = [msg] ->
     input tr = [] -> forwarded tr -> serves (unread p) tr (unread p') ->
     unread p = frame msg ++ unread p' -> fits16 msg -> (again = false -> port_ready p') ->
     Q tr (Val (if again then inl p' else inr p')) s' w') ->
  (forall tr z s' w', z <> 0 -> input tr = [] -> sent tr `prefix_of` fst (unframe (unread p)) ->
     stops (unread p) tr -> Q tr (Exit z) s' w') ->
  wp Partly (dispatch_pass p) Q w s.
Proof.
  intros Hok HQ0 HQ1 HX. unfold dispatch_pass. wp_steps. apply wp_try_dispatch; [done|..].
  - intros s2 w2 Hroom Hnone. repeat wp_leaf. wp_steps. cbn [Z.eqb]. wp_steps. by apply HQ0.
  - intros tr buf msg rest s2 w2 Hb Hs Hi Hf Hv Hun Hfit. repeat wp_leaf.
    pose proof (length_unread p Hok) as Hlen. pose proof (length_frame msg) as Hfr.
    rewrite Hun, length_app in Hlen. set (n := length (frame msg)) in *.
    rewrite (proj2 (Z.eqb_neq (Z.of_nat n) 0)) by lia. cbn [erl_buffer_ix set_wpa_buffer].
    assert (drop n (unread p) = rest) as Hrest by (rewrite Hun; apply drop_app_length).
    destruct (Z.ltb_spec (Z.of_nat n) (erl_buffer_ix p)).
    + cbn [erl_buffer]. rewrite (slice_unread p) by (done || lia). rewrite Nat2Z.id, Hrest.
      destruct (unread_shift p n Hok ltac:(lia)) as (b & Hst & Hbl & Hsh).
      rewrite Hrest in Hst, Hsh. rewrite take_ge by lia. wp_steps.
      cbn [erl_buffer set_wpa_buffer]. rewrite Hst. wp_steps. wp_trace.
      change (unread (set_ix (set_erl_buffer (set_wpa_buffer p buf) b) (erl_buffer_ix p - Z.of_nat n)) = rest)
        in Hsh. destruct Hok as (_ & _ & ? & ?).
      apply (HQ1 tr msg _ true); rewrite ?Hsh; try done. by split_and!; cbn -[BUFFER_SIZE]; [..|lia|lia|].
    + wp_steps. wp_trace. assert (rest = []) as -> by (destruct rest; [done|cbn in *; lia]).
      assert (port_ok (set_ix (set_wpa_buffer p buf) 0)) as Hok'
        by (destruct Hok as (? & _ & ? & ?); split_and!; cbn -[BUFFER_SIZE]; [done|done|lia|lia|done]).
      apply (HQ1 tr msg (set_ix (set_wpa_buffer p buf) 0) false); [done..|].
      intros _. split; [done|]. split; [cbn -[BUFFER_SIZE]; rewrite BUFFER_SIZE_Z; lia|].
      apply unframe_short. change (0 < 2)%nat. lia.
  - intros tr z s2 w2 Hz Hi Hs Hv. repeat wp_leaf. by apply HX.
Qed.

Lemma wp_dispatch_loop p (Q : post port) w s :
  port_ok p ->
  (forall tr p' s' w', port_ready p' -> ctrl p' = ctrl p -> input tr = [] -> forwarded tr ->
     serves (unread p) tr (unread p') -> unframe (unread p) = (sent tr, unread p') ->
     Q tr (Val p') s' w') ->
  (forall tr z s' w', z <> 0 -> input tr = [] -> sent tr `prefix_of` fst (unframe (unread p)) ->
     stops (unread p) tr -> Q tr (Exit z) s' w') ->
  wp Partly (loop dispatch_pass p) Q w s.
Proof.
  intros Hok HQ HX.
  apply (wp_loop_partial _ (fun tr _ _ p' => dispatching p (unread p) tr p') (pre [] Q))
    with (tr0 := []).
  2: { split_and!; [done..|by auto with wpa|by auto with wpa|]. cbn. by destruct (unframe (unread p)). }
  intros tr w1 s1 p1 (Hok1 & Hc1 & Hi1 & Hf1 & Hv1 & Hu1).
  apply wp_dispatch_pass; [done|..].
  - intros s2 w2 Hready. repeat wp_leaf. wp_trace. pose proof Hready as (_ & _ & Hnone).
    apply HQ; [done..|]. by rewrite Hu1, Hnone, app_nil_r.
  - intros tr2 msg p2 again s2 w2 Hok2 Hc2 Hs2 Hi2 Hf2 Hv2 Hun Hfit Hagain.
    assert (dispatching p (unread p) (tr ++ tr2) p2) as Hd.
    { rewrite Hun, unframe_frame in Hu1 by done. cbn [fst snd] in Hu1.
      split_and!; [done|congruence| |by auto with wpa|by eauto with wpa|]; autorewrite with wpa.
      - by rewrite Hi1, Hi2.
      - by rewrite Hs2, Hu1, <- app_assoc. }
    destruct again; repeat wp_leaf; [by split|].
    pose proof Hd as (_ & ? & ? & ? & ? & Hu). destruct (Hagain eq_refl) as (? & ? & Hnone).
    apply HQ; [done..|]. by rewrite Hu, Hnone, app_nil_r.
  - intros tr2 z s2 w2 Hz Hi2 Hs2 Hv2. repeat wp_leaf.
    apply HX; [done|autorewrite with wpa..|by eapply stops_app].
    + by rewrite Hi1, Hi2.
    + rewrite Hu1. cbn [fst]. by apply prefix_app.
Qed.

(** C17: Without a complete message nothing is sent and nothing taken off the buffer; a
    header that announces more than the buffer can hold ends the program with a failure
    status before any of it is sent. *)
Theorem try_dispatch_undispatched p w s :
  port_ok p ->
  (erl_buffer_ix p < 2 -> exec w s (try_dispatch p) [] (Val (p, 0)) s w) /\
  (forall h l rest, unread p = h :: l :: rest ->
     (Z.of_nat BUFFER_SIZE < of_be16 h l + 2 ->
        exists w', exec w s (try_dispatch p) [Ev (Stderr (bs "Message too long")) tt]
          (Exit EXIT_FAILURE) s w') /\
     (of_be16 h l + 2 <= Z.of_nat BUFFER_SIZE -> erl_buffer_ix p < of_be16 h l + 2 ->
        exec w s (try_dispatch p) [] (Val (p, 0)) s w)).
Proof.
  intros Hok.
  assert (forall o' tr', wp Totally (try_dispatch p) (fun tr o s' w' => o = o' /\ s' = s /\ tr = tr' /\
    (tr' = [] -> w' = w)) w s -> exists w', exec w s (try_dispatch p) tr' o' s w' /\ (tr' = [] -> w' = w))
    as Hex by (intros o' tr' (tr & o & s' & w' & H & -> & -> & -> & Hw); eauto).
  assert (forall h l rest, unread p = h :: l :: rest -> 2 <= erl_buffer_ix p /\
    slice (erl_buffer p) 0 2 = Some [h; l]) as Hhd.
  { intros h l rest Hun. pose proof (length_unread p Hok) as Hl. rewrite Hun in Hl. cbn in Hl.
    assert (2 <= erl_buffer_ix p) as H2 by lia. split; [done|].
    destruct (unread_header p Hok H2) as (h' & l' & rest' & Hs & Hun' & _). congruence. }
  split; [intros Hix|intros h l rest Hun; destruct (Hhd _ _ _ Hun) as [H2 Hs]; split; intros Hlen].
  - destruct (Hex (Val (p, 0)) []) as (w' & H & Hw); [|by rewrite (Hw eq_refl) in H].
    unfold try_dispatch. rewrite (proj2 (Z.ltb_lt _ _)) by done. by wp_steps.
  - destruct (Hex (Exit EXIT_FAILURE) [Ev (Stderr (bs "Message too long")) tt]) as (w' & H & _); [|eauto].
    unfold try_dispatch. rewrite (proj2 (Z.ltb_ge _ _)), Hs by done. wp_steps. cbn [nth].
    rewrite (proj2 (Z.ltb_lt _ _)) by done. unfold err. by wp_steps.
  - intros Hix. destruct (Hex (Val (p, 0)) []) as (w' & H & Hw); [|by rewrite (Hw eq_refl) in H].
    unfold try_dispatch. rewrite (proj2 (Z.ltb_ge _ _)), Hs by done. wp_steps. cbn [nth].
    rewrite (proj2 (Z.ltb_ge _ _)), (proj2 (Z.ltb_lt _ _)) by done. by wp_steps.
Qed.
End Dispatch.
