(* ===== verification/PortLoop.v ===== *)
(** * wpa_ex.c: turns of the main loop

    [process_erl], [process_wpa] and a turn of the main loop keep the buffer
    well formed, send exactly the commands that the input completes and forward
    every datagram ([turn_post]); when one of them exits, [exit_post] holds.
    [turns] is the reachability relation of the endless loop, by rule induction
    on which [turn_post] is shown to hold of every number of turns. *)

From S2P Require Export PortRelay.
Local Open Scope Z_scope.
Local Open Scope prog_scope.

(** What one turn, or several, do to the port: the unread bytes and the input
    are cut into the commands that have been sent and the bytes unread after,
    and the actions are a run of the abstract relay. *)
Definition turn_post (p : port) (tr : sys_trace) (p' : port) : Prop :=
  port_ready p' /\ ctrl p' = ctrl p /\ forwarded tr /\ serves (unread p) tr (unread p') /\
  unframe (unread p ++ input tr) = (sent tr, unread p').

(** How the process may end: no command has been sent that is not in the input,
    the actions are a run of the abstract relay, and it succeeds only at the end of the input. *)
Definition exit_post (p : port) (tr : sys_trace) (status : Z) : Prop :=
  sent tr `prefix_of` fst (unframe (unread p ++ input tr)) /\
  stops (unread p) tr /\
  (status = EXIT_SUCCESS -> (exists n, last tr = Some (Ev (Read STDIN_FILENO n) (SOk []))) /\
     exists p', turn_post p tr p').

Lemma turn_post_quiet p tr : port_ready p -> quiet tr -> turn_post p tr p.
Proof.
  intros Hp Hq. split_and!; [done..|by auto with wpa|by auto with wpa|]. destruct Hq as (-> & _ & -> & _).
  rewrite app_nil_r. apply Hp.
Qed.

Lemma turn_post_app p tr1 p1 tr2 p2 :
  turn_post p tr1 p1 -> turn_post p1 tr2 p2 -> turn_post p (tr1 ++ tr2) p2.
Proof.
  intros (H1 & Hc1 & Hf1 & Hv1 & Hu1) (H2 & Hc2 & Hf2 & Hv2 & Hu2).
  split_and!; [done|congruence|by auto with wpa|by eauto with wpa|]. autorewrite with wpa.
  by rewrite app_assoc, unframe_app, Hu1; cbn [fst snd]; rewrite Hu2.
Qed.

Lemma exit_post_quiet p tr status :
  status <> EXIT_SUCCESS -> sent tr = [] -> stops (unread p) tr -> exit_post p tr status.
Proof. intros Hz Hs Hv. split; [rewrite Hs; apply prefix_nil|done]. Qed.

Lemma exit_post_app p tr1 p1 tr2 status :
  turn_post p tr1 p1 -> exit_post p1 tr2 status -> exit_post p (tr1 ++ tr2) status.
Proof.
  intros Ht (Hs & Hv & Hz). pose proof Ht as (_ & _ & _ & Hv1 & Hu1). split; [|split; [by eapply stops_app|]].
  - autorewrite with wpa. rewrite app_assoc, unframe_app, Hu1. by apply prefix_app.
  - intros [[n Hn] [p' Hp']]%Hz. split; [exists n; by rewrite last_app, Hn|].
    exists p'. by eapply turn_post_app.
Qed.
#[export] Hint Resolve turn_post_quiet turn_post_app exit_post_app : wpa.

Section Turns.
Context {W : Type} `{K : !Kernel sysE W} `{!PosixKernel W}.

(** The bytes that [read] has put behind the unread ones. *)
Lemma unread_append p d :
  port_ready p -> Z.of_nat (length d) <= Z.of_nat BUFFER_SIZE - erl_buffer_ix p ->
  exists b, store_bytes (erl_buffer p) (Z.to_nat (erl_buffer_ix p)) d = Some b /\
    let p' := set_ix (set_erl_buffer p b) (erl_buffer_ix p + Z.of_nat (length d)) in
    port_ok p' /\ unread p' = unread p ++ d.
Proof.
  intros ((He & Hw & Hix & Hfd) & _ & _) Hd. unfold store_bytes. rewrite decide_True by lia.
  eexists. split; [done|]. split.
  - split_and!; cbn -[BUFFER_SIZE]; [|done|lia|lia|done].
    rewrite !length_app, length_take, length_drop. lia.
  - unfold unread. cbn [erl_buffer_ix erl_buffer set_ix set_erl_buffer].
    rewrite app_assoc. apply take_app_length'. rewrite length_app, length_take. lia.
Qed.

Lemma wp_process_erl p (Q : post port) w s :
  port_ready p ->
  (forall tr p' s' w', turn_post p tr p' -> Q tr (Val p') s' w') ->
  (forall tr z s' w', exit_post p tr z -> Q tr (Exit z) s' w') ->
  wp Partly (process_erl p) Q w s.
Proof.
  intros Hp HQ HX. unfold process_erl. wp_steps. destruct x as [[|c d]|e].
  - wp_steps. wp_trace. apply HX. split; [apply prefix_nil|].
    split; [by eexists|]. split; [by eexists|]. exists p. by apply turn_post_quiet.
  - pose proof Hp as (_ & Hroom & _).
    pose proof (read_bound _ _ _ _ _ Hk ltac:(lia)) as Hd.
    destruct (unread_append p (c :: d) Hp Hd) as (b & -> & Hok & Hun). wp_steps.
    assert (forall fd n, serves (unread p) [Ev (Read fd n) (SOk (c :: d))] (unread p ++ c :: d)) as Hrd
      by (intros; apply serves_read; [destruct Hp as (_ & _ & ->)|]; done).
    apply wp_dispatch_loop; [done|..].
    + intros tr p' s1 w1 Hp' Hc Hi Hf Hv Hu. wp_trace. apply HQ. rewrite Hun in Hu, Hv.
      split_and!; [done|done| |by apply (serves_app _ [_] _ _ _ (Hrd _ _) Hv)|].
      * apply (forwarded_app [_]); [by apply forwarded_nil|done].
      * autorewrite with wpa. rewrite Hi, app_nil_r. exact Hu.
    + intros tr z s1 w1 Hz Hi Hs Hv. wp_trace. apply HX. rewrite Hun in Hs, Hv.
      split; [|split; [by apply (stops_app _ [_] _ _ (Hrd _ _) Hv)|done]].
      autorewrite with wpa. rewrite Hi, app_nil_r. exact Hs.
  - destruct e; try (apply wp_err; intros tr w1 Hq; repeat wp_leaf; wp_trace; apply HX;
      apply exit_post_quiet; [done|by autorewrite with wpa; destruct Hq as (-> & _)|];
      by apply (stops_quiet _ (_ :: tr))).
    wp_steps. wp_trace. apply HQ. apply turn_post_quiet; done.
Qed.

(** A datagram received and forwarded. *)
Lemma wp_process_wpa p (Q : post port) w s :
  port_ready p ->
  (forall tr p' s' w', turn_post p tr p' -> Q tr (Val p') s' w') ->
  (forall tr z s' w', exit_post p tr z -> Q tr (Exit z) s' w') ->
  wp Partly (process_wpa p) Q w s.
Proof.
  intros Hp HQ HX.
  apply (wp_loop_partial _ (fun tr _ _ p' => turn_post p tr p') (pre [] Q)) with (tr0 := []);
    [|by auto with wpa].
  intros tr w1 s1 p1 Hp1. pose proof Hp1 as (((He & Hw & Hix & Hfd) & Hroom & Hnone) & Hc & Hf & Hv & Hu).
  assert (forall tr2 z s2 w2, z <> EXIT_SUCCESS -> sent tr2 = [] -> stops (unread p1) tr2 ->
    Q (tr ++ tr2) (Exit z) s2 w2) as Hdie.
  { intros. apply HX. eapply exit_post_app; [done|]. by apply exit_post_quiet. }
  unfold wpa_pass, wpa_ctrl_pending. rewrite FD_SET_in by done. wp_steps.
  set (pend := match x with SOk b => if b then 1 else 0 | SErr _ => 1 end).
  destruct (pend =? 0); wp_steps.
  { wp_trace. apply HQ. eapply turn_post_app; [done|]. by apply turn_post_quiet; [apply Hp1|]. }
  unfold wpa_ctrl_recv. wp_steps. destruct x0 as [d|e]; cycle 1.
  { wp_steps. apply wp_err. intros tr2 w3 Hq. repeat wp_leaf. wp_trace.
    apply Hdie; [done|by autorewrite with wpa; destruct Hq as (-> & _)|].
    by apply (stops_quiet _ (_ :: _ :: tr2)). }
  pose proof (recv_bound _ _ _ _ _ Hk0 ltac:(lia)) as Hd.
  rewrite store_bytes_0 by lia. wp_steps. cbn [Z.ltb Z.compare].
  set (buf := d ++ drop (length d) (wpa_buffer p1)).
  assert (length buf = BUFFER_SIZE) as Hbuf by (unfold buf; rewrite length_app, length_drop; lia).
  assert (take (Z.to_nat (Z.of_nat (length d))) buf = d) as Hbd
    by (unfold buf; by rewrite Nat2Z.id, take_app_length).
  wp_steps. apply wp_send_to_erl; [lia| |]; rewrite Hbd.
  - intros tr2 w3 E1 E2 E3 E4. repeat wp_leaf. wp_steps. wp_trace. split; [|done].
    eapply turn_post_app; [done|].
    split_and!; [split_and!; done|done| | |].
    + exists [d]. autorewrite with wpa. rewrite E2, E4. cbn -[take]. rewrite app_nil_r. split; [done|]. rewrite BUFFER_SIZE_Z in Hd.
      split; repeat constructor. unfold fits16. lia.
    + unfold serves. autorewrite with wpa. rewrite (actions_writes tr2) by done.
      apply (relay_idle_datagram _ d (output tr2) []); [by rewrite Hnone|by rewrite E4, app_nil_r].
    + autorewrite with wpa. rewrite E1, E3. cbn. rewrite app_nil_r. exact Hnone.
  - intros tr2 w3 E1 E2 E3 [rest Hout]. repeat wp_leaf. wp_trace. apply Hdie; [done|by autorewrite with wpa|].
    eexists. autorewrite with wpa. rewrite (actions_writes tr2) by done.
    by apply (relay_idle_datagram _ d (output tr2) rest); [rewrite Hnone|].
Qed.

Lemma wp_main_turn p (Q : post port) w s :
  port_ready p ->
  (forall tr p' s' w', turn_post p tr p' -> Q tr (Val p') s' w') ->
  (forall tr z s' w', exit_post p tr z -> Q tr (Exit z) s' w') ->
  wp Partly (main_turn p) Q w s.
Proof.
  intros Hp HQ HX. unfold main_turn. wp_steps.
  set (poll := [Ev (Poll STDIN_FILENO (wpa_ctrl_get_fd (ctrl p))) x]).
  assert (turn_post p poll p) as Hpoll by (apply turn_post_quiet; done).
  destruct x as [[re0 re1]|e]; cycle 1.
  { destruct e; try (apply wp_err; intros tr w2 Hq; repeat wp_leaf; wp_trace; apply HX;
      apply exit_post_quiet; [done|by autorewrite with wpa; destruct Hq as (-> & _)|];
      by apply (stops_quiet _ (_ :: tr))).
    wp_steps. wp_trace. by apply HQ. }
  wp_steps.
  assert (forall tr p1 w1 s1, turn_post p tr p1 -> wp Partly
    (if negb (Z.land re1 POLLIN =? 0) then process_wpa p1 else ret p1) (pre tr Q) w1 s1) as Hwpa.
  { intros tr p1 w1 s1 Hp1. destruct (negb _); [|by wp_steps; wp_trace; apply HQ].
    apply wp_process_wpa; [apply Hp1|..]; intros; wp_trace; eauto with wpa. }
  destruct (negb (Z.land re0 _ =? 0)).
  - apply wp_process_erl; [done|..]; intros tr p1 s1 w1 H1; repeat wp_leaf.
    + eapply wp_mono; [apply (Hwpa (poll ++ tr)); by eauto with wpa|].
      intros. unfold pre in *. by rewrite <- app_assoc in *.
    + wp_trace. apply HX. change (exit_post p (poll ++ tr) p1). by eauto with wpa.
  - wp_steps. eapply wp_mono; [by apply (Hwpa poll)|]. intros. done.
Qed.

(** ** Reachable states of the main loop *)

Inductive turns (p : port) (w : W) (s : statics) : sys_trace -> port -> W -> statics -> Prop :=
| turns_start : turns p w s [] p w s
| turns_step tr1 p1 w1 s1 tr2 p2 w2 s2 :
    turns p w s tr1 p1 w1 s1 -> exec w1 s1 (main_turn p1) tr2 (Val p2) s2 w2 ->
    turns p w s (tr1 ++ tr2) p2 w2 s2.

Lemma turns_post p w s tr p' w' s' :
  port_ready p -> turns p w s tr p' w' s' -> turn_post p tr p'.
Proof.
  intros Hp. induction 1 as [|tr1 p1 w1 s1 tr2 p2 w2 s2 _ IH H]; [by auto with wpa|].
  eapply turn_post_app; [done|].
  apply (wp_main_turn p1 (fun tr o _ _ => match o with Val p2 => turn_post p1 tr p2 | _ => True end)
    w1 s1) in H; [done|apply IH|auto..].
Qed.

Lemma port0_ready c : in_fd_set (wc_s c) = true -> port_ready (port0 c).
Proof. intros Hfd. by split_and!. Qed.
End Turns.
