(* ===== verification/PortMain.v ===== *)
(** * wpa_ex.c: the whole program

    The reachable states of [main] ([main_reaches]) and what holds in them,
    and how a run of [main] may end. *)

From S2P Require Export PortLoop.
Local Open Scope Z_scope.
Local Open Scope prog_scope.

Section Main.
Context {W : Type} `{K : !Kernel sysE W} `{!PosixKernel W}.

(** The state of the process at the head of its loop. *)
Definition main_reaches (argv : list bytes) (w : W) (s : statics)
    (tr : sys_trace) (p : port) (w' : W) (s' : statics) : Prop :=
  exists tr1 p1 w1 s1 tr2, exec w s (main_start argv) tr1 (Val p1) s1 w1 /\
    turns p1 w1 s1 tr2 p w' s' /\ tr = tr1 ++ tr2.

(** The endless loop from a state of the process. *)
Local Abbreviation main_loop :=
  (loop (R := Empty_set) (fun p => let* p := main_turn p in ret (inl p))).

Lemma turns_exec p w s tr p' w' s' tr1 o s1 w1 :
  turns p w s tr p' w' s' -> exec w s (main_loop p) tr1 o s1 w1 ->
  exists tr2, tr1 = tr ++ tr2 /\ exec w' s' (main_loop p') tr2 o s1 w1.
Proof.
  intros Ht H. induction Ht as [|tr0 p0 w0 s0 tr2 p2 w2 s2 _ IH Hturn]; [by exists tr1|].
  destruct IH as (tr3 & -> & H3).
  cut (exists tr4, tr3 = tr2 ++ tr4 /\ exec w2 s2 (main_loop p2) tr4 o s1 w1).
  { intros (tr4 & -> & ?). exists tr4. by rewrite app_assoc. }
  clear H. exec_wp H3. apply wp_loop_unfold, wp_bind. intros tr4 o4 s4 w4 H4.
  destruct (exec_det _ _ _ _ _ _ _ _ _ _ _ Hturn H4) as (<- & <- & <- & <-).
  unfold bind_post. apply wp_ret. unfold unfold_post, pre. rewrite app_nil_r.
  intros tr5 o5 s5 w5 H5. by exists tr5.
Qed.

(** A reachable state is on the way of the run that ends, if one does. *)
Lemma main_reaches_exec argv w s tr p w' s' tr1 o s1 w1 :
  main_reaches argv w s tr p w' s' -> exec w s (main argv) tr1 o s1 w1 -> tr `prefix_of` tr1.
Proof.
  intros (tr0 & p0 & w0 & s0 & tr2 & H0 & Ht & ->) H. unfold main in H. exec_wp H. apply wp_bind.
  intros tr3 o3 s3 w3 H3. destruct (exec_det _ _ _ _ _ _ _ _ _ _ _ H0 H3) as (<- & <- & <- & <-).
  unfold bind_post, pre. intros tr4 o4 s4 w4 H4.
  destruct (turns_exec _ _ _ _ _ _ _ _ _ _ _ Ht H4) as (tr5 & -> & _).
  exists tr5. by rewrite app_assoc.
Qed.

(** A usable command line. *)
Definition argv_ok (argv : list bytes) (s : statics) : Prop :=
  (forall a b, argv = [a; b] -> exists path junk, b = path ++ nul :: junk /\ nul_free path) /\
  int_ok (counter s) /\ counter s < 2 ^ 31 - 1.

Lemma wp_main_start argv (Q : post port) w s :
  argv_ok argv s ->
  (forall tr fd s' w', Ev (Socket PF_UNIX) (SOk fd) ∈ tr -> in_fd_set fd = false ->
     unset (bs "ATTACH") tr -> Q tr Ub s' w') ->
  (forall tr c s' w', in_fd_set (wc_s c) = true -> attached tr -> Q tr (Val (port0 c)) s' w') ->
  (forall tr s' w', input tr = [] -> sent tr `prefix_of` [bs "ATTACH"] ->
     is_Some (relay_run relay0 (actions tr)) -> Q tr (Exit EXIT_FAILURE) s' w') ->
  wp Partly (main_start argv) Q w s.
Proof.
  intros (Hargv & Hn & Hlt) HU HQ HX. unfold main_start.
  assert (forall tr w1 msg, input tr = [] -> sent tr `prefix_of` [bs "ATTACH"] ->
    is_Some (relay_run relay0 (actions tr)) -> forall s, wp Partly (err msg) (pre tr Q) w1 s) as Herr.
  { intros tr w1 msg Hi Hs Ha s1. apply wp_err. intros tr2 w2 Hq. wp_trace.
    apply HX; autorewrite with wpa; rewrite ?(quiet_actions tr2), ?app_nil_r by done; [|..|done];
      destruct Hq as (E1 & _ & E3 & _); by rewrite ?Hi, ?E1, ?E3, ?app_nil_r. }
  assert (forall msg, wp Partly (err msg) Q w s) as Hargs
    by (intros; apply (Herr []); [done|apply prefix_nil|by eexists]).
  destruct argv as [|a [|b [|? ?]]]; [apply Hargs..| |apply Hargs].
  destruct (Hargv a b eq_refl) as (path & junk & -> & Hp). wp_steps.
  apply wp_wpa_ctrl_open; [done..|]. intros tr r s1 w1 [Hq Hr] _. repeat wp_leaf.
  pose proof (quiet_actions tr Hq) as Ea. destruct Hq as (E1 & E2 & E3 & E4).
  destruct r as [c|]; [|apply Herr; [done|by rewrite E1; apply prefix_nil|by rewrite Ea; eexists]].
  destruct Hr as (_ & Hsock & _). wp_steps. apply wp_attach.
  { intros Hfd tr2 s2 w2 (F1 & F2 & F3 & F4). repeat wp_leaf.
    apply (HU _ (wc_s c)); [by apply elem_of_app; left|done|]. unfold unset. autorewrite with wpa.
    by rewrite E1, E2, E3, E4. }
  intros tr2 r s2 w2 Hi2 Ho2 H2. repeat wp_leaf.
  destruct H2 as [(-> & Hfd & Ha)|(Hneg & Hs2 & Ha & _)].
  - cbn [Z.ltb Z.compare]. wp_steps. wp_trace. apply HQ; [done|].
    unfold attached. autorewrite with wpa. by rewrite E1, E2, E3, E4, Ea.
  - rewrite (proj2 (Z.ltb_lt r 0)) by lia.
    eapply wp_mono; [apply (Herr (tr ++ tr2)); autorewrite with wpa|].
    + by rewrite E3, Hi2.
    + by rewrite E1.
    + rewrite Ea. by apply relay_refused.
    + intros. unfold pre in *. by rewrite <- app_assoc in *.
Qed.

(** The relay invariant: at the head of the loop the commands sent are exactly
    the complete messages of the input, the buffer holds the rest, and what
    was received after the attachment has been forwarded. *)
Definition relay_invariant (tr : sys_trace) (p : port) : Prop :=
  port_ready p /\
  sent tr = bs "ATTACH" :: fst (unframe (input tr)) /\
  unread p = snd (unframe (input tr)) /\
  exists tr1 tr2, tr = tr1 ++ tr2 /\ attached tr1 /\ forwarded tr2.

Lemma relay_invariant_intro tr1 tr2 c p :
  attached tr1 -> turn_post (port0 c) tr2 p -> relay_invariant (tr1 ++ tr2) p.
Proof.
  intros Ha (Hp & _ & Hf & _ & Hu). pose proof Ha as (Hs & Hi & _).
  change (unread (port0 c)) with (@nil byte) in Hu. cbn [app] in Hu.
  split; [done|]. autorewrite with wpa. rewrite Hs, Hi. cbn [app]. rewrite Hu.
  split_and!; [done..|]. by exists tr1, tr2.
Qed.

(** A reachable state is one after the attachment and some turns. *)
Lemma main_reaches_turns argv w s tr p w' s' :
  argv_ok argv s -> main_reaches argv w s tr p w' s' ->
  exists tr1 c tr2, tr = tr1 ++ tr2 /\ attached tr1 /\ turn_post (port0 c) tr2 p.
Proof.
  intros Hok (tr1 & p1 & w1 & s1 & tr2 & H1 & H2 & ->).
  apply (wp_main_start argv (fun tr o _ _ => match o with
    | Val p => attached tr /\ exists c, p = port0 c /\ in_fd_set (wc_s c) = true | _ => True end)) in H1;
    [|by eauto..].
  destruct H1 as (Ha & c & -> & Hfd). exists tr1, c, tr2. split_and!; [done..|].
  eapply turns_post; [by apply port0_ready|done].
Qed.

(** How a run of [main] ends.  The undefined operation is the first [FD_SET],
    for a descriptor that has no place in the set. *)
Definition main_post : post Empty_set := fun tr o (_ : statics) (_ : W) =>
  match o with
  | Val _ => False
  | Ub => unset (bs "ATTACH") tr /\
      exists fd, Ev (Socket PF_UNIX) (SOk fd) ∈ tr /\ in_fd_set fd = false
  | Exit status =>
    sent tr `prefix_of` bs "ATTACH" :: fst (unframe (input tr)) /\
    is_Some (relay_run relay0 (actions tr)) /\
    (status = EXIT_SUCCESS -> (exists n, last tr = Some (Ev (Read STDIN_FILENO n) (SOk []))) /\
       sent tr = bs "ATTACH" :: fst (unframe (input tr)) /\
       relay_run relay0 (actions tr) = Some (MkRelay (snd (unframe (input tr))) Idle))
  end.

Lemma wp_main argv w s : argv_ok argv s -> wp Partly (main argv) main_post w s.
Proof.
  intros Hok. wp_start. unfold main. wp_steps. apply wp_main_start; [done|..].
  - intros tr fd s1 w1 Hs Hfd Hu. repeat wp_leaf. wp_done Q. split; [done|by exists fd].
  - intros tr1 c s1 w1 Hfd Ha. repeat wp_leaf. pose proof Ha as (Hs & Hi & _).
    apply (wp_loop_partial _ (fun tr _ _ p => turn_post (port0 c) tr p) (pre tr1 Q)) with (tr0 := []).
    2: { apply turn_post_quiet; [by apply port0_ready|done]. }
    intros tr2 w2 s2 p Hp. wp_steps. apply wp_main_turn; [apply Hp|..].
    + intros tr3 p3 s3 w3 Hp3. repeat wp_leaf. wp_steps. wp_trace. split; [|done].
      by eauto with wpa.
    + intros tr3 z s3 w3 H3. repeat wp_leaf. wp_done Q.
      destruct (exit_post_app _ _ _ _ _ Hp H3) as (Hpre & Hv & Hz).
      change (unread (port0 c)) with (@nil byte) in *. cbn [app] in Hpre.
      unfold stops in Hv. unfold main_post. autorewrite with wpa in *. rewrite Hs, Hi. split; [by apply prefix_cons|].
      split; [by rewrite relay_run_app, relay_attached|].
      intros [[n Hn] (p' & _ & _ & _ & Hv' & Hu')]%Hz. split; [exists n; by rewrite last_app, Hn|].
      change (unread (port0 c)) with (@nil byte) in *. cbn [app] in *. unfold serves in Hv'.
      autorewrite with wpa in *. cbn [app]. rewrite Hu', relay_run_app, relay_attached by done. done.
  - intros tr1 s1 w1 Hi Hs Ha. repeat wp_leaf. wp_done Q.
    split; [|done]. etrans; [done|]. apply prefix_cons, prefix_nil.
Qed.

(** Whatever the end, the actions are a run of the relay. *)
Lemma main_relay_run argv w s tr o s' w' :
  argv_ok argv s -> exec w s (main argv) tr o s' w' -> is_Some (relay_run relay0 (actions tr)).
Proof.
  intros Hok H. pose proof (wp_main argv w s Hok _ _ _ _ H) as Hm. destruct o as [[]|z|]; cbn in Hm.
  - by destruct Hm as (_ & ? & _).
  - destruct Hm as [Hu _]. rewrite (unset_actions _ _ Hu). by eexists.
Qed.

Lemma main_reaches_invariant argv w s tr p w' s' :
  argv_ok argv s -> main_reaches argv w s tr p w' s' -> relay_invariant tr p.
Proof.
  intros Hok (tr1 & c & tr2 & -> & Ha & Ht)%main_reaches_turns; [|done].
  by eapply relay_invariant_intro.
Qed.

(** C1: In every state that the running program reaches, whatever the operating system
    answers, the commands sent to the supplicant are ATTACH and then exactly the
    complete length-prefixed messages of the bytes read from standard input, in order
    and unchanged; the buffer holds precisely the incomplete rest; and since the
    attachment every datagram received has been written to standard output as one
    length-prefixed message, in order, except that an unsolicited message that fills the
    buffer loses its last byte. *)
Theorem main_relays argv w s tr p w' s' :
  argv_ok argv s -> main_reaches argv w s tr p w' s' -> relay_invariant tr p.
Proof. apply main_reaches_invariant. Qed.

(** C6: When the program ends, it ends by an exit: only ATTACH and commands that the
    input frames have been sent by then, in order, and the status is success only if the
    last thing that happened is the end of standard input, and then every complete
    command of the input has been sent. There is one exception: a socket whose
    descriptor has no place in an fd_set makes it perform an undefined operation in
    FD_SET while it waits for the answer to ATTACH, before it has received, read or
    written anything; no other operation is ever undefined. *)
Theorem main_ends argv w s tr o s' w' :
  argv_ok argv s -> exec w s (main argv) tr o s' w' ->
  match o with
  | Val _ => False
  | Exit status =>
      sent tr `prefix_of` bs "ATTACH" :: fst (unframe (input tr)) /\
      (status = EXIT_SUCCESS -> (exists n, last tr = Some (Ev (Read STDIN_FILENO n) (SOk []))) /\
         sent tr = bs "ATTACH" :: fst (unframe (input tr)))
  | Ub =>
      (exists fd, Ev (Socket PF_UNIX) (SOk fd) ∈ tr /\ in_fd_set fd = false) /\
      sent tr = [bs "ATTACH"] /\ received tr = [] /\ input tr = [] /\ output tr = []
  end.
Proof.
  intros Hok H. pose proof (wp_main argv w s Hok _ _ _ _ H) as Hm. destruct o as [[]|z|]; cbn in Hm.
  - destruct Hm as (? & _ & Hz). split; [done|]. intros (? & ? & _)%Hz. done.
  - by destruct Hm.
Qed.

(** C5: The program implements the abstract relay: every trace that it can reach is a
    run of the machine that dispatches one command at a time, passes on the messages
    that arrive meanwhile before it receives the next datagram, ends the wait with the
    reply, reads nothing while a complete command is pending and writes every datagram
    out in full before the next action; at the head of the loop the machine is idle with
    the bytes that the buffer holds, and a run that ends is a run of the machine too. *)
Theorem main_refines argv w s :
  argv_ok argv s ->
  (forall tr p w' s', main_reaches argv w s tr p w' s' ->
     relay_run relay0 (actions tr) = Some (MkRelay (unread p) Idle)) /\
  (forall tr o s' w', exec w s (main argv) tr o s' w' -> is_Some (relay_run relay0 (actions tr))).
Proof.
  intros Hok. split.
  - intros tr p w' s' (tr1 & c & tr2 & -> & Ha & _ & _ & _ & Hv & _)%main_reaches_turns; [|done].
    autorewrite with wpa. by rewrite relay_run_app, relay_attached.
  - intros tr o s' w' H. by eapply main_relay_run.
Qed.

(** If the bytes read so far are framed messages followed by an incomplete one, then
    the supplicant has been sent ATTACH and those messages, whatever the sizes of the
    pieces in which they were read, and the buffer holds the incomplete one. *)
Theorem main_framed_input argv w s tr p w' s' msgs part :
  argv_ok argv s -> main_reaches argv w s tr p w' s' ->
  input tr = concat (frame <$> msgs) ++ part -> Forall fits16 msgs -> fst (unframe part) = [] ->
  sent tr = bs "ATTACH" :: msgs /\ unread p = part.
Proof.
  intros Hok Hr Hin Hfit Hpart.
  destruct (main_reaches_invariant _ _ _ _ _ _ _ Hok Hr) as (_ & Hs & Hu & _).
  rewrite Hin, unframe_frames, Hpart, app_nil_r in Hs, Hu by done. split; [done|].
  rewrite Hu. cbn [snd]. pose proof (unframe_bytes part) as Hb. rewrite Hpart in Hb. by symmetry.
Qed.

(** ** What the reader of the other side gets *)

(** The buffers that datagrams are received into. *)
Definition small_recv (ev : event sysE) : Prop :=
  let '@Ev _ X e x := ev in
  match e with Recv _ n => 0 <= n <= Z.of_nat BUFFER_SIZE | _ => True end.

#[local] Hint Extern 1 (small_recv _) => (cbn -[BUFFER_SIZE]; first [done | rewrite ?BUFFER_SIZE_Z; lia]) : emits.

Lemma small_recv_reltime t : emits (W := W) small_recv (os_get_reltime t).
Proof. unfold os_get_reltime, get_reltime_body. emits_step. Qed.

Lemma small_recv_sleep a b : emits (W := W) small_recv (os_sleep a b).
Proof. unfold os_sleep. emits_step. Qed.

Lemma small_recv_err {A} msg : emits (W := W) small_recv (err (A := A) msg).
Proof. unfold err. emits_step. Qed.
#[local] Hint Resolve small_recv_reltime small_recv_sleep small_recv_err : emits.

Lemma small_recv_send_to_erl msg len : emits (W := W) small_recv (send_to_erl msg len).
Proof. unfold send_to_erl. emits_step. Qed.
#[local] Hint Resolve small_recv_send_to_erl : emits.

Lemma small_recv_request c cmd reply cap (cb : msg_callback) :
  0 <= cap <= Z.of_nat BUFFER_SIZE -> (cb = None \/ cb = Some send_to_erl) ->
  emits (W := W) small_recv (wpa_ctrl_request c cmd reply cap cb).
Proof.
  intros Hcap Hcb. unfold wpa_ctrl_request, socket_request, send_cmd, retry_send, read_reltime, recv_reply, FD_SET.
  destruct Hcb as [-> | ->]; emits_step.
Qed.
#[local] Hint Resolve small_recv_request : emits.

Lemma small_recv_do_wpa_request p cmd : emits (W := W) small_recv (do_wpa_request p cmd).
Proof.
  unfold do_wpa_request. apply emits_bind; [apply small_recv_request; [lia|by right]|]. emits_step.
Qed.
#[local] Hint Resolve small_recv_do_wpa_request : emits.

Lemma small_recv_turn p : emits (W := W) small_recv (main_turn p).
Proof.
  unfold main_turn, process_erl, dispatch_pass, try_dispatch, process_wpa, wpa_pass, wpa_ctrl_pending,
    wpa_ctrl_recv, FD_SET. emits_step.
Qed.

Lemma small_recv_start argv : emits (W := W) small_recv (main_start argv).
Proof.
  assert (forall c, emits (W := W) small_recv (wpa_ctrl_attach c)) as Ha.
  { intros c. unfold wpa_ctrl_attach, wpa_ctrl_attach_helper.
    apply emits_bind; [apply small_recv_request; [rewrite BUFFER_SIZE_Z; lia|by left]|]. emits_step. }
  unfold main_start, wpa_ctrl_open, open_with, try_again, connect_file, dest_path, set_nonblocking. emits_step.
Qed.
#[local] Hint Resolve small_recv_turn small_recv_start : emits.

Lemma small_recv_main argv : emits (W := W) small_recv (main argv).
Proof. unfold main. emits_step. Qed.

(** What a run of the program has done at the head of its loop, or at its end. *)
Definition main_run (argv : list bytes) (w : W) (s : statics) (tr : sys_trace) : Prop :=
  (exists p w' s', main_reaches argv w s tr p w' s') \/
  (exists o s' w', exec w s (main argv) tr o s' w').

Lemma emits_exec {A} P (p : sprog A) w s tr o s' w' :
  emits P p -> exec w s p tr o s' w' -> Forall (fun ev => P ev /\ possible ev) tr.
Proof.
  intros He H. apply Forall_and. split; [by apply (He w s tr o s' w')|].
  destruct H as [n H]. by eapply trun_possible.
Qed.

Lemma emits_turns P p w s tr p' w' s' :
  (forall p, emits P (main_turn p)) -> turns p w s tr p' w' s' ->
  Forall (fun ev => P ev /\ possible ev) tr.
Proof.
  intros He. induction 1 as [|tr1 p1 w1 s1 tr2 p2 w2 s2 _ IH H]; [done|].
  apply Forall_app_2; [done|]. by eapply emits_exec.
Qed.

(** A datagram that has been received fits the buffer. *)
Lemma main_run_received argv w s tr tr1 :
  main_run argv w s tr -> tr1 `prefix_of` tr ->
  Forall (fun d => Z.of_nat (length d) <= Z.of_nat BUFFER_SIZE) (received tr1).
Proof.
  intros Hr [tr2 ->].
  assert (Forall (fun ev => small_recv ev /\ possible ev) (tr1 ++ tr2)) as [HF _]%Forall_app.
  { destruct Hr as [(p & w' & s' & tr3 & p1 & w1 & s1 & tr4 & H1 & H2 & ->)|(o & s' & w' & H)].
    - apply Forall_app_2; [by eapply emits_exec; [apply small_recv_start|]|].
      by eapply emits_turns; [apply small_recv_turn|].
    - by eapply emits_exec; [apply small_recv_main|]. }
  clear Hr. induction HF as [|[X e x] tr1 [Hs (w1 & w2 & Hk)] _ IH]; [done|]. autorewrite with wpa.
  apply Forall_app_2; [|exact IH]. destruct e; try constructor. destruct x as [d|]; [|constructor].
  repeat constructor. pose proof (recv_bound _ _ _ _ _ Hk). cbn -[BUFFER_SIZE] in Hs. lia.
Qed.

Lemma main_run_relay argv w s tr :
  argv_ok argv s -> main_run argv w s tr -> is_Some (relay_run relay0 (actions tr)).
Proof.
  intros Hok [(p & w' & s' & H)|(o & s' & w' & H)]; [|by eapply main_relay_run].
  destruct (main_reaches_turns _ _ _ _ _ _ _ Hok H) as (tr1 & c & tr2 & -> & Ha & _ & _ & _ & Hv & _).
  autorewrite with wpa. rewrite relay_run_app, relay_attached by done. by eexists.
Qed.

Lemma relayed_fits ds ms :
  Forall (fun d => Z.of_nat (length d) <= Z.of_nat BUFFER_SIZE) ds -> Forall2 relayed ds ms ->
  Forall fits16 ms.
Proof.
  rewrite BUFFER_SIZE_Z. intros HF H. induction H as [|d m ds ms Hd _ IH]; [done|].
  apply Forall_cons in HF as [Hl HF]. constructor; [|by apply IH]. unfold fits16.
  destruct Hd as [-> |(_ & _ & ->)]; [lia|]. rewrite length_take. lia.
Qed.

Lemma acknowledged_Forall (P : bytes -> Prop) ds : Forall P ds -> Forall P (acknowledged ds).
Proof.
  induction 1 as [|d ds Hd HF IH]; [done|]. cbn. destruct (unsolicited d); [done|]. by case_decide.
Qed.

Lemma main_run_framed_out argv w s tr tr1 :
  argv_ok argv s -> main_run argv w s tr -> tr1 `prefix_of` tr ->
  framed_out (acknowledged (received tr1)) (output tr1).
Proof.
  intros Hok Hr [tr2 ->]. apply main_run_relay in Hr; [|done]. rewrite observe_with_app in Hr.
  apply relay_run_prefix in Hr as [r Hr]. rewrite <- actions_received, <- actions_output.
  by eapply relay_framed_out.
Qed.

Lemma unframe_framed_out ds out :
  Forall (fun d => Z.of_nat (length d) <= Z.of_nat BUFFER_SIZE) ds -> framed_out ds out ->
  exists ms part, unframe out = (ms, part) /\
    (part = [] /\ Forall2 relayed ds ms \/
     exists m rest, rest <> [] /\ frame m = part ++ rest /\ Forall2 relayed ds (ms ++ [m])).
Proof.
  intros HF (ms & part & -> & Hp). exists ms, part. destruct Hp as [[-> H]|(m & rest & Hr & Hm & H)].
  - pose proof (relayed_fits _ _ HF H). split; [|by left].
    rewrite unframe_frames, (unframe_short []) by (done || cbn; lia). cbn. by rewrite app_nil_r.
  - pose proof (relayed_fits _ _ HF H) as [Hf Hfm]%Forall_app. apply Forall_cons in Hfm as [Hfm _].
    split; [|right; by exists m, rest].
    rewrite unframe_frames, (unframe_part m part rest) by done. cbn. by rewrite app_nil_r.
Qed.

Lemma unframe_framed_idle argv w s tr pend :
  main_run argv w s tr -> relay_run relay0 (actions tr) = Some (MkRelay pend Idle) ->
  exists ms, unframe (output tr) = (ms, []) /\ Forall2 relayed (acknowledged (received tr)) ms.
Proof.
  intros Hm (ms & Ho & H)%relay_framed_idle. rewrite actions_output in Ho. rewrite actions_received in H.
  exists ms. split; [|done]. rewrite Ho, <- (app_nil_r (concat _)), unframe_frames.
  - rewrite (unframe_short []) by (cbn; lia). cbn. by rewrite app_nil_r.
  - eapply relayed_fits; [|exact H]. by eapply acknowledged_Forall, main_run_received.
Qed.

(** C8: At every moment of a run, what the program has written to standard output parses
    as complete frames, one for each datagram received since the acknowledgement of the
    attachment, in order, of which at most the last is written in part only; at the head
    of the main loop and when the program ends with success every frame is complete. *)
Theorem main_framed_output argv w s tr :
  argv_ok argv s -> main_run argv w s tr ->
  (forall tr1, tr1 `prefix_of` tr -> exists ms part, unframe (output tr1) = (ms, part) /\
     (part = [] /\ Forall2 relayed (acknowledged (received tr1)) ms \/
      exists m rest, rest <> [] /\ frame m = part ++ rest /\
        Forall2 relayed (acknowledged (received tr1)) (ms ++ [m]))) /\
  ((exists p w' s', main_reaches argv w s tr p w' s') \/
   (exists s' w', exec w s (main argv) tr (Exit EXIT_SUCCESS) s' w') ->
   exists ms, unframe (output tr) = (ms, []) /\ Forall2 relayed (acknowledged (received tr)) ms).
Proof.
  intros Hok Hr. split.
  - intros tr1 Hp. apply unframe_framed_out; [|by eapply main_run_framed_out].
    by eapply acknowledged_Forall, main_run_received.
  - intros Hend. enough (exists pend, relay_run relay0 (actions tr) = Some (MkRelay pend Idle)) as [pend H]
      by by eapply unframe_framed_idle.
    destruct Hend as [(p & w' & s' & H)|(s' & w' & H)].
    + destruct (main_reaches_turns _ _ _ _ _ _ _ Hok H) as (tr1 & c & tr2 & -> & Ha & _ & _ & _ & Hv & _).
      autorewrite with wpa. rewrite relay_run_app, relay_attached by done. by eexists.
    + destruct (wp_main argv w s Hok _ _ _ _ H) as (_ & _ & Hz). destruct (Hz eq_refl) as (_ & _ & ->). by eexists.
Qed.
End Main.
