(* ===== verification/ExSystem.v ===== *)
(** * The server, the port program and the supplicant together

    The server writes commands to the port in frames and reads messages from it
    in frames ([{packet, 2}]); the port program sends and receives datagrams.
    [system_step] interleaves them in every order.  The program is any set of
    behaviours that are runs of the abstract relay ([PortProgram]); the traces
    of [main] are such a set.  The theorem is that every client gets the reply
    that the supplicant gave to its own command. *)

From S2P Require Export ExServer PortMain.
Local Open Scope Z_scope.

(** ** The supplicant

    What is assumed of it: a datagram fits the receive buffer, an unsolicited
    message starts with its priority in angle brackets, and anything else is
    the reply to a command. *)

(** The command that awaits its reply, and the commands with their replies. *)
Definition track (st : option bytes * list (bytes * bytes)) (a : action) :=
  match a, st with
  | Cmd m, (_, log) => (Some m, log)
  | Dgram d, (Some m, log) => if unsolicited d then st else (None, log ++ [(m, d)])
  | _, _ => st
  end.

Definition exchanges (acts : list action) : option bytes * list (bytes * bytes) :=
  foldl track (None, []) acts.

Definition supplicant_ok (acts : list action) (d : bytes) : Prop :=
  (length d <= BUFFER_SIZE)%nat /\
  (unsolicited d -> is_Some (match_notification d)) /\
  (fst (exchanges acts) = None -> unsolicited d).

(** ** The whole system *)

Class PortProgram (P : list action -> Prop) : Prop :=
  port_relays : forall acts, P acts -> is_Some (relay_run relay0 acts).

(** What the server has handled and sent; the bytes on the way to the port and
    back; the actions of the port. *)
Record system : Type := MkSystem {
  server_of : server;
  handled : list message;
  effects : list effect;
  to_port : bytes;
  port_acts : list action;
  from_port : bytes
}.

Definition system0 (port manager : Z) : system := MkSystem (server0 port manager) [] [] [] [] [].

Section System.
Context `{RT : !Runtime} (self : Z) (P : list action -> Prop).

Inductive system_step : system -> system -> Prop :=
| step_call from c srv srv' ms es es' inp acts out :
    handle self (MCall from c) srv = (es', Running srv') -> Forall fits16 (payloads es') ->
    system_step (MkSystem srv ms es inp acts out)
      (MkSystem srv' (ms ++ [MCall from c]) (es ++ es') (inp ++ concat (frame <$> payloads es')) acts out)
| step_read d srv ms es inp acts out :
    P (acts ++ [Inp d]) ->
    system_step (MkSystem srv ms es (d ++ inp) acts out) (MkSystem srv ms es inp (acts ++ [Inp d]) out)
| step_write b srv ms es inp acts out :
    P (acts ++ [Out b]) ->
    system_step (MkSystem srv ms es inp acts out) (MkSystem srv ms es inp (acts ++ [Out b]) (out ++ [b]))
| step_command m srv ms es inp acts out :
    P (acts ++ [Cmd m]) ->
    system_step (MkSystem srv ms es inp acts out) (MkSystem srv ms es inp (acts ++ [Cmd m]) out)
| step_datagram d srv ms es inp acts out :
    P (acts ++ [Dgram d]) -> supplicant_ok acts d ->
    system_step (MkSystem srv ms es inp acts out) (MkSystem srv ms es inp (acts ++ [Dgram d]) out)
| step_deliver m srv srv' ms es es' inp acts out :
    fits16 m -> handle self (MData m) srv = (es', Running srv') ->
    system_step (MkSystem srv ms es inp acts (frame m ++ out))
      (MkSystem srv' (ms ++ [MData m]) (es ++ es') inp acts out).

Definition system_reaches (port manager : Z) : system -> Prop := rtc system_step (system0 port manager).

(** ** Lemmas on frames and notifications *)

Lemma frame_inj m1 m2 b1 b2 :
  fits16 m1 -> fits16 m2 -> frame m1 ++ b1 = frame m2 ++ b2 -> m1 = m2 /\ b1 = b2.
Proof.
  intros H1 H2 E. pose proof (head_message_frame m1 b1 H1) as E1. rewrite E in E1.
  rewrite head_message_frame in E1 by done. by injection E1.
Qed.

Lemma frames_cons m b ms :
  fits16 m -> Forall fits16 ms -> frame m ++ b = concat (frame <$> ms) ->
  exists ms', ms = m :: ms' /\ b = concat (frame <$> ms').
Proof.
  intros Hm Hms E. destruct Hms as [|m' ms Hm' Hms]; [done|].
  cbn [fmap list_fmap concat] in E. apply frame_inj in E as [-> ->]; [|done..]. by exists ms.
Qed.

Lemma head_message_some b m rest :
  head_message b = Some (m, rest) -> b = frame m ++ rest /\ fits16 m.
Proof.
  destruct b as [|h [|l b]]; [done..|]. cbn -[of_be16]. pose proof (of_be16_range h l).
  case_decide as Hn; [|done]. intros [= <- <-].
  assert (Z.of_nat (length (take (Z.to_nat (of_be16 h l)) b)) = of_be16 h l) as Hl
    by (rewrite length_take; lia).
  unfold frame, fits16. rewrite Hl. pose proof (be16_of_be16 h l) as Hb. injection Hb as -> ->.
  cbn [app]. rewrite take_drop. split; [done|lia].
Qed.

(** A code point is read off at most four bytes, whatever follows. *)
Lemma utf8_next_app s c r :
  utf8_next s = Some (c, r) ->
  exists u, s = u ++ r /\ (length u <= 4)%nat /\ forall r', utf8_next (u ++ r') = Some (c, r').
Proof.
  destruct s as [|c0 s]; [done|]. cbn [utf8_next].
  destruct (byte.unsigned c0 <? 128) eqn:H1.
  { intros [= <- <-]. exists [c0]. split_and!; [done|cbn; lia|]. intros r'. cbn. by rewrite H1. }
  destruct (_ && _) eqn:H2.
  { destruct s as [|c1 s]; [done|]. destruct (cont c1) eqn:E1; [|done]. intros [= <- <-].
    exists [c0; c1]. split_and!; [done|cbn; lia|]. intros r'. cbn. by rewrite H1, H2, E1. }
  destruct (_ && _) eqn:H3 in |- *.
  { destruct s as [|c1 [|c2 s]]; [done..|]. destruct (cont c1) eqn:E1; [|done].
    destruct (cont c2) eqn:E2; [|done]. cbn [mbind option_bind].
    destruct (_ && negb _) eqn:H4; [|done]. intros [= <- <-].
    exists [c0; c1; c2]. split_and!; [done|cbn; lia|]. intros r'. cbn. by rewrite H1, H2, H3, E1, E2; cbn; rewrite H4. }
  destruct (_ && _) eqn:H4 in |- *; [|done].
  destruct s as [|c1 [|c2 [|c3 s]]]; [done..|]. destruct (cont c1) eqn:E1; [|done].
  destruct (cont c2) eqn:E2; [|done]. destruct (cont c3) eqn:E3; [|done]. cbn [mbind option_bind].
  destruct (_ && _) eqn:H5 in |- *; [|done]. intros [= <- <-].
  exists [c0; c1; c2; c3]. split_and!; [done|cbn; lia|]. intros r'. cbn.
  by rewrite H1, H2, H3, H4, E1, E2, E3; cbn; rewrite H5.
Qed.

Definition rangle : byte := Eval vm_compute in byte.of_Z 62.

Lemma match_notification_inv d n :
  match_notification d = Some n ->
  exists u, d = langle :: u ++ rangle :: n /\ (length u <= 4)%nat /\
    forall n', match_notification (langle :: u ++ rangle :: n') = Some n'.
Proof.
  unfold match_notification. intros H. destruct (match_prefix (bs "<") d) as [m|] eqn:E1; [|done].
  apply match_prefix_spec in E1 as ->. cbn [mbind option_bind] in H.
  destruct (utf8_next m) as [[c r]|] eqn:E2; [|done]. apply utf8_next_app in E2 as (u & -> & Hl & Hu).
  cbn [mbind option_bind] in H. apply match_prefix_spec in H as ->. exists u. split_and!; [done|done|].
  intros n'. change (langle :: ?x) with (bs "<" ++ x). rewrite match_prefix_app. cbn [mbind option_bind].
  rewrite Hu. cbn [mbind option_bind]. change (rangle :: n') with (bs ">" ++ n'). apply match_prefix_app.
Qed.

Lemma match_notification_unsolicited d : unsolicited d = false -> match_notification d = None.
Proof.
  intros Hd. destruct (match_notification d) as [n|] eqn:E; [|done].
  by apply match_notification_inv in E as (u & -> & _).
Qed.

(** A message that fills the buffer loses its last byte and stays a notification. *)
Lemma passed_on_notification d :
  (length d <= BUFFER_SIZE)%nat -> is_Some (match_notification d) ->
  is_Some (match_notification (passed_on d)) /\ fits16 (passed_on d).
Proof.
  intros Hl [n E]. pose proof E as (u & Ed & Hu & Hn)%match_notification_inv.
  assert (fits16 d) by (unfold fits16, BUFFER_SIZE in *; lia).
  unfold passed_on, delivered. destruct (unsolicited d); [|by eauto].
  destruct (Z.eqb_spec (Z.of_nat (length d)) (Z.of_nat BUFFER_SIZE)) as [Hf|]; [|by eauto].
  split; [|unfold fits16, BUFFER_SIZE in *; rewrite length_take; lia].
  assert (length d = S (length u + S (length n)))%nat as Hlen by (rewrite Ed; cbn; rewrite length_app; cbn; lia).
  assert (length n <> 0)%nat by (unfold BUFFER_SIZE in *; lia).
  exists (take (length n - 1) n). rewrite <- Hn. f_equal. rewrite Hlen, Ed.
  replace (S (length u + S (length n)) - 1)%nat with (S (length u + S (length n - 1)))%nat by lia.
  cbn [take]. f_equal. rewrite take_app_ge by lia.
  by replace (length u + S (length n - 1) - length u)%nat with (S (length n - 1)) by lia.
Qed.

(** ** The invariant *)

(** Whether a command of a client awaits its reply. *)
Definition awaited (ph : phase) : bool :=
  match ph with Awaiting => true | Writing _ aw => aw | _ => false end.

Definition phase_exchanges (ph : phase) (ex : option bytes * list (bytes * bytes)) : Prop :=
  match ph with
  | Detached => ex = (None, [])
  | Attaching => ex = (Some (bs "ATTACH"), [])
  | Stopped => True
  | _ => (if awaited ph then is_Some ex.1 else ex.1 = None) /\ ex.2 <> []
  end.

(** The commands of clients that have been sent to the supplicant. *)
Definition commands (ph : phase) (ex : option bytes * list (bytes * bytes)) : list bytes :=
  (tail ex.2).*1 ++ (if awaited ph then option_list ex.1 else []).

(** [msgs] are the commands on the way to the supplicant, [ms] the messages on
    the way to the server. *)
Record system_inv_with (port manager : Z) (s : system) (r : relay) (msgs ms : list bytes) : Prop := {
  inv_relay : relay_run relay0 (port_acts s) = Some r;
  inv_serve : serve self (handled s) (server0 port manager) = (effects s, Running (server_of s));
  inv_in : pending r ++ to_port s = concat (frame <$> msgs);
  inv_in_fits : Forall fits16 msgs;
  inv_out : from_port s ++ unwritten (phase_of r) = concat (frame <$> ms);
  inv_out_fits : Forall fits16 ms;
  inv_phase : phase_exchanges (phase_of r) (exchanges (port_acts s));
  inv_commands : payloads (effects s) = commands (phase_of r) (exchanges (port_acts s)) ++ msgs;
  inv_responses : responses (handled s ++ (MData <$> ms)) = (tail (exchanges (port_acts s)).2).*2
}.

Definition system_inv (port manager : Z) (s : system) : Prop :=
  exists r msgs ms, system_inv_with port manager s r msgs ms.

Lemma written_phase aw out :
  unwritten (written aw out) = out /\ awaited (written aw out) = aw /\
  forall ex, phase_exchanges (written aw out) ex <-> (if aw then is_Some ex.1 else ex.1 = None) /\ ex.2 <> [].
Proof. by destruct out, aw. Qed.

Lemma exchanges_snoc acts a : exchanges (acts ++ [a]) = track (exchanges acts) a.
Proof. unfold exchanges. by rewrite foldl_snoc. Qed.

Lemma relay_run_snoc acts a r :
  relay_run relay0 acts = Some r -> is_Some (relay_run relay0 (acts ++ [a])) ->
  exists r', relay_next r a = Some r' /\ relay_run relay0 (acts ++ [a]) = Some r'.
Proof.
  rewrite relay_run_app. intros -> [r' H]. cbn in *. destruct (relay_next r a) as [r1|]; [|done].
  by exists r1.
Qed.

Lemma calls_payloads_data (ms : list bytes) : calls (MData <$> ms) = [].
Proof. induction ms; [done|]. done. Qed.

Lemma responses_call ms from c ms' :
  responses ((ms ++ [MCall from c]) ++ ms') = responses (ms ++ ms').
Proof. unfold responses. by rewrite !bind_app, app_nil_r. Qed.

Lemma responses_data d :
  responses [MData d] = match match_notification d with Some _ => [] | None => [d] end.
Proof. unfold responses, mbind, list_bind, response_of. by rewrite app_nil_r. Qed.

Lemma concat_frames ms1 ms2 :
  concat (frame <$> (ms1 ++ ms2)) = concat (frame <$> ms1) ++ concat (frame <$> ms2).
Proof. by rewrite fmap_app, concat_app. Qed.

Lemma track_inp ex d : track ex (Inp d) = ex.
Proof. by destruct ex as [[] ?]. Qed.

Lemma track_out ex b : track ex (Out b) = ex.
Proof. by destruct ex as [[] ?]. Qed.

Section Preservation.
Context (port manager : Z) (srv : server) (ms : list message) (es : list effect) (inp out : bytes)
  (acts : list action).

Lemma serve_snoc m es' srv' :
  serve self ms (server0 port manager) = (es, Running srv) -> handle self m srv = (es', Running srv') ->
  serve self (ms ++ [m]) (server0 port manager) = (es ++ es', Running srv').
Proof. intros H1 H2. rewrite serve_app, H1. cbn. by rewrite H2, app_nil_r. Qed.

Lemma call_preserves from c srv' es' :
  handle self (MCall from c) srv = (es', Running srv') -> Forall fits16 (payloads es') ->
  system_inv port manager (MkSystem srv ms es inp acts out) ->
  system_inv port manager
    (MkSystem srv' (ms ++ [MCall from c]) (es ++ es') (inp ++ concat (frame <$> payloads es')) acts out).
Proof.
  intros Hh Hf (r & msgs & pend & []). cbn [server_of handled effects to_port port_acts from_port] in *.
  exists r, (msgs ++ payloads es'), pend. split; cbn [server_of handled effects to_port port_acts from_port].
  - done.
  - by eapply serve_snoc.
  - by rewrite app_assoc, inv_in0, concat_frames.
  - by apply Forall_app_2.
  - done.
  - done.
  - done.
  - unfold payloads in *. by rewrite bind_app, inv_commands0, app_assoc.
  - by rewrite responses_call.
Qed.

Lemma deliver_preserves m srv' es' :
  fits16 m -> handle self (MData m) srv = (es', Running srv') ->
  system_inv port manager (MkSystem srv ms es inp acts (frame m ++ out)) ->
  system_inv port manager (MkSystem srv' (ms ++ [MData m]) (es ++ es') inp acts out).
Proof.
  intros Hm Hh (r & msgs & pend & []). cbn [server_of handled effects to_port port_acts from_port] in *.
  rewrite <- app_assoc in inv_out0.
  destruct (frames_cons _ _ _ Hm inv_out_fits0 inv_out0) as (pend' & -> & Hout).
  assert (payloads es' = []) as Hp.
  { destruct (handle_served self _ _ _ _ Hh) as (HF & _). by apply Forall2_nil_inv_l in HF. }
  exists r, msgs, pend'. split; cbn [server_of handled effects to_port port_acts from_port].
  - done.
  - by eapply serve_snoc.
  - done.
  - done.
  - done.
  - by apply Forall_cons in inv_out_fits0 as [_ ?].
  - done.
  - unfold payloads in *. by rewrite bind_app, Hp, app_nil_r.
  - by rewrite <- app_assoc.
Qed.

Context `{!PortProgram P}.

Lemma read_preserves d :
  P (acts ++ [Inp d]) ->
  system_inv port manager (MkSystem srv ms es (d ++ inp) acts out) ->
  system_inv port manager (MkSystem srv ms es inp (acts ++ [Inp d]) out).
Proof.
  intros HP (r & msgs & pend & []). cbn [server_of handled effects to_port port_acts from_port] in *.
  destruct (relay_run_snoc _ _ _ inv_relay0 (port_relays _ HP)) as (r' & Hn & Hr).
  destruct r as [b ph]. destruct ph; try done; cbn in Hn; [|by destruct out0].
  destruct (head_message b); [done|]. injection Hn as <-.
  exists (MkRelay (b ++ d) Idle), msgs, pend.
  split; cbn [server_of handled effects to_port port_acts from_port pending phase_of] in *;
    rewrite ?exchanges_snoc, ?track_inp; try done.
  by rewrite <- app_assoc.
Qed.

Lemma write_preserves b :
  P (acts ++ [Out b]) ->
  system_inv port manager (MkSystem srv ms es inp acts out) ->
  system_inv port manager (MkSystem srv ms es inp (acts ++ [Out b]) (out ++ [b])).
Proof.
  intros HP (r & msgs & pend & []). cbn [server_of handled effects to_port port_acts from_port] in *.
  destruct (relay_run_snoc _ _ _ inv_relay0 (port_relays _ HP)) as (r' & Hn & Hr).
  destruct r as [i ph]. destruct ph as [| | | |[|b' o] aw|]; try done. cbn in Hn.
  destruct (decide (b' = b)) as [->|]; [|done]. injection Hn as <-.
  destruct (written_phase aw o) as (Hu & Ha & Hph).
  exists (MkRelay i (written aw o)), msgs, pend.
  split; cbn [server_of handled effects to_port port_acts from_port pending phase_of] in *;
    rewrite ?exchanges_snoc, ?track_out; try done.
  - by rewrite Hu, <- app_assoc.
  - by apply Hph.
  - unfold commands. by rewrite Ha.
Qed.

Lemma command_preserves m :
  P (acts ++ [Cmd m]) ->
  system_inv port manager (MkSystem srv ms es inp acts out) ->
  system_inv port manager (MkSystem srv ms es inp (acts ++ [Cmd m]) out).
Proof.
  intros HP (r & msgs & pend & []). cbn [server_of handled effects to_port port_acts from_port] in *.
  destruct (relay_run_snoc _ _ _ inv_relay0 (port_relays _ HP)) as (r' & Hn & Hr).
  destruct r as [i ph]. destruct ph as [| | | |[|? ?] ?|]; try done; cbn [relay_next] in Hn.
  - destruct (decide (m = bs "ATTACH")) as [->|]; [|done]. injection Hn as <-.
    exists (MkRelay i Attaching), msgs, pend. cbn [phase_of phase_exchanges] in inv_phase0.
    unfold commands in *. rewrite inv_phase0 in *.
    by split; cbn [server_of handled effects to_port port_acts from_port pending phase_of] in *;
      rewrite ?exchanges_snoc, ?inv_phase0.
  - destruct (head_message i) as [[m' rest]|] eqn:Hh; [|done].
    destruct (decide (m = m')) as [->|]; [|done]. injection Hn as <-.
    apply head_message_some in Hh as [-> Hm]. cbn [pending] in inv_in0. rewrite <- app_assoc in inv_in0.
    destruct (frames_cons _ _ _ Hm inv_in_fits0 inv_in0) as (msgs' & -> & Hin).
    exists (MkRelay rest Awaiting), msgs', pend.
    unfold commands in *. destruct (exchanges acts) as [aw log] eqn:He.
    split; cbn [server_of handled effects to_port port_acts from_port pending phase_of] in *;
      rewrite ?exchanges_snoc, ?He; cbn [track fst snd awaited option_list] in *; try done.
    + by apply Forall_cons in inv_in_fits0 as [_ ?].
    + split; [by eexists|apply inv_phase0].
    + rewrite inv_commands0. unfold commands. cbn [fst snd awaited option_list].
      by rewrite app_nil_r, <- app_assoc.
Qed.

(** A datagram that is passed on, as the message [d']. *)
Lemma forward_preserves d d' aw i r' :
  relay_run relay0 (acts ++ [Dgram d]) = Some r' -> r' = MkRelay i (written aw (frame d')) ->
  fits16 d' ->
  (exists r msgs pend, system_inv_with port manager (MkSystem srv ms es inp acts out) r msgs pend /\
    pending r = i /\ unwritten (phase_of r) = [] /\
    phase_exchanges (written aw (frame d')) (exchanges (acts ++ [Dgram d])) /\
    commands (written aw (frame d')) (exchanges (acts ++ [Dgram d])) =
      commands (phase_of r) (exchanges acts) /\
    (tail (exchanges acts).2).*2 ++ responses [MData d'] = (tail (exchanges (acts ++ [Dgram d])).2).*2) ->
  system_inv port manager (MkSystem srv ms es inp (acts ++ [Dgram d]) out).
Proof.
  intros Hr -> Hd (r & msgs & pend & [] & <- & Hu & Hph & Hc & Hl).
  cbn [server_of handled effects to_port port_acts from_port] in *.
  rewrite Hu, app_nil_r in inv_out0. destruct (written_phase aw (frame d')) as (Hw & _ & _).
  exists (MkRelay (pending r) (written aw (frame d'))), msgs, (pend ++ [d']).
  split; cbn [server_of handled effects to_port port_acts from_port pending phase_of]; try done.
  - rewrite Hw, inv_out0, concat_frames. cbn [fmap list_fmap concat]. by rewrite app_nil_r.
  - apply Forall_app_2; [done|by repeat constructor].
  - by rewrite Hc.
  - rewrite <- Hl, <- inv_responses0. unfold responses. by rewrite fmap_app, app_assoc, (bind_app _ (_ ++ _)).
Qed.

Lemma datagram_preserves d :
  P (acts ++ [Dgram d]) -> supplicant_ok acts d ->
  system_inv port manager (MkSystem srv ms es inp acts out) ->
  system_inv port manager (MkSystem srv ms es inp (acts ++ [Dgram d]) out).
Proof.
  intros HP (Hlen & Hnot & Hno) (r & msgs & pend & Hinv). pose proof Hinv as [].
  cbn [server_of handled effects to_port port_acts from_port] in *.
  destruct (relay_run_snoc _ _ _ inv_relay0 (port_relays _ HP)) as (r' & Hn & Hr).
  assert (fits16 d) as Hd by (unfold fits16, BUFFER_SIZE in *; lia).
  destruct r as [i ph]. destruct ph as [| | | |[|? ?] ?|]; try done; cbn [relay_next phase_of] in *.
  - (* attaching *) injection Hn as <-. cbn [phase_exchanges] in inv_phase0.
    eexists _, msgs, pend. unfold commands in *. rewrite inv_phase0 in *.
    split; cbn [server_of handled effects to_port port_acts from_port pending phase_of];
      rewrite ?exchanges_snoc, ?inv_phase0; cbn [track fst snd] in *; try done;
      destruct (unsolicited d); try done; by case_decide.
  - (* idle *) destruct (head_message i); [done|]. injection Hn as <-.
    destruct inv_phase0 as [Ha Hl]. cbn [awaited] in Ha. specialize (Hno Ha).
    destruct (Hnot Hno) as [n Hn]. eapply (forward_preserves d d false); [exact Hr|done|done|].
    exists (MkRelay i Idle), msgs, pend. rewrite exchanges_snoc.
    destruct (exchanges acts) as [aw log]. cbn in Ha. subst aw. cbn [track].
    split_and!; try done. by rewrite responses_data, Hn, app_nil_r.
  - (* awaiting *) injection Hn as <-. destruct inv_phase0 as [[c Ha] Hl]. cbn [awaited] in *.
    destruct (exchanges acts) as [aw log] eqn:He. cbn [fst snd] in *. subst aw.
    destruct (unsolicited d) eqn:Hu.
    + destruct (passed_on_notification d Hlen (Hnot I)) as [[n Hn'] Hf].
      eapply (forward_preserves d (passed_on d) true); [exact Hr|done|done|].
      exists (MkRelay i Awaiting), msgs, pend. rewrite exchanges_snoc, He. cbn [track]. rewrite Hu.
      split_and!; try done; [by split; [eexists|]|]. by rewrite responses_data, Hn', app_nil_r.
    + unfold passed_on in Hr. rewrite Hu in Hr. eapply (forward_preserves d d false); [exact Hr|done|done|].
      exists (MkRelay i Awaiting), msgs, pend. rewrite exchanges_snoc, He. cbn [track]. rewrite Hu.
      destruct log as [|x log]; [done|].
      split_and!; try done.
      * unfold commands. cbn. by rewrite fmap_app, app_nil_r.
      * rewrite responses_data, match_notification_unsolicited by done. cbn. by rewrite fmap_app.
Qed.
End Preservation.

Lemma system0_inv port manager : system_inv port manager (system0 port manager).
Proof. by exists relay0, [], []. Qed.

Lemma system_step_inv `{!PortProgram P} port manager s s' :
  system_step s s' -> system_inv port manager s -> system_inv port manager s'.
Proof.
  destruct 1; eauto using call_preserves, deliver_preserves, read_preserves, write_preserves,
    command_preserves, datagram_preserves.
Qed.

Lemma system_reaches_inv `{!PortProgram P} port manager s :
  system_reaches port manager s -> system_inv port manager s.
Proof.
  unfold system_reaches. intros H. pose proof (system0_inv port manager) as H0. revert H0.
  induction H as [|s1 s2 s3 Hs _ IH]; [done|]. intros Hi. apply IH. by eapply system_step_inv.
Qed.

(** The reply [r] to the request [req] is what the supplicant answered to its
    command. *)
Definition replied (req : Z * term) (ex : bytes * bytes) (r : Z * term) : Prop :=
  encode req.2 = Ok ex.1 /\ r.1 = req.1 /\ resp req.2 ex.2 = Ok r.2.

Lemma replied_all served ds rs log reqs cmds ds' :
  Forall3 answers served ds rs -> log.*2 = ds ++ ds' ->
  Forall2 (fun (c : Z * term) p => encode c.2 = Ok p) (served ++ reqs) (log.*1 ++ cmds) ->
  Forall3 replied served (take (length served) log) rs.
Proof.
  intros H. revert log. induction H as [|req d r served ds rs [H1 H2] _ IH]; intros log Hl He; [constructor|].
  destruct log as [|[p d'] log]; [done|]. cbn in *. injection Hl as -> Hl.
  apply Forall2_cons_1 in He as [He1 He2]. constructor; [done|]. by apply IH.
Qed.

Lemma system_inv_replied port manager s :
  system_inv port manager s ->
  exists served, calls (handled s) = served ++ requests (server_of s) /\
    length (responses (handled s)) = length served /\
    Forall3 replied served (take (length served) (tail (exchanges (port_acts s)).2)) (replies (effects s)).
Proof.
  intros (r & msgs & pend & []).
  destruct (serve_served self _ _ _ _ inv_serve0) as (He & _ & served & Hq & HF). cbn [requests server0 app] in Hq.
  exists served. split; [done|]. split; [by apply Forall3_length_lm in HF|].
  unfold commands in inv_commands0. rewrite Hq, inv_commands0, <- app_assoc in He.
  unfold responses in inv_responses0. rewrite bind_app in inv_responses0. by eapply replied_all.
Qed.

(** The response that is delivered next belongs to the request that waits longest. *)
Lemma next_response port manager r msgs m pend s :
  system_inv_with port manager s r msgs (m :: pend) -> match_notification m = None ->
  exists req rest served c, requests (server_of s) = req :: rest /\
    calls (handled s) = served ++ req :: rest /\
    tail (exchanges (port_acts s)).2 !! length served = Some (c, m).
Proof.
  intros Hinv Hm. destruct (system_inv_replied port manager s) as (served & Hq & Hd & _); [by do 3 eexists|].
  destruct Hinv. apply serve_served in inv_serve0 as [He%Forall2_length _].
  unfold responses in *. rewrite fmap_cons, bind_app, bind_cons in inv_responses0. cbn [response_of] in inv_responses0.
  rewrite Hm in inv_responses0. cbn [app] in inv_responses0.
  assert ((tail (exchanges (port_acts s)).2).*2 !! length served = Some m) as Hl
    by (rewrite <- inv_responses0, <- Hd; by apply list_lookup_middle).
  rewrite list_lookup_fmap in Hl. apply fmap_Some in Hl as ([c m'] & Hl & [= <-]).
  apply lookup_lt_Some in Hl as Hlt. rewrite inv_commands0, Hq in He. unfold commands in He.
  rewrite !length_app, length_fmap in He.
  destruct (requests (server_of s)) as [|req rest]; [cbn in He; lia|]. by exists req, rest, served, c.
Qed.

Lemma system_replied `{!PortProgram P} port manager s :
  system_reaches port manager s ->
  (exists served, calls (handled s) = served ++ requests (server_of s) /\
     Forall3 replied served (take (length served) (tail (exchanges (port_acts s)).2)) (replies (effects s))) /\
  (forall m rest, from_port s = frame m ++ rest -> fits16 m -> match_notification m = None ->
     requests (server_of s) <> []).
Proof.
  intros Hi%system_reaches_inv. split.
  - destruct (system_inv_replied _ _ _ Hi) as (served & ? & _ & ?). by exists served.
  - intros m rest Ho Hm Hn. destruct Hi as (r & msgs & pend & Hi). pose proof (inv_out _ _ _ _ _ _ Hi) as Hout.
    rewrite Ho, <- app_assoc in Hout.
    destruct (frames_cons _ _ _ Hm (inv_out_fits _ _ _ _ _ _ Hi) Hout) as (pend' & -> & _).
    by destruct (next_response _ _ _ _ _ _ _ Hi Hn) as (req & rest' & _ & _ & -> & _).
Qed.
End System.

(** ** The program as the port *)

Section Whole.
Context {W : Type} `{K : !Kernel sysE W} `{!PosixKernel W} `{RT : !Runtime} (self : Z).

(** What the running program, or a run of it that has ended, has done at some
    time. *)
Definition port_behaviour (argv : list bytes) (w : W) (s : statics) (acts : list action) : Prop :=
  exists tr, acts `prefix_of` actions tr /\
    ((exists p w' s', main_reaches argv w s tr p w' s') \/
     (exists o s' w', exec w s (main argv) tr o s' w')).

Lemma port_behaviour_relays argv w s : argv_ok argv s -> PortProgram (port_behaviour argv w s).
Proof.
  intros Hok acts (tr & [rest Ha] & H).
  enough (is_Some (relay_run relay0 (actions tr))) as Hr by (rewrite Ha in Hr; by eapply relay_run_prefix).
  destruct H as [(p & w' & s' & H)|(o & s' & w' & H)].
  - destruct (main_reaches_turns _ _ _ _ _ _ _ Hok H) as (tr1 & c & tr2 & -> & Hat & _ & _ & _ & Hv & _).
    autorewrite with wpa. rewrite relay_run_app, relay_attached by done. by eexists.
  - by eapply main_relay_run.
Qed.

(** C2: In every interleaving of clients, server, port program and supplicant, each
    client gets the reply that the supplicant gave to its own command: the replies go to
    the oldest requests in order, each decoded from the datagram that answered the
    encoded command, and the server is never given a response for which no request
    waits. *)
Theorem system_replies argv w s port manager sys :
  argv_ok argv s -> system_reaches self (port_behaviour argv w s) port manager sys ->
  (exists served, calls (handled sys) = served ++ requests (server_of sys) /\
     Forall3 replied served (take (length served) (tail (exchanges (port_acts sys)).2)) (replies (effects sys))) /\
  (forall m rest, from_port sys = frame m ++ rest -> fits16 m -> match_notification m = None ->
     requests (server_of sys) <> []).
Proof.
  intros Hok Hs. pose proof (port_behaviour_relays argv w s Hok). by eapply system_replied.
Qed.
End Whole.
