(* ===== verification/PortAnswer.v ===== *)
(** * wpa_ex.c: every command is answered

    In an environment whose supplicant answers the commands it is sent
    ([AnsweringKernel]) the program runs to the end of its input, and ends with
    success: the commands of the input have been sent, all of them, and the
    reply to each one has been passed on.  The proof uses total-correctness
    triples ([goes]) over the state of the environment. *)

From S2P Require Export PortMain.
Local Open Scope Z_scope.
Local Open Scope prog_scope.

(** The datagrams in the queue of the socket: messages only, or one reply
    among them. *)
Definition calm (q : list bytes) : Prop := Forall unsolicited q.

Fixpoint owing (q : list bytes) : Prop :=
  match q with
  | [] => False
  | d :: q => if unsolicited d then owing q else calm q
  end.

Lemma calm_app q evs : calm q -> calm evs -> calm (q ++ evs).
Proof. apply Forall_app_2. Qed.

Lemma owing_app q evs : owing q -> calm evs -> owing (q ++ evs).
Proof.
  intros Hq Hevs. induction q as [|d q IH]; [done|]. cbn in *.
  destruct (unsolicited d); [by apply IH|by apply calm_app].
Qed.

Lemma owing_reply q d evs : calm q -> unsolicited d = false -> calm evs -> owing (q ++ d :: evs).
Proof. intros Hq Hd Hevs. induction Hq as [|e q He Hq IH]; cbn; [by rewrite Hd|by destruct (unsolicited e)]. Qed.

(** ** The environment

    [queue] are the datagrams that wait to be received, [stdin] the input that
    is still to come, and [bustle] bounds the signals and the spontaneous
    messages still to come.  [comes q w w' n]: after the call the queue holds
    [q] and new messages, and [n] signals have come. *)
Section Arrivals.
Context {W : Type} (queue : W -> list bytes) (bustle : W -> nat).

Definition comes (q : list bytes) (w w' : W) (n : nat) : Prop :=
  exists evs, calm evs /\ queue w' = q ++ evs /\ (n + length evs + bustle w' <= bustle w)%nat.
End Arrivals.

(** An environment in which calls do not fail, an accepted command brings
    messages and a reply, [poll] reports the input ready unless something else
    happens, and signals interrupt only [poll], [read] and [writev]. *)
Class AnsweringKernel (W : Type) `{K : !Kernel sysE W} (queue : W -> list bytes)
    (stdin : W -> bytes) (bustle : W -> nat) : Prop := {
  stdin_step : forall X (e : sysE X) w x w', kstep e w = (x, w') ->
    stdin w = input_of (Ev e x) ++ stdin w';
  bustle_step : forall X (e : sysE X) w x w', kstep e w = (x, w') -> (bustle w' <= bustle w)%nat;
  answer_send : forall w s m x w', kstep (Send s m) w = (x, w') ->
    exists n evs d, x = SOk n /\ calm evs /\ unsolicited d = false /\
      comes queue bustle (queue w ++ evs ++ [d]) w w' 0;
  answer_recv : forall w s n d q x w', kstep (Recv s n) w = (x, w') -> queue w = d :: q ->
    x = SOk (take (Z.to_nat n) d) /\ comes queue bustle q w w' 0;
  answer_select : forall w s a b x w', kstep (Select s a b) w = (x, w') ->
    x = SOk (negb (bool_decide (queue w' = []))) /\ comes queue bustle (queue w) w w' 0;
  answer_writev : forall w fd iov x w', kstep (Writev fd iov) w = (x, w') ->
    x = SErr EINTR /\ comes queue bustle (queue w) w w' 1 \/
    x = SOk (Z.of_nat (length (concat iov))) /\ comes queue bustle (queue w) w w' 0;
  answer_poll : forall w fd0 fd1 x w', kstep (Poll fd0 fd1) w = (x, w') ->
    x = SErr EINTR /\ comes queue bustle (queue w) w w' 1 \/
    exists re0 re1, x = SOk (re0, re1) /\
      comes queue bustle (queue w) w w' (if Z.land re0 (Z.lor POLLIN POLLHUP) =? 0 then 1 else 0);
  answer_read : forall w fd n x w', kstep (Read fd n) w = (x, w') -> 0 < n ->
    x = SErr EINTR /\ comes queue bustle (queue w) w w' 1 \/
    exists d, x = SOk d /\ comes queue bustle (queue w) w w' 0 /\ (d = [] -> stdin w = [])
}.

(** ** Total correctness

    [goes P p R E]: from a state of the environment with [P] the program
    terminates, with a value and [R], with an exit and [E], or in an undefined
    operation; that the last cannot happen is known from the relay theorems. *)
Section Triples.
Context {W : Type} `{K : !Kernel sysE W}.

Definition goes_post {A} (R : A -> W -> Prop) (E : Z -> W -> Prop)
    (_ : sys_trace) (o : outcome A) (_ : statics) (w' : W) : Prop :=
  match o with Val a => R a w' | Exit z => E z w' | Ub => True end.

Definition goes {A} (P : W -> Prop) (p : sprog A) (R : A -> W -> Prop) (E : Z -> W -> Prop) : Prop :=
  forall w s, P w -> wp Totally p (goes_post R E) w s.

Context (E : Z -> W -> Prop).

Lemma goes_mono {A} (P P' : W -> Prop) (p : sprog A) (R R' : A -> W -> Prop) :
  goes P p R E -> (forall w, P' w -> P w) -> (forall a w, R a w -> R' a w) -> goes P' p R' E.
Proof.
  intros H HP HR w s Hw. eapply wp_mono; [by apply H, HP|].
  intros tr [a|z|] s' w'; cbn; auto.
Qed.

Lemma goes_no_exit {A} P (p : sprog A) R : goes P p R (fun _ _ => False) -> goes P p R E.
Proof. intros H w s Hw. eapply wp_mono; [by apply H|]. by intros tr [a|z|] s' w'. Qed.

Lemma goes_ret {A} (P : W -> Prop) (a : A) (R : A -> W -> Prop) :
  (forall w, P w -> R a w) -> goes P (ret a) R E.
Proof. intros H w s Hw. apply wp_ret. by apply H. Qed.

Lemma goes_lift {A} (P : W -> Prop) (o : option A) (R : A -> W -> Prop) :
  (forall a w, o = Some a -> P w -> R a w) -> goes P (lift o) R E.
Proof. intros H w s Hw. destruct o; [apply wp_ret; by apply H|by apply wp_ub]. Qed.

Lemma goes_call {X} (P : W -> Prop) (e : sysE X) (R : X -> W -> Prop) :
  (forall w x w', P w -> kstep e w = (x, w') -> R x w') -> goes P (call e) R E.
Proof. intros H w s Hw. apply wp_call. intros x w' Hk. by eapply H. Qed.

Lemma goes_bind {A B} (P : W -> Prop) (M : A -> W -> Prop) (R : B -> W -> Prop)
    (p : sprog A) (k : A -> sprog B) :
  goes P p M E -> (forall a, goes (M a) (k a) R E) -> goes P (bind p k) R E.
Proof.
  intros Hp Hk w s Hw. apply wp_bind. eapply wp_mono; [by apply Hp|].
  intros tr [a|z|] s' w' HM; unfold bind_post, pre; [|done..].
  eapply wp_mono; [by apply Hk|]. done.
Qed.

(** A loop with an invariant and a variant. *)
Lemma goes_loop {I R} (body : I -> sprog (I + R)) (Inv : I -> W -> Prop) (mu : I -> W -> nat)
    (Q : R -> W -> Prop) i :
  (forall i n, goes (fun w => Inv i w /\ mu i w = n) (body i) (fun r w => match r with
     | inl i' => Inv i' w /\ (mu i' w < n)%nat | inr r => Q r w end) E) ->
  goes (Inv i) (loop body i) Q E.
Proof.
  intros Hbody w s Hw.
  apply (wp_loop_total _ (fun _ w _ i => Inv i w) (fun _ w _ i => mu i w) (goes_post Q E)) with (tr0 := []);
    [|done].
  clear w s Hw i. intros tr w s i Hw. eapply wp_mono; [by apply (Hbody i (mu i w) w s)|].
  intros tr1 [[i'|r]|z|] s' w'; unfold loop_post; cbn; auto.
Qed.
End Triples.

(** [go] walks through a program without loops; the facts about the values stay
    in the preconditions. *)
Ltac go_bind M := eapply (goes_bind _ _ M).

Section Answers.
Context {W : Type} `{K : !Kernel sysE W} `{!PosixKernel W}
  (queue : W -> list bytes) (stdin : W -> bytes) (bustle : W -> nat)
  `{!AnsweringKernel W queue stdin bustle}.
Local Abbreviation comes := (comes queue bustle).
Local Abbreviation nowhere := (fun _ _ => False).

(** What is left of the input and of the signals. *)
Definition budget (w : W) : nat := length (stdin w) + bustle w.

(** Along every execution the input is read off. *)
Lemma trun_stdin {R} n w (t : itree' sysE R) tr r w' :
  trun n w t = Some (tr, r, w') -> stdin w = input tr ++ stdin w' /\ (budget w' <= budget w)%nat.
Proof.
  unfold budget. revert w t tr. induction n as [|n IH]; intros w t tr H; [done|].
  destruct t as [r0|t|X e k]; cbn in H.
  - by simplify_eq.
  - by eapply IH.
  - destruct (kstep e w) as [x w1] eqn:He.
    destruct (trun n w1 (observe (k x))) as [[[tr' r0] w2]|] eqn:Hr; simplify_eq.
    destruct (IH _ _ _ Hr) as [E1 E2]. pose proof (stdin_step _ _ _ _ _ He) as E3.
    pose proof (bustle_step _ _ _ _ _ He). autorewrite with wpa. rewrite E3, E1 at 1.
    split; [by rewrite app_assoc|]. rewrite E3, length_app. lia.
Qed.

Lemma exec_stdin {A} w s (p : sprog A) tr o s' w' :
  exec w s p tr o s' w' -> stdin w = input tr ++ stdin w' /\ (budget w' <= budget w)%nat.
Proof. intros [n H]. by eapply trun_stdin. Qed.

(** So the budget can be framed around a program. *)
Lemma goes_budget {A} P (p : sprog A) R E n :
  goes P p R E -> goes (fun w => P w /\ (budget w < n)%nat) p (fun a w => R a w /\ (budget w < n)%nat) E.
Proof.
  intros H w s [Hw Hn]. destruct (H w s Hw) as (tr & o & s' & w' & He & HR).
  exists tr, o, s', w'. split; [done|]. pose proof (exec_stdin _ _ _ _ _ _ _ He) as [_ ?].
  destruct o; cbn in *; [split; [done|lia]|done..].
Qed.

(** A condition that new messages do not disturb. *)
Definition stable (P : W -> Prop) : Prop := forall w w', P w -> comes (queue w) w w' 0 -> P w'.

Lemma comes_less q w w' n m : comes q w w' n -> (m <= n)%nat -> comes q w w' m.
Proof. intros (evs & ? & ? & ?) Hm. exists evs. split_and!; [done..|lia]. Qed.

Lemma calm_stable : stable (fun w => calm (queue w)).
Proof. intros w w' Hw (evs & He & -> & _). by apply calm_app. Qed.

Lemma owing_stable n : stable (fun w => owing (queue w) /\ (length (queue w) + bustle w < n)%nat).
Proof.
  intros w w' [Hw Hn] (evs & He & Hq & Hb). rewrite Hq, length_app. split; [by apply owing_app|lia].
Qed.

Lemma calm_less_stable n : stable (fun w => calm (queue w) /\ (length (queue w) + bustle w < n)%nat).
Proof.
  intros w w' [Hw Hn] (evs & He & Hq & Hb). rewrite Hq, length_app. split; [by apply calm_app|lia].
Qed.

(** Writing to standard output succeeds. *)
Lemma goes_send_to_erl P msg len :
  stable P -> goes P (send_to_erl msg len) (fun _ => P) nowhere.
Proof.
  intros HP. unfold send_to_erl.
  go_bind (fun (d : bytes) w => Z.of_nat (length d) = len /\ P w).
  { apply goes_lift. intros d w Hd Hw. split; [|done]. unfold slice in Hd.
    destruct (decide _) as [Hl|]; [|done]. injection Hd as <-. rewrite length_take, length_drop. lia. }
  intros data. apply (goes_loop _ _ (fun _ w => Z.of_nat (length data) = len /\ P w) (fun _ => bustle)).
  intros [] n. go_bind (fun x w => Z.of_nat (length data) = len /\ P w /\
    (x = SErr EINTR /\ (bustle w < n)%nat \/ x = SOk (len + 2))).
  - apply goes_call. intros w x w' [[Hl Hw] Hn] [[-> Hc]|[-> Hc]]%answer_writev.
    + split; [done|]. split; [eapply HP; [done|]; eapply comes_less; [done|lia]|].
      left. split; [done|]. destruct Hc as (evs & _ & _ & ?). lia.
    + split; [done|]. split; [by eapply HP|]. right. f_equal. cbn. rewrite app_nil_r. lia.
  - intros [a|e].
    + destruct (Z.eqb_spec a (len + 2)); cbn [negb]; [by apply goes_ret; intros w (_ & ? & _)|].
      intros w s (_ & _ & [[? _]|[=]]); done.
    + destruct e; try (by intros w s (_ & _ & [[[=] _]|[=]])).
      apply goes_ret. intros w (? & ? & [[_ ?]|[=]]). done.
Qed.

(** A command is accepted, and then a reply is owing. *)
Lemma goes_send_cmd sock cmd :
  goes (fun w => calm (queue w)) (send_cmd sock cmd) (fun b w => b = true /\ owing (queue w)) nowhere.
Proof.
  intros w s Hw. apply wp_loop_unfold. unfold retry_send. wp_steps.
  apply answer_send in Hk as (n & evs & d & -> & He & Hd & (evs' & He' & Hq & _)). wp_steps.
  cbn. split; [done|]. rewrite Hq, <- !app_assoc, app_assoc. cbn.
  apply owing_reply; [by apply calm_app|done..].
Qed.

(** The first datagram of a queue that owes a reply. *)
Lemma owing_next d q evs : owing (d :: q) -> calm evs -> if unsolicited d then owing (q ++ evs) else calm (q ++ evs).
Proof. cbn. destruct (unsolicited d); [apply owing_app|apply calm_app]. Qed.

Lemma unsolicited_take n d : 0 < n -> unsolicited (take (Z.to_nat n) d) = unsolicited d.
Proof. intros Hn. destruct d as [|c d]; [by rewrite take_nil|]. by destruct (Z.to_nat n) eqn:E; [lia|]. Qed.

(** The test of the receive loop, on a datagram in the buffer. *)
Lemma goes_first_byte (P : W -> Prop) d rest reply E :
  store_bytes rest 0 d = Some reply ->
  goes P (if 0 <? Z.of_nat (length d) then lift (reply !! 0%nat) else ret nul)
    (fun c w => P w /\ (0 <? Z.of_nat (length d)) && bool_decide (c = langle) = unsolicited d) E.
Proof.
  intros Hst. destruct d as [|c d]; [by apply goes_ret|]. apply goes_lift. intros a w Ha Hw.
  split; [done|]. unfold store_bytes in Hst. destruct (decide _); [|done]. injection Hst as <-.
  cbn in Ha. by injection Ha as <-.
Qed.

(** The receive loop finds the reply. *)
Lemma goes_recv_loop sock cap cb reply :
  0 < cap ->
  (forall f buf len P, cb = Some f -> stable P -> goes P (f buf len) (fun _ => P) nowhere) ->
  goes (fun w => owing (queue w)) (loop (recv_reply sock cap cb) reply)
    (fun r w => fst (fst r) = 0 /\ calm (queue w)) nowhere.
Proof.
  intros Hcap Hcb.
  apply (goes_loop _ _ (fun _ w => owing (queue w)) (fun _ w => length (queue w) + bustle w)%nat).
  intros rep n. unfold recv_reply. eapply goes_bind; [by apply goes_lift; intros ? ? _; exact (fun H => H)|].
  intros [].
  go_bind (fun x w => x = SOk true /\ owing (queue w) /\ (length (queue w) + bustle w <= n)%nat).
  { apply goes_call. intros w x w' [Hw Hn] [-> (evs & He & Hq & Hb)]%answer_select.
    assert (owing (queue w')) as Hw' by (rewrite Hq; by apply owing_app). split; [|split; [done|]].
    - by destruct (queue w').
    - rewrite Hq, length_app. lia. }
  intros [[]|]; try (by intros w s [[=] _]).
  go_bind (fun x w => exists d, x = SOk d /\ (if unsolicited d then owing (queue w) else calm (queue w)) /\
    (length (queue w) + bustle w < n)%nat).
  { apply goes_call. intros w x w' (_ & Hw & Hn) Hk. destruct (queue w) as [|d q] eqn:Hq; [done|].
    destruct (answer_recv _ _ _ _ _ _ _ Hk Hq) as [-> (evs & He & Hq' & Hb)]. eexists. split; [done|].
    rewrite unsolicited_take, Hq', length_app by done. split; [by apply owing_next|cbn in Hn; lia]. }
  intros [d|]; [|by intros w s (d & [=] & _)].
  set (P := fun w => (if unsolicited d then owing (queue w) else calm (queue w)) /\
    (length (queue w) + bustle w < n)%nat).
  go_bind (fun buf w => store_bytes rep 0 d = Some buf /\ P w).
  { apply goes_lift. intros buf w Hst (d' & [= <-] & Hd). done. }
  intros buf w s [Hst Hw]. revert w s Hw.
  change (goes P (let* c := (if 0 <? Z.of_nat (length d) then lift (buf !! 0%nat) else ret nul) in
    if (0 <? Z.of_nat (length d)) && bool_decide (c = langle) then deliver cap cb buf (Z.of_nat (length d))
    else ret (inr (0, buf, Z.of_nat (length d)))) (fun r w => match r with
      | inl i' => owing (queue w) /\ (length (queue w) + bustle w < n)%nat
      | inr r => fst (fst r) = 0 /\ calm (queue w) end) nowhere).
  eapply goes_bind; [by eapply goes_first_byte|]. intros c w s [Hw Hc]. rewrite Hc. unfold P in Hw.
  destruct (unsolicited d); [|by apply (goes_ret _ (fun w => calm (queue w))); [|apply Hw]].
  revert w s Hw Hc. intros w s Hw _. revert w s Hw. unfold deliver.
  destruct cb as [f|]; [|by apply goes_ret].
  go_bind (fun (_ : bytes) w => owing (queue w) /\ (length (queue w) + bustle w < n)%nat); [by apply goes_lift|].
  intros buf'. eapply goes_bind; [apply Hcb; [done|apply owing_stable]|]. intros []. by apply goes_ret.
Qed.

Lemma goes_request c cmd reply cap cb :
  0 < cap ->
  (forall f buf len P, cb = Some f -> stable P -> goes P (f buf len) (fun _ => P) nowhere) ->
  goes (fun w => calm (queue w)) (wpa_ctrl_request c cmd reply cap cb)
    (fun r w => fst (fst r) = 0 /\ calm (queue w)) nowhere.
Proof.
  intros Hcap Hcb w s Hw. unfold wpa_ctrl_request, socket_request. wp_step. wp_step.
  revert w s Hw. eapply goes_bind; [apply goes_send_cmd|]. intros b w s [-> Hw]. wp_steps.
  by eapply goes_recv_loop.
Qed.

Lemma goes_do_wpa_request p cmd :
  goes (fun w => calm (queue w)) (do_wpa_request p cmd) (fun _ w => calm (queue w)) nowhere.
Proof.
  unfold do_wpa_request. eapply goes_bind; [apply goes_request; [done|]|].
  { intros f buf len P [= <-]. apply goes_send_to_erl. }
  intros [[r buf] len] w s [Hr Hw]. cbn in Hr. subst r. cbn [Z.ltb Z.compare]. revert w s Hw.
  eapply goes_bind; [apply goes_send_to_erl, calm_stable|]. intros []. by apply goes_ret.
Qed.

(** A stream of whole messages that fit the buffer. *)
Definition fits_buffer (m : bytes) : Prop := (length m + 2 <= BUFFER_SIZE)%nat.

Definition framed (b : bytes) : Prop :=
  snd (unframe b) = [] /\ Forall fits_buffer (fst (unframe b)).

Lemma framed_frames msgs : Forall fits_buffer msgs -> unframe (concat (frame <$> msgs)) = (msgs, []).
Proof.
  intros Hm. rewrite <- (app_nil_r (concat _)), unframe_frames.
  - by rewrite (unframe_short []), app_nil_r by (cbn; lia).
  - eapply Forall_impl; [exact Hm|]. unfold fits_buffer, fits16, BUFFER_SIZE. intros m. lia.
Qed.

Lemma framed_rest b c : framed (b ++ c) -> framed (snd (unframe b) ++ c).
Proof. unfold framed. rewrite unframe_app. cbn. by intros [Hr [_ Hf]%Forall_app]. Qed.

Lemma framed_header h l b : framed (h :: l :: b) -> of_be16 h l + 2 <= Z.of_nat BUFFER_SIZE.
Proof.
  intros [Hr Hf]. pose proof (of_be16_range h l).
  destruct (decide (Z.to_nat (of_be16 h l) <= length b)%nat) as [Hn|Hn].
  - erewrite unframe_cons in Hf by done. cbn [fst] in Hf. apply Forall_cons in Hf as [Hf _].
    unfold fits_buffer in Hf. rewrite length_take in Hf. lia.
  - by rewrite unframe_partial in Hr by lia.
Qed.

Lemma goes_try_dispatch p rest :
  port_ok p -> framed (unread p ++ rest) ->
  goes (fun w => calm (queue w)) (try_dispatch p) (fun _ w => calm (queue w)) nowhere.
Proof.
  intros Hok Hf. unfold try_dispatch. destruct (Z.ltb_spec (erl_buffer_ix p) 2); [by apply goes_ret|].
  destruct (unread_header p Hok) as (h & l & b & Hsl & Hun & _); [done|]. rewrite Hsl.
  rewrite Hun in Hf. apply framed_header in Hf. intros w s Hw. wp_step. wp_step. cbn [nth].
  rewrite (proj2 (Z.ltb_ge _ _)) by done. revert w s Hw.
  destruct (erl_buffer_ix p <? of_be16 h l + 2); [by apply goes_ret|].
  go_bind (fun (_ : bytes) w => calm (queue w)); [by apply goes_lift|]. intros cmd.
  eapply goes_bind; [apply goes_do_wpa_request|]. intros p'. by apply goes_ret.
Qed.

Lemma goes_dispatch_pass p rest :
  port_ok p -> framed (unread p ++ rest) ->
  goes (fun w => calm (queue w)) (dispatch_pass p) (fun _ w => calm (queue w)) nowhere.
Proof.
  intros Hok Hf. unfold dispatch_pass. eapply goes_bind; [by eapply goes_try_dispatch|].
  intros [p' n]. destruct (n =? 0); [by apply goes_ret|].
  destruct (n <? erl_buffer_ix p'); [|by apply goes_ret].
  go_bind (fun (_ : bytes) w => calm (queue w)); [by apply goes_lift|]. intros b.
  go_bind (fun (_ : bytes) w => calm (queue w)); [by apply goes_lift|]. intros b'. by apply goes_ret.
Qed.

(** All complete messages of the buffer are answered. *)
Lemma goes_dispatch_loop p rest :
  port_ok p -> framed (unread p ++ rest) ->
  goes (fun w => calm (queue w)) (loop dispatch_pass p) (fun _ w => calm (queue w)) nowhere.
Proof.
  intros Hok Hf w s Hw.
  apply (goes_loop _ _ (fun p w => (port_ok p /\ framed (unread p ++ rest)) /\ calm (queue w))
    (fun p _ => length (unread p))); [|done].
  clear p Hok Hf w s Hw. intros p n w s [[[Hok Hf] Hw] Hn].
  destruct (goes_dispatch_pass p rest Hok Hf w s Hw) as (tr & o & s' & w' & H & Ho).
  exists tr, o, s', w'. split; [done|]. revert Ho. exec_wp H. apply wp_dispatch_pass; [done|..].
  - by intros.
  - intros tr1 msg p' again s1 w1 Hok' _ _ _ _ _ Hun Hfit _ Ho. destruct again; [|done]. cbn in Ho. cbn [goes_post].
    rewrite Hun, <- app_assoc in Hf. split; [|rewrite <- Hn, Hun, length_app, length_frame; lia].
    split; [|done]. split; [done|]. unfold framed in Hf. rewrite unframe_frame in Hf by done.
    destruct Hf as [Hr [_ Hf]%Forall_cons]. by split.
  - by intros.
Qed.

(** A turn's exit: the end of the input. *)
Definition at_end (z : Z) (w : W) : Prop := z = EXIT_SUCCESS /\ stdin w = [].

(** Reading and dispatching what the input has next. *)
Lemma goes_process_erl p rest n :
  port_ready p ->
  goes (fun w => calm (queue w) /\ rest = stdin w /\ framed (unread p ++ rest) /\ (budget w <= n)%nat)
    (process_erl p)
    (fun _ w => calm (queue w) /\ (budget w < n)%nat) at_end.
Proof.
  intros Hp. pose proof Hp as (Hok & Hroom & _). unfold process_erl. 
  go_bind (fun x w => calm (queue w) /\ framed (unread p ++ rest) /\
    (x = SErr EINTR /\ (budget w < n)%nat \/
     exists d, x = SOk d /\ rest = d ++ stdin w /\ Z.of_nat (length d) <= Z.of_nat BUFFER_SIZE - erl_buffer_ix p /\
       if decide (d = []) then stdin w = [] else (budget w < n)%nat)).
  { apply goes_call. intros w x w' (Hw & -> & Hf & Hn) Hk. pose proof (stdin_step _ _ _ _ _ Hk) as Hin.
    pose proof (bustle_step _ _ _ _ _ Hk) as Hb. unfold budget in *.
    destruct (answer_read _ _ _ _ _ Hk ltac:(lia)) as [[-> Hc]|(d & -> & Hc & Hd)].
    - pose proof (calm_stable w w' Hw (comes_less _ _ _ _ 0 Hc (Nat.le_0_l 1))).
      destruct Hc as (evs & _ & _ & ?). cbn in Hin. rewrite Hin in Hn.
      split; [done|]. split; [done|]. left. split; [done|lia].
    - split; [by eapply calm_stable|]. split; [done|]. right. exists d. split; [done|].
      cbn in Hin. split; [done|]. split; [by apply (read_bound _ _ _ _ _ Hk); lia|].
      destruct (decide (d = [])) as [->|Hd0]; [rewrite Hd in Hin by done; by symmetry|].
      rewrite Hin, length_app in Hn. destruct d; [done|]. cbn in Hn. lia. }
  intros [[|c d]|e].
  - intros w s (_ & _ & [[[=] _]|(d & [= <-] & _ & _ & Hd)]). by apply wp_exit.
  - intros w s (Hw & Hf & [[[=] _]|(d' & [= <-] & -> & Hd & Hn)]).
    destruct (unread_append p (c :: d) Hp Hd) as (b & -> & Hok' & Hun). wp_step. wp_step.
    rewrite app_assoc, <- Hun in Hf.
    by apply (goes_no_exit at_end _ _ _ (goes_budget _ _ _ _ n (goes_dispatch_loop _ _ Hok' Hf)) w s).
  - intros w s (Hw & _ & [[[= ->] Hn]|(d & [=] & _)]). by wp_steps.
Qed.

(** Draining the queue of the connection. *)
Lemma goes_process_wpa p :
  goes (fun w => calm (queue w)) (process_wpa p) (fun _ w => calm (queue w)) nowhere.
Proof.
  apply (goes_loop _ _ (fun _ w => calm (queue w)) (fun _ w => length (queue w) + bustle w)%nat).
  intros p1 n. unfold wpa_pass, wpa_ctrl_pending.
  go_bind (fun (x : Z) w => calm (queue w) /\ (length (queue w) + bustle w <= n)%nat /\
    (x <> 0 -> queue w <> [])).
  { intros w s [Hw Hn]. unfold FD_SET. destruct (in_fd_set _); wp_steps; [|done].
    apply answer_select in Hk as [-> (evs & He & Hq & Hb)]. cbn.
    split; [rewrite Hq; by apply calm_app|]. split; [rewrite Hq, length_app; lia|].
    by case_bool_decide. }
  intros x. destruct (Z.eqb_spec x 0); [by apply goes_ret; intros w [? _]|]. unfold wpa_ctrl_recv.
  go_bind (fun (r : Z * bytes * Z) w => calm (queue w) /\ (length (queue w) + bustle w < n)%nat /\
    fst (fst r) = 0).
  { intros w s (Hw & Hn & Hx). wp_step. wp_step. specialize (Hx ltac:(done)).
    destruct (queue w) as [|d q] eqn:Hq; [done|].
    destruct (answer_recv _ _ _ _ _ _ _ Hk Hq) as [-> (evs & He & Hq' & Hb)].
    apply Forall_cons in Hw as [_ Hw]. destruct (store_bytes _ _ _); wp_steps; [|done].
    unfold pre, goes_post. rewrite Hq', length_app. split; [by apply calm_app|]. cbn in Hn. split; [lia|done]. }
  intros [[r buf] len] w s (Hw & Hn & Hr). cbn in Hr. subst r. cbn [Z.ltb Z.compare].
  revert w s Hw Hn. intros w s Hw Hn.
  apply (goes_bind _ _ (fun _ w => calm (queue w) /\ (length (queue w) + bustle w < n)%nat) _ _ _
    (goes_send_to_erl _ _ _ (calm_less_stable n))); [|done].
  intros []. by apply goes_ret.
Qed.

(** A turn makes progress, or ends the program at the end of the input. *)
Lemma goes_main_turn p rest n :
  port_ready p ->
  goes (fun w => calm (queue w) /\ rest = stdin w /\ framed (unread p ++ rest) /\ (budget w <= n)%nat)
    (main_turn p) (fun _ w => calm (queue w) /\ (budget w < n)%nat) at_end.
Proof.
  intros Hp. unfold main_turn.
  go_bind (fun (x : sres (Z * Z)) w => calm (queue w) /\ rest = stdin w /\ framed (unread p ++ rest) /\
    (x = SErr EINTR /\ (budget w < n)%nat \/ exists re0 re1, x = SOk (re0, re1) /\
      (budget w + (if (Z.land re0 (Z.lor POLLIN POLLHUP) =? 0)%Z then 1 else 0) <= n)%nat)).
  { apply goes_call. intros w x w' (Hw & -> & Hf & Hn) Hk. pose proof (stdin_step _ _ _ _ _ Hk) as Hin.
    unfold budget in *. destruct (answer_poll _ _ _ _ _ Hk) as [[-> Hc]|(re0 & re1 & -> & Hc)];
      pose proof (calm_stable w w' Hw (comes_less _ _ _ _ 0 Hc (Nat.le_0_l _))); cbn in Hin;
      destruct Hc as (evs & _ & _ & Hb); rewrite Hin in Hn; (split; [done|]; split; [done|]; split; [done|]).
    - left. split; [done|lia].
    - right. exists re0, re1. split; [done|lia]. }
  intros [[re0 re1]|e]; cycle 1.
  { intros w s (Hw & _ & _ & [[[= ->] Hn]|(? & ? & [=] & _)]). by wp_steps. }
  go_bind (fun (_ : port) w => calm (queue w) /\ (budget w < n)%nat).
  - intros w s (Hw & Hin & Hf & [[[=] _]|(? & ? & [= <- <-] & Hn)]).
    destruct (Z.land re0 _ =? 0); cbn [negb]; [wp_steps; split; [done|lia]|].
    apply (goes_process_erl p rest n Hp). split_and!; [done..|lia].
  - intros p'. destruct (negb _); [|by apply goes_ret].
    apply goes_no_exit, goes_budget, goes_process_wpa.
Qed.

(** What a turn of the loop leaves for the next one. *)
Definition running (p : port) (w : W) : Prop :=
  port_ready p /\ calm (queue w) /\ framed (unread p ++ stdin w).

Lemma main_turn_running p w s :
  running p w ->
  wp Totally (main_turn p) (fun _ o _ w' => match o with
    | Val p' => running p' w' /\ (budget w' < budget w)%nat
    | Exit z => at_end z w'
    | Ub => False end) w s.
Proof.
  intros (Hp & Hw & Hf).
  destruct (goes_main_turn p (stdin w) (budget w) Hp w s) as (tr & o & s' & w' & H & Ho); [done|].
  exists tr, o, s', w'. split; [done|]. destruct (exec_stdin _ _ _ _ _ _ _ H) as [Hin _].
  revert Ho Hin. exec_wp H. apply wp_main_turn; [done|..]; [|by intros].
  intros tr p' s1 w1 (Hp' & _ & _ & _ & Hu) [Hw' Hn] Hin. split; [|done]. split_and!; [done..|].
  rewrite Hin, app_assoc in Hf. apply framed_rest in Hf. by rewrite Hu in Hf.
Qed.

(** The loop of turns comes to the end of the input. *)
Lemma main_loop_ends p w s :
  running p w ->
  wp Totally (loop (R := Empty_set) (fun p => let* p := main_turn p in ret (inl p)) p)
    (fun _ o _ w' => exists z, o = Exit z /\ at_end z w') w s.
Proof.
  intros Hr.
  apply (wp_loop_total _ (fun _ w _ p => running p w) (fun _ w _ _ => budget w)
    (fun _ o _ w' => exists z, o = Exit z /\ at_end z w')) with (tr0 := []); [|done].
  clear p w s Hr. intros tr w s p Hr. apply wp_bind. eapply wp_mono; [by apply main_turn_running|].
  intros tr1 [p'|z|] s' w' Ho; [|by repeat wp_leaf; exists z|done]. repeat wp_leaf. by wp_steps.
Qed.

(** The run of the program on whole messages, to the end of its input. *)
Lemma main_runs_out argv w s tr0 p0 s0 w0 msgs :
  argv_ok argv s -> exec w s (main_start argv) tr0 (Val p0) s0 w0 -> calm (queue w0) ->
  stdin w = concat (frame <$> msgs) -> Forall fits_buffer msgs ->
  exists tr s' w', exec w s (main argv) tr (Exit EXIT_SUCCESS) s' w' /\
    input tr = stdin w.
Proof.
  intros Hok H0 Hcalm Hin Hfit.
  assert (input tr0 = [] /\ exists c, p0 = port0 c /\ in_fd_set (wc_s c) = true) as (Hi & c & -> & Hfd).
  { pose proof H0 as H. apply (wp_main_start argv (fun tr o _ _ => match o with
      | Val p => input tr = [] /\ exists c, p = port0 c /\ in_fd_set (wc_s c) = true | _ => True end)) in H;
      [exact H|done|by intros| |by intros].
    intros tr c s1 w1 Hfd (_ & Hi & _). by eauto. }
  destruct (exec_stdin _ _ _ _ _ _ _ H0) as [Hw0 _]. rewrite Hi in Hw0. cbn [app] in Hw0.
  assert (running (port0 c) w0) as Hr.
  { split; [by apply port0_ready|]. split; [done|]. change (unread (port0 c)) with (@nil byte). cbn [app].
    unfold framed. by rewrite <- Hw0, Hin, framed_frames. }
  assert (wp Totally (main argv) (fun _ o _ w' => exists z, o = Exit z /\ at_end z w') w s)
    as (tr & o & s' & w' & H & z & -> & -> & Hend).
  { apply wp_bind. exists tr0, (Val (port0 c)), s0, w0. split; [done|]. unfold bind_post, pre.
    by apply main_loop_ends. }
  exists tr, s', w'. split; [done|]. destruct (exec_stdin _ _ _ _ _ _ _ H) as [Htr _].
  by rewrite Hend, app_nil_r in Htr.
Qed.

(** C4: When the supplicant answers every command as soon as it is sent, no call fails
    other than by a signal, and signals and spontaneous messages come finitely often,
    the program runs to the end of an input that consists of whole messages that fit its
    buffer, and ends with success: it has read all of the input, sent every command of
    it, in order, and passed on the reply to each one. *)
Theorem main_answers argv w s tr0 p0 s0 w0 msgs :
  argv_ok argv s -> exec w s (main_start argv) tr0 (Val p0) s0 w0 -> calm (queue w0) ->
  stdin w = concat (frame <$> msgs) -> Forall fits_buffer msgs ->
  exists tr s' w', exec w s (main argv) tr (Exit EXIT_SUCCESS) s' w' /\
    input tr = stdin w /\ sent tr = bs "ATTACH" :: msgs /\
    relay_run relay0 (actions tr) = Some (MkRelay [] Idle).
Proof.
  intros Hok H0 Hcalm Hin Hfit.
  destruct (main_runs_out _ _ _ _ _ _ _ _ Hok H0 Hcalm Hin Hfit) as (tr & s' & w' & H & Htr).
  exists tr, s', w'. split; [done|]. split; [done|].
  destruct (wp_main argv w s Hok _ _ _ _ H) as (_ & _ & Hz).
  destruct (Hz eq_refl) as (_ & -> & ->). by rewrite Htr, Hin, framed_frames.
Qed.
End Answers.
