(* ===== verification/ExAnswer.v ===== *)
(** * Every client of the whole system gets its answer

    A session: the clients send given requests, one after the other, to the
    system of ExSystem, whose port program runs in an environment that answers
    ([AnsweringKernel]).  In whatever order clients, server, program and
    supplicant act, a session comes to an end, and it can only end with every
    request answered ([session_ends], [session_complete]). *)

From S2P Require Export ExSystem PortAnswer.
Local Open Scope Z_scope.

(** ** What the port has read and written *)

Definition read_of (a : action) : bytes := match a with Inp d => d | _ => [] end.
Definition write_of (a : action) : bytes := match a with Out b => [b] | _ => [] end.
Definition reads_of (acts : list action) : bytes := acts ≫= read_of.
Definition writes_of (acts : list action) : bytes := acts ≫= write_of.

(** The messages that the port has delivered to the server. *)
Definition data_of (m : message) : list bytes := match m with MData d => [d] | _ => [] end.
Definition datas (ms : list message) : list bytes := ms ≫= data_of.

Lemma bind_snoc {A B} (f : A -> list B) (l : list A) (a : A) : (l ++ [a]) ≫= f = (l ≫= f) ++ f a.
Proof. rewrite bind_app. cbn. by rewrite app_nil_r. Qed.

Lemma bind_prefix {A B} (f : A -> list B) (l1 l2 : list A) :
  l1 `prefix_of` l2 -> l1 ≫= f `prefix_of` l2 ≫= f.
Proof. intros [k ->]. rewrite bind_app. by eexists. Qed.

Lemma reads_of_writes b : reads_of (Out <$> b) = [].
Proof. by induction b. Qed.

Lemma reads_of_actions tr : reads_of (actions tr) = input tr.
Proof.
  induction tr as [|[X e x] tr IH]; [done|]. autorewrite with wpa. unfold reads_of in *.
  rewrite bind_app, IH. f_equal. clear IH.
  destruct e; cbn; try done; destruct x as [x|]; cbn; try done.
  - destruct x; [done|]. cbn. by rewrite app_nil_r.
  - apply reads_of_writes.
Qed.

Lemma track_prefix ex a : ex.2 `prefix_of` (track ex a).2.
Proof.
  destruct ex as [aw log], a, aw; cbn; try done. destruct (unsolicited d); [done|]. by apply prefix_app_r.
Qed.

Lemma exchanges_prefix acts all :
  acts `prefix_of` all -> (exchanges acts).2 `prefix_of` (exchanges all).2.
Proof.
  intros [l ->]. induction l as [|a l IH] using rev_ind; [by rewrite app_nil_r|].
  rewrite app_assoc, exchanges_snoc. etrans; [exact IH|apply track_prefix].
Qed.

Lemma tail_prefix {A} (l1 l2 : list A) : l1 `prefix_of` l2 -> tail l1 `prefix_of` tail l2.
Proof. intros [k ->]. destruct l1; [apply prefix_nil|by apply prefix_app_r]. Qed.

(** ** Sessions *)

Definition decodes {A} (r : result A) : bool := match r with Ok _ => true | Raise _ => false end.

Lemma decodes_ok {A} (r : result A) : decodes r -> exists a, r = Ok a.
Proof. destruct r; [by eexists|done]. Qed.

Definition request_of (r : Z * term) : message := MCall r.1 (Request r.2).
Definition from_client (m : message) : bool := match m with MCall _ _ => true | _ => false end.

Section Session.
Context `{RT : !Runtime} (self : Z) (P : list action -> Prop) (reqs : list (Z * term)).

(** The clients have asked for a part of [reqs], in order, and for nothing else. *)
Definition asks (ms : list message) : Prop :=
  filter from_client ms `prefix_of` (request_of <$> reqs).

Definition session_step (s s' : system) : Prop := system_step self P s s' /\ asks (handled s').

(** What the port writes can be decoded: the notifications, and the answer to each
    request. *)
Definition notification_decodes (m : bytes) : Prop :=
  match match_notification m with Some n => decodes (notif n) | None => True end.
Definition answer_decodes (r : (Z * term) * (bytes * bytes)) : Prop := decodes (resp r.1.2 r.2.2).

Definition decodable (acts : list action) : Prop :=
  Forall notification_decodes (fst (unframe (writes_of acts))) /\
  Forall answer_decodes (zip reqs (tail (exchanges acts).2)).

Lemma calls_filter ms : calls ms = calls (filter from_client ms).
Proof.
  unfold calls. induction ms as [|m ms IH]; [done|]. rewrite filter_cons, bind_cons, IH.
  by destruct m as [from []|d|z|].
Qed.

Lemma calls_requests l : calls (request_of <$> l) = l.
Proof. induction l as [|[from c] l IH]; [done|]. unfold calls in *. cbn. by rewrite IH. Qed.

Lemma asks_calls ms :
  asks ms -> exists rest, reqs = calls ms ++ rest /\ filter from_client ms = request_of <$> calls ms.
Proof.
  intros [k (l1 & l2 & H1 & _ & H3)%fmap_app_inv].
  exists l2. by rewrite calls_filter, H1, calls_requests.
Qed.

Lemma asks_snoc ms rest req :
  reqs = calls ms ++ req :: rest -> asks ms -> asks (ms ++ [request_of req]).
Proof.
  intros Hr Ha. destruct (asks_calls ms Ha) as (rest' & _ & Hf). unfold asks.
  rewrite filter_app, Hf, Hr, fmap_app. cbn. by apply prefix_app, prefix_cons, prefix_nil.
Qed.

Lemma asks_data ms d : asks ms -> asks (ms ++ [MData d]).
Proof. unfold asks. by rewrite filter_app, app_nil_r. Qed.

(** ** What flows between server and port *)

Record flows (s : system) : Prop := {
  flow_port : P (port_acts s);
  flow_in : reads_of (port_acts s) ++ to_port s = concat (frame <$> payloads (effects s));
  flow_out : concat (frame <$> datas (handled s)) ++ from_port s = writes_of (port_acts s);
  flow_fits : Forall fits16 (datas (handled s))
}.

Lemma flows_act srv ms es inp inp' out out' acts a :
  flows (MkSystem srv ms es inp acts out) -> P (acts ++ [a]) ->
  inp = read_of a ++ inp' -> out' = out ++ write_of a ->
  flows (MkSystem srv ms es inp' (acts ++ [a]) out').
Proof.
  intros [_ Hi Ho Hf] HP -> ->. cbn in *. split; cbn; [done| | |done]; unfold reads_of, writes_of in *;
    rewrite bind_snoc.
  - by rewrite <- app_assoc.
  - by rewrite <- Ho, app_assoc.
Qed.

Lemma handle_data_payloads m srv es srv' :
  handle self (MData m) srv = (es, Running srv') -> payloads es = [].
Proof. intros (HF & _)%handle_served. by apply Forall2_nil_inv_l in HF. Qed.

Lemma flows_step s s' : system_step self P s s' -> flows s -> flows s'.
Proof.
  destruct 1; intros Hfl; try (eapply flows_act; [exact Hfl|done|done|]; cbn; by rewrite ?app_nil_r).
  - destruct Hfl. cbn in *. unfold datas, payloads in *. split; cbn; rewrite ?bind_snoc; cbn [data_of].
    + done.
    + by rewrite bind_app, concat_frames, <- flow_in0, app_assoc.
    + by rewrite app_nil_r.
    + by rewrite app_nil_r.
  - destruct Hfl. cbn in *. unfold datas in *. split; cbn; rewrite ?bind_snoc; cbn [data_of].
    + done.
    + pose proof (handle_data_payloads _ _ _ _ H0) as Hp. unfold payloads in *.
      by rewrite bind_app, Hp, app_nil_r.
    + by rewrite concat_frames, <- app_assoc; cbn; rewrite app_nil_r.
    + by apply Forall_app_2; [|repeat constructor].
Qed.

(** ** A session around a run of the port that ends

    [all] are the actions of the run, and [ps] the commands of the requests. *)

Context (all : list action) (ps : list bytes) (port manager : Z)
  (HP : forall acts, P acts <-> acts `prefix_of` all)
  (Hrelay : relay_run relay0 all = Some (MkRelay [] Idle))
  (Hreads : reads_of all = concat (frame <$> ps))
  (Hps : Forall fits16 ps)
  (Hreqs : Forall2 (fun (r : Z * term) p => encode r.2 = Ok p) reqs ps)
  (Hsup : forall acts d, P (acts ++ [Dgram d]) -> supplicant_ok acts d)
  (Hdec : decodable all).

#[local] Instance session_port : PortProgram P.
Proof. intros acts [rest Hr]%HP. rewrite Hr in Hrelay. eapply relay_run_prefix. by rewrite Hrelay. Qed.

(** What holds in every state of a session. *)
Record session_inv (s : system) : Prop := {
  session_system : system_inv self port manager s;
  session_flows : flows s;
  session_asks : asks (handled s)
}.

Lemma session_inv_start : session_inv (system0 port manager).
Proof.
  split; [apply system0_inv| |apply prefix_nil]. split; cbn; [apply HP, prefix_nil|done..|constructor].
Qed.

Lemma session_inv_step s s' : session_step s s' -> session_inv s -> session_inv s'.
Proof.
  intros [Hs Ha] [Hi Hf _]. split; [exact (system_step_inv self P port manager _ _ Hs Hi)|by eapply flows_step|done].
Qed.

(** *** The next request can be made *)
Lemma call_enabled s :
  session_inv s -> calls (handled s) <> reqs -> exists s', session_step s s'.
Proof.
  intros [_ _ Ha] Hne. destruct (asks_calls _ Ha) as (rest & Hr & _).
  destruct rest as [|[from c] rest]; [by rewrite app_nil_r in Hr|].
  pose proof Hreqs as HF. rewrite Hr in HF.
  apply Forall2_app_inv_l in HF as (ps1 & ps2 & _ & HF & Hps2).
  inversion HF as [|? p ? ps3 Hp _]; subst ps2. cbn in Hp.
  assert (fits16 p) as Hfit.
  { pose proof Hps as Hf. rewrite Hps2 in Hf. apply Forall_app in Hf as [_ [Hf _]%Forall_cons]. done. }
  destruct s as [srv ms es inp acts out]. eexists. split.
  - eapply step_call with (from := from) (c := Request c).
    + cbn. rewrite Hp. done.
    + by repeat constructor.
  - cbn in *. by eapply asks_snoc with (req := (from, c)).
Qed.

(** *** A message that has been written can be delivered *)

Lemma deliver_enabled s m rest :
  session_inv s -> from_port s = frame m ++ rest -> fits16 m -> exists s', session_step s s'.
Proof.
  intros [(r & msgs & ms & Hinv) [HPa _ Hout Hfits] Ha] Ho Hm. apply HP in HPa. pose proof Hinv as [].
  rewrite Ho, <- app_assoc in inv_out.
  destruct (frames_cons _ _ _ Hm inv_out_fits inv_out) as (pend & -> & _).
  assert (exists es srv, handle self (MData m) (server_of s) = (es, Running srv)) as (es & srv & Hh).
  { cbn [handle]. unfold handle_wpa. destruct (match_notification m) as [n|] eqn:Hn.
    - assert (notification_decodes m) as Hd; [|unfold notification_decodes in Hd; rewrite Hn in Hd;
        apply decodes_ok in Hd as [t ->]; by do 2 eexists].
      apply (Forall_forall notification_decodes (fst (unframe (writes_of all)))); [apply Hdec|].
      apply (bind_prefix write_of) in HPa as [k Hk]. unfold writes_of in *. rewrite Hk, <- Hout, Ho.
      rewrite <- app_assoc, unframe_frames by done. cbn [fst].
      rewrite <- app_assoc, unframe_frame by done. cbn [fst]. apply elem_of_app. right. by left.
    - destruct (next_response _ _ _ _ _ _ _ _ Hinv Hn) as ([client c] & rest' & served & c' & -> & Hcalls & Hl).
      destruct (asks_calls _ Ha) as (rest1 & Hr & _). rewrite Hcalls, <- app_assoc in Hr.
      pose proof (tail_prefix _ _ (exchanges_prefix _ _ HPa)) as Hpre.
      assert (exists v, resp c m = Ok v) as [v ->]; [|by do 2 eexists].
      apply decodes_ok. refine (proj1 (Forall_lookup answer_decodes _) (proj2 Hdec) (length served) ((client, c), (c', m)) _).
      apply lookup_zip_with_Some. do 2 eexists. split; [done|]. split; [|by eapply prefix_lookup_Some].
      rewrite Hr. by apply list_lookup_middle. }
  destruct s as [srv0 ms0 es0 inp acts out]. cbn in *. subst out. eexists. split.
  - by eapply step_deliver.
  - by apply asks_data.
Qed.

(** *** The port can go on *)
Lemma payloads_determined l : Forall2 (fun (r : Z * term) p => encode r.2 = Ok p) reqs l -> l = ps.
Proof.
  intros Hl. revert Hreqs. clear -Hl. revert ps.
  induction Hl as [|r p rs l Hp _ IH]; intros ps Hps; inversion Hps; subst; [done|].
  f_equal; [congruence|by apply IH].
Qed.

Lemma port_enabled s :
  session_inv s -> calls (handled s) = reqs -> port_acts s <> all -> exists s', session_step s s'.
Proof.
  intros [(r & msgs & ms & []) [HPa Hin _ _] Ha] Hcalls Hne. pose proof HPa as [rest Hrest]%HP.
  destruct rest as [|a rest]; [by rewrite app_nil_r in Hrest|].
  assert (P (port_acts s ++ [a])) as HPs by (apply HP; exists rest; by rewrite <- app_assoc).
  assert (payloads (effects s) = ps) as Hpay.
  { destruct (serve_served self _ _ _ _ inv_serve) as (He & _). rewrite Hcalls in He. by apply payloads_determined. }
  destruct s as [srv0 ms0 es0 inp acts out]. cbn in *. destruct a as [d|b|m|d].
  - rewrite Hpay, <- Hreads, Hrest in Hin. unfold reads_of in Hin. rewrite bind_app, bind_cons in Hin.
    apply app_inv_head in Hin as ->. eexists. split; [by apply step_read|done].
  - eexists. split; [by apply step_write|done].
  - eexists. split; [by apply step_command|done].
  - eexists. split; [by apply step_datagram; [|apply Hsup]|done].
Qed.

(** *** A session that cannot go on *)
Lemma session_stuck s :
  session_inv s -> (forall s', ~ session_step s s') ->
  requests (server_of s) = [] /\
  Forall3 replied reqs (tail (exchanges (port_acts s)).2) (replies (effects s)).
Proof.
  intros Hs Hstuck. assert (calls (handled s) = reqs) as Hcalls.
  { destruct (asks_calls _ (session_asks _ Hs)) as ([|req rest] & Hr & _); [by rewrite app_nil_r in Hr|].
    destruct (call_enabled s Hs) as [s' []%Hstuck]. intros E. rewrite E in Hr.
    apply (f_equal length) in Hr. rewrite length_app in Hr. cbn in Hr. lia. }
  assert (port_acts s = all) as Hacts.
  { destruct (proj1 (HP _) (flow_port _ (session_flows _ Hs))) as [[|a rest] Hr]; [by rewrite app_nil_r in Hr|].
    destruct (port_enabled s Hs Hcalls) as [s' []%Hstuck]. intros E. rewrite E in Hr.
    apply (f_equal length) in Hr. rewrite length_app in Hr. cbn in Hr. lia. }
  destruct (system_inv_replied _ _ _ _ (session_system _ Hs)) as (served & Hq & Hd & HF).
  pose proof Hs as [(r & msgs & ms & []) [_ Hin _ _] _]. rewrite Hacts in *. rewrite Hrelay in inv_relay.
  injection inv_relay as <-. cbn in inv_in, inv_out, inv_commands, inv_phase. rewrite app_nil_r in inv_out.
  destruct ms as [|m ms]; cycle 1.
  { apply Forall_cons in inv_out_fits as [Hm _].
    by destruct (deliver_enabled s m _ Hs inv_out Hm) as [s' []%Hstuck]. }
  apply serve_served in inv_serve as [He _]. rewrite Hcalls in *. rewrite (payloads_determined _ He) in *.
  rewrite Hreads in Hin. rewrite <- (app_nil_r (concat _)) in Hin at 2. apply app_inv_head in Hin.
  rewrite Hin in inv_in. destruct msgs as [|msg msgs]; [|done].
  cbn [fmap list_fmap] in inv_responses. rewrite app_nil_r in inv_responses.
  unfold commands in inv_commands. cbn in inv_commands. rewrite !app_nil_r in inv_commands.
  assert (length served = length reqs) as Hl.
  { rewrite (Forall2_length _ _ _ Hreqs), inv_commands, <- Hd, inv_responses. by rewrite !length_fmap. }
  rewrite Hq in Hl. rewrite length_app in Hl. destruct (requests (server_of s)); [|cbn in Hl; lia].
  split; [done|]. rewrite app_nil_r in Hq. rewrite Hq. rewrite take_ge in HF; [done|].
  rewrite <- Hd, inv_responses. by rewrite length_fmap.
Qed.
(** *** A session is finite

    A step makes a request, is an action of the port, or takes a message off what the
    port has written. *)
Definition session_rest (s : system) : nat :=
  (length reqs - length (filter from_client (handled s))) +
  2 * (length all - length (port_acts s)) + length (from_port s).

Lemma session_rest_step s s' : session_step s s' -> session_inv s' -> (session_rest s' < session_rest s)%nat.
Proof.
  intros [Hs _] [_ [HPa%HP%prefix_length _ _ _] Ha%prefix_length]. rewrite length_fmap in Ha.
  unfold session_rest. destruct Hs; cbn [handled port_acts from_port] in *;
    rewrite ?filter_app, ?length_app, ?length_frame in *; cbn in *; try lia.
  rewrite decide_True in * by done. cbn in *. lia.
Qed.

Lemma session_rest_steps n s s' :
  nsteps session_step n s s' -> session_inv s -> (n + session_rest s' <= session_rest s)%nat.
Proof.
  induction 1 as [|n s1 s2 s3 Hs _ IH]; intros Hi; [done|].
  pose proof (session_inv_step _ _ Hs Hi) as Hi2. specialize (IH Hi2).
  pose proof (session_rest_step _ _ Hs Hi2). lia.
Qed.

Lemma session_inv_steps s s' : rtc session_step s s' -> session_inv s -> session_inv s'.
Proof. induction 1 as [|s1 s2 s3 Hs _ IH]; [done|]. intros Hi. by eapply IH, session_inv_step. Qed.
End Session.

(** ** Sessions with the program *)

Section Whole.
Context {W : Type} `{K : !Kernel sysE W} `{!PosixKernel W} (queue : W -> list bytes)
  (stdin : W -> bytes) (bustle : W -> nat) `{!AnsweringKernel W queue stdin bustle}.
Context `{RT : !Runtime} (self : Z).

(** When the program ends, what it does at any time is a part of what it has done then. *)
Lemma port_behaviour_prefix argv w s tr o s' w' acts :
  exec w s (main argv) tr o s' w' -> port_behaviour argv w s acts <-> acts `prefix_of` actions tr.
Proof.
  intros H. split; [|intros Ha; exists tr; split; [done|right; by do 3 eexists]].
  intros (tr1 & Ha & [(p & w1 & s1 & H1)|(o1 & s1 & w1 & H1)]); (etrans; [exact Ha|]).
  - destruct (main_reaches_exec _ _ _ _ _ _ _ _ _ _ _ H1 H) as [tr2 ->].
    rewrite observe_with_app. by eexists.
  - by destruct (exec_det _ _ _ _ _ _ _ _ _ _ _ H1 H) as (-> & _).
Qed.

End Whole.
