(* ===== verification/PortTotal.v ===== *)
(** * wpa_ex.c: every turn finishes

    The loops of the program wait for the environment: for datagrams, for
    writes that a signal interrupts, for a socket that is busy.  In an
    environment that has finitely many of these left ([FiniteKernel]) and a
    clock that runs, each turn of the main loop finishes. *)

From S2P Require Export PortMain.
Local Open Scope Z_scope.
Local Open Scope prog_scope.

(** The answers that make the program go round a loop again. *)
Definition consuming (ev : event sysE) : bool :=
  let '@Ev _ X e x := ev in
  match e in sysE X return X -> bool with
  | Recv _ _ => fun r => match r with SOk _ => true | SErr _ => false end
  | Writev _ _ => fun r => match r with SErr EINTR => true | _ => false end
  | _ => fun _ => false
  end x.

Definition consumed (tr : sys_trace) : nat := length (List.filter consuming tr).

(** An environment with [fuel] datagrams and interrupted writes to come. *)
Class FiniteKernel (W : Type) `{K : !Kernel sysE W} (now : W -> Z) (fuel : W -> nat) : Prop := {
  #[global] finite_clock :: RunningClock now;
  fuel_step : forall X (e : sysE X) w x w', kstep e w = (x, w') ->
    ((if consuming (Ev e x) then 1 else 0) + fuel w' <= fuel w)%nat
}.

Section Total.
Context {W : Type} `{K : !Kernel sysE W} `{!PosixKernel W} {now : W -> Z} {fuel : W -> nat}
  `{!FiniteKernel W now fuel}.

Lemma trun_fuel {R} n w (t : itree' sysE R) tr r w' :
  trun n w t = Some (tr, r, w') -> (consumed tr + fuel w' <= fuel w)%nat.
Proof.
  revert w t tr. induction n as [|n IH]; intros w t tr H; [done|].
  destruct t as [r0|t|X e k]; cbn in H.
  - by simplify_eq.
  - by eapply IH.
  - destruct (kstep e w) as [x w1] eqn:He.
    destruct (trun n w1 (observe (k x))) as [[[tr' r0] w2]|] eqn:Hr; simplify_eq.
    apply IH in Hr. apply fuel_step in He. unfold consumed in *. cbn [List.filter].
    destruct (consuming (Ev e x)); cbn [length]; lia.
Qed.

Lemma exec_fuel {A} w s (p : sprog A) tr o s' w' :
  exec w s p tr o s' w' -> (consumed tr + fuel w' <= fuel w)%nat.
Proof. intros [n H]. by eapply trun_fuel. Qed.

(** A program that ends, with the clock as it was. *)
Definition finishes {A} (p : sprog A) : Prop := forall w s,
  clock_id s = CLOCK_BOOTTIME ->
  wp Totally p (fun _ _ s' _ => clock_id s' = CLOCK_BOOTTIME) w s.

Lemma finishes_ret {A} (a : A) : finishes (ret a).
Proof. intros w s Hs. by apply wp_ret. Qed.

Lemma finishes_exit {A} z : finishes (exit_ z : sprog A).
Proof. intros w s Hs. by apply wp_exit. Qed.

Lemma finishes_lift {A} (o : option A) : finishes (lift o).
Proof. intros w s Hs. destruct o; [by apply wp_ret|by apply wp_ub]. Qed.

Lemma finishes_call {X} (e : sysE X) : finishes (call e).
Proof. intros w s Hs. by apply wp_call. Qed.

Lemma finishes_bind {A B} (p : sprog A) (k : A -> sprog B) :
  finishes p -> (forall a, finishes (k a)) -> finishes (bind p k).
Proof.
  intros Hp Hk w s Hs. apply wp_bind. eapply wp_mono; [by apply Hp|].
  intros tr [a|z|] s' w' Hs'; unfold bind_post; [|done..].
  eapply wp_mono; [by apply Hk|done].
Qed.

(** A loop whose every pass consumes fuel or decreases a measure. *)
Lemma finishes_loop {I R} (body : I -> sprog (I + R)) (mu : I -> nat) i :
  (forall i, finishes (body i)) ->
  (forall i w s, wp Partly (body i) (fun tr o _ _ =>
     match o with Val (inl i') => (mu i' < consumed tr + mu i)%nat | _ => True end) w s) ->
  finishes (loop body i).
Proof.
  intros Hfin Hdec w s Hs.
  apply (wp_loop_total _ (fun _ _ s _ => clock_id s = CLOCK_BOOTTIME)
    (fun _ w _ i => fuel w + mu i)%nat) with (tr0 := []); [|done].
  clear w s Hs i. intros tr w s i Hs.
  destruct (Hfin i w s Hs) as (tr1 & o & s' & w' & H & Hs').
  exists tr1, o, s', w'. split; [done|].
  pose proof (Hdec i w s _ _ _ _ H) as Hd. pose proof (exec_fuel _ _ _ _ _ _ _ H).
  destruct o as [[i'|r]|z|]; unfold loop_post; [|done..]. split; [done|]. lia.
Qed.

Lemma finishes_get_reltime t : finishes (os_get_reltime t).
Proof. intros w s Hs. by apply wp_get_reltime_running. Qed.

Lemma finishes_send_cmd sock cmd : finishes (send_cmd sock cmd).
Proof.
  intros w s Hs. eapply wp_mono; [by apply wp_send_cmd_running|]. by intros tr o s' w' [? _].
Qed.

Lemma finishes_gets {A} (f : statics -> A) : finishes (gets f).
Proof. intros w s Hs. by apply wp_gets. Qed.
End Total.

Create HintDb finish.
#[export] Hint Resolve finishes_ret finishes_exit finishes_lift finishes_call finishes_gets
  finishes_get_reltime finishes_send_cmd : finish.

(** [finish] walks through a program without loops of its own. *)
Ltac finish :=
  repeat (intros; cbn zeta;
    lazymatch goal with
    | |- finishes (bind _ _) => apply finishes_bind
    | |- finishes (match ?x with _ => _ end) => destruct x
    | |- finishes _ => solve [eauto with finish]
    end).

(** [walk] is its counterpart for the passes of a loop: the trace is known up to
    the programs that the pass calls. *)
Ltac walk :=
  repeat (intros; repeat wp_leaf; cbn zeta; cbn [Z.ltb Z.compare];
    lazymatch goal with
    | |- wp _ (bind _ _) _ _ _ => apply wp_bind
    | |- wp _ (match ?x with _ => _ end) _ _ _ => destruct x
    | |- wp _ (ret _) _ _ _ => wp_step
    | |- wp _ (call _) _ _ _ => wp_step
    | |- wp _ (FD_SET _) _ _ _ => apply wp_FD_SET
    | |- wp _ (err _) _ _ _ => apply wp_err
    | |- wp _ _ _ _ _ => apply wp_any; intros ? [?|?|] ? ?
    end); wp_trace.

Section Turns.
Context {W : Type} `{K : !Kernel sysE W} `{!PosixKernel W} {now : W -> Z} {fuel : W -> nat}
  `{!FiniteKernel W now fuel}.

Lemma consumed_app tr1 tr2 : consumed (tr1 ++ tr2) = (consumed tr1 + consumed tr2)%nat.
Proof. unfold consumed. by rewrite List.filter_app, length_app. Qed.

Lemma finishes_err {A} msg : finishes (A := A) (err msg).
Proof. unfold err. finish. Qed.
#[local] Hint Resolve finishes_err : finish.

Lemma finishes_send_to_erl msg len : finishes (send_to_erl msg len).
Proof.
  unfold send_to_erl. finish. intros data. apply (finishes_loop _ (fun _ => 0%nat)); [finish|].
  intros _ w s. walk; try done. cbn. lia.
Qed.
#[local] Hint Resolve finishes_send_to_erl : finish.

(** Waiting for the reply, with a callback that finishes. *)
Lemma finishes_recv_loop sock cap cb reply :
  (forall f buf len, cb = Some f -> finishes (f buf len)) ->
  finishes (loop (recv_reply sock cap cb) reply).
Proof.
  intros Hcb. apply (finishes_loop _ (fun _ => 0%nat)).
  - intros rep. unfold recv_reply, FD_SET. finish.
  - intros rep w s. unfold recv_reply. walk; try done; cbn; lia.
Qed.

Lemma finishes_request c cmd reply cap cb :
  (forall f buf len, cb = Some f -> finishes (f buf len)) ->
  finishes (wpa_ctrl_request c cmd reply cap cb).
Proof.
  intros Hcb. pose proof (finishes_recv_loop (wc_s c) cap cb) as Hr.
  unfold wpa_ctrl_request, socket_request. finish.
Qed.

Lemma finishes_attach c : finishes (wpa_ctrl_attach c).
Proof.
  pose proof (finishes_request c) as Hr.
  unfold wpa_ctrl_attach, wpa_ctrl_attach_helper. finish. by apply Hr.
Qed.

Lemma finishes_do_wpa_request p cmd : finishes (do_wpa_request p cmd).
Proof.
  unfold do_wpa_request. finish. apply finishes_request. intros f buf len [= <-].
  apply finishes_send_to_erl.
Qed.
#[local] Hint Resolve finishes_do_wpa_request : finish.

Lemma finishes_try_dispatch p : finishes (try_dispatch p).
Proof. unfold try_dispatch. finish. Qed.
#[local] Hint Resolve finishes_try_dispatch : finish.

(** A request leaves the index alone, so a message that is dispatched makes the
    index smaller. *)
Lemma do_wpa_request_index p cmd w s :
  wp Partly (do_wpa_request p cmd) (fun _ o _ _ => match o with
    | Val p' => erl_buffer_ix p' = erl_buffer_ix p | _ => True end) w s.
Proof. unfold do_wpa_request. walk; done. Qed.

Lemma try_dispatch_index p w s :
  wp Partly (try_dispatch p) (fun _ o _ _ => match o with
    | Val (p', n) => erl_buffer_ix p' = erl_buffer_ix p /\ 0 <= n | _ => True end) w s.
Proof.
  unfold try_dispatch. destruct (erl_buffer_ix p <? 2); [by wp_steps|].
  apply wp_bind, wp_any. intros ? [hl|?|] s1 w1; repeat wp_leaf; [|done..].
  pose proof (of_be16_range (nth 0 hl nul) (nth 1 hl nul)).
  destruct (_ <? _); [by apply wp_err|]. destruct (_ <? _); [by wp_steps|].
  apply wp_bind, wp_any. intros ? [cmd|?|] s2 w2; repeat wp_leaf; [|done..].
  apply wp_bind. eapply wp_mono; [apply do_wpa_request_index|].
  intros ? [p'|?|] s3 w3 Hp; repeat wp_leaf; [|done..]. wp_steps. split; [done|lia].
Qed.

Lemma finishes_dispatch_loop p : finishes (loop dispatch_pass p).
Proof.
  apply (finishes_loop _ (fun p => Z.to_nat (erl_buffer_ix p))).
  - intros p1. unfold dispatch_pass. finish.
  - intros p1 w s. unfold dispatch_pass. apply wp_bind.
    eapply wp_mono; [apply try_dispatch_index|].
    intros tr [[p2 n]|?|] s2 w2 Hp; repeat wp_leaf; [|done..]. destruct Hp as [Hix Hn].
    destruct (Z.eqb_spec n 0); [by wp_steps|].
    destruct (Z.ltb_spec n (erl_buffer_ix p2)); [|by wp_steps].
    walk; try done. cbn. lia.
Qed.
#[local] Hint Resolve finishes_dispatch_loop : finish.

Lemma finishes_process_erl p : finishes (process_erl p).
Proof. unfold process_erl. finish. Qed.

Lemma finishes_process_wpa p : finishes (process_wpa p).
Proof.
  apply (finishes_loop _ (fun _ => 0%nat)).
  - intros p1. unfold wpa_pass, wpa_ctrl_pending, wpa_ctrl_recv, FD_SET. finish.
  - intros p1 w s. unfold wpa_pass, wpa_ctrl_pending, wpa_ctrl_recv. walk; try done; cbn; lia.
Qed.
#[local] Hint Resolve finishes_process_erl finishes_process_wpa : finish.

Lemma finishes_main_turn p : finishes (main_turn p).
Proof. unfold main_turn. finish. Qed.

Lemma finishes_exec {A} (p : sprog A) w s :
  finishes p -> clock_id s = CLOCK_BOOTTIME ->
  exists tr o s' w', exec w s p tr o s' w' /\ clock_id s' = CLOCK_BOOTTIME.
Proof. intros Hp Hs. by apply Hp. Qed.

Lemma finishes_main_start argv w s :
  argv_ok argv s -> clock_id s = CLOCK_BOOTTIME ->
  exists tr o s' w', exec w s (main_start argv) tr o s' w' /\ clock_id s' = CLOCK_BOOTTIME.
Proof.
  intros (Hargv & Hn & Hlt) Hs.
  change (wp Totally (main_start argv) (fun _ _ s' _ => clock_id s' = CLOCK_BOOTTIME) w s).
  destruct argv as [|a [|b [|? ?]]]; try (by apply finishes_err).
  destruct (Hargv a b eq_refl) as (path & junk & -> & Hp). unfold main_start. apply wp_bind.
  apply wp_wpa_ctrl_open; [done..|]. intros tr [c|] s1 w1 _ Hc; repeat wp_leaf;
    (eapply wp_mono; [|by intros]).
  - assert (finishes (let* r := wpa_ctrl_attach c in
      if r <? 0 then err (bs "wpa_ctrl_attach") else ret (port0 c))) as Hf.
    { pose proof (finishes_attach c). finish. }
    apply Hf. congruence.
  - apply finishes_err. congruence.
Qed.

(** C7: When the clock runs and only finitely many datagrams and interrupted writes
    arrive, every turn of the main loop comes to an end, in a state that is ready for
    the next turn or with an exit. *)
Theorem main_turn_total p w s :
  port_ready p -> clock_id s = CLOCK_BOOTTIME ->
  exists tr o s' w', exec w s (main_turn p) tr o s' w' /\ clock_id s' = CLOCK_BOOTTIME /\
    ((exists p', o = Val p' /\ turn_post p tr p') \/
     (exists z, o = Exit z /\ exit_post p tr z)).
Proof.
  intros Hp Hs. destruct (finishes_exec (main_turn p) w s) as (tr & o & s' & w' & H & Hs');
    [apply finishes_main_turn|done|].
  exists tr, o, s', w'. split; [done|]. split; [done|]. clear Hs'.
  exec_wp H. apply wp_main_turn; eauto.
Qed.

(** C16: When the clock runs and only finitely many datagrams and interrupted writes
    arrive, starting the program comes to an end: with a failure status, with the
    connection attached and the buffers empty, ready for the main loop, or, for a socket
    whose descriptor has no place in an fd_set, in the undefined operation of FD_SET. *)
Theorem main_start_total argv w s :
  argv_ok argv s -> clock_id s = CLOCK_BOOTTIME ->
  exists tr o s' w', exec w s (main_start argv) tr o s' w' /\
    (o = Exit EXIT_FAILURE \/
     (exists c, o = Val (port0 c) /\ port_ready (port0 c) /\ attached tr) \/
     o = Ub /\ exists fd, Ev (Socket PF_UNIX) (SOk fd) ∈ tr /\ in_fd_set fd = false).
Proof.
  intros Hok Hs. destruct (finishes_main_start argv w s Hok Hs) as (tr & o & s' & w' & H & _).
  exists tr, o, s', w'. split; [done|]. exec_wp H. apply wp_main_start; [done|..].
  - intros tr fd s' w' Hs' Hfd _. right. right. split; [done|by exists fd].
  - intros tr c s' w' Hfd Ha. right. left. exists c. split; [done|]. split; [by apply port0_ready|done].
  - intros. by left.
Qed.
End Turns.
