(* ===== verification/SimOs.v ===== *)
(** * A simulated operating system

    A concrete environment that satisfies every law of the interface
    ([PosixKernel], [RunningClock], [FiniteKernel]): datagrams and input come
    from queues, sends and binds may be scripted to fail, writes may be
    interrupted, and the clock advances when the program sleeps.  The theorems
    are applied to it at concrete runs of the program, which are computed. *)

From S2P Require Export PortTotal.
Local Open Scope Z_scope.

Record sim : Type := MkSim {
  elapsed : Z;                  (* nanoseconds of sleep *)
  datagrams : list bytes;       (* to be received *)
  chunks : list bytes;          (* of standard input *)
  polls : list (Z * Z);         (* answers of poll, then POLLIN on both *)
  interrupts : nat;             (* of writes to come *)
  send_errors : list errno;     (* of the next sends *)
  bind_errors : list errno;     (* of the next binds *)
  entries : list bytes          (* of the directory that is read *)
}.

Definition sim_now (w : sim) : Z := 10 ^ 9 + Z.abs (elapsed w).
Definition sim_fuel (w : sim) : nat := length (datagrams w) + interrupts w.

Definition sim_sleep (n : Z) (w : sim) : sim :=
  MkSim (Z.abs (elapsed w) + Z.max 0 n) (datagrams w) (chunks w) (polls w) (interrupts w)
    (send_errors w) (bind_errors w) (entries w).
Definition sim_datagrams (l : list bytes) (w : sim) : sim :=
  MkSim (elapsed w) l (chunks w) (polls w) (interrupts w) (send_errors w) (bind_errors w) (entries w).
Definition sim_chunks (l : list bytes) (w : sim) : sim :=
  MkSim (elapsed w) (datagrams w) l (polls w) (interrupts w) (send_errors w) (bind_errors w) (entries w).
Definition sim_polls (l : list (Z * Z)) (w : sim) : sim :=
  MkSim (elapsed w) (datagrams w) (chunks w) l (interrupts w) (send_errors w) (bind_errors w) (entries w).
Definition sim_interrupts (n : nat) (w : sim) : sim :=
  MkSim (elapsed w) (datagrams w) (chunks w) (polls w) n (send_errors w) (bind_errors w) (entries w).
Definition sim_send_errors (l : list errno) (w : sim) : sim :=
  MkSim (elapsed w) (datagrams w) (chunks w) (polls w) (interrupts w) l (bind_errors w) (entries w).
Definition sim_bind_errors (l : list errno) (w : sim) : sim :=
  MkSim (elapsed w) (datagrams w) (chunks w) (polls w) (interrupts w) (send_errors w) l (entries w).
Definition sim_entries (l : list bytes) (w : sim) : sim :=
  MkSim (elapsed w) (datagrams w) (chunks w) (polls w) (interrupts w) (send_errors w) (bind_errors w) l.

#[export] Instance sim_kernel : Kernel sysE sim := fun X e w =>
  match e in sysE X return X * sim with
  | Malloc _ => (Some 4096, w)
  | Free _ => (tt, w)
  | Socket _ => (SOk 3, w)
  | Bind _ _ =>
      match bind_errors w with
      | [] => (SOk tt, w)
      | e :: l => (SErr e, sim_bind_errors l w)
      end
  | Connect _ _ => (SOk tt, w)
  | Close _ => (SOk tt, w)
  | Unlink _ => (SOk tt, w)
  | FcntlGetfl _ => (SOk 2, w)
  | FcntlSetfl _ _ => (SOk tt, w)
  | Send _ d =>
      match send_errors w with
      | [] => (SOk (Z.of_nat (length d)), w)
      | e :: l => (SErr e, sim_send_errors l w)
      end
  | Recv _ n =>
      match datagrams w with
      | [] => (SErr EAGAIN, w)
      | d :: l => (SOk (take (Z.to_nat n) d), sim_datagrams l w)
      end
  | Select _ _ _ => (SOk (negb (bool_decide (datagrams w = []))), w)
  | Poll _ _ =>
      match polls w with
      | [] => (SOk (POLLIN, POLLIN), w)
      | r :: l => (SOk r, sim_polls l w)
      end
  | Read _ n =>
      match chunks w with
      | [] => (SOk [], w)
      | c :: l =>
          (SOk (take (Z.to_nat n) c),
           sim_chunks (if bool_decide (drop (Z.to_nat n) c = []) then l
                       else drop (Z.to_nat n) c :: l) w)
      end
  | Writev _ iov =>
      match interrupts w with
      | O => (SOk (Z.of_nat (length (concat iov))), w)
      | S n => (SErr EINTR, sim_interrupts n w)
      end
  | ClockGettime _ => (SOk (sim_now w / 10 ^ 9, sim_now w mod 10 ^ 9), w)
  | Gettimeofday => (SOk (sim_now w / 10 ^ 9, sim_now w mod 10 ^ 9 / 1000), w)
  | Sleep n => (tt, sim_sleep (n * 10 ^ 9) w)
  | Usleep n => (tt, sim_sleep (n * 1000) w)
  | Getpid => (1234, w)
  | Calloc _ _ => (Some 8192, w)
  | Realloc _ _ => (Some 8192, w)
  | Getcwd n =>
      if 200 <? n then (SOk (bs "/home" ++ replicate 190 Byte.x78), w) else (SErr ERANGE, w)
  | Fopen _ _ => (Some 5, w)
  | FseekEnd _ => (SOk tt, w)
  | FseekSet _ => (SOk tt, w)
  | Ftell _ => (SOk 3, w)
  | Fread _ n => (take (Z.to_nat n) (bs "abcdefgh"), w)
  | Fprintf _ _ => (tt, w)
  | Fclose _ => (tt, w)
  | Daemon => (SOk tt, w)
  | Chdir _ => (SOk tt, w)
  | Open _ => (SOk 6, w)
  | Dup2 _ _ => (SOk tt, w)
  | Stdout _ => (tt, w)
  | Opendir _ => (Some 8, w)
  | Readdir _ =>
      match entries w with
      | [] => (None, w)
      | n :: l => (Some (cstr n), sim_entries l w)
      end
  | Closedir _ => (tt, w)
  | Gethostbyname _ => (Some [Byte.x0a; Byte.x00; Byte.x00; Byte.x07], w)
  | Stderr _ => (tt, w)
  | Chmod _ _ | Chown _ _ _ | LocalConnect _ _ => (SOk tt, w)
  | Setenv _ _ _ | Unsetenv _ => (SOk tt, w)
  | Random => (4, w)
  | Setgroups _ | Prctl _ _ | Setgid _ | Setuid _ | Capset _ _ _ => (SOk tt, w)
  end.

(** The cases of one call. *)
Ltac sim_cases :=
  intros X e w x w'; unfold kstep, sim_kernel, sim_now, sim_fuel; destruct e; intros H;
  repeat match goal with
  | H : context [match ?x with _ => _ end] |- _ => destruct x eqn:?
  end; injection H as <- <-; cbn -[Z.pow Z.abs Z.div Z.modulo];
  repeat match goal with
  | H : datagrams _ = _ |- _ => rewrite H; clear H
  | H : interrupts _ = _ |- _ => rewrite H; clear H
  end; cbn [length]; try lia.

#[export] Instance sim_posix : PosixKernel sim.
Proof.
  constructor; unfold kstep, sim_kernel; cbn.
  - intros w s n d w' H Hn. destruct (datagrams w); [done|]. injection H as <- _.
    rewrite length_take. lia.
  - intros w fd n d w' H Hn. destruct (chunks w); [by injection H as <- _|]. injection H as <- _.
    rewrite length_take. lia.
  - intros w n w' [= <- _]. done.
  - by intros w n a w' [= <- _].
  - intros w n d w' H. destruct (Z.ltb_spec 200 n); [|done]. injection H as <- _.
    split; [by repeat constructor|]. cbn; lia.
  - intros w f n d w' [= <- _] Hn. rewrite length_take. lia.
  - by intros w f n w' [= <- _].
  - intros w d n w' H. destruct (entries w); [done|]. injection H as <- _. apply cstr_nul_free.
  - by intros w d n w' [= <- _].
  - done.
Qed.

Lemma sim_step_now X (e : sysE X) w x w' : kstep e w = (x, w') -> sim_now w <= sim_now w'.
Proof. revert X e w x w'. sim_cases. Qed.

#[export] Instance sim_running : RunningClock sim_now.
Proof.
  constructor.
  - exact sim_step_now.
  - intros n w w' [= <-]. unfold sim_now; cbn -[Z.pow Z.abs]. lia.
  - intros w x w' [= <- <-]. do 2 eexists. split; [done|].
    pose proof (Z.mod_pos_bound (sim_now w) (10 ^ 9)). pose proof (Z.div_mod (sim_now w) (10 ^ 9)).
    lia.
  - intros w. unfold sim_now. lia.
Qed.

#[export] Instance sim_finite : FiniteKernel sim sim_now sim_fuel.
Proof.
  constructor; [apply _|]. sim_cases.
Qed.

(** ** Computing runs of the program *)

(** [k] turns of the main loop. *)
Fixpoint sim_turns (fuel k : nat) (w : sim) (s : statics) (p : port)
    : option (sys_trace * port * sim * statics) :=
  match k with
  | O => Some ([], p, w, s)
  | S k =>
      match run fuel w s (main_turn p) with
      | Some (tr1, Val p1, s1, w1) =>
          match sim_turns fuel k w1 s1 p1 with
          | Some (tr2, p2, w2, s2) => Some (tr1 ++ tr2, p2, w2, s2)
          | None => None
          end
      | _ => None
      end
  end.

Definition sim_main (fuel k : nat) (argv : list bytes) (w : sim) (s : statics)
    : option (sys_trace * port * sim * statics) :=
  match run fuel w s (main_start argv) with
  | Some (tr1, Val p1, s1, w1) =>
      match sim_turns fuel k w1 s1 p1 with
      | Some (tr2, p2, w2, s2) => Some (tr1 ++ tr2, p2, w2, s2)
      | None => None
      end
  | _ => None
  end.

Lemma turns_cons p w s tr1 p1 w1 s1 tr2 p2 w2 s2 :
  exec w s (main_turn p) tr1 (Val p1) s1 w1 -> turns p1 w1 s1 tr2 p2 w2 s2 ->
  turns p w s (tr1 ++ tr2) p2 w2 s2.
Proof.
  intros H1. induction 1 as [|tra pa wa sa trb pb wb sb _ IH H2].
  - rewrite app_nil_r. apply (turns_step _ _ _ [] p w s); [constructor|done].
  - rewrite app_assoc. econstructor; [exact IH|done].
Qed.

Lemma sim_turns_sound fuel k w s p tr p' w' s' :
  sim_turns fuel k w s p = Some (tr, p', w', s') -> turns p w s tr p' w' s'.
Proof.
  revert w s p tr. induction k as [|k IH]; intros w s p tr H; cbn in H.
  - injection H as <- <- <- <-. constructor.
  - destruct (run fuel w s (main_turn p)) as [[[[tr1 [p1|z|]] s1] w1]|] eqn:H1; [|done..].
    destruct (sim_turns fuel k w1 s1 p1) as [[[[tr2 p2] w2] s2]|] eqn:H2; [|done].
    injection H as <- <- <- <-. eapply turns_cons; [by eapply run_exec|by apply IH].
Qed.

Lemma sim_main_sound fuel k argv w s tr p w' s' :
  sim_main fuel k argv w s = Some (tr, p, w', s') -> main_reaches argv w s tr p w' s'.
Proof.
  unfold sim_main. intros H.
  destruct (run fuel w s (main_start argv)) as [[[[tr1 [p1|z|]] s1] w1]|] eqn:H1; [|done..].
  destruct (sim_turns fuel k w1 s1 p1) as [[[[tr2 p2] w2] s2]|] eqn:H2; [|done].
  injection H as <- <- <- <-. do 5 eexists. split_and!; [by eapply run_exec| |done].
  by eapply sim_turns_sound.
Qed.

(** A command line and a session: the client's name is in use at first, the
    supplicant acknowledges the attachment, is busy once, sends an event before
    it answers [PING] and another one after; the command arrives in two pieces,
    the second with the start of a next command, and a write is interrupted. *)
Definition sim_argv : list bytes :=
  [bs "wpa_ex" ++ [nul]; bs "/var/run/wpa_supplicant/wlan0" ++ [nul]].

Definition sim0 : sim :=
  MkSim 0 [bs "OK" ++ [newline]; bs "<3>EVENT"; bs "PONG" ++ [newline]; bs "<3>LATER"]
    [take 3 (frame (bs "PING")); drop 3 (frame (bs "PING")) ++ take 3 (frame (bs "STATUS"))]
    [(1, 0); (1, 0); (0, 1)] 1 [EAGAIN] [EADDRINUSE] [].

(** The observations that the witnesses state of a run. *)
Definition sim_session (k : nat) : option (sys_trace * port * sim * statics) :=
  sim_main 1000 k sim_argv sim0 statics0.

Lemma sim_session_sound k tr p w' s' :
  sim_session k = Some (tr, p, w', s') -> main_reaches sim_argv sim0 statics0 tr p w' s'.
Proof. apply sim_main_sound. Qed.

Lemma sim_argv_ok : argv_ok sim_argv statics0.
Proof.
  split; [|by split]. intros a b [= <- <-]. exists (bs "/var/run/wpa_supplicant/wlan0"), [].
  split; [done|]. by repeat constructor.
Qed.
