(* ===== verification/SimFile.v ===== *)
(** * A simulated file

    The simulated operating system with one stream: opening a file positions it at
    the start of the contents that go by its name, and reading delivers them from
    the position on ([PosixKernel], [FileKernel]). *)

From S2P Require Export SimOs OsFile.
Local Open Scope Z_scope.

(** What every name stands for. *)
Definition sim_file (name : bytes) : bytes := bs "this is " ++ name.

(** The rest of the system, and the contents and position of the stream. *)
Definition filesim : Type := sim * (bytes * nat).

#[export] Instance file_sim_kernel : Kernel sysE filesim := fun X e '(w, (c, p)) =>
  match e in sysE X return X * filesim with
  | Fopen name _ => (Some 5, (w, (sim_file name, 0%nat)))
  | FseekEnd _ => (SOk tt, (w, (c, length c)))
  | FseekSet _ => (SOk tt, (w, (c, 0%nat)))
  | Ftell _ => (SOk (Z.of_nat p), (w, (c, p)))
  | Fread _ n =>
      let d := take (Z.to_nat n) (drop p c) in (d, (w, (c, (p + length d)%nat)))
  | e => let '(x, w') := sim_kernel _ e w in (x, (w', (c, p)))
  end.

(** A call that the simulated system answers. *)
Lemma file_step X (e : sysE X) w (c : bytes) (p : nat) x w' (st' : bytes * nat) :
  (let '(x', w1) := sim_kernel _ e w in (x', (w1, (c, p)))) = (x, (w', st')) -> sim_kernel _ e w = (x, w').
Proof. destruct (sim_kernel _ e w). by intros [= -> -> _]. Qed.

#[export] Instance file_sim_posix : PosixKernel filesim.
Proof.
  constructor.
  - intros [w [c p]] s n d [w' st'] H%file_step. exact (recv_bound _ _ _ _ _ H).
  - intros [w [c p]] fd n d [w' st'] H%file_step. exact (read_bound _ _ _ _ _ H).
  - intros [w [c p]] n [w' st'] H%file_step. exact (getpid_ok _ _ _ H).
  - intros [w [c p]] n a [w' st'] H%file_step. exact (gethostbyname_ok _ _ _ _ H).
  - intros [w [c p]] n d [w' st'] H%file_step. exact (getcwd_ok _ _ _ _ H).
  - intros [w [c p]] f n d w' [= <- _] Hn. rewrite length_take. lia.
  - intros [w [c p]] f n w' [= <- _]. lia.
  - intros [w [c p]] d n [w' st'] H%file_step. exact (readdir_ok _ _ _ _ H).
  - intros [w [c p]] d n [w' st'] H%file_step. exact (socket_ok _ _ _ _ H).
  - intros [w [c p]] e [w' st'] H%file_step. exact (realtime_ok _ _ _ H).
Qed.

#[export] Instance file_sim_files : FileKernel (fun _ => sim_file) (fun w _ => snd w).
Proof.
  constructor.
  - by intros [w [c p]] name f w' [= <- <-].
  - by intros [w [c p]] f w' [= <-].
  - by intros [w [c p]] f w' [= <-].
  - by intros [w [c p]] f n w' [= <- <-].
  - by intros [w [c p]] n x w' f [= <- <-].
  - intros [w [c p]] f n d w' [= <- _]. cbn. rewrite <- (take_drop (Z.to_nat n) (drop p c)) at 2. by eexists.
Qed.

(** The stream is not opened yet. *)
Definition file0 : filesim := (sim0, ([], 0%nat)).
