(* ===== verification/SimAnswer.v ===== *)
(** * A simulated supplicant that answers

    A second concrete environment, which satisfies [AnsweringKernel]: each
    command that is sent brings an event and a reply, or the acknowledgement
    for ATTACH, and signals interrupt the first writes.  The other calls are
    answered as in SimOs. *)

From S2P Require Export SimOs PortAnswer.
Local Open Scope Z_scope.

Record desk : Type := MkDesk {
  desk_queue : list bytes;
  desk_stdin : bytes;
  desk_bustle : nat
}.

(** What the supplicant sends for a command. *)
Definition desk_events (m : bytes) : list bytes :=
  if bool_decide (m = bs "ATTACH") then [] else [bs "<3>" ++ m].
Definition desk_reply (m : bytes) : bytes :=
  if bool_decide (m = bs "ATTACH") then ok_reply else bs "DONE".

(** The state in which SimOs answers the other calls. *)
Definition desk_sim : sim := MkSim 0 [] [] [] 0 [] [] [].

#[export] Instance desk_kernel : Kernel sysE desk := fun X e w =>
  match e in sysE X return X * desk with
  | Send _ m => (SOk (Z.of_nat (length m)),
      MkDesk (desk_queue w ++ desk_events m ++ [desk_reply m]) (desk_stdin w) (desk_bustle w))
  | Recv _ n =>
      match desk_queue w with
      | [] => (SErr EAGAIN, w)
      | d :: q => (SOk (take (Z.to_nat n) d), MkDesk q (desk_stdin w) (desk_bustle w))
      end
  | Select _ _ _ => (SOk (negb (bool_decide (desk_queue w = []))), w)
  | Writev _ iov =>
      match desk_bustle w with
      | O => (SOk (Z.of_nat (length (concat iov))), w)
      | S n => (SErr EINTR, MkDesk (desk_queue w) (desk_stdin w) n)
      end
  | Poll _ _ => (SOk (POLLIN, if bool_decide (desk_queue w = []) then 0 else POLLIN), w)
  | Read _ n => (SOk (take (Z.to_nat n) (desk_stdin w)),
      MkDesk (desk_queue w) (drop (Z.to_nat n) (desk_stdin w)) (desk_bustle w))
  | e => (fst (sim_kernel _ e desk_sim), w)
  end.

#[export] Instance desk_posix : PosixKernel desk.
Proof.
  pose proof sim_posix as [_ _ Hpid Hhost Hcwd Hfread Hftell Hdir Hsock Hreal].
  constructor; unfold kstep, desk_kernel; cbn [sim_kernel].
  - intros w s n d w' H Hn. destruct (desk_queue w); [done|]. injection H as <- _.
    rewrite length_take. lia.
  - intros w fd n d w' H Hn. injection H as <- _. rewrite length_take. lia.
  - intros w n w' H. injection H as <- _. by eapply (Hpid desk_sim), surjective_pairing.
  - intros w n a w' H. injection H as H _. eapply (Hhost desk_sim n). rewrite <- H. apply surjective_pairing.
  - intros w n d w' H. injection H as H _. eapply (Hcwd desk_sim n). rewrite <- H. apply surjective_pairing.
  - intros w f n d w' H. injection H as H _. eapply (Hfread desk_sim f n). rewrite <- H. apply surjective_pairing.
  - intros w f n w' H. injection H as H _. eapply (Hftell desk_sim f). rewrite <- H. apply surjective_pairing.
  - intros w d n w' H. injection H as H _. eapply (Hdir desk_sim d). rewrite <- H. apply surjective_pairing.
  - intros w d n w' H. injection H as H _. eapply (Hsock desk_sim d). rewrite <- H. apply surjective_pairing.
  - intros w e w' H. injection H as H _. eapply (Hreal desk_sim e). rewrite <- H. apply surjective_pairing.
Qed.

Lemma desk_comes q w w' n :
  desk_queue w' = q -> (n + desk_bustle w' <= desk_bustle w)%nat ->
  comes desk_queue desk_bustle q w w' n.
Proof. intros Hq Hb. exists []. rewrite app_nil_r. split_and!; [constructor|done|cbn; lia]. Qed.

#[export] Instance desk_answering : AnsweringKernel desk desk_queue desk_stdin desk_bustle.
Proof.
  constructor; unfold kstep, desk_kernel.
  - intros X e w x w' H. destruct e; try (by injection H as <- <-);
      try (by destruct (desk_queue w); injection H as <- <-);
      try (by destruct (desk_bustle w); injection H as <- <-).
    injection H as <- <-. cbn. by rewrite take_drop.
  - intros X e w x w' H. destruct e; try (by injection H as <- <-);
      try (by destruct (desk_queue w); injection H as <- <-).
    destruct (desk_bustle w) eqn:E; injection H as <- <-; cbn; lia.
  - intros w s m x w' H. injection H as <- <-. exists (Z.of_nat (length m)), (desk_events m), (desk_reply m).
    split; [done|]. unfold desk_events, desk_reply. case_bool_decide; split_and!;
      try done; try (by repeat constructor); by apply desk_comes.
  - intros w s n d q x w' H Hq. rewrite Hq in H. injection H as <- <-. split; [done|]. by apply desk_comes.
  - intros w s a b x w' H. injection H as <- <-. split; [done|]. by apply desk_comes.
  - intros w fd iov x w' H. destruct (desk_bustle w) eqn:E; injection H as <- <-; [right|left];
      (split; [done|]; apply desk_comes; [done|cbn; lia]).
  - intros w fd0 fd1 x w' H. injection H as <- <-. right. do 2 eexists. split; [done|].
    by apply desk_comes.
  - intros w fd n x w' H Hn. injection H as <- <-. right. eexists. split; [done|].
    split; [by apply desk_comes|]. destruct (desk_stdin w) as [|c b]; [done|].
    destruct (Z.to_nat n) eqn:E; [lia|done].
Qed.

(** Two commands, the writes of the first answers interrupted. *)
Definition desk0 : desk := MkDesk [] (concat (frame <$> [bs "PING"; bs "STATUS"])) 2.
