(* ===== verification/Witnesses.v ===== *)
(** * Witnesses

    The theorems with hypotheses, applied to concrete runs in the simulated
    environment.  The interfaces of the theorems are inhabited here too: a
    [wpabuf_put], a callback that relays, and an environment of the Windows
    calls. *)

From S2P Require Export SimOs SimFile SimAnswer CtrlAndroid Events WpaBuf CtrlUdp CtrlPipe CtrlCleanup OsFile.
Local Open Scope Z_scope.

(** [run_obs obs r H] states as [H] what an observation of the run [r] is. *)
Ltac run_obs obs r H :=
  let v := eval vm_compute in (option_map obs r) in
  assert (option_map obs r = v) as H by (vm_compute; reflexivity).

(** A run of a program of the library. *)
Definition sim_run {A} (w : sim) (p : sprog A) : option (sys_trace * outcome A * statics * sim) :=
  run 200 w statics0 p.

Lemma sim_run_sound {A} w (p : sprog A) tr o s' w' :
  sim_run w p = Some (tr, o, s', w') -> exec w statics0 p tr o s' w'.
Proof. apply run_exec. Qed.

Lemma int_ok_0 : int_ok 0.
Proof. done. Qed.

(** ** The port program *)

Lemma main_relays_witness :
  exists tr p w' s', main_reaches sim_argv sim0 statics0 tr p w' s' /\
    relay_invariant tr p /\ sent tr = [bs "ATTACH"; bs "PING"] /\ length (received tr) = 4%nat.
Proof.
  run_obs (fun r : sys_trace * port * sim * statics => let '(tr, p, w, s) := r in
    (sent tr, length (received tr))) (sim_session 3) Hobs.
  destruct (sim_session 3) as [[[[tr p] w'] s']|] eqn:H; [|discriminate Hobs].
  injection Hobs as Hs Hr. apply sim_session_sound in H.
  exists tr, p, w', s'. split; [exact H|]. split; [|by rewrite Hs, Hr].
  exact (main_relays _ _ _ _ _ _ _ sim_argv_ok H).
Defined.

Lemma main_refines_witness :
  exists tr p w' s', main_reaches sim_argv sim0 statics0 tr p w' s' /\
    relay_run relay0 (actions tr) = Some (MkRelay (unread p) Idle) /\ length (received tr) = 4%nat.
Proof.
  run_obs (fun r : sys_trace * port * sim * statics => let '(tr, p, w, s) := r in
    length (received tr)) (sim_session 3) Hobs.
  destruct (sim_session 3) as [[[[tr p] w'] s']|] eqn:H; [|discriminate Hobs].
  injection Hobs as Hr. apply sim_session_sound in H.
  exists tr, p, w', s'. split; [exact H|]. split; [|by rewrite Hr].
  exact (proj1 (main_refines _ _ _ sim_argv_ok) _ _ _ _ H).
Defined.

(** Two commands in the input, and a supplicant that answers. *)
Lemma main_answers_witness :
  exists tr s' w', exec desk0 statics0 (main sim_argv) tr (Exit EXIT_SUCCESS) s' w' /\
    sent tr = [bs "ATTACH"; bs "PING"; bs "STATUS"].
Proof.
  run_obs (fun r : sys_trace * outcome port * statics * desk => let '(_, o, _, w) := r in
    (match o with Val _ => true | _ => false end, desk_queue w))
    (run 200 desk0 statics0 (main_start sim_argv)) Hobs.
  destruct (run 200 desk0 statics0 (main_start sim_argv)) as [[[[tr0 o] s0] w0]|] eqn:H;
    [|discriminate Hobs].
  destruct o as [p0|z|]; [|discriminate Hobs..]. injection Hobs as Hq. apply run_exec in H.
  destruct (main_answers desk_queue desk_stdin desk_bustle _ _ _ _ _ _ _ [bs "PING"; bs "STATUS"]
    sim_argv_ok H) as (tr & s' & w' & Hrun & _ & Hs & _).
  - rewrite Hq. constructor.
  - reflexivity.
  - repeat constructor; by vm_compute; lia.
  - by exists tr, s', w'.
Defined.

(** The supplicant does not answer the attachment. *)
Lemma main_ends_witness :
  exists tr s' w', exec (MkSim 0 [] [] [] 0 [] [] []) statics0 (main sim_argv) tr (Exit EXIT_FAILURE) s' w' /\
    sent tr `prefix_of` [bs "ATTACH"].
Proof.
  run_obs (fun r : sys_trace * outcome Empty_set * statics * sim => let '(tr, o, _, _) := r in
    (o, input tr)) (sim_run (MkSim 0 [] [] [] 0 [] [] []) (main sim_argv)) Hobs.
  destruct (sim_run _ (main sim_argv)) as [[[[tr o] s'] w']|] eqn:H; [|discriminate Hobs].
  injection Hobs as Ho Hi. apply sim_run_sound in H. rewrite Ho in H. exists tr, s', w'. split; [exact H|].
  destruct (main_ends _ _ _ _ _ _ _ sim_argv_ok H) as [Hp _]. by rewrite Hi in Hp.
Defined.

Lemma event_names_witness :
  event_of (bs "WPS-AP-AVAILABLE-PBC ") = Some WPS_EVENT_AP_AVAILABLE_PBC /\
  WPS_EVENT_AP_AVAILABLE_PBC <> WPS_EVENT_AP_AVAILABLE.
Proof.
  split; [|discriminate].
  assert (WPS_EVENT_AP_AVAILABLE_PBC ∈ message_prefixes) as Hp by (by apply (bool_decide_unpack _); vm_compute).
  exact (proj1 (event_names WPS_EVENT_AP_AVAILABLE_PBC [] Hp)).
Defined.

(** An interface of an Android system. *)
Lemma android_open_spec_witness :
  exists tr r s' w', exec sim0 statics0 (android_open 1000 1010 (Some (bs "wlan0" ++ [nul]))) tr (Val r) s' w' /\
    opening_post false (connected_android 1000 1010 (bs "wlan0")) 1 tr r /\
    android_target (bs "wlan0") = Some (Reserved (bs "wpa_wlan0")).
Proof.
  destruct (android_open_spec 1000 1010 (bs "wlan0") [] sim0 statics0) as (tr & r & s' & w' & H & Hr).
  - by repeat constructor.
  - by split.
  - reflexivity.
  - exists tr, r, s', w'. split; [exact H|]. split; [exact Hr|reflexivity].
Defined.

(** A connection, and the port program attached to it. *)
Definition ctrl0 : wpa_ctrl := MkCtrl 4096 3 (client_path 1234 1) (bs "/run/wpa").

Lemma main_turn_total_witness :
  exists tr o s' w', exec sim0 statics0 (main_turn (port0 ctrl0)) tr o s' w' /\
    clock_id s' = CLOCK_BOOTTIME.
Proof.
  destruct (main_turn_total (port0 ctrl0) sim0 statics0 (port0_ready ctrl0 eq_refl) eq_refl)
    as (tr & o & s' & w' & H & Hc & _). by exists tr, o, s', w'.
Defined.

Lemma main_start_total_witness :
  exists tr o s' w', exec sim0 statics0 (main_start sim_argv) tr o s' w' /\
    (o = Exit EXIT_FAILURE \/
     (exists c, o = Val (port0 c) /\ port_ready (port0 c) /\ attached tr) \/
     o = Ub /\ exists fd, Ev (Socket PF_UNIX) (SOk fd) ∈ tr /\ in_fd_set fd = false).
Proof. exact (main_start_total sim_argv sim0 statics0 sim_argv_ok eq_refl). Defined.

(** The command [PING] and the first three bytes of the next one. *)
Lemma main_framed_input_witness :
  exists tr p w' s', main_reaches sim_argv sim0 statics0 tr p w' s' /\
    sent tr = [bs "ATTACH"; bs "PING"] /\ unread p = take 3 (frame (bs "STATUS")).
Proof.
  run_obs (fun r : sys_trace * port * sim * statics => let '(tr, p, w, s) := r in input tr)
    (sim_session 3) Hobs.
  destruct (sim_session 3) as [[[[tr p] w'] s']|] eqn:H; [|discriminate Hobs].
  injection Hobs as Hi. apply sim_session_sound in H.
  exists tr, p, w', s'. split; [exact H|].
  apply (main_framed_input _ _ _ _ _ _ _ [bs "PING"] (take 3 (frame (bs "STATUS"))) sim_argv_ok H).
  - rewrite Hi. reflexivity.
  - repeat constructor.
  - reflexivity.
Defined.

Lemma main_framed_output_witness :
  exists tr p w' s' ms, main_reaches sim_argv sim0 statics0 tr p w' s' /\
    unframe (output tr) = (ms, []) /\ Forall2 relayed (acknowledged (received tr)) ms /\
    length (received tr) = 4%nat.
Proof.
  run_obs (fun r : sys_trace * port * sim * statics => let '(tr, p, w, s) := r in
    length (received tr)) (sim_session 3) Hobs.
  destruct (sim_session 3) as [[[[tr p] w'] s']|] eqn:H; [|discriminate Hobs].
  injection Hobs as Hr. apply sim_session_sound in H.
  destruct (main_framed_output sim_argv sim0 statics0 tr sim_argv_ok) as [_ Hm].
  - left. by exists p, w', s'.
  - destruct Hm as (ms & Hu & Hf); [left; by exists p, w', s'|].
    exists tr, p, w', s', ms. split_and!; [exact H|exact Hu|exact Hf|exact Hr].
Defined.

(** ** Requests *)

(** A callback that sends each message on to the standard output. *)
Definition sim_callback : msg_callback := Some send_to_erl.

(** The supplicant is busy once, and sends an event before it answers. *)
Definition sim1 : sim :=
  MkSim 0 [bs "<3>EVENT"; bs "PONG" ++ [newline]] [] [] 0 [EAGAIN] [] [].

Lemma cap16_ok : 0 <= 16 <= Z.of_nat (length (zeros 16)).
Proof. split; by vm_compute. Qed.

Lemma wpa_ctrl_request_spec_witness :
  exists tr reply s' w',
    exec sim1 statics0 (wpa_ctrl_request ctrl0 (bs "PING") (zeros 16) 16 (Some send_to_erl)) tr
      (Val (0, reply, 5)) s' w' /\
    request_post (bs "PING") 16 frame tr 0 reply 5.
Proof.
  set (prog := wpa_ctrl_request ctrl0 (bs "PING") (zeros 16) 16 (Some send_to_erl)).
  run_obs (fun r : sys_trace * outcome (Z * bytes * Z) * statics * sim => let '(tr, o, s', w') := r in o)
    (sim_run sim1 prog) Hobs.
  destruct (sim_run sim1 prog) as [[[[tr o] s'] w']|] eqn:H; [|discriminate Hobs].
  injection Hobs as Ho. apply sim_run_sound in H. rewrite Ho in H. do 4 eexists. split; [exact H|].
  exact (proj2 (wpa_ctrl_request_spec ctrl0 (Some send_to_erl) frame (bs "PING") (zeros 16) 16
    _ _ _ _ _ _ cap16_ok H)).
Defined.

Lemma wpa_ctrl_attach_spec_witness :
  exists tr s' w', exec sim0 statics0 (wpa_ctrl_attach ctrl0) tr (Val 0) s' w' /\
    input tr = [] /\ output tr = [].
Proof.
  run_obs (fun r : sys_trace * outcome Z * statics * sim => let '(tr, o, s', w') := r in o)
    (sim_run sim0 (wpa_ctrl_attach ctrl0)) Hobs.
  destruct (sim_run sim0 (wpa_ctrl_attach ctrl0)) as [[[[tr o] s'] w']|] eqn:H; [|discriminate Hobs].
  injection Hobs as Ho. apply sim_run_sound in H. rewrite Ho in H. do 3 eexists. split; [exact H|].
  destruct (wpa_ctrl_attach_spec ctrl0 _ _ _ _ _ _ H) as (Hi & Hou & _). by split.
Defined.

(** The queue of the supplicant stays full. *)
Lemma send_cmd_total_witness :
  exists tr b s' w',
    exec (MkSim 0 [] [] [] 0 (replicate 9 EAGAIN) [] []) statics0 (send_cmd 3 (bs "PING")) tr (Val b) s' w' /\
    (length (send_calls tr) <= 7)%nat /\ sent tr = (if b : bool then [bs "PING"] else []).
Proof. exact (send_cmd_total 3 (bs "PING") _ statics0 eq_refl). Defined.

(** ** Connections *)

Definition path0 : bytes := bs "/var/run/wpa_supplicant/wlan0".

Lemma path0_ok : nul_free path0.
Proof. by repeat constructor. Qed.

Lemma wpa_ctrl_open_spec_witness :
  exists tr r s' w', exec sim0 statics0 (wpa_ctrl_open (Some (path0 ++ nul :: []))) tr (Val r) s' w' /\
    open_post path0 1 tr r.
Proof. exact (wpa_ctrl_open_spec path0 [] sim0 statics0 path0_ok int_ok_0 eq_refl). Defined.

Lemma wpa_ctrl_open_close_witness :
  exists tr c s' w' tr' w'',
    exec sim0 statics0 (wpa_ctrl_open (Some (path0 ++ nul :: []))) tr (Val (Some c)) s' w' /\
    exec w' s' (wpa_ctrl_close (Some c)) tr' (Val tt) s' w'' /\ held (tr ++ tr') = [].
Proof.
  set (prog := wpa_ctrl_open (Some (path0 ++ nul :: []))).
  run_obs (fun r : sys_trace * outcome (option wpa_ctrl) * statics * sim => let '(tr, o, s', w') := r in o)
    (sim_run sim0 prog) Hobs.
  destruct (sim_run sim0 prog) as [[[[tr o] s'] w']|] eqn:H; [|discriminate Hobs].
  injection Hobs as Ho. apply sim_run_sound in H. rewrite Ho in H.
  destruct (wpa_ctrl_open_close path0 [] sim0 statics0 _ _ _ _ path0_ok int_ok_0 eq_refl H)
    as (_ & tr' & w'' & r1 & r2 & H' & _ & Hh). do 6 eexists. split_and!; [exact H|exact H'|exact Hh].
Defined.

(** A path of 120 bytes: the socket file stays behind. *)
Lemma wpa_ctrl_open_too_long_witness :
  exists tr s' w',
    exec sim0 statics0 (wpa_ctrl_open (Some (replicate 120 Byte.x61 ++ nul :: []))) tr (Val None) s' w' /\
    held tr = [SocketFile (client_path 1234 1)].
Proof.
  set (path := replicate 120 Byte.x61). set (prog := wpa_ctrl_open (Some (path ++ nul :: []))).
  run_obs (fun r : sys_trace * outcome (option wpa_ctrl) * statics * sim => let '(tr, o, s', w') := r in
    (o, bound tr)) (sim_run sim0 prog) Hobs.
  destruct (sim_run sim0 prog) as [[[[tr o] s'] w']|] eqn:H; [|discriminate Hobs].
  injection Hobs as Ho Hb. apply sim_run_sound in H. rewrite Ho in H.
  assert (nul_free path /\ (SUN_PATH <= length path)%nat) as [Hp Hl]
    by (split; [by repeat constructor|by apply Nat.leb_le]).
  destruct (wpa_ctrl_open_too_long path [] sim0 statics0 _ _ _ _ Hp int_ok_0 eq_refl eq_refl Hl H)
    as (_ & Hh). do 3 eexists. split; [exact H|]. rewrite Hh, Hb. reflexivity.
Defined.

Lemma client_path_inj_witness : 12 = 12 /\ 34 = 34.
Proof.
  assert (0 <= 12 < 2 ^ 31) as Hp by lia. assert (int_ok 34) as Hn by (unfold int_ok; lia).
  exact (client_path_inj 12 34 12 34 Hp Hp Hn Hn eq_refl).
Defined.

(** ** UDP *)

(** The gateway gives its cookie and its interface name. *)
Definition sim_udp : sim :=
  MkSim 0 [bs "COOKIE=0123456789abcdef"; bs "wlan0"] [] [] 0 [] [] [].

Definition udp_path : option bytes := Some (bs "gw:9878").

Lemma udp_path_defined : port_defined udp_path.
Proof. intros path name port [= <-] [= <- <-]. by eexists. Qed.


Lemma udp_open_close_witness :
  exists tr c s' w' tr' w'',
    exec sim_udp statics0 (udp_open true udp_path) tr (Val (Some c)) s' w' /\
    exec w' s' (udp_close c) tr' (Val tt) s' w'' /\ owned [] [] (tr ++ tr') [] [].
Proof.
  run_obs (fun r : sys_trace * outcome (option udp_ctrl) * statics * sim => let '(tr, o, s', w') := r in o)
    (sim_run sim_udp (udp_open true udp_path)) Hobs.
  destruct (sim_run sim_udp _) as [[[[tr o] s'] w']|] eqn:H; [|discriminate Hobs].
  injection Hobs as Ho. apply sim_run_sound in H. rewrite Ho in H.
  destruct (udp_open_close true udp_path _ _ _ _ _ _ (fun _ => udp_path_defined) H)
    as (tr' & w'' & H' & Hc). do 6 eexists. split_and!; [exact H|exact H'|exact Hc].
Defined.

(** A connection whose cookie is [C=1]. *)
Definition udp0 : udp_ctrl :=
  MkUdp 4096 3 (MkSin (htonl LOOPBACK) 9877) (Some (4096, bs "C=1")) None None.

Lemma udp0_cookie cookie : snd <$> u_cookie udp0 = Some cookie -> nul_free cookie.
Proof. intros [= <-]. by repeat constructor. Qed.

Lemma udp_request_spec_witness :
  exists tr reply s' w',
    exec sim1 statics0 (udp_request udp0 (bs "PING") (zeros 16) 16 (Some send_to_erl)) tr
      (Val (0, reply, 5)) s' w' /\
    request_post (bs "C=1 PING") 16 frame tr 0 reply 5.
Proof.
  set (prog := udp_request udp0 (bs "PING") (zeros 16) 16 (Some send_to_erl)).
  run_obs (fun r : sys_trace * outcome (Z * bytes * Z) * statics * sim => let '(tr, o, s', w') := r in o)
    (sim_run sim1 prog) Hobs.
  destruct (sim_run sim1 prog) as [[[[tr o] s'] w']|] eqn:H; [|discriminate Hobs].
  injection Hobs as Ho. apply sim_run_sound in H. rewrite Ho in H. do 4 eexists. split; [exact H|].
  exact (proj2 (udp_request_spec udp0 (Some send_to_erl) frame (bs "PING") (zeros 16) 16
    _ _ _ _ _ _ cap16_ok udp0_cookie H)).
Defined.

(** ** Named pipes *)

(** An environment of the Windows calls: the pipe is busy some times, then it
    opens, and what is read comes from a queue. *)
#[export] Instance win_kernel : Kernel winE (nat * list bytes) := fun X e '(busy, replies) =>
  match e in winE X return X * (nat * list bytes) with
  | WMalloc _ => (Some 4096, (busy, replies))
  | WFree _ => (tt, (busy, replies))
  | CreateFile _ =>
      match busy with
      | O => (7, (O, replies))
      | S n => (INVALID_HANDLE_VALUE, (n, replies))
      end
  | GetLastError => (ERROR_PIPE_BUSY, (busy, replies))
  | WaitNamedPipe _ _ => (true, (busy, replies))
  | SetNamedPipeHandleState _ _ => (true, (busy, replies))
  | CloseHandle _ => (tt, (busy, replies))
  | WriteFile _ d => (Some (Z.of_nat (length d)), (busy, replies))
  | ReadFile _ n =>
      match replies with
      | [] => (None, (busy, replies))
      | d :: l => (Some (take (Z.to_nat n) d), (busy, l))
      end
  | PeekNamedPipe _ => (Some (Z.of_nat (length replies)), (busy, replies))
  end.

#[export] Instance win_laws : WindowsKernel (nat * list bytes).
Proof.
  constructor. intros [busy replies] h n d w' H Hn. destruct replies; [done|].
  injection H as <- _. rewrite length_take. lia.
Qed.

Lemma pipe_request_spec_witness :
  exists tr r reply len w',
    exec (0%nat, [bs "PONG"]) tt (pipe_request (MkPipe 4096 7) (bs "PING") (zeros 16) 16) tr
      (Val (r, reply, len)) tt w' /\ length reply = 16%nat.
Proof.
  destruct (pipe_request_spec (MkPipe 4096 7) (bs "PING") (zeros 16) 16 (0%nat, [bs "PONG"]) tt cap16_ok)
    as (tr & r & reply & len & w' & H & Hl & _). do 5 eexists. split; [exact H|exact Hl].
Defined.

(** A locale in which every byte is a character of the same number. *)
Definition widen_bytes (s : bytes) : option (list Z) := Some (wide s).

Lemma widen_bytes_ok s t :
  nul_free s -> widen_bytes s = Some t -> Forall (fun c => c <> 0) t.
Proof.
  intros Hs [= <-]. induction Hs as [|c s Hc _ IH]; constructor; [|done].
  intros H. apply Hc. by destruct c.
Qed.

Lemma pipe_open_spec_witness :
  exists tr r w', exec (2%nat, []) tt (pipe_open widen_bytes true (Some (bs "wlan0"))) tr (Val r) tt w' /\
    pipe_open_post widen_bytes true (Some (bs "wlan0")) tr r.
Proof.
  assert (forall p, Some (bs "wlan0") = Some p -> nul_free p) as Hp
    by (intros p [= <-]; by repeat constructor).
  exact (pipe_open_spec widen_bytes true (Some (bs "wlan0")) (2%nat, []) tt Hp widen_bytes_ok).
Defined.

(** ** Strings, time and buffers *)

(** Five bytes of room for [wlan0] and its NUL. *)
Lemma os_strlcpy_spec_witness :
  exists dest, os_strlcpy (zeros 6) (bs "wlan0" ++ nul :: []) 5 = Some (dest, 5%nat) /\
    cstr dest = bs "wlan".
Proof.
  destruct (os_strlcpy_spec (zeros 6) (bs "wlan0") [] 5) as (dest & H & _ & _ & Hc).
  - by repeat constructor.
  - by apply Nat.leb_le.
  - exists dest. split; [exact H|]. exact (proj1 (Hc ltac:(discriminate))).
Defined.

Lemma reltime_helpers_witness :
  let a := MkReltime 7 100000 in let b := MkReltime 4 900000 in
  usecs (os_reltime_sub a b) = 2200000 /\ os_reltime_expired a b 2 = true /\
  os_reltime_before a b = false.
Proof.
  intros a b.
  destruct (reltime_helpers a b 2 ltac:(done) ltac:(done)) as (Hb & Hs & _ & He & _).
  rewrite Hb, Hs, He. done.
Defined.

Lemma os_time_helpers_witness :
  let a := MkTime 7 100000 in let b := MkTime 4 900000 in
  t_usecs (os_time_sub a b) = 2200000 /\ os_time_before a b = false.
Proof.
  intros a b. destruct (os_time_helpers a b ltac:(done) ltac:(done)) as (Hb & Hs & _).
  rewrite Hb, Hs. done.
Defined.

(** The [wpabuf_put] of the interface. *)
Definition sim_wpabuf_put (b : wpabuf) (len : Z) : option (wpabuf * Z) :=
  if wb_size b <? wb_used b + len then None
  else Some (set_used (wb_used b + len) b, wb_used b).

#[export] Instance sim_wpabuf_put_ok : WpabufPut sim_wpabuf_put.
Proof.
  unfold sim_wpabuf_put. constructor; intros b len **; destruct (Z.ltb_spec (wb_size b) (wb_used b + len));
    first [done|lia].
Qed.

(** A buffer of eight bytes, two of them in use. *)
Definition wpabuf0 : wpabuf := MkWpabuf 8 2 (Some (bs "ab" ++ zeros 6)) 0.

Lemma wpabuf0_ok : wb_ok wpabuf0.
Proof. split; [done|]. split; [done|]. by eexists. Qed.

Lemma wpabuf_put_spec_witness :
  (exists b, wpabuf_put_be24 sim_wpabuf_put wpabuf0 0x010203 = Some b /\
     wb_data b = bs "ab" ++ [Byte.x01; Byte.x02; Byte.x03]) /\
  wpabuf_put_buf sim_wpabuf_put wpabuf0 wpabuf0 <> None.
Proof.
  assert (0 <= 2 <= Z.of_nat (length (bs "xyz"))) as Hl by (split; by vm_compute).
  assert (nul_free (bs "s")) as Hn by (by repeat constructor).
  destruct (wpabuf_put_spec sim_wpabuf_put wpabuf0 0x010203 (bs "xyz") 2 wpabuf0 (bs "s") []
    wpabuf0_ok wpabuf0_ok Hl Hn) as (_ & _ & _ & _ & H & _ & _ & _ & H2 & _).
  unfold appends in H, H2. rewrite decide_True in H, H2 by (by vm_compute).
  destruct H as (b & H & _ & Hd & _). destruct H2 as (b2 & H2 & _).
  split; [exists b; split; [exact H|rewrite Hd; reflexivity]|by rewrite H2].
Defined.

Lemma wpabuf_build_witness :
  exists b, put_items sim_wpabuf_put wpabuf0 [Be16 0x0102; Text (bs "xy") [nul]; U8 3] = Some b /\
    wb_data b = bs "ab" ++ [Byte.x01; Byte.x02] ++ bs "xy" ++ [Byte.x03].
Proof.
  assert (Forall item_ok [Be16 0x0102; Text (bs "xy") [nul]; U8 3]) as Hi by (repeat constructor; done).
  pose proof (wpabuf_build sim_wpabuf_put wpabuf0 [Be16 0x0102; Text (bs "xy") [nul]; U8 3]
    wpabuf0_ok Hi) as H.
  destruct (put_items _ _ _) as [b|]; [|vm_compute in H; discriminate H].
  destruct H as (_ & Hd & _). exists b. split; [reflexivity|]. rewrite Hd. reflexivity.
Defined.

Lemma wpabuf_read_back_witness :
  exists b, wpabuf_put_le32 sim_wpabuf_put wpabuf0 0x01020304 = Some b /\
    WPA_GET_LE32 (drop 2 (wb_data b)) = Some 0x01020304.
Proof.
  assert (wb_used wpabuf0 + 4 <= wb_size wpabuf0) as Hr by (by vm_compute).
  assert (0 <= 0x01020304 < 2 ^ 32) as Hv by lia.
  exact (proj1 (wpabuf_read_back sim_wpabuf_put wpabuf0 0x01020304 wpabuf0_ok Hr Hv)).
Defined.

Lemma wpabuf_tailroom_spec_witness :
  let b := MkWpabuf 8 3 (Some (bs "abc" ++ zeros 5)) 0 in
  wpabuf_tailroom b = 5 /\ wpabuf_len b = 3.
Proof.
  intros b. assert (appended wpabuf0 (bs "c") b) as Ha.
  { split_and!; [split; [done|]; split; [done|]; by eexists|done..]. }
  destruct (wpabuf_tailroom_spec wpabuf0 (bs "c") b wpabuf0_ok Ha) as (_ & _ & Ht & Hl & _).
  rewrite Ht, Hl. by vm_compute.
Defined.

(** ** Files and processes *)

Lemma os_rel2abs_path_spec_witness :
  exists tr r w', exec sim0 statics0 (os_rel2abs_path (Some (bs "a/b"))) tr (Val r) statics0 w' /\
    rel2abs_post (bs "a/b") tr r.
Proof. exact (os_rel2abs_path_spec (bs "a/b") sim0 statics0). Defined.

Lemma os_readfile_spec_witness :
  exists tr p w', exec file0 statics0 (os_readfile (bs "f") 0) tr (Val (Some (p, bs "this is f"), 9)) statics0 w' /\
    readfile_run (bs "f") 0 tr (Some (p, bs "this is f")) 9.
Proof.
  destruct (os_readfile_spec (fun _ => sim_file) (fun w _ => snd w) (bs "f") 0 file0 statics0)
    as (tr & r & len & w' & H & Hr & _ & Hd).
  run_obs (fun r : sys_trace * outcome (option heap_string * Z) * statics * filesim => let '(_, o, _, _) := r in o)
    (run 200 file0 statics0 (os_readfile (bs "f") 0)) Hobs.
  destruct (run 200 file0 _ _) as [[[[tr1 o1] s1] w1]|] eqn:E; [|discriminate Hobs].
  injection Hobs as Ho. apply run_exec in E. destruct (exec_det _ _ _ _ _ _ _ _ _ _ _ H E) as (-> & Ho' & _ & ->).
  rewrite Ho in Ho'. injection Ho' as Hp Hl. subst r len.
  do 3 eexists. split; [exact H|exact Hr].
Defined.

Lemma os_get_random_spec_witness :
  exists tr r buf w', exec sim0 statics0 (os_get_random (zeros 16) 4) tr (Val (r, buf)) statics0 w' /\
    random_post (zeros 16) 4 tr r buf.
Proof. apply (os_get_random_spec (zeros 16) 4 sim0 statics0). split; by vm_compute. Defined.

Lemma os_daemonize_spec_witness :
  exists tr r w', exec sim0 statics0 (os_daemonize true (Some (bs "pid"))) tr (Val r) statics0 w' /\
    daemonize_post true tr r.
Proof. exact (os_daemonize_spec true (Some (bs "pid")) sim0 statics0). Defined.

(** A product that does not fit [size_t]. *)
Lemma array_sizes_witness :
  exists tr r w', exec sim0 statics0 (os_calloc (2 ^ 32) (2 ^ 32)) tr (Val r) statics0 w' /\
    r = None /\ tr = [].
Proof.
  assert (0 <= 2 ^ 32 < 2 ^ 64) as Hz by lia.
  destruct (array_sizes None (2 ^ 32) (2 ^ 32) sim0 statics0 Hz Hz) as (tr & r & w' & tr2 & r2 & w2 & H & _ & Hr).
  assert ((2 ^ 32 * 2 ^ 32 <? 2 ^ 64) = false) as Hf by (apply Z.ltb_ge; lia).
  rewrite Hf in Hr. destruct Hr as (Hr & Ht & _).
  exists tr, r, w'. split_and!; [exact H|exact Hr|exact Ht].
Defined.

Lemma byte_order_conversions_witness :
  host_bytes LITTLE_ENDIAN 2 (host_to_be16 LITTLE_ENDIAN 0x0102) = [Byte.x01; Byte.x02].
Proof.
  assert (0 <= 0x0102 < 2 ^ 16) as Hv by lia.
  exact (proj1 (proj1 (byte_order_conversions LITTLE_ENDIAN 0x0102) Hv)).
Defined.

(** ** Receiving, dispatching and cleaning up *)

Lemma wpa_ctrl_recv_pending_witness :
  exists a r w', exec sim1 statics0 (wpa_ctrl_pending ctrl0) [Ev (Select 3 0 0) a] (Val r) statics0 w' /\
    (r = 0 <-> a = SOk false).
Proof.
  destruct (wpa_ctrl_recv_pending ctrl0 (zeros 16) 16 sim1 statics0 cap16_ok) as (_ & Hp & _).
  destruct (Hp eq_refl) as (a & r & w' & H & Hr & _). exists a, r, w'. split; [exact H|exact Hr].
Defined.

(** A message that announces 4096 bytes, which no buffer holds. *)
Definition port_long : port :=
  MkPort ctrl0 2 ([Byte.x10; Byte.x00] ++ zeros 2046) (zeros BUFFER_SIZE).

Lemma port_long_ok : port_ok port_long.
Proof. split_and!; by vm_compute. Qed.

Lemma try_dispatch_undispatched_witness :
  exists w', exec sim0 statics0 (try_dispatch port_long) [Ev (Stderr (bs "Message too long")) tt]
    (Exit EXIT_FAILURE) statics0 w'.
Proof.
  apply (proj2 (try_dispatch_undispatched port_long sim0 statics0 port_long_ok)
    Byte.x10 Byte.x00 []); by vm_compute.
Defined.

#[export] Instance sim_dir : FiniteDir sim (fun w => length (entries w)).
Proof.
  constructor; unfold kstep, sim_kernel; cbn.
  - intros w d n w' H. destruct (entries w); [done|]. injection H as _ <-. cbn. lia.
  - by intros w p r w' [= _ <-].
Qed.

(** A directory with a socket of this library and a file of another program. *)
Definition sim_tmp : sim := MkSim 0 [] [] [] 0 [] [] [bs "wpa_ctrl_7-1"; bs "notes.txt"].

Lemma wpa_ctrl_cleanup_spec_witness :
  exists tr w', exec sim_tmp statics0 (wpa_ctrl_cleanup (zeros PATH_MAX)) tr (Val tt) statics0 w' /\
    cleanup_run tr.
Proof.
  assert (length (zeros PATH_MAX) = PATH_MAX) as Hl by apply length_replicate.
  exact (wpa_ctrl_cleanup_spec (zeros PATH_MAX) sim_tmp statics0 Hl).
Defined.
