(* ===== verification/OsWitnesses.v ===== *)
(** * Witnesses for the calendar and the tracing allocator

    The theorems of [OsCal] and [OsTrace] applied to concrete arguments, with a
    list and a [malloc] that satisfy their interfaces. *)

From stdpp Require Import gmap fin_maps.
From S2P Require Import OsCal OsTrace.
Local Open Scope Z_scope.

(** ** Calendar *)

(** Central Europe, with daylight saving time in force all the time from 2^30. *)
Definition cet : zone := MkZone
  (fun t => 3600 + if 2 ^ 30 <=? t then 3600 else 0) (fun t => 2 ^ 30 <=? t)
  (fun r => timegm r - 3600 - if 0 <? tm_isdst r then 3600 else 0).

#[export] Instance cet_fixed : FixedOffset cet 3600 3600.
Proof. by constructor. Qed.

(** The 31st of February is the third of March. *)
Lemma os_mktime_spec_witness :
  os_mktime cet 2014 2 31 12 0 0 7 = (0, instant 2014 3 3 12 0 0).
Proof.
  assert (accepted 2014 2 31 12 0 0) as Ha by (unfold accepted; lia).
  assert (2014 < 2 ^ 31) as Hy by lia.
  rewrite (proj1 (os_mktime_spec cet 3600 3600 2014 2 31 12 0 0 7 Hy) Ha). reflexivity.
Defined.

Lemma os_gmtime_spec_witness :
  exists r, os_gmtime 1400000000 (MkOsTm 0 0 0 0 0 0) = (0, r) /\
    instant (o_year r) (o_month r) (o_day r) (o_hour r) (o_min r) (o_sec r) = 1400000000.
Proof.
  assert (- 2 ^ 31 * 86400 <= 1400000000 < 2 ^ 31 * 86400) as Ht by lia.
  destruct (os_gmtime_spec 1400000000 (MkOsTm 0 0 0 0 0 0) Ht) as (r & H & Hi & _).
  exists r. split; [exact H|exact Hi].
Defined.

Lemma os_mktime_gmtime_witness :
  exists t, os_mktime cet 2016 2 29 23 59 59 0 = (0, t) /\
    os_gmtime t (MkOsTm 0 0 0 0 0 0) = (0, MkOsTm 59 59 23 29 2 2016).
Proof.
  assert (1970 <= 2016 < 2 ^ 31) as Hy by lia.
  assert (valid_date 2016 (2 - 1) 29) as Hv by (split; [lia|split; by vm_compute]).
  assert (valid_time 23 59 59) as Ht by (unfold valid_time; lia).
  exact (os_mktime_gmtime cet 3600 3600 2016 2 29 23 59 59 0 (MkOsTm 0 0 0 0 0 0) Hy Hv Ht).
Defined.

(** ** The allocator *)

#[export] Instance list_dl : DlList (list Z) := {
  dl_list_init := [];
  dl_list_add l a := a :: l;
  dl_list_del l a := filter (fun x => x <> a) l;
  dl_list_items l := l
}.

#[export] Instance list_dl_laws : DlListLaws (list Z).
Proof. by constructor. Qed.

(** Headers of 16 bytes, and memory that is zero at first. *)
Definition hdr0 : nat := 16.

Definition malloc0 (h : gmap Z os_alloc_trace) (n : Z) : option (Z * bytes) :=
  if n <? 0 then None else Some (fresh (dom h), zeros (Z.to_nat n)).

Lemma malloc0_laws : MallocLaws malloc0.
Proof.
  constructor; unfold malloc0; intros h n a mem H; destruct (Z.ltb_spec n 0) as [|Hn]; try done;
    injection H as <- <-.
  - apply not_elem_of_dom, is_fresh.
  - unfold zeros. rewrite length_replicate. lia.
Qed.

(** One block of three bytes. *)
Definition block0 : os_alloc_trace := MkAlloc ALLOC_MAGIC 3 (bs "abc").
Definition tstate0 : tstate (list Z) := MkTstate {[ 64 := block0 ]} [64] [].

Lemma tstate0_wf : wf tstate0.
Proof.
  split; [apply NoDup_singleton|]. split.
  - intros a. cbn. rewrite lookup_singleton_is_Some, list_elem_of_singleton. naive_solver.
  - apply map_Forall_singleton. by split.
Qed.

Lemma block0_lookup : blocks tstate0 !! 64 = Some block0.
Proof. apply lookup_singleton_eq. Qed.

(** The same block with its magic number overwritten. *)
Definition block1 : os_alloc_trace := MkAlloc 7 3 (bs "abc").
Definition tstate1 : tstate (list Z) := MkTstate {[ 64 := block1 ]} [64] [].

Lemma block1_lookup : blocks tstate1 !! 64 = Some block1.
Proof. apply lookup_singleton_eq. Qed.

Lemma fits8 : fits hdr0 8.
Proof. unfold fits, hdr0. lia. Qed.

Lemma trace_alloc_spec_witness :
  runs (os_zalloc hdr0 malloc0 8) tstate0 (alloc_post hdr0 8 (fun d => d = zeros 8) tstate0).
Proof.
  exact (proj1 (proj2 (trace_alloc_spec hdr0 malloc0 (malloc_laws := malloc0_laws)
    8 (bs "s") tstate0 tstate0_wf)) fits8).
Defined.

Lemma trace_free_spec_witness :
  (exists s', os_free hdr0 (Some 80) tstate0 = Ok tt s' /\
    contents s' = delete 64 (contents tstate0) /\ os_free hdr0 (Some 80) s' = Undefined) /\
  stops (os_free hdr0 (Some 80)) tstate1 (bs "os_free") 64 7.
Proof.
  split.
  - destruct (trace_free_spec hdr0 malloc0 64 block0 8 tstate0 block0_lookup) as (_ & H & _).
    specialize (H tstate0_wf). unfold runs in H. change (64 + Z.of_nat hdr0) with 80 in H.
    destruct (os_free _ (Some 80) tstate0) as [[] s'| |]; [|destruct H..].
    destruct H as (_ & Hc & _ & _ & Hd & _). exists s'. split; [done|]. split; [exact Hc|exact Hd].
  - destruct (trace_free_spec hdr0 malloc0 64 block1 8 tstate1 block1_lookup) as (_ & _ & H).
    exact (proj1 (H ltac:(discriminate))).
Defined.

Lemma trace_realloc_spec_witness :
  runs (os_realloc hdr0 malloc0 (Some 80) 8) tstate0 (fun p s' =>
    match p with
    | None => s' = tstate0
    | Some ptr => exists a d, ptr = a + Z.of_nat hdr0 /\
        contents s' = <[a := d]> (delete 64 (contents tstate0)) /\ take 3 d = bs "abc"
    end).
Proof.
  pose proof (trace_realloc_spec hdr0 malloc0 (malloc_laws := malloc0_laws)
    64 block0 8 tstate0 tstate0_wf block0_lookup fits8) as H.
  cbn zeta in H. change (64 + Z.of_nat hdr0) with 80 in H.
  eapply runs_mono; [exact H|]. intros [ptr|] s'; [|done].
  intros (a & d & Hp & _ & Hc & _ & Ht & _). exists a, d. split_and!; [done|exact Hc|exact Ht].
Defined.

Lemma trace_leaks_spec_witness :
  exists l s', l ≡ₚ [(64, block0)] /\ os_program_deinit tstate0 = Ok tt s'.
Proof.
  destruct (trace_leaks_spec tstate0 tstate0_wf) as (l & s' & Hl & H & _).
  exists l, s'. split; [|exact H]. rewrite Hl. unfold tstate0. cbn [blocks]. by rewrite map_to_list_singleton.
Defined.
