(* ===== verification/SimPriv.v ===== *)
(** * Simulated environment variables and credentials

    Two more concrete environments, for the interfaces of OsPriv: a process
    environment that is a finite map, and credentials with the capabilities of
    a process.  The other calls are answered as in SimOs. *)

From S2P Require Export OsPriv SimOs.
Local Open Scope Z_scope.

#[export] Instance environ_kernel : Kernel sysE (gmap bytes bytes) := fun X e w =>
  match e in sysE X return X * gmap bytes bytes with
  | Setenv name value overwrite =>
      if valid_name name then
        (SOk tt, if bool_decide (overwrite = 0) && bool_decide (is_Some (w !! name)) then w
                 else <[name := value]> w)
      else (SErr (EOther 22), w)
  | Unsetenv name => if valid_name name then (SOk tt, delete name w) else (SErr (EOther 22), w)
  | e => (fst (sim_kernel _ e sim0), w)
  end.

#[export] Instance environ_laws : EnvironKernel (gmap bytes bytes) (fun w => w).
Proof.
  constructor; unfold kstep, environ_kernel.
  - intros w name value overwrite r w' H. destruct (valid_name name); injection H as <- <-; eauto.
  - intros w name r w' H. destruct (valid_name name); injection H as <- <-; eauto.
Qed.

Definition sim_attempt (allowed : bool) (c c' : cred) : sres unit * cred :=
  if allowed then (SOk tt, c') else (SErr (EOther 1), c).

#[export] Instance cred_kernel : Kernel sysE cred := fun X e c =>
  match e in sysE X return X * cred with
  | Setgroups gs => sim_attempt (Z.testbit (effective c) CAP_SETGID) c (with_groups gs c)
  | Prctl op b => sim_attempt (bool_decide (op = PR_SET_KEEPCAPS)) c
      (with_keepcaps (negb (bool_decide (b = 0))) c)
  | Setgid g => sim_attempt (Z.testbit (effective c) CAP_SETGID || bool_decide (g = gid c)) c (with_gid g c)
  | Setuid u => sim_attempt (Z.testbit (effective c) CAP_SETUID || bool_decide (u = uid c)) c (with_uid u c)
  | Capset e p i => sim_attempt (included p (permitted c) && included e p &&
      included i (Z.lor (inheritable c) (permitted c))) c (with_caps p e i c)
  | e => (fst (sim_kernel _ e sim0), c)
  end.

Lemma sim_attempt_ok allowed c c' now r : sim_attempt allowed c c' = (r, now) -> attempt allowed c c' now r.
Proof. destruct allowed; intros [= <- <-]; (split; [|done]); [done|by eexists]. Qed.

#[export] Instance cred_laws : CredKernel cred (fun c => c).
Proof. constructor; intros; by apply sim_attempt_ok. Qed.

(** A root process with all capabilities. *)
Definition root : cred := MkCred 0 0 [0] false (2 ^ 38 - 1) (2 ^ 38 - 1) 0.

Lemma program_init_privileges_witness :
  exists tr w', exec root statics0 (android_program_init [3003; 1010; 1017] 1010) tr (Val 0) statics0 w' /\
    w' = MkCred 1010 1010 [3003; 1010; 1017] true 12288 12288 0.
Proof.
  destruct (program_init_privileges (fun c : cred => c) [3003; 1010; 1017] 1010 root statics0)
    as (tr & w' & H & _ & Hr); [discriminate|].
  exists tr, w'. split; [exact H|]. apply Hr; reflexivity.
Defined.
