(* ===== verification/ExWitnesses.v ===== *)
(** * Witnesses for the Elixir library

    A runtime, the examples of the tests under src/test, and the theorems with
    hypotheses applied to concrete commands, reports and runs; among them a run
    of the server together with a run of the port program in SimOs. *)

From S2P Require Export ExClient ExAnswer SimAnswer.
Local Open Scope Z_scope.

(** Erlang/OTP 18: atoms of Latin-1 characters.  Every character below 128 is a
    grapheme of its own, which the laws only say of the printable ones. *)
#[export] Instance otp18 : Runtime := {|
  max_atom_char := 255;
  string_length s := length s;
  to_chars _ := Raise UndefinedError
|}.

#[export] Instance otp18_laws : RuntimeLaws.
Proof. by split. Qed.

(** ** The tests of the library *)

Definition quoted (s : bytes) : bytes := [dquote] ++ s ++ [dquote].

Example encode_tests :
  encode (Tuple [Atom (bs "CTRL-RSP-NEW_PASSWORD"); Int 1; Bin (bs "response text")]) =
    Ok (bs "CTRL-RSP-NEW_PASSWORD-1-response text") /\
  encode (Atom (bs "STATUS-VERBOSE")) = Ok (bs "STATUS-VERBOSE") /\
  encode (Tuple [Atom (bs "SET"); Atom (bs "int_variable"); Int 5]) = Ok (bs "SET int_variable 5") /\
  encode (Tuple [Atom (bs "PREAUTH"); Bin (bs "00:09:5b:95:e0:4e")]) = Ok (bs "PREAUTH 00:09:5b:95:e0:4e") /\
  encode (Tuple [Atom (bs "BSSID"); Int 1; Bin (bs "00:09:5b:95:e0:4e")]) =
    Ok (bs "BSSID 1 00:09:5b:95:e0:4e") /\
  encode (Tuple [Atom (bs "SET_NETWORK"); Int 1; Atom (bs "ssid"); Bin (bs "SSID")]) =
    Ok (bs "SET_NETWORK 1 ssid " ++ quoted (bs "SSID")) /\
  encode (Tuple [Atom (bs "GET_NETWORK"); Int 1; Atom (bs "ssid")]) = Ok (bs "GET_NETWORK 1 ssid").
Proof. by vm_compute. Qed.

Definition lines (l : list bytes) : bytes := concat ((fun s => s ++ [newline]) <$> l).

Example resp_tests :
  resp (Atom (bs "PING")) (bs "PONG  ") = Ok (Atom (bs "PONG")) /\
  resp (Tuple [Atom (bs "BSS"); Int 10])
    (lines [bs "bssid=00:09:5b:95:e0:4e"; bs "capabilities=0x0011"; bs "level=212"; bs "tsf=0000000000000000";
            bs "ie=000b6a"; bs "ssid=jkm private"; bs "flags="]) =
    Ok (Map {[bs "bssid" := Bin (bs "00:09:5b:95:e0:4e"); bs "capabilities" := Int 17; bs "level" := Int 212;
              bs "tsf" := Int 0; bs "ie" := Bin (bs "000b6a"); bs "ssid" := Bin (bs "jkm private");
              bs "flags" := nil_]}) /\
  resp (Tuple [Atom (bs "BSS"); Int 100]) [newline] = Ok nil_ /\
  resp (Atom (bs "INTERFACES")) (lines [bs "wlan0"; bs "eth0"]) = Ok (List [Bin (bs "wlan0"); Bin (bs "eth0")]) /\
  resp (Atom (bs "ADD_NETWORK")) (bs "0") = Ok (Int 0) /\
  resp (Tuple [Atom (bs "SET_NETWORK"); Int 0; Atom (bs "ssid"); Bin (bs "MySSID")]) (bs "FAIL") =
    Ok (Atom (bs "FAIL")) /\
  resp (Tuple [Atom (bs "GET_NETWORK"); Int 0; Atom (bs "ssid")]) (quoted (bs "MySSID")) = Ok (Bin (bs "MySSID")).
Proof. split_and!; by vm_compute. Qed.

Example notif_tests :
  notif (bs "CTRL-REQ-NEW_PASSWORD-1-Human readable text") =
    Ok (Tuple [Atom (bs "CTRL-REQ-NEW_PASSWORD"); Int 1; Bin (bs "Human readable text")]) /\
  notif (bs "CTRL-EVENT-CONNECTED  ") = Ok (Atom (bs "CTRL-EVENT-CONNECTED")) /\
  notif (bs "CTRL-EVENT-DISCONNECTED" ++ [newline]) = Ok (Atom (bs "CTRL-EVENT-DISCONNECTED")) /\
  notif (bs "CTRL-EVENT-EAP-METHOD") = Ok (Atom (bs "CTRL-EVENT-EAP-METHOD")) /\
  notif (bs "CTRL-EVENT-BSS-ADDED 34 00:11:22:33:44:55") =
    Ok (Tuple [Atom (bs "CTRL-EVENT-BSS-ADDED"); Int 34; Bin (bs "00:11:22:33:44:55")]) /\
  notif (bs "WPS-M2D") = Ok (Atom (bs "WPS-M2D")) /\
  notif (bs "AP-STA-DISCONNECTED 02:2a:c4:18:5b:f3") =
    Ok (Tuple [Atom (bs "AP-STA-DISCONNECTED"); Bin (bs "02:2a:c4:18:5b:f3")]).
Proof. split_and!; by vm_compute. Qed.

(** ** Commands, reports and notifications *)

(** Conditions on literals, by computation. *)
Ltac literal := apply (bool_decide_unpack _); by vm_compute.

Lemma ssid_word : word (bs "ssid") /\ (bs "ssid" <> bs "nil").
Proof. by split; [split; [|split; [literal|]]|]. Qed.

Lemma set_network_word : word (bs "SET_NETWORK").
Proof. split; [done|]. split; [literal|done]. Qed.

Definition set_args : list term := [Int 3; Atom (bs "ssid"); Bin (bs "my net")].

Lemma set_args_readable : Forall readable set_args.
Proof.
  repeat constructor; try apply ssid_word; literal.
Qed.

Lemma encode_tokens_witness :
  exists text, encode (Tuple (Atom (bs "SET_NETWORK") :: set_args)) = Ok text /\
    tokens 7 text = [Word (bs "SET_NETWORK"); Word (bs "3"); Word (bs "ssid"); Quoted (bs "my net")].
Proof.
  destruct (encode_tokens (bs "SET_NETWORK") set_args) as (text & He & Ht).
  - exact set_network_word.
  - discriminate.
  - exact set_args_readable.
  - apply Nat.leb_le. reflexivity.
  - exists text. split; [exact He|]. exact (Ht 7%nat (le_n 7)).
Defined.

Definition status_report : list field :=
  [Field (bs "ssid") (bs "my net") (Bin (bs "my net")); Field (bs "id") (bs "0") (Int 0);
   Field (bs "mode") [] nil_; Field (bs "secure") (bs "TRUE") true_;
   Field (bs "capabilities") (bs "0x0431") (Int 1073); Field (bs "note") (bs "0xhello") (Bin (bs "hello"))].

(** Keys whose conditions are decided by computation. *)
Lemma key_literal c k :
  bool_decide (Forall printable (c :: k) /\ (length (c :: k) <= 255)%nat /\ (equals_sign ∉ c :: k)) ->
  graphic c -> key_name (c :: k).
Proof. intros (H1 & H2 & H3)%bool_decide_unpack Hc. repeat split; eauto. Qed.

Lemma status_report_plain : Forall plain_pair status_report.
Proof.
  unfold status_report. rewrite !Forall_cons. split_and!; [split..|constructor];
    try (by apply key_literal; vm_compute); cbn.
  - apply shows_text; try done; try literal. split_and!; [literal|literal|].
    right. by exists (bs "my ne"), Byte.x74.
  - exact (shows_int 0).
  - constructor.
  - constructor.
  - apply (shows_hex (bs "0431")); [done|]. literal.
  - apply (shows_not_hex (bs "hello")); [|by vm_compute]. split_and!; [literal|literal|].
    right. by exists (bs "hell"), Byte.x6f.
Qed.


(** A network whose name has an equals sign, behind an ordinary line. *)
Lemma report_malformed_witness :
  resp (Atom (bs "STATUS")) (lines [bs "id=0"; bs "ssid=a=b"; bs "mode=station"]) = Raise MatchError.
Proof.
  set (s := lines _). assert (report_request (Atom (bs "STATUS"))) as Hr by (right; left; reflexivity).
  assert (strip s <> []) as Hs by (vm_compute; discriminate).
  pose proof (report_malformed (Atom (bs "STATUS")) s Hr Hs) as H.
  assert (head (omap line_error (split_trim newline (strip s))) = Some MatchError) as Hl
    by (vm_compute; reflexivity).
  rewrite Hl in H. exact H.
Defined.

Lemma text_roundtrip_witness :
  resp (Tuple [Atom (bs "GET_NETWORK"); Int 0; Atom (bs "ssid")]) (quoted (bs "OK") ++ [newline]) =
    Ok (Bin (bs "OK")).
Proof.
  apply (text_roundtrip (Tuple [Atom (bs "GET_NETWORK"); Int 0; Atom (bs "ssid")]) (bs "OK") (quoted (bs "OK"))).
  - intros r. reflexivity.
  - left. literal.
  - discriminate.
  - reflexivity.
Defined.

Lemma notif_roundtrip_witness :
  notif (bs "CTRL-REQ-PASSWORD-7-Password for my-net") =
    Ok (Tuple [Atom (bs "CTRL-REQ-PASSWORD"); Int 7; Bin (bs "Password for my-net")]).
Proof.
  apply (notif_roundtrip (CtrlReq (bs "PASSWORD") 7 (bs "Password for my-net"))).
  split; [split; [literal|cbn; lia]|]. split; [discriminate|]. split; [literal|]. by split.
Defined.

(** ** The server *)

Definition server_session : list message :=
  [MCall 1 (Request (Atom (bs "PING"))); MCall 2 (Request (Tuple [Atom (bs "BSS"); Int 0]));
   MData (bs "<3>CTRL-EVENT-SCAN-RESULTS "); MData (bs "PONG" ++ [newline])].

Lemma server_fifo_witness :
  exists es s, serve 9 server_session (server0 5 6) = (es, Running s) /\
    requests s = [(2, Tuple [Atom (bs "BSS"); Int 0])] /\
    exists served, calls server_session = served ++ requests s /\
      Forall3 answers served (responses server_session) (replies es).
Proof.
  destruct (serve 9 server_session (server0 5 6)) as [es n] eqn:H.
  assert (n = Running (MkServer 5 6 [(2, Tuple [Atom (bs "BSS"); Int 0])])) as ->
    by (vm_compute in H; injection H as _ <-; reflexivity).
  eexists es, _. split; [reflexivity|]. split; [reflexivity|].
  exact (proj2 (proj2 (server_fifo 9 5 6 server_session _ _ H))).
Defined.

(** A response that nobody has asked for. *)
Lemma server_stops_witness :
  exists ms1 m ms2 s1, [MData (bs "OK")] = ms1 ++ m :: ms2 /\
    serve 9 ms1 (server0 5 6) = ([], Running s1) /\ stops_at m s1 (Crashed MatchError).
Proof.
  apply (server_stops 9 [MData (bs "OK")] (server0 5 6) [] (Crashed MatchError)); [reflexivity|discriminate].
Defined.

(** ** The whole system

    A schedule of a run of the system around a given run of the port: calls of
    clients, the next action of the port, and deliveries to the server. *)

Inductive move : Type := MoveCall (from : Z) (c : call_request) | MovePort | MoveDeliver.

#[export] Instance supplicant_ok_dec acts d : Decision (supplicant_ok acts d).
Proof. unfold supplicant_ok. apply _. Defined.

Definition running (r : list effect * next_state) : option (list effect * server) :=
  match r with (es, Running s) => Some (es, s) | _ => None end.

(** [rest] are the actions of the port that are to come. *)
Definition make_move (mv : move) (sys : system) (rest : list action) : option (system * list action) :=
  let '(MkSystem srv ms es inp acts out) := sys in
  match mv with
  | MoveCall from c =>
      '(es', srv') ← running (handle 9 (MCall from c) srv);
      if decide (Forall fits16 (payloads es')) then
        Some (MkSystem srv' (ms ++ [MCall from c]) (es ++ es') (inp ++ concat (frame <$> payloads es')) acts out, rest)
      else None
  | MovePort =>
      match rest with
      | [] => None
      | Inp d :: rest => inp ← match_prefix d inp; Some (MkSystem srv ms es inp (acts ++ [Inp d]) out, rest)
      | Out b :: rest => Some (MkSystem srv ms es inp (acts ++ [Out b]) (out ++ [b]), rest)
      | Cmd m :: rest => Some (MkSystem srv ms es inp (acts ++ [Cmd m]) out, rest)
      | Dgram d :: rest =>
          if decide (supplicant_ok acts d) then Some (MkSystem srv ms es inp (acts ++ [Dgram d]) out, rest)
          else None
      end
  | MoveDeliver =>
      '(m, out') ← head_message out;
      '(es', srv') ← running (handle 9 (MData m) srv);
      Some (MkSystem srv' (ms ++ [MData m]) (es ++ es') inp acts out', rest)
  end.

Fixpoint make_moves (mvs : list move) (sys : system) (rest : list action) : option (system * list action) :=
  match mvs with
  | [] => Some (sys, rest)
  | mv :: mvs => '(sys, rest) ← make_move mv sys rest; make_moves mvs sys rest
  end.

Lemma running_some r es s : running r = Some (es, s) -> r = (es, Running s).
Proof. destruct r as [es' []]; cbn; try done. by intros [= <- <-]. Qed.

Section Schedule.
Context (P : list action -> Prop) (all : list action) (HP : forall acts, acts `prefix_of` all -> P acts).

Lemma make_move_sound mv sys rest sys' rest' :
  port_acts sys ++ rest = all -> make_move mv sys rest = Some (sys', rest') ->
  system_step 9 P sys sys' /\ port_acts sys' ++ rest' = all.
Proof.
  destruct sys as [srv ms es inp acts out]. cbn [port_acts]. intros Hall.
  assert (forall a l, rest = a :: l -> P (acts ++ [a]) /\ (acts ++ [a]) ++ l = all) as Ha.
  { intros a l ->. rewrite <- app_assoc. split; [apply HP|done]. exists l. by rewrite <- app_assoc. }
  destruct mv as [from c| |]; cbn [make_move].
  - destruct (running _) as [[es' srv']|] eqn:Hr; [|done]. cbn [mbind option_bind].
    case_decide; [|done]. intros [= <- <-]. split; [|done]. constructor; [by apply running_some|done].
  - destruct rest as [|[d|b|m|d] rest]; [done|..]; destruct (Ha _ _ eq_refl) as [HPa Hl].
    + destruct (match_prefix d inp) as [inp'|] eqn:Hp; [|done]. intros [= <- <-].
      apply match_prefix_spec in Hp as ->. split; [by constructor|done].
    + intros [= <- <-]. split; [by constructor|done].
    + intros [= <- <-]. split; [by constructor|done].
    + case_decide; [|done]. intros [= <- <-]. split; [by constructor|done].
  - destruct (head_message out) as [[m out']|] eqn:Hh; [|done]. cbn [mbind option_bind].
    destruct (running _) as [[es' srv']|] eqn:Hr; [|done]. cbn [mbind option_bind].
    intros [= <- <-]. apply head_message_some in Hh as [-> Hm]. split; [|done].
    constructor; [done|by apply running_some].
Qed.

Lemma make_moves_sound mvs sys rest sys' rest' :
  port_acts sys ++ rest = all -> make_moves mvs sys rest = Some (sys', rest') ->
  rtc (system_step 9 P) sys sys'.
Proof.
  revert sys rest. induction mvs as [|mv mvs IH]; intros sys rest Hall H; [by injection H as <- <-|].
  cbn in H. destruct (make_move mv sys rest) as [[sys1 rest1]|] eqn:H1; [|done].
  destruct (make_move_sound _ _ _ _ _ Hall H1) as [Hs Hall1]. econstructor; [exact Hs|by eapply IH].
Qed.
End Schedule.

(** Two clients, of which the first one's command has been answered. *)
Definition system_schedule : list move :=
  [MoveCall 1 (Request (Atom (bs "PING"))); MoveCall 2 (Request (Atom (bs "STATUS")))] ++
  replicate 16 MovePort ++ [MoveDeliver] ++ replicate 19 MovePort ++ [MoveDeliver; MoveDeliver].

Definition system_run : option (system * list action) :=
  '(tr, _, _, _) ← sim_session 3; make_moves system_schedule (system0 5 6) (actions tr).

Lemma system_run_sound sys rest :
  system_run = Some (sys, rest) -> system_reaches 9 (port_behaviour sim_argv sim0 statics0) 5 6 sys.
Proof.
  unfold system_run. destruct (sim_session 3) as [[[[tr p] w'] s']|] eqn:H; [|done].
  cbn [mbind option_bind]. apply sim_session_sound in H. apply make_moves_sound with (all := actions tr); [|done].
  intros acts Ha. exists tr. split; [exact Ha|]. left. by do 3 eexists.
Qed.

Lemma system_replies_witness :
  exists sys, system_reaches 9 (port_behaviour sim_argv sim0 statics0) 5 6 sys /\
    replies (effects sys) = [(1, Atom (bs "PONG"))] /\ length (events (effects sys)) = 2%nat /\
    exists served, calls (handled sys) = served ++ requests (server_of sys) /\
      Forall3 replied served (take (length served) (tail (exchanges (port_acts sys)).2)) (replies (effects sys)).
Proof.
  assert (option_map (fun '(sys, rest) => (replies (effects sys), length (events (effects sys)))) system_run =
    Some ([(1, Atom (bs "PONG"))], 2%nat)) as Ho by (vm_compute; reflexivity).
  destruct system_run as [[sys rest]|] eqn:H; [|discriminate Ho]. injection Ho as Hr He.
  apply system_run_sound in H. exists sys. split; [exact H|]. split; [exact Hr|]. split; [exact He|].
  exact (proj1 (system_replies 9 sim_argv sim0 statics0 5 6 sys sim_argv_ok H)).
Defined.

(** ** A session

    Two clients and the supplicant of SimAnswer, with an event before each reply and two
    interrupted writes. *)
Definition desk_requests : list (Z * term) := [(1, Atom (bs "PING")); (2, Atom (bs "SCAN"))].
Definition desk_commands : list bytes := [bs "PING"; bs "SCAN"].
Definition desk1 : desk := MkDesk [] (concat (frame <$> desk_commands)) 2.

Definition dgram_ok (acts : list action) (a : action) : Prop :=
  match a with Dgram d => supplicant_ok acts d | _ => True end.

#[export] Instance notification_decodes_dec m : Decision (notification_decodes m).
Proof. unfold notification_decodes. destruct (match_notification m); apply _. Defined.

#[export] Instance decodable_dec reqs acts : Decision (decodable reqs acts).
Proof. unfold decodable, answer_decodes. apply _. Defined.

#[export] Instance dgram_ok_dec acts a : Decision (dgram_ok acts a).
Proof. unfold dgram_ok. destruct a; apply _. Defined.

(** Every initial part of a run meets the assumptions about the supplicant. *)
Definition run_ok (reqs : list (Z * term)) (all : list action) : Prop :=
  Forall (fun n => decodable reqs (take n all) /\
    match all !! n with Some a => dgram_ok (take n all) a | None => True end) (seq 0 (S (length all))).

#[export] Instance run_ok_dec reqs all : Decision (run_ok reqs all).
Proof.
  apply Forall_dec. intros n. apply and_dec; [apply _|]. destruct (all !! n); apply _.
Defined.

Lemma run_ok_prefix reqs all acts :
  run_ok reqs all -> acts `prefix_of` all ->
  decodable reqs acts /\ forall acts0 d, acts = acts0 ++ [Dgram d] -> supplicant_ok acts0 d.
Proof.
  intros Hr [rest Ha]. unfold run_ok in Hr. rewrite Forall_forall in Hr.
  assert (forall n, (n <= length all)%nat -> n ∈ seq 0 (S (length all))) as Hin
    by (intros n Hn; apply elem_of_seq; lia). split.
  - destruct (Hr (length acts)) as [Hd _]; [apply Hin; rewrite Ha, length_app; lia|].
    by rewrite Ha, take_app_length in Hd.
  - intros acts0 d ->. destruct (Hr (length acts0)) as [_ Hd]; [apply Hin; rewrite Ha, !length_app; lia|].
    rewrite <- app_assoc in Ha. cbn [app] in Ha.
    by rewrite Ha, list_lookup_middle, take_app_length in Hd by done.
Qed.

Definition desk_run : option (list action) :=
  match run 1000 desk1 statics0 (main sim_argv) with
  | Some (tr, Exit 0, _, _) => Some (actions tr)
  | _ => None
  end.

Lemma desk_run_sound all :
  desk_run = Some all -> forall acts, port_behaviour sim_argv desk1 statics0 acts <-> acts `prefix_of` all.
Proof.
  unfold desk_run. destruct (run 1000 desk1 statics0 (main sim_argv)) as [[[[tr [x|z|]] s'] w']|] eqn:H; [done| |done..].
  destruct z; [|done..]. intros [= <-] acts. apply run_exec in H. by eapply port_behaviour_prefix.
Qed.


(** ** A scan

    A server that answers SCAN, an event that arrives before the results, and
    two access points. *)
#[export] Instance scan_kernel : Kernel clientE (list stream_item) := fun X e w =>
  match e in clientE X return X * list stream_item with
  | GetManager => (Some 6, w)
  | CallServer (Tuple [_; Int n]) => (Some (if n <? 2 then Map {[bs "id" := Int n]} else nil_), w)
  | CallServer _ => (Some ok_, w)
  | NextEvent _ => match w with [] => (StreamTimeout, []) | i :: w => (i, w) end
  end.

#[export] Instance scan_finite : FiniteScan (W := list stream_item).
Proof.
  refine {| events_left := length; known_bss := 2 |}.
  - intros [|i w] m t w' [= -> <-]. cbn. lia.
  - intros w n v w' Hn H. unfold kstep, scan_kernel in H. rewrite (proj2 (Z.ltb_ge _ _)) in H by done.
    by injection H as <- <-.
Defined.

Definition scan_started_event : term :=
  Tuple [Atom (bs "wpa_supplicant"); Pid 9; Atom (bs "CTRL-EVENT-SCAN-STARTED")].

(** The scan does not wait for the results, which are still to come. *)
Definition access_points : term := List [Map {[bs "id" := Int 1]}; Map {[bs "id" := Int 0]}].

Lemma scan_spec_witness :
  exists tr, exec [StreamEvent scan_started_event; StreamEvent (scan_results 9)] tt (scan 9) tr
      (Val access_points) tt [StreamEvent (scan_results 9)] /\
    scanned 9 tr access_points.
Proof.
  set (w := [StreamEvent scan_started_event; StreamEvent (scan_results 9)]).
  assert (option_map (fun r : client_trace * outcome term * unit * list stream_item =>
      let '(_, o, _, w') := r in (o, w')) (run 100 w tt (scan 9)) =
    Some (Val access_points, [StreamEvent (scan_results 9)])) as Ho by (vm_compute; reflexivity).
  destruct (run 100 w tt (scan 9)) as [[[[tr o] []] w']|] eqn:H; [|discriminate Ho].
  injection Ho as -> ->. apply run_exec in H. exists tr. split; [exact H|].
  exact (scan_spec 9 w tt tr _ _ _ H).
Defined.
